(** * Instance trackers with durable restoration

    A shallow embedding of [packages/apputils/src/instancetracker.ts]: the
    two tracker classes [InstanceTracker] and [WidgetTracker], their
    attached properties, and the restoration protocol they share.

    JavaScript runs the tracker on one thread.  An [async] method executes
    synchronously up to its first [await]; what follows the [await] runs
    later, once the awaited promise has settled.  Every method is therefore
    embedded as one function per synchronous segment: the first segment
    returns either the settled result of the call or the point at which the
    call is suspended, and a resumption function continues from there with
    the outcome supplied by the collaborator.  Calls made to the
    collaborators (state database, command registry) and the signals
    emitted are recorded, in order, in a log. *)

From stdpp Require Import gmap strings list.

Set Default Proof Using "Type".

(** ** Values exchanged with the collaborators *)

(** Tracked objects are compared by reference ([===], [Set.has]); an object
    is represented by its identity. *)
Definition obj := nat.

(** JSON values ([ReadonlyJSONValue]).  Numbers are kept as integers: the
    tracker only ever tests them for truthiness.  An object is the list of
    its fields. *)
#[warnings="-register-all"]
Inductive json :=
| JNull
| JBool (b : bool)
| JNum (n : Z)
| JStr (s : string)
| JArr (items : list json)
| JObj (fields : list (string * json)).

(** A JavaScript value that may be [undefined]: [None] is [undefined]. *)
Definition value := option json.

(** Truthiness of a JSON value, as tested by [&&]. *)
Definition truthy (v : json) : bool :=
  match v with
  | JNull => false
  | JBool b => b
  | JNum n => negb (Z.eqb n 0)
  | JStr s => negb (String.eqb s "")
  | JArr _ => true
  | JObj _ => true
  end.

Fixpoint get_field (k : string) (fields : list (string * json)) : value :=
  match fields with
  | [] => None
  | (k', v) :: rest => if String.eqb k k' then Some v else get_field k rest
  end.

(** Property access [v.k] on a truthy value: a field of an object, and
    [undefined] on a primitive or an array. *)
Definition property (k : string) (v : json) : value :=
  match v with
  | JObj fields => get_field k fields
  | _ => None
  end.

(** The outcome of a promise once it has settled. *)
Inductive error :=
| DisposedInput     (* add: the object is already disposed *)
| DuplicateMember   (* add: the object is already in the tracker *)
| AlreadyRestored   (* restore: 'Instance tracker has already restored' *)
| TypeError         (* property read on null *)
| External.         (* a collaborator's promise rejected *)

Inductive settled (A : Type) :=
| Resolved (a : A)
| Rejected (e : error).
Arguments Resolved {A} a.
Arguments Rejected {A} e.

(** [Promise.all]: the list of the results when every promise resolves, and
    a rejection as soon as one of them rejects. *)
Fixpoint promise_all {A : Type} (ps : list (settled A)) : settled (list A) :=
  match ps with
  | [] => Resolved []
  | Rejected e :: _ => Rejected e
  | Resolved a :: rest =>
      match promise_all rest with
      | Resolved l => Resolved (a :: l)
      | Rejected e => Rejected e
      end
  end.

(** What [IStateDB.list] resolves with. *)
Record saved := { ids : list string; values : list value }.

(** The log: signals emitted by a tracker and calls made to its
    collaborators.  [Added] and [Updated] are [added]/[updated] on
    [InstanceTracker] and [widgetAdded]/[widgetUpdated] on [WidgetTracker];
    [Restored_resolve] is [this._restored.resolve()]. *)
Inductive event :=
| Added (o : obj)
| CurrentChanged (v : option obj)
| Updated (o : obj)
| State_list (ns : string)
| State_save (id : string) (v : json)
| State_remove (id : string)
| Registry_execute (command : string) (args : json)
| Restored_resolve.

(** Modelled from the spec: the state database ([IStateDB], imported from
    [@jupyterlab/coreutils]) is not among these sources.  The spec gives its
    contract: [save(id, value)] stores the value under the id, [remove(id)]
    deletes the record and tolerates an id that is not there, and the calls
    take effect in the order in which they were made.  [apply_call] is the
    effect of one logged call on the records, [database_after] that of a
    log. *)
Definition apply_call (db : gmap string json) (e : event) : gmap string json :=
  match e with
  | State_save id v => <[id := v]> db
  | State_remove id => delete id db
  | _ => db
  end.

Definition database_after (l : list event) (db : gmap string json)
    : gmap string json :=
  foldl apply_call db l.

(** The restoration options ([InstanceTracker.IRestoreOptions]).  The
    command registry is represented by what [registry.execute] settles
    with.  The state database [state] and the promises [when] are
    collaborators outside the tracker: calls to the database are logged,
    and the outcome of each awaited promise is supplied when the suspended
    call is resumed. *)
Record IRestoreOptions := {
  command : string;
  args : obj → json;
  name : obj → string;
  registry : string → json → settled value
}.

(** ** The restoration callback

    The function mapped over [saved.ids] is the same in both classes
    (lines 350-360 and 751-760). *)

(** [const args = value && (value as any).data]. *)
Definition restore_args (v : value) : value :=
  match v with
  | None => None
  | Some j => if truthy j then property "data" j else Some j
  end.

(** [saved.values[index]]; reading past the end gives [undefined]. *)
Definition value_at (sv : saved) (index : nat) : value :=
  match values sv !! index with
  | Some v => v
  | None => None
  end.

(** The call a record gives rise to when the callback runs:
    [state.remove(id)] when [args === undefined], otherwise
    [registry.execute(command, args)]. *)
Definition replay_call (options : IRestoreOptions) (id : string) (v : value) : event :=
  match restore_args v with
  | None => State_remove id
  | Some a => Registry_execute (command options) a
  end.

(** What happens for a record once its call has settled: the handler given
    to [.catch] calls [state.remove(id)] when the command was rejected.
    [rm id] is what [state.remove(id)] settles with. *)
Definition replay_catch (options : IRestoreOptions) (id : string) (v : value) : list event :=
  match restore_args v with
  | None => []
  | Some a =>
      match registry options (command options) a with
      | Resolved _ => []
      | Rejected _ => [State_remove id]
      end
  end.

Definition void {A : Type} (r : settled A) : settled value :=
  match r with
  | Resolved _ => Resolved None
  | Rejected e => Rejected e
  end.

(** The promise the callback returns for a record. *)
Definition replay_promise (options : IRestoreOptions) (rm : string → settled ())
    (id : string) (v : value) : settled value :=
  match restore_args v with
  | None => void (rm id)
  | Some a =>
      match registry options (command options) a with
      | Resolved r => Resolved r
      | Rejected _ => void (rm id)
      end
  end.

Definition replay_calls (options : IRestoreOptions) (sv : saved) : list event :=
  imap (λ index id, replay_call options id (value_at sv index)) (ids sv).

(** The removals asked for by the [catch] handlers.  In the code each
    handler runs when its own command is rejected, at a moment the command
    registry decides.  The log lists them in the order of the records and
    in one batch, when the records' promises have all settled: their order
    among themselves and with what else happens meanwhile is a convention
    of the log.  What is said of one record is said of [replay_catch]. *)
Definition replay_catches (options : IRestoreOptions) (sv : saved) : list event :=
  concat (imap (λ index id, replay_catch options id (value_at sv index)) (ids sv)).

Definition replay_promises (options : IRestoreOptions) (rm : string → settled ())
    (sv : saved) : list (settled value) :=
  imap (λ index id, replay_promise options rm id (value_at sv index)) (ids sv).

(** ** Suspended calls *)

(** What a settled call returns: nothing ([Promise<void>]) or, for
    [restore], the array of the records' results. *)
Inductive completion :=
| Void
| Values (l : list value).

(** The result of running one synchronous segment of a call: the call has
    settled, or it is suspended at an [await]. *)
Inductive next (K : Type) :=
| Return (r : settled completion)
| Await (k : K).
Arguments Return {K} r.
Arguments Await {K} k.

(** What a resumed call receives. *)
Inductive input :=
| Settle (r : settled ())               (* state.save / state.remove settled *)
| Listed (r : settled saved)            (* Promise.all(promises) settled *)
| Removed (rm : string → settled ()).   (* every record's promise settled *)

(** How many events of a log satisfy a test. *)
Definition count_events (p : event → bool) (l : list event) : nat :=
  length (List.filter p l).

Definition is_resolve (e : event) : bool :=
  match e with Restored_resolve => true | _ => false end.

Definition is_updated (o : obj) (e : event) : bool :=
  match e with Updated o' => Nat.eqb o o' | _ => false end.

Definition is_added (o : obj) (e : event) : bool :=
  match e with Added o' => Nat.eqb o o' | _ => false end.

Definition is_store_write (e : event) : bool :=
  match e with State_save _ _ => true | _ => false end.


(** ** [class InstanceTracker] *)

Module InstanceTracker.

(** The fields of the tracker, together with the part of the world its
    methods read: the attached properties [Private.injectedProperty] and
    [Private.nameProperty] (side tables keyed by object, with defaults
    [false] and ['']), which objects are disposed ([obj.isDisposed]), and
    for which objects [_onInstanceDisposed] is connected to the [disposed]
    signal. *)
Record state := mkState {
  namespace : string;
  _instances : list obj;               (* a Set, in insertion order *)
  _current : option obj;
  _hasRestored : bool;
  _restore : option IRestoreOptions;
  injectedProperty : gset obj;
  nameProperty : gmap obj string;
  isDisposed : gset obj;
  connected : gset obj;
  log : list event
}.

(** Suspension points of the asynchronous methods. *)
Inductive pending :=
| Add_save (o : obj)
    (* add, at [await state.save(name, { data })] *)
| Save_remove (o : obj) (oldName newName : string)
    (* save, at [await state.remove(oldName)] *)
| Save_save (o : obj) (oldName newName : string)
    (* save, at [await state.save(newName, { data })] *)
| Restore_list (options : IRestoreOptions)
    (* restore, at [await Promise.all(promises)] *)
| Restore_replay (options : IRestoreOptions) (sv : saved).
    (* restore, at [await Promise.all(saved.ids.map(...))] *)

(** The tracker just constructed, in a world where some objects may
    already be flagged, named or disposed. *)
Definition create (ns : string) (injected : gset obj) (names : gmap obj string)
    (disposed : gset obj) : state :=
  {| namespace := ns; _instances := []; _current := None;
     _hasRestored := false; _restore := None;
     injectedProperty := injected; nameProperty := names;
     isDisposed := disposed; connected := ∅; log := [] |}.

Definition with_instances (l : list obj) (s : state) : state :=
  {| namespace := namespace s; _instances := l; _current := _current s;
     _hasRestored := _hasRestored s; _restore := _restore s;
     injectedProperty := injectedProperty s; nameProperty := nameProperty s;
     isDisposed := isDisposed s; connected := connected s; log := log s |}.

Definition with_current (v : option obj) (s : state) : state :=
  {| namespace := namespace s; _instances := _instances s; _current := v;
     _hasRestored := _hasRestored s; _restore := _restore s;
     injectedProperty := injectedProperty s; nameProperty := nameProperty s;
     isDisposed := isDisposed s; connected := connected s; log := log s |}.

Definition with_hasRestored (b : bool) (s : state) : state :=
  {| namespace := namespace s; _instances := _instances s; _current := _current s;
     _hasRestored := b; _restore := _restore s;
     injectedProperty := injectedProperty s; nameProperty := nameProperty s;
     isDisposed := isDisposed s; connected := connected s; log := log s |}.

Definition with_restore (options : IRestoreOptions) (s : state) : state :=
  {| namespace := namespace s; _instances := _instances s; _current := _current s;
     _hasRestored := _hasRestored s; _restore := Some options;
     injectedProperty := injectedProperty s; nameProperty := nameProperty s;
     isDisposed := isDisposed s; connected := connected s; log := log s |}.

Definition with_injected (o : obj) (s : state) : state :=
  {| namespace := namespace s; _instances := _instances s; _current := _current s;
     _hasRestored := _hasRestored s; _restore := _restore s;
     injectedProperty := {[o]} ∪ injectedProperty s; nameProperty := nameProperty s;
     isDisposed := isDisposed s; connected := connected s; log := log s |}.

Definition with_name (o : obj) (n : string) (s : state) : state :=
  {| namespace := namespace s; _instances := _instances s; _current := _current s;
     _hasRestored := _hasRestored s; _restore := _restore s;
     injectedProperty := injectedProperty s; nameProperty := <[o := n]> (nameProperty s);
     isDisposed := isDisposed s; connected := connected s; log := log s |}.

Definition with_disposed (o : obj) (s : state) : state :=
  {| namespace := namespace s; _instances := _instances s; _current := _current s;
     _hasRestored := _hasRestored s; _restore := _restore s;
     injectedProperty := injectedProperty s; nameProperty := nameProperty s;
     isDisposed := {[o]} ∪ isDisposed s; connected := connected s; log := log s |}.

Definition connect (o : obj) (s : state) : state :=
  {| namespace := namespace s; _instances := _instances s; _current := _current s;
     _hasRestored := _hasRestored s; _restore := _restore s;
     injectedProperty := injectedProperty s; nameProperty := nameProperty s;
     isDisposed := isDisposed s; connected := {[o]} ∪ connected s; log := log s |}.

Definition emit (e : event) (s : state) : state :=
  {| namespace := namespace s; _instances := _instances s; _current := _current s;
     _hasRestored := _hasRestored s; _restore := _restore s;
     injectedProperty := injectedProperty s; nameProperty := nameProperty s;
     isDisposed := isDisposed s; connected := connected s; log := log s ++ [e] |}.

Definition emit_all (es : list event) (s : state) : state :=
  {| namespace := namespace s; _instances := _instances s; _current := _current s;
     _hasRestored := _hasRestored s; _restore := _restore s;
     injectedProperty := injectedProperty s; nameProperty := nameProperty s;
     isDisposed := isDisposed s; connected := connected s; log := log s ++ es |}.

(** [Private.injectedProperty.get(obj)] and [Private.nameProperty.get(obj)]. *)
Definition injected (o : obj) (s : state) : bool :=
  bool_decide (o ∈ injectedProperty s).

Definition name_of (o : obj) (s : state) : string :=
  default "" (nameProperty s !! o).

(** [has(obj)] and [size]. *)
Definition has (o : obj) (s : state) : bool :=
  bool_decide (o ∈ _instances s).

Definition size (s : state) : nat := length (_instances s).

(** [set current(obj)].  The hook [onCurrentChanged] is a no-op. *)
Definition set_current (v : option obj) (s : state) : state :=
  if decide (_current s = v) then s
  else emit (CurrentChanged v) (with_current v s).

(** The key of a record: [`${this.namespace}:${objName}`]. *)
Definition key (s : state) (objName : string) : string :=
  namespace s +:+ ":" +:+ objName.

(** [add], from the test of [this.current] to the end (lines 232-238). *)
Definition add_finish (o : obj) (s : state) : state :=
  let s := if decide (_current s = None) then set_current (Some o) s else s in
  emit (Added o) s.

(** [add(obj)], up to [await state.save(name, { data })]. *)
Definition add (o : obj) (s : state) : state * next pending :=
  if decide (o ∈ isDisposed s) then (s, Return (Rejected DisposedInput))
  else if has o s then (s, Return (Rejected DuplicateMember))
  else
    let s := with_instances (_instances s ++ [o]) s in
    if injected o s then (s, Return (Resolved Void))
    else
      let s := connect o s in
      match _restore s with
      | Some r =>
          let objName := name r o in
          if String.eqb objName "" then (add_finish o s, Return (Resolved Void))
          else
            let nm := key s objName in
            let data := args r o in
            let s := with_name o nm s in
            let s := emit (State_save nm (JObj [("data", data)])) s in
            (s, Await (Add_save o))
      | None => (add_finish o s, Return (Resolved Void))
      end.

(** [add], resumed when [state.save] has settled. *)
Definition add_resume (o : obj) (r : settled ()) (s : state) : state * next pending :=
  match r with
  | Rejected e => (s, Return (Rejected e))
  | Resolved _ => (add_finish o s, Return (Resolved Void))
  end.

(** [inject(obj)]. *)
Definition inject (o : obj) (s : state) : state * next pending :=
  add o (with_injected o s).

(** [save], from the test of [oldName !== newName] to the end. *)
Definition save_finish (o : obj) (oldName newName : string) (s : state)
    : state * next pending :=
  (if String.eqb oldName newName then s else emit (Updated o) s,
   Return (Resolved Void)).

(** [save], from [Private.nameProperty.set(obj, newName)] to
    [await state.save(newName, { data })]. *)
Definition save_name (o : obj) (oldName newName : string) (s : state)
    : state * next pending :=
  let s := with_name o newName s in
  if String.eqb newName "" then save_finish o oldName newName s
  else
    match _restore s with
    | Some r =>
        let data := args r o in
        (emit (State_save newName (JObj [("data", data)])) s,
         Await (Save_save o oldName newName))
    | None => (s, Return (Rejected TypeError))
    end.

(** [save(obj)], up to [await state.remove(oldName)]. *)
Definition save (o : obj) (s : state) : state * next pending :=
  let inj := injected o s in
  match _restore s with
  | None => (s, Return (Resolved Void))
  | Some r =>
      if negb (has o s) || inj then (s, Return (Resolved Void))
      else
        let objName := name r o in
        let oldName := name_of o s in
        let newName := if String.eqb objName "" then "" else key s objName in
        if negb (String.eqb oldName "") && negb (String.eqb oldName newName)
        then (emit (State_remove oldName) s, Await (Save_remove o oldName newName))
        else save_name o oldName newName s
  end.

Definition save_resume_remove (o : obj) (oldName newName : string)
    (r : settled ()) (s : state) : state * next pending :=
  match r with
  | Rejected e => (s, Return (Rejected e))
  | Resolved _ => save_name o oldName newName s
  end.

Definition save_resume_save (o : obj) (oldName newName : string)
    (r : settled ()) (s : state) : state * next pending :=
  match r with
  | Rejected e => (s, Return (Rejected e))
  | Resolved _ => save_finish o oldName newName s
  end.

(** [restore(options)], up to [await Promise.all(promises)]. *)
Definition restore (options : IRestoreOptions) (s : state) : state * next pending :=
  if _hasRestored s then (s, Return (Rejected AlreadyRestored))
  else
    let s := with_hasRestored true s in
    let s := emit (State_list (namespace s)) s in
    let s := with_restore options s in
    (s, Await (Restore_list options)).

(** [restore], resumed with [saved] when the listing and the promises of
    [when] have settled: the callback runs for every id. *)
Definition restore_resume_list (options : IRestoreOptions) (r : settled saved)
    (s : state) : state * next pending :=
  match r with
  | Rejected e => (s, Return (Rejected e))
  | Resolved sv =>
      (emit_all (replay_calls options sv) s, Await (Restore_replay options sv))
  end.

(** [restore], once the records' promises have settled: the [catch]
    handlers have run, and [this._restored.resolve()] follows when no
    promise was rejected. *)
Definition restore_resume_replay (options : IRestoreOptions) (sv : saved)
    (rm : string → settled ()) (s : state) : state * next pending :=
  let s := emit_all (replay_catches options sv) s in
  match promise_all (replay_promises options rm sv) with
  | Rejected e => (s, Return (Rejected e))
  | Resolved vals => (emit Restored_resolve s, Return (Resolved (Values vals)))
  end.

(** [_onInstanceDisposed(obj)]. *)
Definition _onInstanceDisposed (o : obj) (s : state) : state :=
  let s := with_instances (filter (λ x, x ≠ o) (_instances s)) s in
  if injected o s then s
  else
    let s := if decide (_current s = Some o)
             then emit (CurrentChanged None) (with_current None s)
             else s in
    match _restore s with
    | None => s
    | Some _ =>
        let nm := name_of o s in
        if String.eqb nm "" then s else emit (State_remove nm) s
    end.

(** An object is disposed: it reports itself disposed from then on, and its
    [disposed] signal invokes the handler if the tracker connected it.
    The objects of an [InstanceTracker] are any [IObservableDisposable],
    and what else their disposal does is their own affair: this is the
    disposal of an object that leaves its attached properties and its
    connections as they are.  The disposal of an object that is a
    [Widget], which clears them, is [InstanceTrackerMore.dispose_widget]. *)
Definition dispose_object (o : obj) (s : state) : state :=
  let s := with_disposed o s in
  if decide (o ∈ connected s) then _onInstanceDisposed o s else s.

(** *** Running calls

    [resume] continues a suspended call with what it was waiting for. *)
Definition resume (k : pending) (i : input) (s : state) : option (state * next pending) :=
  match k, i with
  | Add_save o, Settle r => Some (add_resume o r s)
  | Save_remove o oldName newName, Settle r => Some (save_resume_remove o oldName newName r s)
  | Save_save o oldName newName, Settle r => Some (save_resume_save o oldName newName r s)
  | Restore_list options, Listed r => Some (restore_resume_list options r s)
  | Restore_replay options sv, Removed rm => Some (restore_resume_replay options sv rm s)
  | _, _ => None
  end.

(** A call run to its end with nothing else happening in between;
    [env] gives the collaborators' answer at each suspension.  No method
    suspends more than twice. *)
Definition continue (env : pending → input) (p : state * next pending)
    : state * next pending :=
  match p with
  | (s, Await k) => default p (resume k (env k) s)
  | _ => p
  end.

Definition complete (env : pending → input) (p : state * next pending)
    : state * next pending :=
  continue env (continue env p).

(** The collaborators' answers during a restoration: the listing resolves
    with [sv], and [rm] tells how each removal settles. *)
Definition restoring (sv : saved) (rm : string → settled ()) (k : pending) : input :=
  match k with
  | Restore_list _ => Listed (Resolved sv)
  | Restore_replay _ _ => Removed rm
  | _ => Settle (Resolved ())
  end.

(** The state database completes every operation. *)
Definition storing (k : pending) : input := Settle (Resolved ()).

(** The tracker with its suspended calls.  Between two synchronous
    segments anything may happen: a new call, the resumption of any
    suspended call, a write to [current], the disposal of an object. *)
Record system := { tracker : state; tasks : list pending }.

Inductive action :=
| Call_add (o : obj)
| Call_inject (o : obj)
| Call_save (o : obj)
| Call_restore (options : IRestoreOptions)
| Write_current (v : option obj)
| Dispose (o : obj)
| Resume (i : nat) (inp : input).

Definition spawn (ts : list pending) (p : state * next pending) : system :=
  match p with
  | (s, Return _) => {| tracker := s; tasks := ts |}
  | (s, Await k) => {| tracker := s; tasks := ts ++ [k] |}
  end.

Definition exec (a : action) (sys : system) : option system :=
  let s := tracker sys in
  let ts := tasks sys in
  match a with
  | Call_add o => Some (spawn ts (add o s))
  | Call_inject o => Some (spawn ts (inject o s))
  | Call_save o => Some (spawn ts (save o s))
  | Call_restore options => Some (spawn ts (restore options s))
  | Write_current v => Some {| tracker := set_current v s; tasks := ts |}
  | Dispose o => Some {| tracker := dispose_object o s; tasks := ts |}
  | Resume i inp =>
      match ts !! i with
      | Some k => spawn (delete i ts) <$> resume k inp s
      | None => None
      end
  end.

Fixpoint run (acts : list action) (sys : system) : option system :=
  match acts with
  | [] => Some sys
  | a :: rest =>
      match exec a sys with
      | Some sys' => run rest sys'
      | None => None
      end
  end.

Definition start (s : state) : system := {| tracker := s; tasks := [] |}.

End InstanceTracker.

(** ** The focus tracker used by [WidgetTracker]

    [FocusTracker] belongs to [@phosphor/widgets].  It is represented by
    the part of its interface [WidgetTracker] reads: the sequence
    [widgets] and [currentWidget].  Which widget holds the focus is decided
    outside the tracker, and is an input wherever it matters. *)

Module FocusTracker.

Record t := { widgets : list obj; currentWidget : option obj }.

Definition empty : t := {| widgets := []; currentWidget := None |}.

Definition has (w : obj) (ft : t) : bool := bool_decide (w ∈ widgets ft).

(** [add(widget)]: a no-op on a widget already tracked; a widget that holds
    the focus when it is added becomes [currentWidget]. *)
Definition add (focused : bool) (w : obj) (ft : t) : t :=
  if has w ft then ft
  else {| widgets := widgets ft ++ [w];
          currentWidget := if focused then Some w else currentWidget ft |}.

Definition focus (v : option obj) (ft : t) : t :=
  {| widgets := widgets ft; currentWidget := v |}.

(** A tracked widget is disposed: it leaves [widgets], and if it was
    [currentWidget] the widget focused before it ([previous], possibly
    none) takes its place. *)
Definition remove (previous : option obj) (w : obj) (ft : t) : t :=
  if has w ft then
    {| widgets := filter (λ x, x ≠ w) (widgets ft);
       currentWidget := if decide (currentWidget ft = Some w) then previous
                        else currentWidget ft |}
  else ft.

End FocusTracker.

(** [ArrayExt.removeFirstOf(array, value)]. *)
Fixpoint removeFirstOf (l : list obj) (w : obj) : list obj :=
  match l with
  | [] => []
  | x :: rest => if decide (x = w) then rest else x :: removeFirstOf rest w
  end.

(** [a || b] on object references. *)
Definition or_else (a b : option obj) : option obj :=
  match a with
  | Some x => Some x
  | None => b
  end.

(** ** [class WidgetTracker] *)

Module WidgetTracker.

Record state := mkState {
  namespace : string;
  _tracker : FocusTracker.t;
  _widgets : list obj;
  _currentWidget : option obj;
  _hasRestored : bool;
  _restore : option IRestoreOptions;
  injectedProperty : gset obj;
  nameProperty : gmap obj string;
  isDisposed : gset obj;
  connected : gset obj;                (* widgets whose [disposed] signal
                                          invokes [_onWidgetDisposed] *)
  log : list event
}.

Inductive pending :=
| Add_save (w : obj)
    (* add: the promise returned is that of [state.save(name, { data })] *)
| Save_remove (w : obj) (oldName newName : string)
| Save_save (w : obj) (oldName newName : string)
| Restore_list (options : IRestoreOptions)
| Restore_replay (options : IRestoreOptions) (sv : saved).

Definition create (ns : string) (injected : gset obj) (names : gmap obj string)
    (disposed : gset obj) : state :=
  {| namespace := ns; _tracker := FocusTracker.empty; _widgets := [];
     _currentWidget := None; _hasRestored := false; _restore := None;
     injectedProperty := injected; nameProperty := names;
     isDisposed := disposed; connected := ∅; log := [] |}.

Definition with_tracker (ft : FocusTracker.t) (s : state) : state :=
  {| namespace := namespace s; _tracker := ft; _widgets := _widgets s;
     _currentWidget := _currentWidget s;
     _hasRestored := _hasRestored s; _restore := _restore s;
     injectedProperty := injectedProperty s; nameProperty := nameProperty s;
     isDisposed := isDisposed s; connected := connected s; log := log s |}.

Definition with_widgets (l : list obj) (s : state) : state :=
  {| namespace := namespace s; _tracker := _tracker s; _widgets := l;
     _currentWidget := _currentWidget s;
     _hasRestored := _hasRestored s; _restore := _restore s;
     injectedProperty := injectedProperty s; nameProperty := nameProperty s;
     isDisposed := isDisposed s; connected := connected s; log := log s |}.

Definition with_currentWidget (v : option obj) (s : state) : state :=
  {| namespace := namespace s; _tracker := _tracker s; _widgets := _widgets s;
     _currentWidget := v;
     _hasRestored := _hasRestored s; _restore := _restore s;
     injectedProperty := injectedProperty s; nameProperty := nameProperty s;
     isDisposed := isDisposed s; connected := connected s; log := log s |}.

Definition with_hasRestored (b : bool) (s : state) : state :=
  {| namespace := namespace s; _tracker := _tracker s; _widgets := _widgets s;
     _currentWidget := _currentWidget s;
     _hasRestored := b; _restore := _restore s;
     injectedProperty := injectedProperty s; nameProperty := nameProperty s;
     isDisposed := isDisposed s; connected := connected s; log := log s |}.

Definition with_restore (options : IRestoreOptions) (s : state) : state :=
  {| namespace := namespace s; _tracker := _tracker s; _widgets := _widgets s;
     _currentWidget := _currentWidget s;
     _hasRestored := _hasRestored s; _restore := Some options;
     injectedProperty := injectedProperty s; nameProperty := nameProperty s;
     isDisposed := isDisposed s; connected := connected s; log := log s |}.

Definition with_injected (w : obj) (s : state) : state :=
  {| namespace := namespace s; _tracker := _tracker s; _widgets := _widgets s;
     _currentWidget := _currentWidget s;
     _hasRestored := _hasRestored s; _restore := _restore s;
     injectedProperty := {[w]} ∪ injectedProperty s; nameProperty := nameProperty s;
     isDisposed := isDisposed s; connected := connected s; log := log s |}.

Definition with_name (w : obj) (n : string) (s : state) : state :=
  {| namespace := namespace s; _tracker := _tracker s; _widgets := _widgets s;
     _currentWidget := _currentWidget s;
     _hasRestored := _hasRestored s; _restore := _restore s;
     injectedProperty := injectedProperty s; nameProperty := <[w := n]> (nameProperty s);
     isDisposed := isDisposed s; connected := connected s; log := log s |}.

Definition with_disposed (w : obj) (s : state) : state :=
  {| namespace := namespace s; _tracker := _tracker s; _widgets := _widgets s;
     _currentWidget := _currentWidget s;
     _hasRestored := _hasRestored s; _restore := _restore s;
     injectedProperty := injectedProperty s; nameProperty := nameProperty s;
     isDisposed := {[w]} ∪ isDisposed s; connected := connected s; log := log s |}.

Definition connect (w : obj) (s : state) : state :=
  {| namespace := namespace s; _tracker := _tracker s; _widgets := _widgets s;
     _currentWidget := _currentWidget s;
     _hasRestored := _hasRestored s; _restore := _restore s;
     injectedProperty := injectedProperty s; nameProperty := nameProperty s;
     isDisposed := isDisposed s; connected := {[w]} ∪ connected s; log := log s |}.

(** The end of [Widget.dispose()] in [@phosphor/widgets]: after the
    [disposed] signal has been emitted, [Signal.clearData(this)] and
    [AttachedProperty.clearData(this)] leave nothing connected to the
    widget and make its attached properties read their defaults again. *)
Definition clear_attached (w : obj) (s : state) : state :=
  {| namespace := namespace s; _tracker := _tracker s; _widgets := _widgets s;
     _currentWidget := _currentWidget s;
     _hasRestored := _hasRestored s; _restore := _restore s;
     injectedProperty := injectedProperty s ∖ {[w]};
     nameProperty := delete w (nameProperty s);
     isDisposed := isDisposed s; connected := connected s ∖ {[w]}; log := log s |}.

Definition emit_all (es : list event) (s : state) : state :=
  {| namespace := namespace s; _tracker := _tracker s; _widgets := _widgets s;
     _currentWidget := _currentWidget s;
     _hasRestored := _hasRestored s; _restore := _restore s;
     injectedProperty := injectedProperty s; nameProperty := nameProperty s;
     isDisposed := isDisposed s; connected := connected s; log := log s ++ es |}.

Definition emit (e : event) (s : state) : state := emit_all [e] s.

Definition injected (w : obj) (s : state) : bool :=
  bool_decide (w ∈ injectedProperty s).

Definition name_of (w : obj) (s : state) : string :=
  default "" (nameProperty s !! w).

(** [has(widget)] and [size] read the focus tracker. *)
Definition has (w : obj) (s : state) : bool := FocusTracker.has w (_tracker s).

Definition size (s : state) : nat := length (FocusTracker.widgets (_tracker s)).

Definition key (s : state) (widgetName : string) : string :=
  namespace s +:+ ":" +:+ widgetName.

(** [_onCurrentChanged(sender, args)], connected to the focus tracker's
    [currentChanged] by the constructor. *)
Definition _onCurrentChanged (newValue : option obj) (s : state) : state :=
  if decide (newValue = _currentWidget s) then s
  else emit (CurrentChanged newValue) (with_currentWidget newValue s).

(** The focus tracker changes, and signals it when its [currentWidget] is
    no longer the same. *)
Definition tracker_becomes (ft : FocusTracker.t) (s : state) : state :=
  let old := FocusTracker.currentWidget (_tracker s) in
  let s := with_tracker ft s in
  if decide (FocusTracker.currentWidget ft = old) then s
  else _onCurrentChanged (FocusTracker.currentWidget ft) s.

(** [add(widget)].  The method is not [async]: it runs to its end and
    returns the promise of [state.save] when it called it. *)
Definition add (focused : bool) (w : obj) (s : state) : state * next pending :=
  if decide (w ∈ isDisposed s) then (s, Return (Rejected DisposedInput))
  else if FocusTracker.has w (_tracker s) then (s, Return (Rejected DuplicateMember))
  else
    let s := tracker_becomes (FocusTracker.add focused w (_tracker s)) s in
    let s := with_widgets (_widgets s ++ [w]) s in
    if injected w s then (s, Return (Resolved Void))
    else
      let s := connect w s in
      let '(s, promise) :=
        match _restore s with
        | Some r =>
            let widgetName := name r w in
            if String.eqb widgetName "" then (s, Return (Resolved Void))
            else
              let nm := key s widgetName in
              let data := args r w in
              let s := with_name w nm s in
              (emit (State_save nm (JObj [("data", data)])) s, Await (Add_save w))
        | None => (s, Return (Resolved Void))
        end in
      let s := match FocusTracker.currentWidget (_tracker s) with
               | None => emit (CurrentChanged (Some w)) (with_currentWidget (Some w) s)
               | Some _ => s
               end in
      let s := emit (Added w) s in
      (s, promise).

(** The promise returned by [add] settles as [state.save] does. *)
Definition add_resume (w : obj) (r : settled ()) (s : state) : state * next pending :=
  match r with
  | Rejected e => (s, Return (Rejected e))
  | Resolved _ => (s, Return (Resolved Void))
  end.

(** [inject(widget)]: the promise of [add] is dropped. *)
Definition inject (focused : bool) (w : obj) (s : state) : state :=
  fst (add focused w (with_injected w s)).

Definition save_finish (w : obj) (oldName newName : string) (s : state)
    : state * next pending :=
  (if String.eqb oldName newName then s else emit (Updated w) s,
   Return (Resolved Void)).

Definition save_name (w : obj) (oldName newName : string) (s : state)
    : state * next pending :=
  let s := with_name w newName s in
  if String.eqb newName "" then save_finish w oldName newName s
  else
    match _restore s with
    | Some r =>
        let data := args r w in
        (emit (State_save newName (JObj [("data", data)])) s,
         Await (Save_save w oldName newName))
    | None => (s, Return (Rejected TypeError))
    end.

(** [save(widget)], up to [await state.remove(oldName)]. *)
Definition save (w : obj) (s : state) : state * next pending :=
  let inj := injected w s in
  match _restore s with
  | None => (s, Return (Resolved Void))
  | Some r =>
      if negb (has w s) || inj then (s, Return (Resolved Void))
      else
        let widgetName := name r w in
        let oldName := name_of w s in
        let newName := if String.eqb widgetName "" then "" else key s widgetName in
        if negb (String.eqb oldName "") && negb (String.eqb oldName newName)
        then (emit (State_remove oldName) s, Await (Save_remove w oldName newName))
        else save_name w oldName newName s
  end.

Definition save_resume_remove (w : obj) (oldName newName : string)
    (r : settled ()) (s : state) : state * next pending :=
  match r with
  | Rejected e => (s, Return (Rejected e))
  | Resolved _ => save_name w oldName newName s
  end.

Definition save_resume_save (w : obj) (oldName newName : string)
    (r : settled ()) (s : state) : state * next pending :=
  match r with
  | Rejected e => (s, Return (Rejected e))
  | Resolved _ => save_finish w oldName newName s
  end.

(** [restore(options)], up to [await Promise.all(promises)]. *)
Definition restore (options : IRestoreOptions) (s : state) : state * next pending :=
  if _hasRestored s then (s, Return (Rejected AlreadyRestored))
  else
    let s := with_hasRestored true s in
    let s := emit (State_list (namespace s)) s in
    let s := with_restore options s in
    (s, Await (Restore_list options)).

Definition restore_resume_list (options : IRestoreOptions) (r : settled saved)
    (s : state) : state * next pending :=
  match r with
  | Rejected e => (s, Return (Rejected e))
  | Resolved sv =>
      (emit_all (replay_calls options sv) s, Await (Restore_replay options sv))
  end.

Definition restore_resume_replay (options : IRestoreOptions) (sv : saved)
    (rm : string → settled ()) (s : state) : state * next pending :=
  let s := emit_all (replay_catches options sv) s in
  match promise_all (replay_promises options rm sv) with
  | Rejected e => (s, Return (Rejected e))
  | Resolved vals => (emit Restored_resolve s, Return (Resolved (Values vals)))
  end.

(** [_onWidgetDisposed(widget)]. *)
Definition _onWidgetDisposed (w : obj) (s : state) : state :=
  if injected w s then s
  else
    let s := with_widgets (removeFirstOf (_widgets s) w) s in
    let s := if decide (_currentWidget s = Some w)
             then
               let v := or_else (FocusTracker.currentWidget (_tracker s))
                                (last (_widgets s)) in
               emit (CurrentChanged v) (with_currentWidget v s)
             else s in
    match _restore s with
    | None => s
    | Some _ =>
        let nm := name_of w s in
        if String.eqb nm "" then s else emit (State_remove nm) s
    end.

(** What the disposal of a widget does: the widget reports itself
    disposed, its [disposed] signal invokes the handlers connected to it,
    and its connections and attached properties are cleared.  The focus
    tracker connected its own handler when the widget was added to it,
    before [add] connected [_onWidgetDisposed]: it runs first. *)
Definition dispose_widget (previous : option obj) (w : obj) (s : state) : state :=
  let s := with_disposed w s in
  let s := tracker_becomes (FocusTracker.remove previous w (_tracker s)) s in
  let s := if decide (w ∈ connected s) then _onWidgetDisposed w s else s in
  clear_attached w s.

(** [widget.dispose()] as it is called from outside: [Widget.dispose()]
    returns at once on a widget that is disposed already. *)
Definition Widget_dispose (previous : option obj) (w : obj) (s : state) : state :=
  if decide (w ∈ isDisposed s) then s else dispose_widget previous w s.

(** The focus moves: the focus tracker's [currentWidget] becomes [v]. *)
Definition focus_changed (v : option obj) (s : state) : state :=
  tracker_becomes (FocusTracker.focus v (_tracker s)) s.

Definition resume (k : pending) (i : input) (s : state) : option (state * next pending) :=
  match k, i with
  | Add_save w, Settle r => Some (add_resume w r s)
  | Save_remove w oldName newName, Settle r => Some (save_resume_remove w oldName newName r s)
  | Save_save w oldName newName, Settle r => Some (save_resume_save w oldName newName r s)
  | Restore_list options, Listed r => Some (restore_resume_list options r s)
  | Restore_replay options sv, Removed rm => Some (restore_resume_replay options sv rm s)
  | _, _ => None
  end.

Definition continue (env : pending → input) (p : state * next pending)
    : state * next pending :=
  match p with
  | (s, Await k) => default p (resume k (env k) s)
  | _ => p
  end.

Definition complete (env : pending → input) (p : state * next pending)
    : state * next pending :=
  continue env (continue env p).

(** The collaborators' answers during a restoration: the listing resolves
    with [sv], and [rm] tells how each removal settles. *)
Definition restoring (sv : saved) (rm : string → settled ()) (k : pending) : input :=
  match k with
  | Restore_list _ => Listed (Resolved sv)
  | Restore_replay _ _ => Removed rm
  | _ => Settle (Resolved ())
  end.

(** The state database completes every operation. *)
Definition storing (k : pending) : input := Settle (Resolved ()).

Record system := { tracker : state; tasks : list pending }.

Inductive action :=
| Call_add (focused : bool) (w : obj)
| Call_inject (focused : bool) (w : obj)
| Call_save (w : obj)
| Call_restore (options : IRestoreOptions)
| Focus (v : option obj)
| Dispose (previous : option obj) (w : obj)
| Resume (i : nat) (inp : input).

Definition spawn (ts : list pending) (p : state * next pending) : system :=
  match p with
  | (s, Return _) => {| tracker := s; tasks := ts |}
  | (s, Await k) => {| tracker := s; tasks := ts ++ [k] |}
  end.

Definition exec (a : action) (sys : system) : option system :=
  let s := tracker sys in
  let ts := tasks sys in
  match a with
  | Call_add focused w => Some (spawn ts (add focused w s))
  | Call_inject focused w => Some {| tracker := inject focused w s; tasks := ts |}
  | Call_save w => Some (spawn ts (save w s))
  | Call_restore options => Some (spawn ts (restore options s))
  | Focus v => Some {| tracker := focus_changed v s; tasks := ts |}
  | Dispose previous w =>
      Some {| tracker := Widget_dispose previous w s; tasks := ts |}
  | Resume i inp =>
      match ts !! i with
      | Some k => spawn (delete i ts) <$> resume k inp s
      | None => None
      end
  end.

Fixpoint run (acts : list action) (sys : system) : option system :=
  match acts with
  | [] => Some sys
  | a :: rest =>
      match exec a sys with
      | Some sys' => run rest sys'
      | None => None
      end
  end.

Definition start (s : state) : system := {| tracker := s; tasks := [] |}.

End WidgetTracker.

(** * Properties *)

(** ** Notions used in the statements *)

(** The record at [index] of a listing is cleaned up by a restoration: it
    carries no data, or the command executed for it is rejected. *)
Definition cleaned (options : IRestoreOptions) (sv : saved) (index : nat) : Prop :=
  match restore_args (value_at sv index) with
  | None => True
  | Some a => ∃ e, registry options (command options) a = Rejected e
  end.

(** What [restore] returns, and whether [this._restored.resolve()] is
    reached, given the promises of the records. *)
Definition restore_outcome (promises : list (settled value)) : settled completion :=
  match promise_all promises with
  | Resolved vals => Resolved (Values vals)
  | Rejected e => Rejected e
  end.

Definition resolution (promises : list (settled value)) : list event :=
  match promise_all promises with
  | Resolved _ => [Restored_resolve]
  | Rejected _ => []
  end.

(** Case analysis on the tests made by a method. *)
Ltac branches :=
  repeat first [ progress simplify_eq/= | case_decide | case_match ].

(** Logs are compared after reassociating the appends. *)
Ltac norm_log :=
  simpl; rewrite <- ?app_assoc; simpl; rewrite ?app_nil_r.

(** ** A worked scenario

    Namespace ["nb"]; the command ["open"] succeeds on any data but [null]. *)

Definition demo_options : IRestoreOptions :=
  {| command := "open";
     args := λ _, JObj [("path", JStr "a.txt")];
     name := λ o, match o with 0 => "" | 1 => "doc1" | _ => "doc2" end;
     registry := λ _ a, match a with
                        | JNull => Rejected External
                        | _ => Resolved (Some (JStr "opened"))
                        end |}.

(** Four listed records: one with data, one without a [data] field, one
    whose [data] is [null], and one whose value is [null]. *)
Definition demo_saved : saved :=
  {| ids := ["nb:doc1"; "nb:doc2"; "nb:doc3"; "nb:doc4"];
     values := [Some (JObj [("data", JObj [("path", JStr "a.txt")])]);
                Some (JObj [("other", JNum 1)]);
                Some (JObj [("data", JNull)]);
                Some JNull] |}.

Definition demo_rm : string → settled () := λ _, Resolved ().

Definition demo_instances : InstanceTracker.state :=
  InstanceTracker.create "nb" ∅ ∅ ∅.

Definition demo_widgets : WidgetTracker.state :=
  WidgetTracker.create "nb" ∅ ∅ ∅.

(** What a call of [save] is to do for an object recorded under [oldName]
    whose name is now [newName]: remove the old record when there is one
    under another name, then write the new record when the new name is not
    empty, then signal the update when the name changed. *)
Definition save_events (r : IRestoreOptions) (o : obj) (oldName newName : string)
    : list event :=
  (if negb (String.eqb oldName "") && negb (String.eqb oldName newName)
   then [State_remove oldName] else [])
  ++ (if String.eqb newName "" then []
      else [State_save newName (JObj [("data", args r o)])])
  ++ (if String.eqb oldName newName then [] else [Updated o]).

(** Object [1] was recorded as ["nb:old"] before the trackers were told how
    to restore; its name is ["doc1"] under [demo_options]. *)
Definition demo_renamed_instance : InstanceTracker.state :=
  (InstanceTracker.restore demo_options
     (InstanceTracker.add 1
        (InstanceTracker.create "nb" ∅ {[1 := "nb:old"]} ∅)).1).1.

Definition demo_renamed_widget : WidgetTracker.state :=
  (WidgetTracker.restore demo_options
     (WidgetTracker.add false 1
        (WidgetTracker.create "nb" ∅ {[1 := "nb:old"]} ∅)).1).1.

(** The record [add] writes for an object: none without restoration
    options, and none when the object's name is empty. *)
Definition record_of (ns : string) (restore : option IRestoreOptions) (o : obj)
    : option (string * json) :=
  match restore with
  | Some r =>
      if String.eqb (name r o) "" then None
      else Some (ns +:+ ":" +:+ name r o, JObj [("data", args r o)])
  | None => None
  end.

(** The trackers of the scenario once [restore(demo_options)] was called. *)
Definition demo_restoring_instances : InstanceTracker.state :=
  (InstanceTracker.restore demo_options demo_instances).1.

Definition demo_restoring_widgets : WidgetTracker.state :=
  (WidgetTracker.restore demo_options demo_widgets).1.

(** The removal a disposal handler requests for an object recorded under
    [nm]: none without restoration options or without a recorded name. *)
Definition removal (restore : option IRestoreOptions) (nm : string) : list event :=
  match restore with
  | Some _ => if String.eqb nm "" then [] else [State_remove nm]
  | None => []
  end.

(** Two widgets added in turn, none focused. *)
Definition demo_two_widgets : WidgetTracker.state :=
  (WidgetTracker.add false 2 (WidgetTracker.add false 1 demo_widgets).1).1.

(** The same two widgets once the second has taken the focus. *)
Definition demo_focused_widgets : WidgetTracker.state :=
  WidgetTracker.focus_changed (Some 2) demo_two_widgets.

(** ** Notions for sequences of operations *)

(** How many times [this._restored.resolve()] was called. *)
Definition resolutions (l : list event) : nat := count_events is_resolve l.

(** The suspended calls of [restore]. *)
Definition restoring_instances (ts : list InstanceTracker.pending) : nat :=
  length (List.filter
            (λ k, match k with
                  | InstanceTracker.Restore_list _
                  | InstanceTracker.Restore_replay _ _ => true
                  | _ => false
                  end) ts).

Definition restoring_widgets (ts : list WidgetTracker.pending) : nat :=
  length (List.filter
            (λ k, match k with
                  | WidgetTracker.Restore_list _
                  | WidgetTracker.Restore_replay _ _ => true
                  | _ => false
                  end) ts).

(** The states a tracker in use reaches from its construction by a
    sequence of the operations of [action].  The tracker's own [dispose()]
    is not among these; the states of its whole life are
    [lifetime_instances] and [lifetime_widgets]. *)
Definition reachable_instances (sys : InstanceTracker.system) : Prop :=
  ∃ ns injected names disposed acts,
    InstanceTracker.run acts
      (InstanceTracker.start (InstanceTracker.create ns injected names disposed))
    = Some sys.

Definition reachable_widgets (sys : WidgetTracker.system) : Prop :=
  ∃ ns injected names disposed acts,
    WidgetTracker.run acts
      (WidgetTracker.start (WidgetTracker.create ns injected names disposed))
    = Some sys.

(** The current instance is [null] or tracked. *)
Definition current_is_tracked (s : InstanceTracker.state) : Prop :=
  match InstanceTracker._current s with
  | None => True
  | Some o => o ∈ InstanceTracker._instances s
  end.

(** A call of [add] for [o] is suspended at its write. *)
Definition adding (o : obj) (ts : list InstanceTracker.pending) : bool :=
  existsb (λ k, match k with
                | InstanceTracker.Add_save o' => Nat.eqb o o'
                | _ => false
                end) ts.

(** The operations under which the current instance stays tracked: [current]
    is written with [null] or with a tracked object; [inject] is given an
    object that is not tracked; and no object is disposed while its [add]
    is suspended. *)
Definition admissible (a : InstanceTracker.action) (sys : InstanceTracker.system)
    : bool :=
  match a with
  | InstanceTracker.Write_current (Some o) =>
      InstanceTracker.has o (InstanceTracker.tracker sys)
  | InstanceTracker.Call_inject o =>
      negb (InstanceTracker.has o (InstanceTracker.tracker sys))
  | InstanceTracker.Dispose o => negb (adding o (InstanceTracker.tasks sys))
  | _ => true
  end.

Fixpoint run_admissible (acts : list InstanceTracker.action)
    (sys : InstanceTracker.system) : option InstanceTracker.system :=
  match acts with
  | [] => Some sys
  | a :: rest =>
      if admissible a sys then
        match InstanceTracker.exec a sys with
        | Some sys' => run_admissible rest sys'
        | None => None
        end
      else None
  end.

(** Restoration is single-shot: the resolutions of [restored] made so far
    and the calls of [restore] still under way number one at most, and none
    before [restore] was first called. *)
Definition single_shot_instances (sys : InstanceTracker.system) : Prop :=
  resolutions (InstanceTracker.log (InstanceTracker.tracker sys))
  + restoring_instances (InstanceTracker.tasks sys)
  ≤ (if InstanceTracker._hasRestored (InstanceTracker.tracker sys) then 1 else 0).

Definition single_shot_widgets (sys : WidgetTracker.system) : Prop :=
  resolutions (WidgetTracker.log (WidgetTracker.tracker sys))
  + restoring_widgets (WidgetTracker.tasks sys)
  ≤ (if WidgetTracker._hasRestored (WidgetTracker.tracker sys) then 1 else 0).

(** A segment that has nothing to do with restoration. *)
Definition quiet_instances (s : InstanceTracker.state)
    (p : InstanceTracker.state * next InstanceTracker.pending) : Prop :=
  InstanceTracker._hasRestored p.1 = InstanceTracker._hasRestored s
  ∧ resolutions (InstanceTracker.log p.1) = resolutions (InstanceTracker.log s)
  ∧ restoring_instances (match p.2 with Await k => [k] | Return _ => [] end) = 0.

Definition quiet_widgets (s : WidgetTracker.state)
    (p : WidgetTracker.state * next WidgetTracker.pending) : Prop :=
  WidgetTracker._hasRestored p.1 = WidgetTracker._hasRestored s
  ∧ resolutions (WidgetTracker.log p.1) = resolutions (WidgetTracker.log s)
  ∧ restoring_widgets (match p.2 with Await k => [k] | Return _ => [] end) = 0.

(** Segments that leave restoration alone are recognised by unfolding them
    and looking at the events they append. *)
Ltac quiet :=
  repeat split; branches;
  unfold resolutions, count_events;
  rewrite ?List.filter_app, ?length_app; simpl; first [done | lia].

(** A segment only ever appends to the log. *)
Ltac appends :=
  branches; repeat apply prefix_app_r; reflexivity.

(** What keeps the current instance tracked along admissible operations:
    an object that is tracked and subscribed to is not injected; an object
    that is subscribed to and no longer tracked is disposed; and an object
    whose [add] is suspended is tracked. *)
Definition tracked_invariant (sys : InstanceTracker.system) : Prop :=
  let s := InstanceTracker.tracker sys in
  current_is_tracked s
  ∧ (∀ o, o ∈ InstanceTracker._instances s → o ∈ InstanceTracker.connected s →
          o ∉ InstanceTracker.injectedProperty s)
  ∧ (∀ o, o ∈ InstanceTracker.connected s → o ∉ InstanceTracker._instances s →
          o ∈ InstanceTracker.isDisposed s)
  ∧ (∀ o, adding o (InstanceTracker.tasks sys) = true →
          o ∈ InstanceTracker._instances s).

(** A segment that touches neither the tracked set, the current instance,
    the subscriptions nor the flags of the objects. *)
Definition frame_instances (s s' : InstanceTracker.state) : Prop :=
  InstanceTracker._instances s' = InstanceTracker._instances s
  ∧ InstanceTracker._current s' = InstanceTracker._current s
  ∧ InstanceTracker.connected s' = InstanceTracker.connected s
  ∧ InstanceTracker.injectedProperty s' = InstanceTracker.injectedProperty s
  ∧ InstanceTracker.isDisposed s' = InstanceTracker.isDisposed s.

(** Tests on membership, read as propositions. *)
Ltac decided :=
  repeat match goal with
         | H : bool_decide _ = true |- _ => apply bool_decide_eq_true_1 in H
         | H : bool_decide _ = false |- _ => apply bool_decide_eq_false_1 in H
         | H : negb _ = true |- _ => apply negb_true_iff in H
         | H : Nat.eqb _ _ = true |- _ => apply Nat.eqb_eq in H
         end.

(** An admissible sequence: two objects are added, the second is made
    current, and then it is disposed. *)
Definition demo_admissible : InstanceTracker.system :=
  default (InstanceTracker.start demo_instances)
    (run_admissible
       [InstanceTracker.Call_add 1; InstanceTracker.Call_add 2;
        InstanceTracker.Write_current (Some 2); InstanceTracker.Dispose 2]
       (InstanceTracker.start demo_instances)).

(** ** The remaining methods of [InstanceTracker]

    [find], [forEach], [filter], [isDisposed] and [dispose].  A callback is
    represented by a function: a test by a boolean function, and the
    callback of [forEach] by its effect on what it acts upon.  Callbacks
    that change the tracker while it is being traversed are not covered. *)

Module InstanceTrackerMore.

(** The loop of [find] over [this._instances.values()]. *)
Fixpoint first_of (fn : obj → bool) (values : list obj) : option obj :=
  match values with
  | [] => None
  | value :: rest => if fn value then Some value else first_of fn rest
  end.

(** [find(fn)]; [None] is [undefined]. *)
Definition find (fn : obj → bool) (s : InstanceTracker.state) : option obj :=
  first_of fn (InstanceTracker._instances s).

(** [forEach(fn)]: [Set.forEach] visits the instances in insertion order. *)
Definition forEach {A : Type} (fn : obj → A → A) (s : InstanceTracker.state)
    (a : A) : A :=
  foldl (λ acc o, fn o acc) a (InstanceTracker._instances s).

(** [filter(fn)]: [forEach] pushing onto [filtered]. *)
Definition filter (fn : obj → bool) (s : InstanceTracker.state) : list obj :=
  forEach (λ o filtered, if fn o then filtered ++ [o] else filtered) s [].

(** The tracker with its own [_isDisposed] flag, which only [dispose] and
    the getter [isDisposed] read. *)
Record tracker := {
  fields : InstanceTracker.state;
  _isDisposed : bool
}.

Definition isDisposed (t : tracker) : bool := _isDisposed t.

(** [dispose()].  [Signal.clearData(this)] disconnects the tracker from
    every signal it listens to, the [disposed] signals of the objects
    among them; nothing is emitted. *)
Definition dispose (t : tracker) : tracker :=
  if isDisposed t then t
  else
    let s := fields t in
    {| fields :=
         {| InstanceTracker.namespace := InstanceTracker.namespace s;
            InstanceTracker._instances := [];
            InstanceTracker._current := None;
            InstanceTracker._hasRestored := InstanceTracker._hasRestored s;
            InstanceTracker._restore := InstanceTracker._restore s;
            InstanceTracker.injectedProperty := InstanceTracker.injectedProperty s;
            InstanceTracker.nameProperty := InstanceTracker.nameProperty s;
            InstanceTracker.isDisposed := InstanceTracker.isDisposed s;
            InstanceTracker.connected := ∅;
            InstanceTracker.log := InstanceTracker.log s |};
       _isDisposed := true |}.

(** The type of the objects is any [IObservableDisposable]: what the
    disposal of an object does besides emitting [disposed] is the object's
    affair.  [InstanceTracker.dispose_object] is the disposal of an object
    that leaves its attached properties as they are.  An object that is a
    [Widget] clears them: [Widget.dispose()] ([@phosphor/widgets]) returns
    at once when the widget is disposed already; otherwise it sets the
    flag, emits [disposed], and ends with [Signal.clearData(this)] and
    [AttachedProperty.clearData(this)], after which nothing is connected
    to the widget and [Private.injectedProperty] and
    [Private.nameProperty] read their defaults for it. *)
Definition clear_attached (o : obj) (s : InstanceTracker.state)
    : InstanceTracker.state :=
  {| InstanceTracker.namespace := InstanceTracker.namespace s;
     InstanceTracker._instances := InstanceTracker._instances s;
     InstanceTracker._current := InstanceTracker._current s;
     InstanceTracker._hasRestored := InstanceTracker._hasRestored s;
     InstanceTracker._restore := InstanceTracker._restore s;
     InstanceTracker.injectedProperty := InstanceTracker.injectedProperty s ∖ {[o]};
     InstanceTracker.nameProperty := delete o (InstanceTracker.nameProperty s);
     InstanceTracker.isDisposed := InstanceTracker.isDisposed s;
     InstanceTracker.connected := InstanceTracker.connected s ∖ {[o]};
     InstanceTracker.log := InstanceTracker.log s |}.

Definition dispose_widget (o : obj) (s : InstanceTracker.state)
    : InstanceTracker.state :=
  if decide (o ∈ InstanceTracker.isDisposed s) then s
  else clear_attached o (InstanceTracker.dispose_object o s).

(** *** The whole life of a tracker

    The tracker with its flag and its suspended calls.  Besides the
    operations of [InstanceTracker.action], [dispose()] may be called on
    the tracker at any time, and an object that is disposed may be a
    [Widget].  Nothing stops after [dispose()]: the suspended calls are
    resumed all the same, and every method can still be called. *)
Record system := {
  this : tracker;
  tasks : list InstanceTracker.pending
}.

Inductive action :=
| Act (a : InstanceTracker.action)
| Call_dispose
| Dispose_widget (o : obj).

Definition inner (sys : system) : InstanceTracker.system :=
  {| InstanceTracker.tracker := fields (this sys);
     InstanceTracker.tasks := tasks sys |}.

Definition outer (disposed : bool) (sys : InstanceTracker.system) : system :=
  {| this := {| fields := InstanceTracker.tracker sys; _isDisposed := disposed |};
     tasks := InstanceTracker.tasks sys |}.

Definition exec (a : action) (sys : system) : option system :=
  match a with
  | Act a => outer (isDisposed (this sys)) <$> InstanceTracker.exec a (inner sys)
  | Call_dispose => Some {| this := dispose (this sys); tasks := tasks sys |}
  | Dispose_widget o =>
      Some {| this := {| fields := dispose_widget o (fields (this sys));
                         _isDisposed := isDisposed (this sys) |};
              tasks := tasks sys |}
  end.

Fixpoint run (acts : list action) (sys : system) : option system :=
  match acts with
  | [] => Some sys
  | a :: rest =>
      match exec a sys with
      | Some sys' => run rest sys'
      | None => None
      end
  end.

Definition start (s : InstanceTracker.state) : system :=
  outer false (InstanceTracker.start s).

End InstanceTrackerMore.

(** ** The remaining methods of [WidgetTracker]

    [find], [forEach] and [filter] traverse [this._tracker.widgets] with
    [find] and [each] of [@phosphor/algorithm] and with [Array.filter]. *)

Module WidgetTrackerMore.

Definition find (fn : obj → bool) (t : WidgetTracker.state) : option obj :=
  List.find fn (FocusTracker.widgets (WidgetTracker._tracker t)).

Definition forEach {A : Type} (fn : obj → A → A) (t : WidgetTracker.state)
    (a : A) : A :=
  foldl (λ acc w, fn w acc) a (FocusTracker.widgets (WidgetTracker._tracker t)).

Definition filter (fn : obj → bool) (t : WidgetTracker.state) : list obj :=
  List.filter fn (FocusTracker.widgets (WidgetTracker._tracker t)).

(** The tracker with its own [_isDisposed] flag. *)
Record tracker := {
  fields : WidgetTracker.state;
  _isDisposed : bool
}.

Definition isDisposed (t : tracker) : bool := _isDisposed t.

(** [dispose()].  [Signal.clearData(this)] disconnects the tracker from
    every signal it listens to: the [disposed] signals of the widgets and
    the [currentChanged] signal of its focus tracker.
    [this._tracker.dispose()] belongs to [@phosphor/widgets]: the focus
    tracker forgets its widgets and its current widget, and emits
    nothing.  Neither [_widgets] nor [_currentWidget] is touched. *)
Definition dispose (t : tracker) : tracker :=
  if isDisposed t then t
  else
    let s := fields t in
    {| fields :=
         {| WidgetTracker.namespace := WidgetTracker.namespace s;
            WidgetTracker._tracker := FocusTracker.empty;
            WidgetTracker._widgets := WidgetTracker._widgets s;
            WidgetTracker._currentWidget := WidgetTracker._currentWidget s;
            WidgetTracker._hasRestored := WidgetTracker._hasRestored s;
            WidgetTracker._restore := WidgetTracker._restore s;
            WidgetTracker.injectedProperty := WidgetTracker.injectedProperty s;
            WidgetTracker.nameProperty := WidgetTracker.nameProperty s;
            WidgetTracker.isDisposed := WidgetTracker.isDisposed s;
            WidgetTracker.connected := ∅;
            WidgetTracker.log := WidgetTracker.log s |};
       _isDisposed := true |}.

(** *** The methods once the tracker is disposed

    The focus tracker goes on working, but its [currentChanged] no longer
    reaches the tracker: where [WidgetTracker.tracker_becomes] runs
    [_onCurrentChanged], nothing runs now.  [add_with] and
    [dispose_widget_with] are [WidgetTracker.add] and
    [WidgetTracker.dispose_widget] with what the tracker hears of the
    focus tracker made explicit. *)
Definition add_with (hears : FocusTracker.t → WidgetTracker.state → WidgetTracker.state)
    (focused : bool) (w : obj) (s : WidgetTracker.state)
    : WidgetTracker.state * next WidgetTracker.pending :=
  if decide (w ∈ WidgetTracker.isDisposed s)
  then (s, Return (Rejected DisposedInput))
  else if FocusTracker.has w (WidgetTracker._tracker s)
  then (s, Return (Rejected DuplicateMember))
  else
    let s := hears (FocusTracker.add focused w (WidgetTracker._tracker s)) s in
    let s := WidgetTracker.with_widgets (WidgetTracker._widgets s ++ [w]) s in
    if WidgetTracker.injected w s then (s, Return (Resolved Void))
    else
      let s := WidgetTracker.connect w s in
      let '(s, promise) :=
        match WidgetTracker._restore s with
        | Some r =>
            let widgetName := name r w in
            if String.eqb widgetName "" then (s, Return (Resolved Void))
            else
              let nm := WidgetTracker.key s widgetName in
              let data := args r w in
              let s := WidgetTracker.with_name w nm s in
              (WidgetTracker.emit (State_save nm (JObj [("data", data)])) s,
               Await (WidgetTracker.Add_save w))
        | None => (s, Return (Resolved Void))
        end in
      let s := match FocusTracker.currentWidget (WidgetTracker._tracker s) with
               | None =>
                   WidgetTracker.emit (CurrentChanged (Some w))
                     (WidgetTracker.with_currentWidget (Some w) s)
               | Some _ => s
               end in
      let s := WidgetTracker.emit (Added w) s in
      (s, promise).

Definition dispose_widget_with
    (hears : FocusTracker.t → WidgetTracker.state → WidgetTracker.state)
    (previous : option obj) (w : obj) (s : WidgetTracker.state)
    : WidgetTracker.state :=
  let s := WidgetTracker.with_disposed w s in
  let s := hears (FocusTracker.remove previous w (WidgetTracker._tracker s)) s in
  let s := if decide (w ∈ WidgetTracker.connected s)
           then WidgetTracker._onWidgetDisposed w s else s in
  WidgetTracker.clear_attached w s.

(** One operation on a disposed tracker. *)
Definition exec_disposed (a : WidgetTracker.action) (sys : WidgetTracker.system)
    : option WidgetTracker.system :=
  let s := WidgetTracker.tracker sys in
  let ts := WidgetTracker.tasks sys in
  match a with
  | WidgetTracker.Call_add focused w =>
      Some (WidgetTracker.spawn ts (add_with WidgetTracker.with_tracker focused w s))
  | WidgetTracker.Call_inject focused w =>
      Some {| WidgetTracker.tracker :=
                (add_with WidgetTracker.with_tracker focused w
                   (WidgetTracker.with_injected w s)).1;
              WidgetTracker.tasks := ts |}
  | WidgetTracker.Focus v =>
      Some {| WidgetTracker.tracker :=
                WidgetTracker.with_tracker
                  (FocusTracker.focus v (WidgetTracker._tracker s)) s;
              WidgetTracker.tasks := ts |}
  | WidgetTracker.Dispose previous w =>
      Some {| WidgetTracker.tracker :=
                if decide (w ∈ WidgetTracker.isDisposed s) then s
                else dispose_widget_with WidgetTracker.with_tracker previous w s;
              WidgetTracker.tasks := ts |}
  | _ => WidgetTracker.exec a sys
  end.

(** *** The whole life of a tracker *)
Record system := {
  this : tracker;
  tasks : list WidgetTracker.pending
}.

Inductive action :=
| Act (a : WidgetTracker.action)
| Call_dispose.

Definition inner (sys : system) : WidgetTracker.system :=
  {| WidgetTracker.tracker := fields (this sys);
     WidgetTracker.tasks := tasks sys |}.

Definition outer (disposed : bool) (sys : WidgetTracker.system) : system :=
  {| this := {| fields := WidgetTracker.tracker sys; _isDisposed := disposed |};
     tasks := WidgetTracker.tasks sys |}.

Definition exec (a : action) (sys : system) : option system :=
  match a with
  | Act a =>
      outer (isDisposed (this sys))
        <$> (if isDisposed (this sys) then exec_disposed a (inner sys)
             else WidgetTracker.exec a (inner sys))
  | Call_dispose => Some {| this := dispose (this sys); tasks := tasks sys |}
  end.

Fixpoint run (acts : list action) (sys : system) : option system :=
  match acts with
  | [] => Some sys
  | a :: rest =>
      match exec a sys with
      | Some sys' => run rest sys'
      | None => None
      end
  end.

Definition start (s : WidgetTracker.state) : system :=
  outer false (WidgetTracker.start s).

End WidgetTrackerMore.

(** The states in the life of a tracker: those it reaches from its
    construction by any sequence of operations, its own [dispose()]
    included. *)
Definition lifetime_instances (sys : InstanceTrackerMore.system) : Prop :=
  ∃ ns injected names disposed acts,
    InstanceTrackerMore.run acts
      (InstanceTrackerMore.start (InstanceTracker.create ns injected names disposed))
    = Some sys.

Definition lifetime_widgets (sys : WidgetTrackerMore.system) : Prop :=
  ∃ ns injected names disposed acts,
    WidgetTrackerMore.run acts
      (WidgetTrackerMore.start (WidgetTracker.create ns injected names disposed))
    = Some sys.

(** ** Notions for the further properties *)

(** The value carried by the latest [currentChanged] of a log; [null]
    when there was none. *)
Definition last_current (l : list event) : option obj :=
  foldl (λ acc e, match e with CurrentChanged v => v | _ => acc end) None l.

(** How many calls of [add] for [o] are suspended at their write. *)
Definition adds_pending (o : obj) (ts : list InstanceTracker.pending) : nat :=
  length (List.filter
            (λ k, match k with
                  | InstanceTracker.Add_save o' => Nat.eqb o o'
                  | _ => false
                  end) ts).

(** The shape of the tracked set: no object twice; a tracked object that
    the tracker is not connected to is flagged injected, unless it is
    disposed; and a tracked object that is disposed is one the tracker is
    not connected to. *)
Definition well_formed_instances (s : InstanceTracker.state) : Prop :=
  NoDup (InstanceTracker._instances s)
  ∧ (∀ o, o ∈ InstanceTracker._instances s → o ∉ InstanceTracker.connected s →
          o ∈ InstanceTracker.injectedProperty s ∨ o ∈ InstanceTracker.isDisposed s)
  ∧ (∀ o, o ∈ InstanceTracker._instances s → o ∈ InstanceTracker.isDisposed s →
          o ∉ InstanceTracker.connected s).

(** The widgets of the focus tracker: none twice, none disposed. *)
Definition live_widgets (t : WidgetTracker.state) : Prop :=
  let tracked := FocusTracker.widgets (WidgetTracker._tracker t) in
  NoDup tracked ∧ ∀ w, w ∈ tracked → w ∉ WidgetTracker.isDisposed t.

(** The two sequences of a [WidgetTracker] that was not disposed: the
    focus tracker's widgets are live and kept in [_widgets]; what
    [_widgets] holds beyond them are disposed widgets. *)
Definition well_formed_widgets (t : WidgetTracker.state) : Prop :=
  let tracked := FocusTracker.widgets (WidgetTracker._tracker t) in
  NoDup tracked
  ∧ NoDup (WidgetTracker._widgets t)
  ∧ (∀ w, w ∈ tracked →
          (w ∉ WidgetTracker.isDisposed t) ∧ w ∈ WidgetTracker._widgets t)
  ∧ (∀ w, w ∈ WidgetTracker._widgets t → w ∉ tracked →
          w ∈ WidgetTracker.isDisposed t).

(** A scenario with every kind of step: restoration is set up, object 1 is
    added and its record written, object 2 is injected and disposed, and
    object 1 is disposed. *)
Definition demo_actions : list InstanceTracker.action :=
  [InstanceTracker.Call_restore demo_options; InstanceTracker.Call_add 1;
   InstanceTracker.Resume 1 (Settle (Resolved ()));
   InstanceTracker.Call_inject 2; InstanceTracker.Dispose 2;
   InstanceTracker.Dispose 1].

Definition demo_busy_instances : InstanceTracker.system :=
  default (InstanceTracker.start demo_instances)
    (InstanceTracker.run demo_actions (InstanceTracker.start demo_instances)).

Definition demo_widget_actions : list WidgetTracker.action :=
  [WidgetTracker.Call_restore demo_options; WidgetTracker.Call_add false 1;
   WidgetTracker.Resume 1 (Settle (Resolved ()));
   WidgetTracker.Call_inject false 2; WidgetTracker.Dispose None 2;
   WidgetTracker.Dispose None 1].

Definition demo_busy_widgets : WidgetTracker.system :=
  default (WidgetTracker.start demo_widgets)
    (WidgetTracker.run demo_widget_actions (WidgetTracker.start demo_widgets)).

(** A whole life: as above up to the injection of object 2, a widget,
    which is disposed; then the tracker is disposed, object 1 is added
    again, and a widget 3 is injected and disposed. *)
Definition demo_life_actions : list InstanceTrackerMore.action :=
  [InstanceTrackerMore.Act (InstanceTracker.Call_restore demo_options);
   InstanceTrackerMore.Act (InstanceTracker.Call_add 1);
   InstanceTrackerMore.Act (InstanceTracker.Resume 1 (Settle (Resolved ())));
   InstanceTrackerMore.Act (InstanceTracker.Call_inject 2);
   InstanceTrackerMore.Dispose_widget 2;
   InstanceTrackerMore.Call_dispose;
   InstanceTrackerMore.Act (InstanceTracker.Call_add 1);
   InstanceTrackerMore.Act (InstanceTracker.Call_inject 3);
   InstanceTrackerMore.Dispose_widget 3].

Definition demo_life_instances : InstanceTrackerMore.system :=
  default (InstanceTrackerMore.start demo_instances)
    (InstanceTrackerMore.run demo_life_actions
       (InstanceTrackerMore.start demo_instances)).

(** The same up to the disposal of object 2. *)
Definition demo_young_instances : InstanceTrackerMore.system :=
  default (InstanceTrackerMore.start demo_instances)
    (InstanceTrackerMore.run (take 5 demo_life_actions)
       (InstanceTrackerMore.start demo_instances)).

(** Widget 1 is added, widget 2 injected and disposed; then the tracker
    is disposed, widgets 1 and 3 are added, and widget 3 is disposed. *)
Definition demo_life_widget_actions : list WidgetTrackerMore.action :=
  [WidgetTrackerMore.Act (WidgetTracker.Call_add false 1);
   WidgetTrackerMore.Act (WidgetTracker.Call_inject false 2);
   WidgetTrackerMore.Act (WidgetTracker.Dispose None 2);
   WidgetTrackerMore.Call_dispose;
   WidgetTrackerMore.Act (WidgetTracker.Call_add false 1);
   WidgetTrackerMore.Act (WidgetTracker.Call_add false 3);
   WidgetTrackerMore.Act (WidgetTracker.Dispose None 3)].

Definition demo_life_widgets : WidgetTrackerMore.system :=
  default (WidgetTrackerMore.start demo_widgets)
    (WidgetTrackerMore.run demo_life_widget_actions
       (WidgetTrackerMore.start demo_widgets)).

(** The same up to the disposal of widget 2. *)
Definition demo_young_widgets : WidgetTrackerMore.system :=
  default (WidgetTrackerMore.start demo_widgets)
    (WidgetTrackerMore.run (take 3 demo_life_widget_actions)
       (WidgetTrackerMore.start demo_widgets)).

Definition is_current_changed (e : event) : bool :=
  match e with CurrentChanged _ => true | _ => false end.

(** What a listener of [currentChanged] can rely on, given the log [l] of
    what was emitted and the current object [c]: the latest value
    signalled is [c] ([null] when nothing was signalled), and every
    signal carried a value other than the one in force before it. *)
Definition honest_signal (l : list event) (c : option obj) : Prop :=
  last_current l = c
  ∧ ∀ pre v post, l = pre ++ CurrentChanged v :: post → last_current pre ≠ v.

(** What is left of it once the tracker was disposed: [dispose()] sets
    [_current] to [null] and emits nothing, so the current object is
    [null] or the one last signalled. *)
Definition heard_or_null (l : list event) (c : option obj) : Prop :=
  c = None ∨ last_current l = c.

(** The signal [added] for [o] is accounted for: what was emitted, with
    the [pending] calls of [add] that may still emit it, is at most one,
    and none when [o] is neither tracked nor disposed; to which [slack]
    is added: one for a tracker that was disposed, since [dispose()]
    forgets the tracked objects without disposing of them, and each can
    then be added once more. *)
Definition added_once (slack : nat) (o : obj) (s : InstanceTracker.state)
    (pending : nat) : Prop :=
  count_events (is_added o) (InstanceTracker.log s) + pending
  ≤ (if decide (o ∈ InstanceTracker._instances s ∨ o ∈ InstanceTracker.isDisposed s)
     then 1 else 0) + slack.

Definition widget_added_once (slack : nat) (w : obj) (t : WidgetTracker.state)
    : Prop :=
  count_events (is_added w) (WidgetTracker.log t)
  ≤ (if decide (w ∈ FocusTracker.widgets (WidgetTracker._tracker t)
                ∨ w ∈ WidgetTracker.isDisposed t)
     then 1 else 0) + slack.

Definition slack_of (disposed : bool) : nat := if disposed then 1 else 0.

(** A signal of the tracker, as opposed to a call to the state database
    or to the command registry. *)
Definition is_signal (e : event) : bool :=
  match e with
  | Added _ | CurrentChanged _ | Updated _ => true
  | _ => false
  end.

(** A record written with the restoration options [r] by a tracker of
    namespace [ns]: there is an object whose name, as [r] gives it, is not
    empty; the id is the namespace, a colon and that name; and the value
    is [{ data }] with the arguments [r] gives for the object. *)
Definition written_by (ns : string) (r : IRestoreOptions) (e : event) : Prop :=
  match e with
  | State_save id v =>
      ∃ o, name r o ≠ ""
           ∧ id = ns +:+ ":" +:+ name r o
           ∧ v = JObj [("data", args r o)]
  | _ => True
  end.

(** The new name [save] computes for [o]: empty, or the key of [o]. *)
Definition named_by (ns : string) (r : IRestoreOptions) (o : obj)
    (newName : string) : Prop :=
  newName = "" ∨ (name r o ≠ "" ∧ newName = ns +:+ ":" +:+ name r o).

(** A tracker on which [restore] was not called: nothing is suspended and
    the log holds signals only. *)
Definition idle_instances (sys : InstanceTracker.system) : Prop :=
  InstanceTracker._restore (InstanceTracker.tracker sys) = None
  ∧ InstanceTracker._hasRestored (InstanceTracker.tracker sys) = false
  ∧ InstanceTracker.tasks sys = []
  ∧ Forall (λ e, is_signal e = true)
      (InstanceTracker.log (InstanceTracker.tracker sys)).

(** A tracker restored with [r]: every record in the log was written with
    [r], and so will be the record of a [save] suspended at its removal. *)
Definition restored_instances (r : IRestoreOptions) (s : InstanceTracker.state)
    (ts : list InstanceTracker.pending) : Prop :=
  InstanceTracker._restore s = Some r
  ∧ InstanceTracker._hasRestored s = true
  ∧ Forall (written_by (InstanceTracker.namespace s) r) (InstanceTracker.log s)
  ∧ Forall (λ k, match k with
                 | InstanceTracker.Save_remove o _ newName =>
                     named_by (InstanceTracker.namespace s) r o newName
                 | _ => True
                 end) ts.

Definition idle_widgets (sys : WidgetTracker.system) : Prop :=
  WidgetTracker._restore (WidgetTracker.tracker sys) = None
  ∧ WidgetTracker._hasRestored (WidgetTracker.tracker sys) = false
  ∧ WidgetTracker.tasks sys = []
  ∧ Forall (λ e, is_signal e = true)
      (WidgetTracker.log (WidgetTracker.tracker sys)).

Definition restored_widgets (r : IRestoreOptions) (t : WidgetTracker.state)
    (ts : list WidgetTracker.pending) : Prop :=
  WidgetTracker._restore t = Some r
  ∧ WidgetTracker._hasRestored t = true
  ∧ Forall (written_by (WidgetTracker.namespace t) r) (WidgetTracker.log t)
  ∧ Forall (λ k, match k with
                 | WidgetTracker.Save_remove w _ newName =>
                     named_by (WidgetTracker.namespace t) r w newName
                 | _ => True
                 end) ts.

(** Widget 1 is added and widget 2 injected, neither holding the focus;
    then widget 2 is disposed. *)
Definition demo_injected_widgets : WidgetTracker.system :=
  default (WidgetTracker.start demo_widgets)
    (WidgetTracker.run
       [WidgetTracker.Call_add false 1; WidgetTracker.Call_inject false 2]
       (WidgetTracker.start demo_widgets)).

Definition demo_stale_widgets : WidgetTracker.system :=
  default demo_injected_widgets
    (WidgetTracker.run [WidgetTracker.Dispose None 2] demo_injected_widgets).

(** A widget that [_onWidgetDisposed] will never take out of [_widgets]:
    it is flagged injected, or it is disposed and the tracker is not
    connected to it. *)
Definition kept_widget (w : obj) (t : WidgetTracker.state) : Prop :=
  w ∈ WidgetTracker._widgets t
  ∧ (w ∈ WidgetTracker.injectedProperty t
     ∨ (w ∈ WidgetTracker.isDisposed t ∧ w ∉ WidgetTracker.connected t)).

(** A restoration that failed: the tracker is marked as restored, no call
    of [restore] is under way, and [restored] was not resolved. *)
Definition failed_instances (sys : InstanceTracker.system) : Prop :=
  InstanceTracker._hasRestored (InstanceTracker.tracker sys) = true
  ∧ restoring_instances (InstanceTracker.tasks sys) = 0
  ∧ resolutions (InstanceTracker.log (InstanceTracker.tracker sys)) = 0.

Definition failed_widgets (sys : WidgetTracker.system) : Prop :=
  WidgetTracker._hasRestored (WidgetTracker.tracker sys) = true
  ∧ restoring_widgets (WidgetTracker.tasks sys) = 0
  ∧ resolutions (WidgetTracker.log (WidgetTracker.tracker sys)) = 0.

(** [restored] is not resolved in [sys] and never will be, whatever is
    done next. *)
Definition never_restored_instances (sys : InstanceTrackerMore.system) : Prop :=
  ∀ acts sys',
    InstanceTrackerMore.run acts sys = Some sys' →
    resolutions
      (InstanceTracker.log (InstanceTrackerMore.fields (InstanceTrackerMore.this sys')))
    = 0.

Definition never_restored_widgets (sys : WidgetTrackerMore.system) : Prop :=
  ∀ acts sys',
    WidgetTrackerMore.run acts sys = Some sys' →
    resolutions
      (WidgetTracker.log (WidgetTrackerMore.fields (WidgetTrackerMore.this sys')))
    = 0.

(** The promises handed to [Promise.all]: all of them resolved, or one of
    them rejected. *)
Definition all_resolved {A : Type} (ps : list (settled A)) : Prop :=
  Forall (λ p, ∃ a, p = Resolved a) ps.

Definition one_rejected {A : Type} (ps : list (settled A)) : Prop :=
  ∃ e, Rejected e ∈ ps.

(** [restore] was called and the listing has resolved: the call is
    suspended at the records' promises. *)
Definition demo_replaying_instances : InstanceTrackerMore.system :=
  default (InstanceTrackerMore.start demo_instances)
    (InstanceTrackerMore.run
       [InstanceTrackerMore.Act (InstanceTracker.Call_restore demo_options);
        InstanceTrackerMore.Act
          (InstanceTracker.Resume 0 (Listed (Resolved demo_saved)))]
       (InstanceTrackerMore.start demo_instances)).

(** [restore] was called on a tracker since disposed, and is suspended at
    the listing. *)
Definition demo_listing_widgets : WidgetTrackerMore.system :=
  default (WidgetTrackerMore.start demo_widgets)
    (WidgetTrackerMore.run
       [WidgetTrackerMore.Act (WidgetTracker.Call_restore demo_options);
        WidgetTrackerMore.Call_dispose]
       (WidgetTrackerMore.start demo_widgets)).

(** The listing is rejected. *)
Definition demo_failed_instances : InstanceTracker.system :=
  default (InstanceTracker.start demo_instances)
    (InstanceTracker.run
       [InstanceTracker.Call_restore demo_options;
        InstanceTracker.Resume 0 (Listed (Rejected External))]
       (InstanceTracker.start demo_instances)).

Definition demo_failed_widgets : WidgetTracker.system :=
  default (WidgetTracker.start demo_widgets)
    (WidgetTracker.run
       [WidgetTracker.Call_restore demo_options;
        WidgetTracker.Resume 0 (Listed (Rejected External))]
       (WidgetTracker.start demo_widgets)).

(** ** The restoration callback, record by record *)

Section Replay.
Variable options : IRestoreOptions.
Variable sv : saved.

Lemma replay_calls_lookup index id :
  ids sv !! index = Some id →
  replay_calls options sv !! index
    = Some (replay_call options id (value_at sv index)).
Proof.
  intros Hid. unfold replay_calls. by rewrite list_lookup_imap, Hid.
Qed.

Lemma replay_promises_lookup rm index id :
  ids sv !! index = Some id →
  replay_promises options rm sv !! index
    = Some (replay_promise options rm id (value_at sv index)).
Proof.
  intros Hid. unfold replay_promises. by rewrite list_lookup_imap, Hid.
Qed.

Lemma elem_of_replay_calls e :
  e ∈ replay_calls options sv ↔
  ∃ index id, ids sv !! index = Some id
              ∧ e = replay_call options id (value_at sv index).
Proof.
  unfold replay_calls. rewrite elem_of_lookup_imap.
  split; [intros (i & id & -> & ?) | intros (i & id & ? & ->)]; eauto.
Qed.

Lemma elem_of_replay_catches e :
  e ∈ replay_catches options sv ↔
  ∃ index id, ids sv !! index = Some id
              ∧ e ∈ replay_catch options id (value_at sv index).
Proof.
  unfold replay_catches.
  rewrite list_elem_of_In, in_concat. split.
  - intros (l & Hl & He).
    apply list_elem_of_In, elem_of_lookup_imap in Hl as (i & id & -> & Hid).
    exists i, id. split; [done|]. by apply list_elem_of_In.
  - intros (i & id & Hid & He).
    exists (replay_catch options id (value_at sv i)). split.
    + apply list_elem_of_In, elem_of_lookup_imap. eauto.
    + by apply list_elem_of_In.
Qed.

(** The [catch] handlers only ever remove records. *)
Lemma replay_catches_remove e :
  e ∈ replay_catches options sv → ∃ id, e = State_remove id.
Proof.
  intros (i & id & _ & He)%elem_of_replay_catches. exists id.
  unfold replay_catch in He.
  destruct (restore_args (value_at sv i)) as [a|]; [|by apply elem_of_nil in He].
  destruct (registry options (command options) a).
  - by apply elem_of_nil in He.
  - by apply list_elem_of_singleton in He.
Qed.

(** A record is removed from the database exactly when it is cleaned up. *)
Lemma removed_iff_cleaned id :
  State_remove id ∈ replay_calls options sv ++ replay_catches options sv ↔
  ∃ index, ids sv !! index = Some id ∧ cleaned options sv index.
Proof.
  rewrite elem_of_app, elem_of_replay_calls, elem_of_replay_catches.
  unfold cleaned, replay_call, replay_catch. split.
  - intros [(i & id' & Hid & He) | (i & id' & Hid & He)]; exists i;
      destruct (restore_args (value_at sv i)) as [a|]; try discriminate He.
    + by simplify_eq.
    + destruct (registry options (command options) a) as [r|e].
      * by apply elem_of_nil in He.
      * apply list_elem_of_singleton in He. simplify_eq. eauto.
    + by apply elem_of_nil in He.
  - intros (i & Hid & Hc).
    destruct (restore_args (value_at sv i)) as [a|] eqn:Ha.
    + right. exists i, id. rewrite Ha. destruct Hc as [e ->].
      split; [done|]. by apply list_elem_of_singleton.
    + left. exists i, id. by rewrite Ha.
Qed.

(** The command is executed exactly for the arguments of the records that
    carry data. *)
Lemma executed_iff_data c a :
  Registry_execute c a ∈ replay_calls options sv ++ replay_catches options sv ↔
  c = command options
  ∧ ∃ index id, ids sv !! index = Some id
                ∧ restore_args (value_at sv index) = Some a.
Proof.
  rewrite elem_of_app, elem_of_replay_calls, elem_of_replay_catches.
  unfold replay_call, replay_catch. split.
  - intros [(i & id & Hid & He) | (i & id & Hid & He)];
      destruct (restore_args (value_at sv i)) as [a'|] eqn:Ha; try discriminate He.
    + simplify_eq. eauto.
    + destruct (registry options (command options) a').
      * by apply elem_of_nil in He.
      * apply list_elem_of_singleton in He. discriminate.
    + by apply elem_of_nil in He.
  - intros (-> & i & id & Hid & Ha). left. exists i, id. by rewrite Ha.
Qed.

(** The calls of a restoration write nothing. *)
Lemma replay_writes_nothing e :
  e ∈ replay_calls options sv ++ replay_catches options sv →
  is_store_write e = false.
Proof.
  intros [He | He]%elem_of_app.
  - apply elem_of_replay_calls in He as (i & id & _ & ->).
    unfold replay_call. by destruct (restore_args _).
  - by apply replay_catches_remove in He as [id ->].
Qed.

(** With one record per id, a record that is not cleaned up stays. *)
Lemma retained index id :
  NoDup (ids sv) → ids sv !! index = Some id → ¬ cleaned options sv index →
  State_remove id ∉ replay_calls options sv ++ replay_catches options sv.
Proof.
  intros Hnd Hid Hc (j & Hj & Hcj)%removed_iff_cleaned.
  by rewrite (NoDup_lookup _ _ _ _ Hnd Hj Hid) in Hcj.
Qed.

End Replay.

(** A log that writes nothing never brings a record back. *)
Lemma database_after_absent evs db id :
  (∀ e, e ∈ evs → is_store_write e = false) →
  db !! id = None →
  database_after evs db !! id = None.
Proof.
  unfold database_after. revert db.
  induction evs as [|e evs IH]; intros db Hw Hdb; simpl; [done|].
  apply IH; [intros e' He'; apply Hw; by right|].
  assert (is_store_write e = false) as He by (apply Hw; by left).
  destruct e; simpl; try done.
  rewrite lookup_delete. by case_decide.
Qed.

(** The records after a log that writes nothing: those removed are gone,
    the others are as they were. *)
Lemma database_after_removals evs db id :
  (∀ e, e ∈ evs → is_store_write e = false) →
  (State_remove id ∈ evs → database_after evs db !! id = None)
  ∧ (State_remove id ∉ evs → database_after evs db !! id = db !! id).
Proof.
  revert db. induction evs as [|e evs IH]; intros db Hw.
  - split; [by intros ?%elem_of_nil | done].
  - assert (∀ e', e' ∈ evs → is_store_write e' = false) as Hw'
      by (intros e' He'; apply Hw; by right).
    assert (is_store_write e = false) as He by (apply Hw; by left).
    destruct (IH (apply_call db e) Hw') as [IHin IHout].
    change (database_after (e :: evs) db)
      with (database_after evs (apply_call db e)).
    split.
    + intros [<- | Hin]%elem_of_cons; [|by apply IHin].
      apply database_after_absent; [done|]. simpl. apply lookup_delete_eq.
    + intros [Hne Hout]%not_elem_of_cons. rewrite IHout by done.
      destruct e; simpl; try done.
      apply lookup_delete_ne. congruence.
Qed.

Lemma promise_all_resolved {A : Type} (ps : list (settled A)) (l : list A) :
  promise_all ps = Resolved l ↔ ps = Resolved <$> l.
Proof.
  revert l. induction ps as [|[a|e] ps IH]; intros l; simpl.
  - split; [intros [= <-]; done | by destruct l].
  - destruct (promise_all ps) as [l'|e] eqn:Hps.
    + split.
      * intros [= <-]. simpl. f_equal. by apply IH.
      * destruct l as [|b l]; [done|]. intros [= -> Hl].
        apply IH in Hl. by simplify_eq.
    + split; [done|]. destruct l as [|b l]; [done|]. intros [= -> Hl].
      apply IH in Hl. done.
  - split; [done | by destruct l].
Qed.

Lemma promise_all_lookup {A : Type} (ps : list (settled A)) (l : list A) i a :
  promise_all ps = Resolved l → ps !! i = Some (Resolved a) → l !! i = Some a.
Proof.
  intros Hps%promise_all_resolved Hi. subst ps.
  rewrite list_lookup_fmap in Hi.
  destruct (l !! i); simpl in Hi; by simplify_eq.
Qed.

Lemma InstanceTracker_restore_run options sv rm (s : InstanceTracker.state) :
  InstanceTracker._hasRestored s = false →
  ∃ s',
    InstanceTracker.complete (InstanceTracker.restoring sv rm)
      (InstanceTracker.restore options s)
    = (s', Return (restore_outcome (replay_promises options rm sv)))
    ∧ InstanceTracker.log s'
      = InstanceTracker.log s
        ++ State_list (InstanceTracker.namespace s)
           :: replay_calls options sv ++ replay_catches options sv
        ++ resolution (replay_promises options rm sv).
Proof.
  intros Hr.
  unfold InstanceTracker.complete, InstanceTracker.continue,
    InstanceTracker.restore, restore_outcome, resolution.
  rewrite Hr. simpl. unfold InstanceTracker.restore_resume_replay.
  destruct (promise_all (replay_promises options rm sv)); simpl;
    eexists; (split; [reflexivity|]); norm_log; done.
Qed.

Lemma WidgetTracker_restore_run options sv rm (s : WidgetTracker.state) :
  WidgetTracker._hasRestored s = false →
  ∃ s',
    WidgetTracker.complete (WidgetTracker.restoring sv rm)
      (WidgetTracker.restore options s)
    = (s', Return (restore_outcome (replay_promises options rm sv)))
    ∧ WidgetTracker.log s'
      = WidgetTracker.log s
        ++ State_list (WidgetTracker.namespace s)
           :: replay_calls options sv ++ replay_catches options sv
        ++ resolution (replay_promises options rm sv).
Proof.
  intros Hr.
  unfold WidgetTracker.complete, WidgetTracker.continue,
    WidgetTracker.restore, restore_outcome, resolution.
  rewrite Hr. simpl. unfold WidgetTracker.restore_resume_replay.
  destruct (promise_all (replay_promises options rm sv)); simpl;
    eexists; (split; [reflexivity|]); norm_log; done.
Qed.

(** C1.  A restoration on either tracker lists the namespace, runs the
    callback for every listed record and then the [catch] handlers.  For the
    record at any [index]: without data, the one call made for it is the
    removal of its id, and the command is not executed for it; with data,
    the command is executed with that data, a rejection is followed by the
    removal of the id, and a success makes the command's result the result
    of the record, which then stays in the database.  Each record's call,
    removal and result depend on that record alone.  The data of a record
    is what the callback extracts from the listed value: nothing from a
    missing value, and the [data] field of an object.  After the calls of
    the restoration have taken effect, a record that was cleaned up is
    gone, and a record replayed with success is as it was. *)
Theorem restore_replays_each_record
    (options : IRestoreOptions) (sv : saved) (rm : string → settled ())
    (s : InstanceTracker.state) (t : WidgetTracker.state)
    (index : nat) (id : string) :
  InstanceTracker._hasRestored s = false →
  WidgetTracker._hasRestored t = false →
  ids sv !! index = Some id →
  let calls := replay_calls options sv in
  let catches := replay_catches options sv in
  let promises := replay_promises options rm sv in
  (∃ s',
     InstanceTracker.complete (InstanceTracker.restoring sv rm)
       (InstanceTracker.restore options s)
     = (s', Return (restore_outcome promises))
     ∧ InstanceTracker.log s'
       = InstanceTracker.log s
         ++ State_list (InstanceTracker.namespace s) :: calls ++ catches
         ++ resolution promises)
  ∧ (∃ t',
     WidgetTracker.complete (WidgetTracker.restoring sv rm)
       (WidgetTracker.restore options t)
     = (t', Return (restore_outcome promises))
     ∧ WidgetTracker.log t'
       = WidgetTracker.log t
         ++ State_list (WidgetTracker.namespace t) :: calls ++ catches
         ++ resolution promises)
  ∧ match restore_args (value_at sv index) with
    | None =>
        calls !! index = Some (State_remove id)
        ∧ promises !! index = Some (void (rm id))
        ∧ (∀ db, database_after (calls ++ catches) db !! id = None)
    | Some a =>
        calls !! index = Some (Registry_execute (command options) a)
        ∧ match registry options (command options) a with
          | Rejected _ =>
              State_remove id ∈ catches
              ∧ promises !! index = Some (void (rm id))
              ∧ (∀ db, database_after (calls ++ catches) db !! id = None)
          | Resolved r =>
              promises !! index = Some (Resolved r)
              ∧ match promise_all promises with
                | Resolved vals => vals !! index = Some r
                | Rejected _ => True
                end
              ∧ (NoDup (ids sv) →
                 (State_remove id ∉ calls ++ catches)
                 ∧ (∀ db, database_after (calls ++ catches) db !! id
                          = db !! id))
          end
    end
  ∧ length calls = length (ids sv)
  ∧ (∀ e, e ∈ catches → ∃ id', e = State_remove id')
  ∧ (∀ id', State_remove id' ∈ calls ++ catches ↔
            ∃ j, ids sv !! j = Some id' ∧ cleaned options sv j)
  ∧ (∀ c a, Registry_execute c a ∈ calls ++ catches ↔
            c = command options
            ∧ ∃ j id', ids sv !! j = Some id'
                       ∧ restore_args (value_at sv j) = Some a)
  ∧ restore_args None = None
  ∧ (∀ fields, restore_args (Some (JObj fields)) = get_field "data" fields).
Proof.
  intros Hs Ht Hid calls catches promises.
  split; [by apply InstanceTracker_restore_run|].
  split; [by apply WidgetTracker_restore_run|].
  split; [|split; [apply length_imap|split; [apply replay_catches_remove|
    split; [apply removed_iff_cleaned |
    split; [apply executed_iff_data | done]]]]].
  pose proof (replay_calls_lookup options sv index id Hid) as Hcall.
  pose proof (replay_promises_lookup options sv rm index id Hid) as Hprom.
  fold calls in Hcall. fold promises in Hprom.
  unfold replay_call in Hcall. unfold replay_promise in Hprom.
  assert (cleaned options sv index →
          ∀ db, database_after (calls ++ catches) db !! id = None) as Hgone.
  { intros Hc db.
    apply (database_after_removals _ db id (replay_writes_nothing options sv)).
    apply removed_iff_cleaned. eauto. }
  destruct (restore_args (value_at sv index)) as [a|] eqn:Ha.
  2: { split; [done|]. split; [done|]. apply Hgone. unfold cleaned. by rewrite Ha. }
  split; [done|].
  destruct (registry options (command options) a) as [r|e] eqn:Hreg.
  - split; [done|]. split.
    + destruct (promise_all promises) as [vals|] eqn:Hall; [|done].
      by eapply promise_all_lookup.
    + intros Hnd.
      assert (State_remove id ∉ calls ++ catches) as Hkept.
      { eapply retained; [done..|].
        unfold cleaned. rewrite Ha, Hreg. by intros [? ?]. }
      split; [done|]. intros db.
      by apply (database_after_removals _ db id (replay_writes_nothing options sv)).
  - split; [|split; [done|]].
    + apply elem_of_replay_catches. exists index, id.
      split; [done|]. unfold replay_catch. rewrite Ha, Hreg.
      by apply list_elem_of_singleton.
    + apply Hgone. unfold cleaned. rewrite Ha, Hreg. eauto.
Qed.

Lemma restore_replays_each_record_witness :
  replay_calls demo_options demo_saved !! 0
    = Some (Registry_execute "open" (JObj [("path", JStr "a.txt")]))
  ∧ replay_promises demo_options demo_rm demo_saved !! 0
    = Some (Resolved (Some (JStr "opened"))).
Proof.
  pose proof (restore_replays_each_record demo_options demo_saved demo_rm
                demo_instances demo_widgets 0 "nb:doc1"
                eq_refl eq_refl eq_refl) as (_ & _ & H & _).
  simpl in H. destruct H as (Hcall & Hprom & _). split; assumption.
Defined.

(** C10, as the code has it.  Orphan cleanup is triggered only by
    [args === undefined].  For a listed record whose [data] field is
    [null], and for one whose value is itself [null], the extracted
    arguments are [null]: the call made for the record when the callback
    runs is the execution of the command with [null], not the removal of
    the record, on both trackers.  What becomes of the record is then
    decided by the command, as for any other record: when the execution
    succeeds no removal follows and the record is in the database as
    before; when it is rejected the [catch] handler removes the record. *)
Theorem restore_executes_null_data
    (options : IRestoreOptions) (sv : saved) (rm : string → settled ())
    (s : InstanceTracker.state) (t : WidgetTracker.state)
    (index : nat) (id : string) :
  ids sv !! index = Some id →
  (value_at sv index = Some JNull
   ∨ ∃ fields, value_at sv index = Some (JObj fields)
               ∧ get_field "data" fields = Some JNull) →
  restore_args (value_at sv index) = Some JNull
  ∧ replay_calls options sv !! index
    = Some (Registry_execute (command options) JNull)
  ∧ InstanceTracker.log
      (InstanceTracker.restore_resume_list options (Resolved sv) s).1
    !! (length (InstanceTracker.log s) + index)
    = Some (Registry_execute (command options) JNull)
  ∧ WidgetTracker.log
      (WidgetTracker.restore_resume_list options (Resolved sv) t).1
    !! (length (WidgetTracker.log t) + index)
    = Some (Registry_execute (command options) JNull)
  ∧ match registry options (command options) JNull with
    | Resolved r =>
        replay_catch options id (value_at sv index) = []
        ∧ replay_promises options rm sv !! index = Some (Resolved r)
        ∧ (NoDup (ids sv) →
           ∀ db, database_after
                   (replay_calls options sv ++ replay_catches options sv) db !! id
                 = db !! id)
    | Rejected _ =>
        replay_catch options id (value_at sv index) = [State_remove id]
        ∧ replay_promises options rm sv !! index = Some (void (rm id))
        ∧ State_remove id ∈ replay_catches options sv
        ∧ (∀ db, database_after
                   (replay_calls options sv ++ replay_catches options sv) db !! id
                 = None)
    end
  ∧ (∀ id' v, replay_call options id' v = State_remove id'
              ↔ restore_args v = None)
  ∧ (∀ v, restore_args v = None
          ↔ v = None ∨ ∃ j, v = Some j ∧ truthy j = true
                            ∧ property "data" j = None).
Proof.
  intros Hid Hv.
  assert (restore_args (value_at sv index) = Some JNull) as Ha.
  { destruct Hv as [-> | (fields & -> & Hf)]; [done|]. simpl. done. }
  pose proof (replay_calls_lookup options sv index id Hid) as Hcall.
  unfold replay_call in Hcall. rewrite Ha in Hcall.
  split; [done|]. split; [done|].
  split. { simpl. rewrite lookup_app_r by lia.
           by replace (_ + index - _) with index by lia. }
  split. { simpl. rewrite lookup_app_r by lia.
           by replace (_ + index - _) with index by lia. }
  split.
  { unfold replay_catch. rewrite Ha.
    destruct (registry options (command options) JNull) eqn:Hreg.
    2: { split; [done|]. split.
         { rewrite (replay_promises_lookup options sv rm index id Hid).
           unfold replay_promise. by rewrite Ha, Hreg. }
         assert (State_remove id ∈ replay_catches options sv) as Hin.
         { apply elem_of_replay_catches. exists index, id. split; [done|].
           unfold replay_catch. rewrite Ha, Hreg. by apply list_elem_of_singleton. }
         split; [done|]. intros db.
         apply (database_after_removals _ db id (replay_writes_nothing options sv)).
         apply elem_of_app. by right. }
    split; [done|]. split.
    - rewrite (replay_promises_lookup options sv rm index id Hid).
      unfold replay_promise. by rewrite Ha, Hreg.
    - intros Hnd db.
      apply (database_after_removals _ db id (replay_writes_nothing options sv)).
      eapply retained; [done..|].
      unfold cleaned. rewrite Ha, Hreg. by intros [? ?]. }
  split.
  - intros id' v. unfold replay_call.
    destruct (restore_args v); split; intros; done.
  - intros [j|]; simpl.
    + destruct (truthy j) eqn:Htr; split.
      * intros Hp. right. eauto.
      * intros [? | (j' & [= <-] & _ & Hp)]; done.
      * done.
      * intros [? | (j' & [= <-] & ? & _)]; congruence.
    + split; auto.
Qed.

Lemma restore_executes_null_data_witness :
  replay_calls demo_options demo_saved !! 2 = Some (Registry_execute "open" JNull)
  ∧ replay_calls demo_options demo_saved !! 3 = Some (Registry_execute "open" JNull).
Proof.
  split.
  - refine (proj1 (proj2 (restore_executes_null_data demo_options demo_saved
      demo_rm demo_instances demo_widgets 2 "nb:doc3" eq_refl _))).
    right. exists [("data", JNull)]. split; reflexivity.
  - refine (proj1 (proj2 (restore_executes_null_data demo_options demo_saved
      demo_rm demo_instances demo_widgets 3 "nb:doc4" eq_refl _))).
    left. reflexivity.
Defined.

(** The record whose [data] is [null] is removed when the command rejects
    [null]: in the worked scenario the command is executed with [null] for
    the third and the fourth record, it is rejected, and both records are
    removed from the database. *)
Lemma null_data_record_removed_when_command_rejects :
  replay_calls demo_options demo_saved !! 2 = Some (Registry_execute "open" JNull)
  ∧ registry demo_options "open" JNull = Rejected External
  ∧ replay_catches demo_options demo_saved
    = [State_remove "nb:doc3"; State_remove "nb:doc4"]
  ∧ database_after
      (replay_calls demo_options demo_saved ++ replay_catches demo_options demo_saved)
      {["nb:doc3" := JObj [("data", JNull)]]} !! "nb:doc3"
    = None.
Proof. vm_compute. repeat split; reflexivity. Qed.

(** ** Saving *)

Lemma InstanceTracker_save_run r o (s : InstanceTracker.state) :
  InstanceTracker._restore s = Some r →
  InstanceTracker.has o s = true →
  InstanceTracker.injected o s = false →
  let oldName := InstanceTracker.name_of o s in
  let newName := if String.eqb (name r o) "" then ""
                 else InstanceTracker.key s (name r o) in
  ∃ s',
    InstanceTracker.complete InstanceTracker.storing (InstanceTracker.save o s)
    = (s', Return (Resolved Void))
    ∧ InstanceTracker.log s'
      = InstanceTracker.log s
        ++ save_events r o oldName newName
    ∧ InstanceTracker.name_of o s' = newName.
Proof.
  intros Hr Hhas Hinj oldName newName.
  unfold InstanceTracker.complete, InstanceTracker.continue, InstanceTracker.save.
  rewrite Hr, Hhas, Hinj. simpl. fold oldName newName. unfold save_events.
  destruct (negb (String.eqb oldName "") && negb (String.eqb oldName newName)) eqn:Hrm;
    simpl; unfold InstanceTracker.save_name; simpl;
    destruct (String.eqb newName "") eqn:Hnew; simpl;
    rewrite ?Hr; simpl; unfold InstanceTracker.save_finish;
    destruct (String.eqb oldName newName) eqn:Hsame; simpl;
    (eexists; split; [reflexivity|]; split; [norm_log; reflexivity|]);
    unfold InstanceTracker.name_of; simpl; by rewrite lookup_insert_eq.
Qed.

Lemma WidgetTracker_save_run r w (t : WidgetTracker.state) :
  WidgetTracker._restore t = Some r →
  WidgetTracker.has w t = true →
  WidgetTracker.injected w t = false →
  let oldName := WidgetTracker.name_of w t in
  let newName := if String.eqb (name r w) "" then ""
                 else WidgetTracker.key t (name r w) in
  ∃ t',
    WidgetTracker.complete WidgetTracker.storing (WidgetTracker.save w t)
    = (t', Return (Resolved Void))
    ∧ WidgetTracker.log t'
      = WidgetTracker.log t
        ++ save_events r w oldName newName
    ∧ WidgetTracker.name_of w t' = newName.
Proof.
  intros Hr Hhas Hinj oldName newName.
  unfold WidgetTracker.complete, WidgetTracker.continue, WidgetTracker.save.
  rewrite Hr, Hhas, Hinj. simpl. fold oldName newName. unfold save_events.
  destruct (negb (String.eqb oldName "") && negb (String.eqb oldName newName)) eqn:Hrm;
    simpl; unfold WidgetTracker.save_name; simpl;
    destruct (String.eqb newName "") eqn:Hnew; simpl;
    rewrite ?Hr; simpl; unfold WidgetTracker.save_finish;
    destruct (String.eqb oldName newName) eqn:Hsame; simpl;
    (eexists; split; [reflexivity|]; split; [norm_log; reflexivity|]);
    unfold WidgetTracker.name_of; simpl; by rewrite lookup_insert_eq.
Qed.

(** The order and the number of the events of a save. *)
Lemma save_events_order r o oldName newName pre post id v :
  save_events r o oldName newName = pre ++ State_save id v :: post →
  id = newName ∧ newName ≠ "" ∧ v = JObj [("data", args r o)]
  ∧ (∀ e, e ∈ post → e = Updated o)
  ∧ (oldName ≠ "" → oldName ≠ newName → pre = [State_remove oldName]).
Proof.
  unfold save_events. intros Heq.
  destruct (String.eqb oldName "") eqn:Hold;
    destruct (String.eqb oldName newName) eqn:Hsame;
    destruct (String.eqb newName "") eqn:Hnew; simpl in Heq;
    apply String.eqb_eq in Hold || apply String.eqb_neq in Hold;
    apply String.eqb_eq in Hsame || apply String.eqb_neq in Hsame;
    apply String.eqb_eq in Hnew || apply String.eqb_neq in Hnew;
    repeat (destruct pre as [|? pre]; simpl in Heq; try discriminate Heq);
    simplify_eq; repeat split; try done;
    intros e He; try (by apply elem_of_nil in He);
    by apply list_elem_of_singleton in He.
Qed.

Lemma save_events_count r o oldName newName :
  count_events is_store_write (save_events r o oldName newName)
    = (if String.eqb newName "" then 0 else 1)
  ∧ count_events (is_updated o) (save_events r o oldName newName)
    = (if String.eqb oldName newName then 0 else 1).
Proof.
  unfold save_events, count_events.
  destruct (String.eqb oldName ""), (String.eqb oldName newName),
    (String.eqb newName ""); simpl; rewrite ?Nat.eqb_refl; done.
Qed.

Lemma save_events_remove r o oldName newName id :
  State_remove id ∈ save_events r o oldName newName ↔
  id = oldName ∧ oldName ≠ "" ∧ oldName ≠ newName.
Proof.
  unfold save_events.
  destruct (String.eqb oldName "") eqn:Hold;
    destruct (String.eqb oldName newName) eqn:Hsame;
    destruct (String.eqb newName "") eqn:Hnew; simpl;
    apply String.eqb_eq in Hold || apply String.eqb_neq in Hold;
    apply String.eqb_eq in Hsame || apply String.eqb_neq in Hsame;
    apply String.eqb_eq in Hnew || apply String.eqb_neq in Hnew;
    rewrite ?elem_of_cons, ?elem_of_nil; split;
    try (intros (-> & ? & ?); solve [tauto | auto]);
    intros H; repeat (destruct H as [H|H]); try done; try congruence;
    by simplify_eq.
Qed.

(** The records after a save: the old record is gone when the name
    changed, and the new name holds the data. *)
Lemma save_events_database r o oldName newName db :
  database_after (save_events r o oldName newName) db
  = (let db1 := if negb (String.eqb oldName "") && negb (String.eqb oldName newName)
                then delete oldName db else db in
     if String.eqb newName "" then db1
     else <[newName := JObj [("data", args r o)]]> db1).
Proof.
  unfold save_events, database_after.
  destruct (String.eqb oldName ""), (String.eqb oldName newName),
    (String.eqb newName ""); reflexivity.
Qed.

Lemma save_events_records r o oldName newName db :
  (newName ≠ "" →
   database_after (save_events r o oldName newName) db !! newName
   = Some (JObj [("data", args r o)]))
  ∧ (oldName ≠ "" → oldName ≠ newName →
     database_after (save_events r o oldName newName) db !! oldName = None).
Proof.
  rewrite save_events_database. split.
  - intros Hn%String.eqb_neq. simpl. rewrite Hn. apply lookup_insert_eq.
  - intros Ho%String.eqb_neq Hne. pose proof Hne as Hne'%String.eqb_neq.
    simpl. rewrite Ho, Hne'. simpl.
    destruct (String.eqb newName "").
    + apply lookup_delete_eq.
    + rewrite lookup_insert_ne by done. apply lookup_delete_eq.
Qed.

(** C2.  On either tracker, for a tracked object that is not injected, with
    restoration options installed and a state database that completes its
    operations: [save] removes the record under the old name when that name
    is not empty and differs from the new one, and does so before writing;
    it records the new name, empty or not; it writes [{data: args(obj)}]
    under the new name exactly when that name is not empty; and it emits
    [updated] once when the name changed and not at all otherwise.  Once
    the calls have taken effect the database holds the data under the new
    name and nothing under the old one. *)
Theorem save_removes_old_record_before_writing
    (r : IRestoreOptions) (o : obj)
    (s : InstanceTracker.state) (t : WidgetTracker.state) :
  InstanceTracker._restore s = Some r →
  InstanceTracker.has o s = true →
  InstanceTracker.injected o s = false →
  WidgetTracker._restore t = Some r →
  WidgetTracker.has o t = true →
  WidgetTracker.injected o t = false →
  let oldI := InstanceTracker.name_of o s in
  let newI := if String.eqb (name r o) "" then ""
              else InstanceTracker.key s (name r o) in
  let oldW := WidgetTracker.name_of o t in
  let newW := if String.eqb (name r o) "" then ""
              else WidgetTracker.key t (name r o) in
  (∃ s',
     InstanceTracker.complete InstanceTracker.storing (InstanceTracker.save o s)
     = (s', Return (Resolved Void))
     ∧ InstanceTracker.log s' = InstanceTracker.log s ++ save_events r o oldI newI
     ∧ InstanceTracker.name_of o s' = newI)
  ∧ (∃ t',
     WidgetTracker.complete WidgetTracker.storing (WidgetTracker.save o t)
     = (t', Return (Resolved Void))
     ∧ WidgetTracker.log t' = WidgetTracker.log t ++ save_events r o oldW newW
     ∧ WidgetTracker.name_of o t' = newW)
  ∧ (∀ oldName newName,
       (∀ pre post id v,
          save_events r o oldName newName = pre ++ State_save id v :: post →
          id = newName ∧ newName ≠ "" ∧ v = JObj [("data", args r o)]
          ∧ (∀ e, e ∈ post → e = Updated o)
          ∧ (oldName ≠ "" → oldName ≠ newName → pre = [State_remove oldName]))
       ∧ (∀ id, State_remove id ∈ save_events r o oldName newName ↔
                id = oldName ∧ oldName ≠ "" ∧ oldName ≠ newName)
       ∧ count_events is_store_write (save_events r o oldName newName)
         = (if String.eqb newName "" then 0 else 1)
       ∧ count_events (is_updated o) (save_events r o oldName newName)
         = (if String.eqb oldName newName then 0 else 1)
       ∧ (∀ db,
            (newName ≠ "" →
             database_after (save_events r o oldName newName) db !! newName
             = Some (JObj [("data", args r o)]))
            ∧ (oldName ≠ "" → oldName ≠ newName →
               database_after (save_events r o oldName newName) db !! oldName
               = None))).
Proof.
  intros Hs1 Hs2 Hs3 Ht1 Ht2 Ht3 oldI newI oldW newW.
  split; [by apply InstanceTracker_save_run|].
  split; [by apply WidgetTracker_save_run|].
  intros oldName newName. split; [apply save_events_order|].
  split; [intros id; apply save_events_remove|].
  destruct (save_events_count r o oldName newName) as [Hw Hu].
  split; [done|]. split; [done|]. intros db. apply save_events_records.
Qed.

Lemma save_removes_old_record_before_writing_witness :
  InstanceTracker.log
    (InstanceTracker.complete InstanceTracker.storing
       (InstanceTracker.save 1 demo_renamed_instance)).1
  = InstanceTracker.log demo_renamed_instance
    ++ [State_remove "nb:old";
        State_save "nb:doc1" (JObj [("data", JObj [("path", JStr "a.txt")])]);
        Updated 1]
  ∧ WidgetTracker.log
    (WidgetTracker.complete WidgetTracker.storing
       (WidgetTracker.save 1 demo_renamed_widget)).1
  = WidgetTracker.log demo_renamed_widget
    ++ [State_remove "nb:old";
        State_save "nb:doc1" (JObj [("data", JObj [("path", JStr "a.txt")])]);
        Updated 1].
Proof.
  destruct (save_removes_old_record_before_writing demo_options 1
              demo_renamed_instance demo_renamed_widget
              eq_refl eq_refl eq_refl eq_refl eq_refl eq_refl)
    as ((s' & Hs & Hlog & _) & (t' & Ht & Hlogt & _) & _).
  rewrite Hs, Ht. simpl. rewrite Hlog, Hlogt. split; reflexivity.
Defined.

(** X3.  When the database rejects the removal of the old record, [save]
    is rejected at that point: the recorded name is left as it was, nothing
    is written and [updated] is not emitted. *)
Lemma save_stops_at_a_rejected_removal r o e (s : InstanceTracker.state) :
  InstanceTracker._restore s = Some r →
  InstanceTracker.has o s = true →
  InstanceTracker.injected o s = false →
  let oldName := InstanceTracker.name_of o s in
  let newName := if String.eqb (name r o) "" then ""
                 else InstanceTracker.key s (name r o) in
  oldName ≠ "" → oldName ≠ newName →
  InstanceTracker.complete (λ _, Settle (Rejected e)) (InstanceTracker.save o s)
  = (InstanceTracker.emit (State_remove oldName) s, Return (Rejected e)).
Proof.
  intros Hr Hh Hi oldName newName Hold Hne.
  unfold InstanceTracker.complete, InstanceTracker.continue, InstanceTracker.save.
  rewrite Hr, Hh, Hi. simpl. fold oldName newName.
  apply String.eqb_neq in Hold, Hne. by rewrite Hold, Hne.
Qed.

Lemma save_stops_at_a_rejected_removal_witness :
  InstanceTracker.name_of 1
    (InstanceTracker.complete (λ _, Settle (Rejected External))
       (InstanceTracker.save 1 demo_renamed_instance)).1 = "nb:old"
  ∧ (InstanceTracker.complete (λ _, Settle (Rejected External))
       (InstanceTracker.save 1 demo_renamed_instance)).2
    = Return (Rejected External).
Proof.
  assert (InstanceTracker.name_of 1 demo_renamed_instance ≠ "") as H1 by done.
  assert (InstanceTracker.name_of 1 demo_renamed_instance
          ≠ (if String.eqb (name demo_options 1) "" then ""
             else InstanceTracker.key demo_renamed_instance (name demo_options 1)))
    as H2 by done.
  rewrite (save_stops_at_a_rejected_removal demo_options 1 External
             demo_renamed_instance eq_refl eq_refl eq_refl H1 H2).
  split; reflexivity.
Defined.

(** ** Adding *)

Lemma InstanceTracker_add_finish_frame o (s : InstanceTracker.state) :
  InstanceTracker._instances (InstanceTracker.add_finish o s)
    = InstanceTracker._instances s
  ∧ InstanceTracker.isDisposed (InstanceTracker.add_finish o s)
    = InstanceTracker.isDisposed s
  ∧ InstanceTracker.injectedProperty (InstanceTracker.add_finish o s)
    = InstanceTracker.injectedProperty s
  ∧ InstanceTracker.connected (InstanceTracker.add_finish o s)
    = InstanceTracker.connected s.
Proof.
  unfold InstanceTracker.add_finish, InstanceTracker.set_current.
  branches; done.
Qed.

(** The first segment of [add] on an object that is neither disposed nor
    tracked: the object is inserted, and the segment does not reject. *)
Lemma InstanceTracker_add_fresh o (s : InstanceTracker.state) :
  o ∉ InstanceTracker.isDisposed s →
  InstanceTracker.has o s = false →
  InstanceTracker._instances (InstanceTracker.add o s).1
    = InstanceTracker._instances s ++ [o]
  ∧ InstanceTracker.isDisposed (InstanceTracker.add o s).1
    = InstanceTracker.isDisposed s
  ∧ ((InstanceTracker.add o s).2 = Return (Resolved Void)
     ∨ (InstanceTracker.add o s).2 = Await (InstanceTracker.Add_save o)).
Proof.
  intros Hd Hh. unfold InstanceTracker.add.
  rewrite decide_False, Hh by done.
  unfold InstanceTracker.add_finish, InstanceTracker.set_current.
  branches; auto.
Qed.

Lemma InstanceTracker_add_again o (s : InstanceTracker.state) :
  o ∉ InstanceTracker.isDisposed s →
  o ∈ InstanceTracker._instances s →
  InstanceTracker.add o s = (s, Return (Rejected DuplicateMember)).
Proof.
  intros Hd Hin. unfold InstanceTracker.add, InstanceTracker.has.
  by rewrite decide_False, bool_decide_eq_true_2.
Qed.

Lemma InstanceTracker_continue_add_frame env o (s : InstanceTracker.state) n :
  (n = Return (Resolved Void) ∨ n = Await (InstanceTracker.Add_save o)) →
  InstanceTracker._instances (InstanceTracker.continue env (s, n)).1
    = InstanceTracker._instances s
  ∧ InstanceTracker.isDisposed (InstanceTracker.continue env (s, n)).1
    = InstanceTracker.isDisposed s
  ∧ ((InstanceTracker.continue env (s, n)).2 = n
     ∨ ∃ r, (InstanceTracker.continue env (s, n)).2 = Return r).
Proof.
  intros [-> | ->]; simpl; [auto|].
  destruct (env (InstanceTracker.Add_save o)) as [[[]|e]| |]; simpl; eauto.
  pose proof (InstanceTracker_add_finish_frame o s) as (? & ? & _). eauto.
Qed.

Lemma FocusTracker_add_widgets focused w ft :
  FocusTracker.has w ft = false →
  FocusTracker.widgets (FocusTracker.add focused w ft)
    = FocusTracker.widgets ft ++ [w].
Proof. intros Hh. unfold FocusTracker.add. by rewrite Hh. Qed.

Lemma WidgetTracker_tracker_becomes_frame ft (t : WidgetTracker.state) :
  WidgetTracker._tracker (WidgetTracker.tracker_becomes ft t) = ft
  ∧ WidgetTracker.isDisposed (WidgetTracker.tracker_becomes ft t)
    = WidgetTracker.isDisposed t
  ∧ WidgetTracker.injectedProperty (WidgetTracker.tracker_becomes ft t)
    = WidgetTracker.injectedProperty t
  ∧ WidgetTracker._widgets (WidgetTracker.tracker_becomes ft t)
    = WidgetTracker._widgets t
  ∧ WidgetTracker._restore (WidgetTracker.tracker_becomes ft t)
    = WidgetTracker._restore t.
Proof.
  unfold WidgetTracker.tracker_becomes, WidgetTracker._onCurrentChanged.
  branches; done.
Qed.

Lemma WidgetTracker_add_fresh focused w (t : WidgetTracker.state) :
  w ∉ WidgetTracker.isDisposed t →
  WidgetTracker.has w t = false →
  FocusTracker.widgets (WidgetTracker._tracker (WidgetTracker.add focused w t).1)
    = FocusTracker.widgets (WidgetTracker._tracker t) ++ [w]
  ∧ WidgetTracker.isDisposed (WidgetTracker.add focused w t).1
    = WidgetTracker.isDisposed t
  ∧ ((WidgetTracker.add focused w t).2 = Return (Resolved Void)
     ∨ (WidgetTracker.add focused w t).2 = Await (WidgetTracker.Add_save w)).
Proof.
  intros Hd Hh. unfold WidgetTracker.add. unfold WidgetTracker.has in Hh.
  rewrite decide_False, Hh by done.
  pose proof (WidgetTracker_tracker_becomes_frame
                (FocusTracker.add focused w (WidgetTracker._tracker t)) t)
    as (Hft & Hdis & Hinj & Hw & Hr).
  set (t1 := WidgetTracker.tracker_becomes _ t) in *.
  pose proof (FocusTracker_add_widgets focused w _ Hh) as Hadd.
  rewrite <- Hft in Hadd.
  branches; rewrite ?Hadd, ?Hdis; auto.
Qed.

Lemma WidgetTracker_add_again focused w (t : WidgetTracker.state) :
  w ∉ WidgetTracker.isDisposed t →
  w ∈ FocusTracker.widgets (WidgetTracker._tracker t) →
  WidgetTracker.add focused w t = (t, Return (Rejected DuplicateMember)).
Proof.
  intros Hd Hin. unfold WidgetTracker.add, FocusTracker.has.
  by rewrite decide_False, bool_decide_eq_true_2.
Qed.

Lemma WidgetTracker_continue_add_frame env w (t : WidgetTracker.state) n :
  (n = Return (Resolved Void) ∨ n = Await (WidgetTracker.Add_save w)) →
  (WidgetTracker.continue env (t, n)).1 = t.
Proof.
  intros [-> | ->]; simpl; [done|].
  destruct (env (WidgetTracker.Add_save w)) as [[[]|e]| |]; done.
Qed.

(** C9.  [add] on a disposed object, and [add] on an object already
    tracked, reject and leave the whole state as it was: size, signals and
    calls to the database included.  In every other case the first segment
    inserts the object and does not reject, so the size grows by one, and a
    second [add] of the same object, at once or after the first has
    settled, is rejected as a duplicate and changes nothing. *)
Theorem add_rejects_disposed_and_duplicates
    (o : obj) (s : InstanceTracker.state)
    (focused : bool) (t : WidgetTracker.state)
    (env : InstanceTracker.pending → input)
    (envw : WidgetTracker.pending → input) :
  (if decide (o ∈ InstanceTracker.isDisposed s)
   then InstanceTracker.add o s = (s, Return (Rejected DisposedInput))
   else if InstanceTracker.has o s
   then InstanceTracker.add o s = (s, Return (Rejected DuplicateMember))
   else
     let s1 := (InstanceTracker.add o s).1 in
     let s2 := (InstanceTracker.complete env (InstanceTracker.add o s)).1 in
     InstanceTracker.size s1 = S (InstanceTracker.size s)
     ∧ (∀ e, (InstanceTracker.add o s).2 ≠ Return (Rejected e))
     ∧ InstanceTracker.add o s1 = (s1, Return (Rejected DuplicateMember))
     ∧ InstanceTracker.size s2 = S (InstanceTracker.size s)
     ∧ InstanceTracker.add o s2 = (s2, Return (Rejected DuplicateMember)))
  ∧ (if decide (o ∈ WidgetTracker.isDisposed t)
     then WidgetTracker.add focused o t = (t, Return (Rejected DisposedInput))
     else if WidgetTracker.has o t
     then WidgetTracker.add focused o t = (t, Return (Rejected DuplicateMember))
     else
       let t1 := (WidgetTracker.add focused o t).1 in
       let t2 := (WidgetTracker.complete envw (WidgetTracker.add focused o t)).1 in
       WidgetTracker.size t1 = S (WidgetTracker.size t)
       ∧ (∀ e, (WidgetTracker.add focused o t).2 ≠ Return (Rejected e))
       ∧ WidgetTracker.add focused o t1 = (t1, Return (Rejected DuplicateMember))
       ∧ WidgetTracker.size t2 = S (WidgetTracker.size t)
       ∧ WidgetTracker.add focused o t2 = (t2, Return (Rejected DuplicateMember))).
Proof.
  split.
  - case_decide as Hd.
    { unfold InstanceTracker.add. by rewrite decide_True. }
    destruct (InstanceTracker.has o s) eqn:Hh.
    { unfold InstanceTracker.add. by rewrite decide_False, Hh. }
    destruct (InstanceTracker_add_fresh o s Hd Hh) as (Hi & Hdis & Hn).
    destruct (InstanceTracker.add o s) as [s1 n] eqn:Hadd. cbn [fst snd] in *.
    assert (InstanceTracker.size s1 = S (InstanceTracker.size s)) as Hsz.
    { unfold InstanceTracker.size. rewrite Hi, length_app. simpl. lia. }
    split; [done|]. split; [by destruct Hn as [-> | ->]|].
    split.
    { apply InstanceTracker_add_again; [by rewrite Hdis|].
      rewrite Hi. apply elem_of_app. right. by apply list_elem_of_singleton. }
    unfold InstanceTracker.complete.
    destruct (InstanceTracker_continue_add_frame env o s1 n Hn) as (Hi1 & Hd1 & Hn1).
    destruct (InstanceTracker.continue env (s1, n)) as [s1' n'] eqn:Hc1.
    cbn [fst snd] in *.
    assert (InstanceTracker._instances (InstanceTracker.continue env (s1', n')).1
              = InstanceTracker._instances s1'
            ∧ InstanceTracker.isDisposed (InstanceTracker.continue env (s1', n')).1
              = InstanceTracker.isDisposed s1') as (Hi2 & Hd2).
    { destruct Hn1 as [-> | [r ->]].
      - destruct (InstanceTracker_continue_add_frame env o s1' n Hn) as (? & ? & _).
        done.
      - done. }
    split.
    { unfold InstanceTracker.size. rewrite Hi2, Hi1. apply Hsz. }
    apply InstanceTracker_add_again.
    + by rewrite Hd2, Hd1, Hdis.
    + rewrite Hi2, Hi1, Hi. apply elem_of_app. right.
      by apply list_elem_of_singleton.
  - case_decide as Hd.
    { unfold WidgetTracker.add. by rewrite decide_True. }
    destruct (WidgetTracker.has o t) eqn:Hh.
    { unfold WidgetTracker.add. unfold WidgetTracker.has in Hh.
      by rewrite decide_False, Hh. }
    destruct (WidgetTracker_add_fresh focused o t Hd Hh) as (Hi & Hdis & Hn).
    destruct (WidgetTracker.add focused o t) as [t1 n] eqn:Hadd. cbn [fst snd] in *.
    assert (WidgetTracker.size t1 = S (WidgetTracker.size t)) as Hsz.
    { unfold WidgetTracker.size. rewrite Hi, length_app. simpl. lia. }
    assert (WidgetTracker.add focused o t1 = (t1, Return (Rejected DuplicateMember)))
      as Hagain.
    { apply WidgetTracker_add_again; [by rewrite Hdis|].
      rewrite Hi. apply elem_of_app. right. by apply list_elem_of_singleton. }
    split; [done|]. split; [by destruct Hn as [-> | ->]|].
    split; [done|].
    unfold WidgetTracker.complete.
    rewrite (surjective_pairing (WidgetTracker.continue envw (t1, n))).
    rewrite (WidgetTracker_continue_add_frame envw o t1 n Hn).
    assert ((WidgetTracker.continue envw
               (t1, (WidgetTracker.continue envw (t1, n)).2)).1 = t1) as ->;
      [|by split].
    destruct Hn as [-> | ->]; simpl; [done|].
    destruct (envw (WidgetTracker.Add_save o)) as [[[]|e]| |] eqn:He;
      simpl; rewrite ?He; done.
Qed.

(** What [add] does from the test of [this.current] on. *)
Lemma InstanceTracker_add_finish_spec o (s : InstanceTracker.state) :
  InstanceTracker._current (InstanceTracker.add_finish o s)
    = or_else (InstanceTracker._current s) (Some o)
  ∧ InstanceTracker.log (InstanceTracker.add_finish o s)
    = InstanceTracker.log s
      ++ match InstanceTracker._current s with
         | None => [CurrentChanged (Some o)]
         | Some _ => []
         end
      ++ [Added o].
Proof.
  unfold InstanceTracker.add_finish, InstanceTracker.set_current.
  destruct (InstanceTracker._current s) as [c|] eqn:Hc; branches;
    rewrite ?Hc; norm_log; done.
Qed.

(** [add] when nothing is written to the database. *)
Lemma InstanceTracker_add_plain o (s : InstanceTracker.state) :
  o ∉ InstanceTracker.isDisposed s →
  InstanceTracker.has o s = false →
  InstanceTracker.injected o s = false →
  match InstanceTracker._restore s with
  | Some r => name r o = ""
  | None => True
  end →
  InstanceTracker.add o s
  = (InstanceTracker.add_finish o
       (InstanceTracker.connect o
          (InstanceTracker.with_instances (InstanceTracker._instances s ++ [o]) s)),
     Return (Resolved Void)).
Proof.
  intros Hd Hh Hi Hr. unfold InstanceTracker.add.
  rewrite decide_False, Hh by done.
  change (InstanceTracker.injected o (InstanceTracker.with_instances _ s))
    with (InstanceTracker.injected o s). rewrite Hi. simpl.
  destruct (InstanceTracker._restore s) as [r|]; [|done]. by rewrite Hr.
Qed.

(** [add] when the record of the object is written. *)
Lemma InstanceTracker_add_writing o r (s : InstanceTracker.state) :
  o ∉ InstanceTracker.isDisposed s →
  InstanceTracker.has o s = false →
  InstanceTracker.injected o s = false →
  InstanceTracker._restore s = Some r →
  name r o ≠ "" →
  InstanceTracker.add o s
  = (InstanceTracker.emit
       (State_save (InstanceTracker.key s (name r o))
          (JObj [("data", args r o)]))
       (InstanceTracker.with_name o (InstanceTracker.key s (name r o))
          (InstanceTracker.connect o
             (InstanceTracker.with_instances (InstanceTracker._instances s ++ [o]) s))),
     Await (InstanceTracker.Add_save o)).
Proof.
  intros Hd Hh Hi Hr Hn. unfold InstanceTracker.add.
  rewrite decide_False, Hh by done.
  change (InstanceTracker.injected o (InstanceTracker.with_instances _ s))
    with (InstanceTracker.injected o s). rewrite Hi. simpl. rewrite Hr.
  apply String.eqb_neq in Hn. by rewrite Hn.
Qed.

(** [add] and [inject] on an injected object: insertion and nothing else. *)
Lemma InstanceTracker_add_injected o (s : InstanceTracker.state) :
  o ∉ InstanceTracker.isDisposed s →
  InstanceTracker.has o s = false →
  InstanceTracker.injected o s = true →
  InstanceTracker.add o s
  = (InstanceTracker.with_instances (InstanceTracker._instances s ++ [o]) s,
     Return (Resolved Void)).
Proof.
  intros Hd Hh Hi. unfold InstanceTracker.add.
  rewrite decide_False, Hh by done.
  change (InstanceTracker.injected o (InstanceTracker.with_instances _ s))
    with (InstanceTracker.injected o s). by rewrite Hi.
Qed.

Lemma InstanceTracker_has_snoc o (s s' : InstanceTracker.state) :
  InstanceTracker._instances s' = InstanceTracker._instances s ++ [o] →
  InstanceTracker.has o s' = true.
Proof.
  intros Hi. unfold InstanceTracker.has. apply bool_decide_eq_true_2.
  rewrite Hi. apply elem_of_app. right. by apply list_elem_of_singleton.
Qed.

(** The current widget after the focus tracker has taken in a new widget:
    unchanged unless the widget holds the focus. *)
Lemma WidgetTracker_tracker_add_current focused w (t : WidgetTracker.state) :
  FocusTracker.has w (WidgetTracker._tracker t) = false →
  let t1 := WidgetTracker.tracker_becomes
              (FocusTracker.add focused w (WidgetTracker._tracker t)) t in
  FocusTracker.currentWidget (WidgetTracker._tracker t1)
    = (if focused then Some w
       else FocusTracker.currentWidget (WidgetTracker._tracker t))
  ∧ WidgetTracker._currentWidget t1
    = (if focused
       then if decide (FocusTracker.currentWidget (WidgetTracker._tracker t) = Some w)
            then WidgetTracker._currentWidget t else Some w
       else WidgetTracker._currentWidget t)
  ∧ WidgetTracker.log t1
    = WidgetTracker.log t
      ++ (if focused
          then if decide (FocusTracker.currentWidget (WidgetTracker._tracker t) = Some w)
               then []
               else if decide (WidgetTracker._currentWidget t = Some w) then []
                    else [CurrentChanged (Some w)]
          else []).
Proof.
  intros Hh. unfold WidgetTracker.tracker_becomes, FocusTracker.add,
    WidgetTracker._onCurrentChanged. rewrite Hh.
  destruct focused; branches; norm_log; done.
Qed.

(** [add] on a widget that is not injected: everything happens in the one
    synchronous run, the signal [widgetAdded] last. *)
Lemma WidgetTracker_add_spec focused w (t : WidgetTracker.state) :
  w ∉ WidgetTracker.isDisposed t →
  WidgetTracker.has w t = false →
  WidgetTracker.injected w t = false →
  WidgetTracker._currentWidget (WidgetTracker.add focused w t).1
    = (if focused
       then if decide (FocusTracker.currentWidget (WidgetTracker._tracker t) = Some w)
            then WidgetTracker._currentWidget t else Some w
       else match FocusTracker.currentWidget (WidgetTracker._tracker t) with
            | None => Some w
            | Some _ => WidgetTracker._currentWidget t
            end)
  ∧ last (WidgetTracker.log (WidgetTracker.add focused w t).1) = Some (Added w)
  ∧ (WidgetTracker.add focused w t).2
    = match WidgetTracker._restore t with
      | Some r => if String.eqb (name r w) "" then Return (Resolved Void)
                  else Await (WidgetTracker.Add_save w)
      | None => Return (Resolved Void)
      end.
Proof.
  intros Hd Hh Hi. unfold WidgetTracker.has in Hh.
  unfold WidgetTracker.add. rewrite decide_False, Hh by done.
  unfold WidgetTracker.injected in *.
  unfold WidgetTracker.tracker_becomes, FocusTracker.add,
    WidgetTracker._onCurrentChanged. rewrite Hh.
  destruct focused; branches; rewrite ?last_snoc; try done.
Qed.

(** [add] on an injected widget: the focus tracker and [_widgets] take it
    in, and nothing else happens. *)
Lemma WidgetTracker_add_injected focused w (t : WidgetTracker.state) :
  w ∉ WidgetTracker.isDisposed t →
  WidgetTracker.has w t = false →
  WidgetTracker.injected w t = true →
  let t1 := WidgetTracker.tracker_becomes
              (FocusTracker.add focused w (WidgetTracker._tracker t)) t in
  WidgetTracker.add focused w t
  = (WidgetTracker.with_widgets (WidgetTracker._widgets t1 ++ [w]) t1,
     Return (Resolved Void)).
Proof.
  intros Hd Hh Hi t1. unfold WidgetTracker.has in Hh.
  unfold WidgetTracker.add. rewrite decide_False, Hh by done.
  fold t1.
  assert (WidgetTracker.injected w
            (WidgetTracker.with_widgets (WidgetTracker._widgets t1 ++ [w]) t1)
          = true) as ->; [|done].
  unfold WidgetTracker.injected in *. simpl.
  pose proof (WidgetTracker_tracker_becomes_frame
                (FocusTracker.add focused w (WidgetTracker._tracker t)) t)
    as (_ & _ & Hinj & _).
  fold t1 in Hinj. by rewrite Hinj.
Qed.

(** C5, as the code has it.  A successful [add] inserts the object in its
    first synchronous segment on both trackers.  [WidgetTracker.add] also
    updates the current widget and emits [widgetAdded] in that segment, and
    the completion of the write changes nothing.  [InstanceTracker.add]
    does so only when it writes no record; when it writes one, the current
    instance and [added] wait for the write: they are untouched while it is
    pending, follow when it resolves, and never happen when it is
    rejected. *)
Theorem add_inserts_before_the_write_completes
    (o : obj) (s : InstanceTracker.state)
    (focused : bool) (t : WidgetTracker.state) :
  o ∉ InstanceTracker.isDisposed s →
  InstanceTracker.has o s = false →
  InstanceTracker.injected o s = false →
  o ∉ WidgetTracker.isDisposed t →
  WidgetTracker.has o t = false →
  WidgetTracker.injected o t = false →
  InstanceTracker.has o (InstanceTracker.add o s).1 = true
  ∧ match record_of (InstanceTracker.namespace s) (InstanceTracker._restore s) o with
    | None =>
        (InstanceTracker.add o s).2 = Return (Resolved Void)
        ∧ InstanceTracker._current (InstanceTracker.add o s).1
          = or_else (InstanceTracker._current s) (Some o)
        ∧ InstanceTracker.log (InstanceTracker.add o s).1
          = InstanceTracker.log s
            ++ match InstanceTracker._current s with
               | None => [CurrentChanged (Some o)]
               | Some _ => []
               end
            ++ [Added o]
    | Some (id, v) =>
        (InstanceTracker.add o s).2 = Await (InstanceTracker.Add_save o)
        ∧ InstanceTracker._current (InstanceTracker.add o s).1
          = InstanceTracker._current s
        ∧ InstanceTracker.log (InstanceTracker.add o s).1
          = InstanceTracker.log s ++ [State_save id v]
        ∧ (∀ s2,
             InstanceTracker.add_resume o (Resolved ()) s2
             = (InstanceTracker.add_finish o s2, Return (Resolved Void))
             ∧ InstanceTracker._current (InstanceTracker.add_finish o s2)
               = or_else (InstanceTracker._current s2) (Some o)
             ∧ last (InstanceTracker.log (InstanceTracker.add_finish o s2))
               = Some (Added o))
        ∧ (∀ s2 e,
             InstanceTracker.add_resume o (Rejected e) s2
             = (s2, Return (Rejected e)))
    end
  ∧ WidgetTracker.has o (WidgetTracker.add focused o t).1 = true
  ∧ WidgetTracker._currentWidget (WidgetTracker.add focused o t).1
    = (if focused
       then if decide (FocusTracker.currentWidget (WidgetTracker._tracker t) = Some o)
            then WidgetTracker._currentWidget t else Some o
       else match FocusTracker.currentWidget (WidgetTracker._tracker t) with
            | None => Some o
            | Some _ => WidgetTracker._currentWidget t
            end)
  ∧ last (WidgetTracker.log (WidgetTracker.add focused o t).1) = Some (Added o)
  ∧ (WidgetTracker.add focused o t).2
    = match record_of (WidgetTracker.namespace t) (WidgetTracker._restore t) o with
      | None => Return (Resolved Void)
      | Some _ => Await (WidgetTracker.Add_save o)
      end
  ∧ (∀ r t2, (WidgetTracker.add_resume o r t2).1 = t2).
Proof.
  intros Hd Hh Hi Hdw Hhw Hiw.
  split.
  { destruct (InstanceTracker_add_fresh o s Hd Hh) as (Hin & _).
    by eapply InstanceTracker_has_snoc. }
  split.
  { unfold record_of.
    destruct (InstanceTracker._restore s) as [r|] eqn:Hr.
    - destruct (String.eqb (name r o) "") eqn:Hn.
      + apply String.eqb_eq in Hn.
        rewrite InstanceTracker_add_plain by (rewrite ?Hr; done).
        split; [done|].
        exact (InstanceTracker_add_finish_spec o (InstanceTracker.connect o _)).
      + apply String.eqb_neq in Hn.
        rewrite (InstanceTracker_add_writing o r) by done.
        repeat split; try done.
        * apply InstanceTracker_add_finish_spec.
        * destruct (InstanceTracker_add_finish_spec o s2) as (_ & ->).
          by rewrite app_assoc, last_snoc.
    - rewrite InstanceTracker_add_plain by (rewrite ?Hr; done).
      split; [done|].
      exact (InstanceTracker_add_finish_spec o (InstanceTracker.connect o _)). }
  split.
  { destruct (WidgetTracker_add_fresh focused o t Hdw Hhw) as (Hin & _).
    unfold WidgetTracker.has, FocusTracker.has. apply bool_decide_eq_true_2.
    rewrite Hin. apply elem_of_app. right. by apply list_elem_of_singleton. }
  destruct (WidgetTracker_add_spec focused o t Hdw Hhw Hiw) as (Hc & Hl & Hn).
  split; [done|]. split; [done|]. split.
  - rewrite Hn. unfold record_of.
    destruct (WidgetTracker._restore t) as [r|]; [|done].
    by destruct (String.eqb (name r o) "").
  - by intros [[]|e] t2.
Qed.

Lemma add_inserts_before_the_write_completes_witness :
  InstanceTracker.has 1 (InstanceTracker.add 1 demo_restoring_instances).1 = true
  ∧ InstanceTracker._current (InstanceTracker.add 1 demo_restoring_instances).1
    = None
  ∧ WidgetTracker.has 1 (WidgetTracker.add false 1 demo_restoring_widgets).1 = true
  ∧ WidgetTracker._currentWidget
      (WidgetTracker.add false 1 demo_restoring_widgets).1 = Some 1.
Proof.
  assert (1 ∉ (∅ : gset obj)) as Hd by apply not_elem_of_empty.
  destruct (add_inserts_before_the_write_completes 1 demo_restoring_instances
              false demo_restoring_widgets Hd eq_refl eq_refl Hd eq_refl eq_refl)
    as (H1 & H2 & H3 & H4 & _).
  split; [exact H1|]. split; [|split; [exact H3 | exact H4]].
  simpl in H2. exact (proj1 (proj2 H2)).
Defined.

(** C5 as stated fails on [InstanceTracker]: with restoration options
    installed and a named object, the first segment of [add] makes the
    object tracked but leaves the current instance [null] and emits no
    [added]; the object becomes current only once the write has resolved. *)
Lemma add_awaits_the_write_before_current :
  (InstanceTracker.add 1 demo_restoring_instances).2
    = Await (InstanceTracker.Add_save 1)
  ∧ InstanceTracker.has 1 (InstanceTracker.add 1 demo_restoring_instances).1 = true
  ∧ InstanceTracker._current demo_restoring_instances = None
  ∧ InstanceTracker._current (InstanceTracker.add 1 demo_restoring_instances).1
    = None
  ∧ count_events (is_added 1)
      (InstanceTracker.log (InstanceTracker.add 1 demo_restoring_instances).1) = 0
  ∧ InstanceTracker._current
      (InstanceTracker.add_resume 1 (Resolved ())
         (InstanceTracker.add 1 demo_restoring_instances).1).1 = Some 1.
Proof. repeat split; reflexivity. Qed.

(** ** Injected objects *)

Lemma FocusTracker_remove_gone previous w ft :
  FocusTracker.has w (FocusTracker.remove previous w ft) = false.
Proof.
  unfold FocusTracker.remove.
  destruct (FocusTracker.has w ft) eqn:Hh; [|done].
  unfold FocusTracker.has. apply bool_decide_eq_false_2. simpl.
  rewrite list_elem_of_filter. by intros [? _].
Qed.

Lemma WidgetTracker_onWidgetDisposed_tracker w (t : WidgetTracker.state) :
  WidgetTracker._tracker (WidgetTracker._onWidgetDisposed w t)
    = WidgetTracker._tracker t.
Proof. unfold WidgetTracker._onWidgetDisposed. branches; done. Qed.

Lemma WidgetTracker_dispose_widget_gone previous w (t : WidgetTracker.state) :
  WidgetTracker.has w (WidgetTracker.dispose_widget previous w t) = false.
Proof.
  unfold WidgetTracker.dispose_widget, WidgetTracker.has,
    WidgetTracker.clear_attached. cbn [WidgetTracker._tracker].
  set (t1 := WidgetTracker.with_disposed w t).
  pose proof (WidgetTracker_tracker_becomes_frame
                (FocusTracker.remove previous w (WidgetTracker._tracker t1)) t1)
    as (Hft & _).
  case_decide; rewrite ?WidgetTracker_onWidgetDisposed_tracker, Hft;
    apply FocusTracker_remove_gone.
Qed.

(** C6, as the code has it.  [inject] on an object that is neither disposed
    nor tracked inserts it and flags it; it emits no [added] signal, makes
    no call to the database and, the focus apart, leaves the current object
    alone.  For an injected object [save] does nothing.  When the disposal
    handler of [InstanceTracker] runs for an injected object it removes it
    from the tracked set and does nothing else; that of [WidgetTracker]
    does nothing, the focus tracker having dropped the widget already. *)
Theorem inject_inserts_without_signal_or_record
    (o : obj) (s : InstanceTracker.state)
    (focused : bool) (t : WidgetTracker.state) :
  o ∉ InstanceTracker.isDisposed s →
  InstanceTracker.has o s = false →
  o ∉ WidgetTracker.isDisposed t →
  WidgetTracker.has o t = false →
  (InstanceTracker.inject o s).2 = Return (Resolved Void)
  ∧ InstanceTracker.has o (InstanceTracker.inject o s).1 = true
  ∧ InstanceTracker.injected o (InstanceTracker.inject o s).1 = true
  ∧ InstanceTracker.log (InstanceTracker.inject o s).1 = InstanceTracker.log s
  ∧ InstanceTracker._current (InstanceTracker.inject o s).1
    = InstanceTracker._current s
  ∧ InstanceTracker.nameProperty (InstanceTracker.inject o s).1
    = InstanceTracker.nameProperty s
  ∧ (∀ s', InstanceTracker.injected o s' = true →
       InstanceTracker.save o s' = (s', Return (Resolved Void))
       ∧ InstanceTracker._onInstanceDisposed o s'
         = InstanceTracker.with_instances
             (filter (λ x, x ≠ o) (InstanceTracker._instances s')) s'
       ∧ InstanceTracker.has o (InstanceTracker._onInstanceDisposed o s') = false)
  ∧ WidgetTracker.has o (WidgetTracker.inject focused o t) = true
  ∧ WidgetTracker.injected o (WidgetTracker.inject focused o t) = true
  ∧ WidgetTracker.log (WidgetTracker.inject focused o t)
    = WidgetTracker.log t
      ++ (if focused
          then if decide (FocusTracker.currentWidget (WidgetTracker._tracker t) = Some o)
               then []
               else if decide (WidgetTracker._currentWidget t = Some o) then []
                    else [CurrentChanged (Some o)]
          else [])
  ∧ WidgetTracker._currentWidget (WidgetTracker.inject focused o t)
    = (if focused
       then if decide (FocusTracker.currentWidget (WidgetTracker._tracker t) = Some o)
            then WidgetTracker._currentWidget t else Some o
       else WidgetTracker._currentWidget t)
  ∧ WidgetTracker.nameProperty (WidgetTracker.inject focused o t)
    = WidgetTracker.nameProperty t
  ∧ (∀ t', WidgetTracker.injected o t' = true →
       WidgetTracker.save o t' = (t', Return (Resolved Void))
       ∧ WidgetTracker._onWidgetDisposed o t' = t'
       ∧ ∀ previous,
           WidgetTracker.has o (WidgetTracker.dispose_widget previous o t') = false).
Proof.
  intros Hd Hh Hdw Hhw.
  assert (InstanceTracker.injected o (InstanceTracker.with_injected o s) = true)
    as Hinj.
  { unfold InstanceTracker.injected. apply bool_decide_eq_true_2. simpl.
    apply elem_of_union. left. by apply elem_of_singleton. }
  unfold InstanceTracker.inject.
  rewrite (InstanceTracker_add_injected o (InstanceTracker.with_injected o s))
    by done. simpl.
  split; [done|]. split.
  { unfold InstanceTracker.has. apply bool_decide_eq_true_2. simpl.
    apply elem_of_app. right. by apply list_elem_of_singleton. }
  split; [exact Hinj|]. split; [done|]. split; [done|]. split; [done|].
  split.
  { intros s' Hs'. split; [|split].
    - unfold InstanceTracker.save. rewrite Hs'.
      destruct (InstanceTracker._restore s'); [|done].
      by rewrite orb_true_r.
    - unfold InstanceTracker._onInstanceDisposed.
      change (InstanceTracker.injected o (InstanceTracker.with_instances _ s'))
        with (InstanceTracker.injected o s'). by rewrite Hs'.
    - unfold InstanceTracker._onInstanceDisposed.
      change (InstanceTracker.injected o (InstanceTracker.with_instances _ s'))
        with (InstanceTracker.injected o s'). rewrite Hs'.
      unfold InstanceTracker.has. apply bool_decide_eq_false_2. simpl.
      rewrite list_elem_of_filter. by intros [? _]. }
  assert (WidgetTracker.injected o (WidgetTracker.with_injected o t) = true)
    as Hinjw.
  { unfold WidgetTracker.injected. apply bool_decide_eq_true_2. simpl.
    apply elem_of_union. left. by apply elem_of_singleton. }
  unfold WidgetTracker.inject.
  rewrite (WidgetTracker_add_injected focused o (WidgetTracker.with_injected o t))
    by done.
  cbn [fst].
  change (WidgetTracker._tracker (WidgetTracker.with_injected o t))
    with (WidgetTracker._tracker t).
  destruct (WidgetTracker_tracker_add_current focused o
              (WidgetTracker.with_injected o t) Hhw) as (Hft & Hcur & Hlog).
  pose proof (WidgetTracker_tracker_becomes_frame
                (FocusTracker.add focused o (WidgetTracker._tracker t))
                (WidgetTracker.with_injected o t))
    as (Htr & _ & Hinjp & _).
  change (WidgetTracker._tracker (WidgetTracker.with_injected o t))
    with (WidgetTracker._tracker t) in *.
  set (t1 := WidgetTracker.tracker_becomes _ _) in *.
  split.
  { unfold WidgetTracker.has. simpl. rewrite Htr.
    unfold FocusTracker.has. apply bool_decide_eq_true_2.
    rewrite FocusTracker_add_widgets by done.
    apply elem_of_app. right. by apply list_elem_of_singleton. }
  split.
  { unfold WidgetTracker.injected in *. simpl. by rewrite Hinjp. }
  split; [exact Hlog|]. split; [exact Hcur|].
  split.
  { simpl. unfold t1, WidgetTracker.tracker_becomes, WidgetTracker._onCurrentChanged.
    branches; done. }
  intros t' Ht'. split; [|split].
  - unfold WidgetTracker.save. rewrite Ht'.
    destruct (WidgetTracker._restore t'); [|done]. by rewrite orb_true_r.
  - unfold WidgetTracker._onWidgetDisposed. by rewrite Ht'.
  - intros previous. apply WidgetTracker_dispose_widget_gone.
Qed.

Lemma inject_inserts_without_signal_or_record_witness :
  InstanceTracker.has 1 (InstanceTracker.inject 1 demo_instances).1 = true
  ∧ InstanceTracker.log (InstanceTracker.inject 1 demo_instances).1 = []
  ∧ WidgetTracker.has 1 (WidgetTracker.inject false 1 demo_widgets) = true
  ∧ WidgetTracker.log (WidgetTracker.inject false 1 demo_widgets) = [].
Proof.
  assert (1 ∉ (∅ : gset obj)) as Hd by apply not_elem_of_empty.
  destruct (inject_inserts_without_signal_or_record 1 demo_instances
              false demo_widgets Hd eq_refl Hd eq_refl)
    as (_ & H1 & _ & H2 & _ & _ & _ & H3 & _ & H4 & _).
  split; [exact H1|]. split; [exact H2|]. split; [exact H3 | exact H4].
Defined.

(** C6 as stated fails: an injected object is inserted, yet no [added]
    signal is emitted for it, on either tracker. *)
Lemma inject_emits_no_added_signal :
  (InstanceTracker.inject 1 demo_instances).2 = Return (Resolved Void)
  ∧ InstanceTracker.has 1 (InstanceTracker.inject 1 demo_instances).1 = true
  ∧ count_events (is_added 1)
      (InstanceTracker.log (InstanceTracker.inject 1 demo_instances).1) = 0
  ∧ WidgetTracker.has 1 (WidgetTracker.inject false 1 demo_widgets) = true
  ∧ count_events (is_added 1)
      (WidgetTracker.log (WidgetTracker.inject false 1 demo_widgets)) = 0.
Proof. repeat split; reflexivity. Qed.

(** ** Which object [add] makes current *)

(** C7, as the code has it.  [InstanceTracker.add] makes a successfully
    added object current exactly when it is not injected and the current
    instance is [null] at the time of the test: at once when no record is
    written, and otherwise when the write has resolved; it never replaces a
    current instance, and an injected object never becomes current.
    [WidgetTracker.add] tests the focus tracker instead: a widget added
    without the focus becomes current exactly when it is not injected and
    no widget has taken the focus, whether or not there is a current widget
    already; a widget added while it holds the focus becomes current
    through the focus tracker's signal. *)
Theorem add_makes_current_when_none
    (o : obj) (s : InstanceTracker.state)
    (focused : bool) (t : WidgetTracker.state) :
  o ∉ InstanceTracker.isDisposed s →
  InstanceTracker.has o s = false →
  o ∉ WidgetTracker.isDisposed t →
  WidgetTracker.has o t = false →
  (if InstanceTracker.injected o s
   then InstanceTracker.add o s
        = (InstanceTracker.with_instances (InstanceTracker._instances s ++ [o]) s,
           Return (Resolved Void))
        ∧ InstanceTracker._current (InstanceTracker.add o s).1
          = InstanceTracker._current s
   else
     match record_of (InstanceTracker.namespace s) (InstanceTracker._restore s) o with
     | None =>
         (InstanceTracker.add o s).2 = Return (Resolved Void)
         ∧ InstanceTracker._current (InstanceTracker.add o s).1
           = match InstanceTracker._current s with
             | None => Some o
             | Some c => Some c
             end
     | Some _ =>
         (InstanceTracker.add o s).2 = Await (InstanceTracker.Add_save o)
         ∧ InstanceTracker._current (InstanceTracker.add o s).1
           = InstanceTracker._current s
         ∧ (∀ s2,
              InstanceTracker._current
                (InstanceTracker.add_resume o (Resolved ()) s2).1
              = match InstanceTracker._current s2 with
                | None => Some o
                | Some c => Some c
                end)
         ∧ (∀ s2 e, (InstanceTracker.add_resume o (Rejected e) s2).1 = s2)
     end)
  ∧ InstanceTracker._current (InstanceTracker.inject o s).1
    = InstanceTracker._current s
  ∧ WidgetTracker._currentWidget (WidgetTracker.add focused o t).1
    = (if focused
       then if decide (FocusTracker.currentWidget (WidgetTracker._tracker t) = Some o)
            then WidgetTracker._currentWidget t else Some o
       else if WidgetTracker.injected o t then WidgetTracker._currentWidget t
       else match FocusTracker.currentWidget (WidgetTracker._tracker t) with
            | None => Some o
            | Some _ => WidgetTracker._currentWidget t
            end).
Proof.
  intros Hd Hh Hdw Hhw. split; [|split].
  - destruct (InstanceTracker.injected o s) eqn:Hi.
    { rewrite InstanceTracker_add_injected by done. done. }
    pose proof (add_plain := InstanceTracker_add_plain o s Hd Hh Hi).
    unfold record_of.
    destruct (InstanceTracker._restore s) as [r|] eqn:Hr.
    + destruct (String.eqb (name r o) "") eqn:Hn.
      * apply String.eqb_eq in Hn. rewrite add_plain by done.
        split; [done|].
        exact (proj1 (InstanceTracker_add_finish_spec o (InstanceTracker.connect o _))).
      * apply String.eqb_neq in Hn.
        rewrite (InstanceTracker_add_writing o r) by done.
        repeat split; try done.
        intros s2. apply InstanceTracker_add_finish_spec.
    + rewrite add_plain by done. split; [done|].
      exact (proj1 (InstanceTracker_add_finish_spec o (InstanceTracker.connect o _))).
  - unfold InstanceTracker.inject.
    rewrite InstanceTracker_add_injected; try done.
    unfold InstanceTracker.injected. apply bool_decide_eq_true_2. simpl.
    apply elem_of_union. left. by apply elem_of_singleton.
  - destruct (WidgetTracker.injected o t) eqn:Hi.
    + rewrite WidgetTracker_add_injected by done. cbn [fst]. simpl.
      destruct (WidgetTracker_tracker_add_current focused o t Hhw) as (_ & -> & _).
      by destruct focused.
    + destruct (WidgetTracker_add_spec focused o t Hdw Hhw Hi) as (-> & _).
      done.
Qed.

Lemma add_makes_current_when_none_witness :
  InstanceTracker._current (InstanceTracker.add 1 demo_instances).1 = Some 1
  ∧ WidgetTracker._currentWidget (WidgetTracker.add false 1 demo_widgets).1
    = Some 1.
Proof.
  assert (1 ∉ (∅ : gset obj)) as Hd by apply not_elem_of_empty.
  destruct (add_makes_current_when_none 1 demo_instances false demo_widgets
              Hd eq_refl Hd eq_refl) as (H1 & _ & H2).
  split; [exact (proj2 H1) | exact H2].
Defined.

(** C7 as stated fails both ways.  An injected object is added with success
    to a tracker whose current instance is [null], and does not become
    current.  A second widget added to a [WidgetTracker] replaces the
    current widget when no widget has taken the focus. *)
Lemma add_current_counterexample :
  InstanceTracker._current demo_instances = None
  ∧ (InstanceTracker.inject 1 demo_instances).2 = Return (Resolved Void)
  ∧ InstanceTracker.has 1 (InstanceTracker.inject 1 demo_instances).1 = true
  ∧ InstanceTracker._current (InstanceTracker.inject 1 demo_instances).1 = None
  ∧ WidgetTracker._currentWidget (WidgetTracker.add false 1 demo_widgets).1
    = Some 1
  ∧ (WidgetTracker.add false 2 (WidgetTracker.add false 1 demo_widgets).1).2
    = Return (Resolved Void)
  ∧ WidgetTracker._currentWidget
      (WidgetTracker.add false 2 (WidgetTracker.add false 1 demo_widgets).1).1
    = Some 2.
Proof. repeat split; reflexivity. Qed.

(** ** Disposal of the current object *)

(** The whole disposal of the current widget, the focus tracker's handler
    first: when the widget is the focus tracker's current widget too, the
    focus tracker replaces it by [previous] and the tracker follows through
    [_onCurrentChanged]; by the time [_onWidgetDisposed] runs the widget is
    the current one no more.  Otherwise the handler falls back. *)
Lemma WidgetTracker_dispose_current (o : obj) (previous : option obj)
    (t : WidgetTracker.state) :
  WidgetTracker._currentWidget t = Some o →
  WidgetTracker.injected o t = false →
  o ∈ WidgetTracker.connected t →
  WidgetTracker.has o t = true →
  previous ≠ Some o →
  let focused := FocusTracker.currentWidget (WidgetTracker._tracker t) in
  let v := if decide (focused = Some o) then previous
           else or_else focused (last (removeFirstOf (WidgetTracker._widgets t) o)) in
  WidgetTracker._currentWidget (WidgetTracker.dispose_widget previous o t) = v
  ∧ WidgetTracker.log (WidgetTracker.dispose_widget previous o t)
    = WidgetTracker.log t ++ [CurrentChanged v]
      ++ removal (WidgetTracker._restore t) (WidgetTracker.name_of o t)
  ∧ WidgetTracker._widgets (WidgetTracker.dispose_widget previous o t)
    = removeFirstOf (WidgetTracker._widgets t) o.
Proof.
  intros Hcur Hi Hc Hh Hp focused v.
  unfold WidgetTracker.dispose_widget. cbn zeta.
  unfold WidgetTracker.tracker_becomes. cbn zeta.
  change (WidgetTracker._tracker (WidgetTracker.with_disposed o t))
    with (WidgetTracker._tracker t).
  unfold FocusTracker.remove. unfold WidgetTracker.has in Hh. rewrite Hh.
  cbn [FocusTracker.currentWidget]. fold focused.
  unfold WidgetTracker.injected in Hi.
  destruct (decide (focused = Some o)) as [Hf|Hf]; subst v; simpl.
  - destruct (decide (previous = focused)) as [Heq|_]; [congruence|].
    unfold WidgetTracker._onCurrentChanged. simpl. rewrite Hcur.
    destruct (decide (previous = Some o)) as [Heq|_]; [congruence|]. simpl.
    destruct (decide (o ∈ WidgetTracker.connected t)) as [_|Hn]; [|done].
    unfold WidgetTracker._onWidgetDisposed, WidgetTracker.injected, removal.
    simpl. rewrite Hi. simpl.
    destruct (decide (previous = Some o)) as [Heq|_]; [congruence|].
    unfold WidgetTracker.name_of. simpl.
    destruct (WidgetTracker._restore t); simpl;
      try destruct (String.eqb _ ""); simpl; by norm_log.
  - destruct (decide (focused = focused)) as [_|Hn]; [|done]. simpl.
    destruct (decide (o ∈ WidgetTracker.connected t)) as [_|Hn]; [|done].
    unfold WidgetTracker._onWidgetDisposed, WidgetTracker.injected, removal.
    simpl. rewrite Hi. simpl. rewrite Hcur.
    destruct (decide (Some o = Some o)) as [_|Hn]; [|done].
    unfold WidgetTracker.name_of. simpl.
    destruct (WidgetTracker._restore t); simpl;
      try destruct (String.eqb _ ""); simpl; by norm_log.
Qed.

(** C8, as the code has it.  When an object that is not injected and is
    the current one is disposed, the current object is recomputed and
    [currentChanged] is emitted once, with the new value.  On
    [InstanceTracker] the new value is [null].  On [WidgetTracker] the
    handler [_onWidgetDisposed], run on a state in which the widget is the
    current one, takes the focus tracker's current widget, else the last
    element of [_widgets] after the removal, else [null]; but in a
    disposal the focus tracker's own handler runs before it.  When the
    disposed widget is the focus tracker's current widget as well, the
    focus tracker replaces it by the widget it falls back to, [previous],
    or by none, the tracker's current widget follows that value, and the
    fallback of [_onWidgetDisposed] is not reached: the current widget can
    become [null] while tracked widgets remain.  The fallback applies when
    the widget was current without being the focus tracker's current
    widget. *)
Theorem disposal_of_current_recomputes_current
    (o : obj) (previous : option obj)
    (s : InstanceTracker.state) (t : WidgetTracker.state) :
  InstanceTracker._current s = Some o →
  InstanceTracker.injected o s = false →
  WidgetTracker._currentWidget t = Some o →
  WidgetTracker.injected o t = false →
  o ∈ WidgetTracker.connected t →
  WidgetTracker.has o t = true →
  previous ≠ Some o →
  InstanceTracker._current (InstanceTracker._onInstanceDisposed o s) = None
  ∧ InstanceTracker.log (InstanceTracker._onInstanceDisposed o s)
    = InstanceTracker.log s ++ [CurrentChanged None]
      ++ removal (InstanceTracker._restore s) (InstanceTracker.name_of o s)
  ∧ InstanceTracker.has o (InstanceTracker._onInstanceDisposed o s) = false
  ∧ (if decide (o ∈ InstanceTracker.connected s)
     then InstanceTracker._current (InstanceTracker.dispose_object o s) = None
          ∧ InstanceTracker.log (InstanceTracker.dispose_object o s)
            = InstanceTracker.log s ++ [CurrentChanged None]
              ++ removal (InstanceTracker._restore s) (InstanceTracker.name_of o s)
     else True)
  ∧ WidgetTracker._widgets (WidgetTracker._onWidgetDisposed o t)
    = removeFirstOf (WidgetTracker._widgets t) o
  ∧ WidgetTracker._currentWidget (WidgetTracker._onWidgetDisposed o t)
    = match FocusTracker.currentWidget (WidgetTracker._tracker t) with
      | Some focused => Some focused
      | None => last (removeFirstOf (WidgetTracker._widgets t) o)
      end
  ∧ WidgetTracker.log (WidgetTracker._onWidgetDisposed o t)
    = WidgetTracker.log t
      ++ [CurrentChanged (WidgetTracker._currentWidget
                            (WidgetTracker._onWidgetDisposed o t))]
      ++ removal (WidgetTracker._restore t) (WidgetTracker.name_of o t)
  ∧ WidgetTracker._currentWidget (WidgetTracker.dispose_widget previous o t)
    = (if decide (FocusTracker.currentWidget (WidgetTracker._tracker t) = Some o)
       then previous
       else match FocusTracker.currentWidget (WidgetTracker._tracker t) with
            | Some focused => Some focused
            | None => last (removeFirstOf (WidgetTracker._widgets t) o)
            end)
  ∧ WidgetTracker.log (WidgetTracker.dispose_widget previous o t)
    = WidgetTracker.log t
      ++ [CurrentChanged (WidgetTracker._currentWidget
                            (WidgetTracker.dispose_widget previous o t))]
      ++ removal (WidgetTracker._restore t) (WidgetTracker.name_of o t)
  ∧ WidgetTracker._widgets (WidgetTracker.dispose_widget previous o t)
    = removeFirstOf (WidgetTracker._widgets t) o
  ∧ WidgetTracker.has o (WidgetTracker.dispose_widget previous o t) = false.
Proof.
  intros Hc Hi Hcw Hiw Hconw Hhw Hprev.
  assert (∀ s0, InstanceTracker._current s0 = Some o →
                InstanceTracker.injected o s0 = false →
                InstanceTracker._current (InstanceTracker._onInstanceDisposed o s0)
                  = None
                ∧ InstanceTracker.log (InstanceTracker._onInstanceDisposed o s0)
                  = InstanceTracker.log s0 ++ [CurrentChanged None]
                    ++ removal (InstanceTracker._restore s0)
                         (InstanceTracker.name_of o s0)) as Hhandler.
  { intros s0 Hc0 Hi0. unfold InstanceTracker._onInstanceDisposed, removal.
    change (InstanceTracker.injected o (InstanceTracker.with_instances _ s0))
      with (InstanceTracker.injected o s0). rewrite Hi0. simpl.
    rewrite decide_True by done. simpl.
    destruct (InstanceTracker._restore s0); [|by norm_log].
    change (InstanceTracker.name_of o _) with (InstanceTracker.name_of o s0).
    destruct (String.eqb (InstanceTracker.name_of o s0) ""); by norm_log. }
  destruct (Hhandler s Hc Hi) as (H1 & H2).
  split; [done|]. split; [done|]. split.
  { unfold InstanceTracker._onInstanceDisposed.
    change (InstanceTracker.injected o (InstanceTracker.with_instances _ s))
      with (InstanceTracker.injected o s). rewrite Hi. simpl.
    unfold InstanceTracker.has. apply bool_decide_eq_false_2.
    branches; rewrite list_elem_of_filter; by intros [? _]. }
  split.
  { case_decide as Hconn; [|done]. unfold InstanceTracker.dispose_object.
    change (InstanceTracker.connected (InstanceTracker.with_disposed o s))
      with (InstanceTracker.connected s). rewrite decide_True by done.
    exact (Hhandler (InstanceTracker.with_disposed o s) Hc Hi). }
  assert (WidgetTracker._widgets (WidgetTracker._onWidgetDisposed o t)
          = removeFirstOf (WidgetTracker._widgets t) o
          ∧ WidgetTracker._currentWidget (WidgetTracker._onWidgetDisposed o t)
            = match FocusTracker.currentWidget (WidgetTracker._tracker t) with
              | Some focused => Some focused
              | None => last (removeFirstOf (WidgetTracker._widgets t) o)
              end
          ∧ WidgetTracker.log (WidgetTracker._onWidgetDisposed o t)
            = WidgetTracker.log t
              ++ [CurrentChanged (WidgetTracker._currentWidget
                                    (WidgetTracker._onWidgetDisposed o t))]
              ++ removal (WidgetTracker._restore t) (WidgetTracker.name_of o t))
    as (H3 & H4 & H5).
  { unfold WidgetTracker._onWidgetDisposed, removal, or_else. rewrite Hiw. simpl.
    rewrite decide_True by done.
    change (WidgetTracker.name_of o _) with (WidgetTracker.name_of o t).
    destruct (FocusTracker.currentWidget (WidgetTracker._tracker t));
      destruct (WidgetTracker._restore t) eqn:Hr; simpl; rewrite ?Hr;
      try destruct (String.eqb (WidgetTracker.name_of o t) "");
      norm_log; done. }
  split; [done|]. split; [done|]. split; [done|].
  destruct (WidgetTracker_dispose_current o previous t Hcw Hiw Hconw Hhw Hprev)
    as (H6 & H7 & H8).
  cbn zeta in H6, H7. unfold or_else in H6, H7.
  split; [exact H6|]. split; [by rewrite H6|]. split; [done|].
  apply WidgetTracker_dispose_widget_gone.
Qed.

Lemma disposal_of_current_recomputes_current_witness :
  InstanceTracker._current
    (InstanceTracker._onInstanceDisposed 1 (InstanceTracker.add 1 demo_instances).1)
  = None
  ∧ WidgetTracker._currentWidget
      (WidgetTracker.dispose_widget None 2 demo_two_widgets) = Some 1
  ∧ WidgetTracker._currentWidget
      (WidgetTracker.dispose_widget (Some 1) 2 demo_focused_widgets) = Some 1.
Proof.
  assert (2 ∈ WidgetTracker.connected demo_two_widgets) as Hc
    by (vm_compute; reflexivity).
  assert (2 ∈ WidgetTracker.connected demo_focused_widgets) as Hcf
    by (vm_compute; reflexivity).
  assert ((None : option obj) ≠ Some 2) as Hn by done.
  assert (Some 1 ≠ Some 2) as Hp by done.
  assert (1 ∈ WidgetTracker.connected (WidgetTracker.add false 1 demo_widgets).1)
    as Hc1 by (vm_compute; reflexivity).
  assert ((None : option obj) ≠ Some 1) as Hn1 by done.
  destruct (disposal_of_current_recomputes_current 2 None
              (InstanceTracker.with_current (Some 2) demo_instances)
              demo_two_widgets eq_refl eq_refl eq_refl eq_refl Hc eq_refl Hn)
    as (_ & _ & _ & _ & _ & _ & _ & H2 & _).
  destruct (disposal_of_current_recomputes_current 2 (Some 1)
              (InstanceTracker.with_current (Some 2) demo_instances)
              demo_focused_widgets eq_refl eq_refl eq_refl eq_refl Hcf eq_refl Hp)
    as (_ & _ & _ & _ & _ & _ & _ & H3 & _).
  destruct (disposal_of_current_recomputes_current 1 None
              (InstanceTracker.add 1 demo_instances).1
              (WidgetTracker.add false 1 demo_widgets).1
              eq_refl eq_refl eq_refl eq_refl
              Hc1 eq_refl Hn1)
    as (H1 & _).
  split; [exact H1|]. split; [rewrite H2 | rewrite H3]; vm_compute; reflexivity.
Defined.

(** The disposal of a current widget that holds the focus, when no widget
    was focused before it: the focus tracker has no current widget left,
    the tracker follows it, and the current widget is [null] though
    widget 1 is still tracked and is the last element of [_widgets]. *)
Lemma disposal_of_focused_current_leaves_null :
  match WidgetTracker.run
          [WidgetTracker.Call_add false 1; WidgetTracker.Call_add false 2;
           WidgetTracker.Focus (Some 2); WidgetTracker.Dispose None 2]
          (WidgetTracker.start demo_widgets) with
  | Some sys =>
      WidgetTracker._currentWidget (WidgetTracker.tracker sys) = None
      ∧ FocusTracker.currentWidget
          (WidgetTracker._tracker (WidgetTracker.tracker sys)) = None
      ∧ WidgetTracker.has 1 (WidgetTracker.tracker sys) = true
      ∧ WidgetTracker._widgets (WidgetTracker.tracker sys) = [1]
      ∧ last (WidgetTracker.log (WidgetTracker.tracker sys))
        = Some (CurrentChanged None)
  | None => False
  end.
Proof. vm_compute. repeat split; reflexivity. Qed.

(** The last element of [_widgets] can be a widget that is tracked no
    more: widget 2 is injected and disposed, stays in [_widgets], and
    becomes the current widget when widget 1 is disposed. *)
Lemma disposed_injected_widget_becomes_current :
  match WidgetTracker.run
          [WidgetTracker.Call_add false 1; WidgetTracker.Call_inject false 2;
           WidgetTracker.Dispose None 2; WidgetTracker.Dispose None 1]
          (WidgetTracker.start demo_widgets) with
  | Some sys =>
      WidgetTracker._currentWidget (WidgetTracker.tracker sys) = Some 2
      ∧ WidgetTracker.has 2 (WidgetTracker.tracker sys) = false
      ∧ WidgetTracker.size (WidgetTracker.tracker sys) = 0
      ∧ WidgetTracker._widgets (WidgetTracker.tracker sys) = [2]
  | None => False
  end.
Proof. vm_compute. repeat split; reflexivity. Qed.

(** ** Restoration happens once *)

Lemma resolutions_app l1 l2 :
  resolutions (l1 ++ l2) = resolutions l1 + resolutions l2.
Proof. unfold resolutions, count_events. by rewrite List.filter_app, length_app. Qed.

Lemma resolutions_replay_calls options sv :
  resolutions (replay_calls options sv) = 0.
Proof.
  unfold replay_calls. generalize (ids sv) as l.
  cut (∀ (l : list string) (f : nat → string → event),
         (∀ i x, is_resolve (f i x) = false) → resolutions (imap f l) = 0).
  { intros Hcut l. apply Hcut. intros i x. unfold replay_call.
    by destruct (restore_args _). }
  induction l as [|x l IH]; intros f Hf; [done|].
  rewrite imap_cons. unfold resolutions, count_events in *. simpl.
  rewrite Hf. apply IH. intros i y. apply Hf.
Qed.

Lemma resolutions_replay_catches options sv :
  resolutions (replay_catches options sv) = 0.
Proof.
  unfold resolutions, count_events.
  apply length_zero_iff_nil.
  destruct (List.filter is_resolve (replay_catches options sv)) as [|e l] eqn:Hf;
    [done|].
  assert (In e (List.filter is_resolve (replay_catches options sv))) as Hin
    by (rewrite Hf; by left).
  apply List.filter_In in Hin as [Hin He].
  apply list_elem_of_In, replay_catches_remove in Hin as [id ->]. done.
Qed.

Lemma restoring_instances_app l1 l2 :
  restoring_instances (l1 ++ l2) = restoring_instances l1 + restoring_instances l2.
Proof. unfold restoring_instances. by rewrite List.filter_app, length_app. Qed.

Lemma restoring_instances_delete ts i k :
  ts !! i = Some k →
  restoring_instances (delete i ts) + restoring_instances [k]
  = restoring_instances ts.
Proof.
  intros Hk. rewrite <- (take_drop_middle ts i k Hk) at 2.
  rewrite delete_take_drop, !restoring_instances_app.
  change (k :: drop (S i) ts) with ([k] ++ drop (S i) ts).
  rewrite restoring_instances_app. lia.
Qed.

Lemma InstanceTracker_set_current_quiet v s :
  quiet_instances s (InstanceTracker.set_current v s, Return (Resolved Void)).
Proof. unfold quiet_instances, InstanceTracker.set_current. quiet. Qed.

Lemma InstanceTracker_add_quiet o s :
  quiet_instances s (InstanceTracker.add o s).
Proof.
  unfold quiet_instances, InstanceTracker.add, InstanceTracker.add_finish,
    InstanceTracker.set_current. quiet.
Qed.

Lemma InstanceTracker_inject_quiet o s :
  quiet_instances s (InstanceTracker.inject o s).
Proof. apply (InstanceTracker_add_quiet o (InstanceTracker.with_injected o s)). Qed.

Lemma InstanceTracker_save_quiet o s :
  quiet_instances s (InstanceTracker.save o s).
Proof.
  unfold quiet_instances, InstanceTracker.save, InstanceTracker.save_name,
    InstanceTracker.save_finish. quiet.
Qed.

Lemma InstanceTracker_dispose_quiet o s :
  quiet_instances s (InstanceTracker.dispose_object o s, Return (Resolved Void)).
Proof.
  unfold quiet_instances, InstanceTracker.dispose_object,
    InstanceTracker._onInstanceDisposed. quiet.
Qed.

Lemma InstanceTracker_resume_quiet k inp s p :
  restoring_instances [k] = 0 →
  InstanceTracker.resume k inp s = Some p →
  quiet_instances s p.
Proof.
  intros Hk Hres. destruct k; try discriminate Hk;
    destruct inp; try discriminate Hres; simpl in Hres; simplify_eq;
    unfold quiet_instances, InstanceTracker.add_resume,
      InstanceTracker.save_resume_remove, InstanceTracker.save_resume_save,
      InstanceTracker.save_name, InstanceTracker.save_finish,
      InstanceTracker.add_finish, InstanceTracker.set_current; quiet.
Qed.

Lemma InstanceTracker_spawn_quiet sys p :
  single_shot_instances sys →
  quiet_instances (InstanceTracker.tracker sys) p →
  single_shot_instances (InstanceTracker.spawn (InstanceTracker.tasks sys) p).
Proof.
  unfold single_shot_instances, quiet_instances.
  destruct p as [s' [r|k]]; simpl; intros Hinv (-> & -> & Hk); [done|].
  rewrite restoring_instances_app.
  destruct (InstanceTracker._hasRestored (InstanceTracker.tracker sys)); lia.
Qed.

(** Every operation keeps restoration single-shot. *)
Lemma InstanceTracker_exec_single_shot a sys sys' :
  single_shot_instances sys →
  InstanceTracker.exec a sys = Some sys' →
  single_shot_instances sys'.
Proof.
  intros Hinv Hexec. destruct a as [o|o|o|options|v|o|i inp]; simpl in Hexec.
  - simplify_eq. apply InstanceTracker_spawn_quiet, InstanceTracker_add_quiet; done.
  - simplify_eq. apply InstanceTracker_spawn_quiet, InstanceTracker_inject_quiet; done.
  - simplify_eq. apply InstanceTracker_spawn_quiet, InstanceTracker_save_quiet; done.
  - simplify_eq. unfold single_shot_instances in *.
    unfold InstanceTracker.restore.
    destruct (InstanceTracker._hasRestored (InstanceTracker.tracker sys)) eqn:Hr;
      simpl; rewrite ?Hr; [done|].
    rewrite resolutions_app, restoring_instances_app.
    unfold resolutions at 2. unfold restoring_instances at 2.
    unfold count_events. simpl. lia.
  - simplify_eq.
    apply (InstanceTracker_spawn_quiet sys (_, Return (Resolved Void)) Hinv).
    apply InstanceTracker_set_current_quiet.
  - simplify_eq.
    apply (InstanceTracker_spawn_quiet sys (_, Return (Resolved Void)) Hinv).
    apply InstanceTracker_dispose_quiet.
  - destruct (InstanceTracker.tasks sys !! i) as [k|] eqn:Hk; [|done].
    destruct (InstanceTracker.resume k inp (InstanceTracker.tracker sys))
      as [p|] eqn:Hres; [|done].
    simpl in Hexec. simplify_eq.
    pose proof (restoring_instances_delete _ _ _ Hk) as Hdel.
    set (ts' := delete i (InstanceTracker.tasks sys)) in *. clearbody ts'.
    destruct (decide (restoring_instances [k] = 0)) as [Hq|Hq].
    + pose proof (InstanceTracker_resume_quiet k inp _ p Hq Hres) as Hquiet.
      apply (InstanceTracker_spawn_quiet
               {| InstanceTracker.tracker := InstanceTracker.tracker sys;
                  InstanceTracker.tasks := ts' |});
        [|done].
      unfold single_shot_instances in *. simpl.
      destruct (InstanceTracker._hasRestored (InstanceTracker.tracker sys)); lia.
    + unfold single_shot_instances in *.
      destruct (InstanceTracker._hasRestored (InstanceTracker.tracker sys)) eqn:Hr;
      destruct k; try done; destruct inp; try discriminate Hres;
        simpl in Hres; simplify_eq.
      * unfold InstanceTracker.restore_resume_list.
        destruct r as [sv|e]; simpl; rewrite Hr.
        -- rewrite resolutions_app, resolutions_replay_calls,
             restoring_instances_app.
           unfold restoring_instances in Hdel at 2.
           unfold restoring_instances at 2. simpl in *. lia.
        -- unfold restoring_instances in Hdel at 2. simpl in *. lia.
      * unfold InstanceTracker.restore_resume_replay.
        unfold restoring_instances in Hdel at 2. simpl in Hdel.
        destruct (promise_all (replay_promises options rm sv)); simpl;
          rewrite Hr, ?resolutions_app, resolutions_replay_catches;
          try change (resolutions [Restored_resolve]) with 1; lia.
      * unfold restoring_instances in Hdel at 2. simpl in Hdel. lia.
      * unfold restoring_instances in Hdel at 2. simpl in Hdel. lia.
Qed.

Lemma restoring_widgets_app l1 l2 :
  restoring_widgets (l1 ++ l2) = restoring_widgets l1 + restoring_widgets l2.
Proof. unfold restoring_widgets. by rewrite List.filter_app, length_app. Qed.

Lemma restoring_widgets_delete ts i k :
  ts !! i = Some k →
  restoring_widgets (delete i ts) + restoring_widgets [k] = restoring_widgets ts.
Proof.
  intros Hk. rewrite <- (take_drop_middle ts i k Hk) at 2.
  rewrite delete_take_drop, !restoring_widgets_app.
  change (k :: drop (S i) ts) with ([k] ++ drop (S i) ts).
  rewrite restoring_widgets_app. lia.
Qed.

Lemma WidgetTracker_add_quiet focused w t :
  quiet_widgets t (WidgetTracker.add focused w t).
Proof.
  unfold quiet_widgets, WidgetTracker.add, WidgetTracker.tracker_becomes,
    WidgetTracker._onCurrentChanged. quiet.
Qed.

Lemma WidgetTracker_inject_quiet focused w t :
  quiet_widgets t (WidgetTracker.inject focused w t, Return (Resolved Void)).
Proof.
  destruct (WidgetTracker_add_quiet focused w (WidgetTracker.with_injected w t))
    as (H1 & H2 & _).
  unfold quiet_widgets, WidgetTracker.inject. simpl. done.
Qed.

Lemma WidgetTracker_save_quiet w t :
  quiet_widgets t (WidgetTracker.save w t).
Proof.
  unfold quiet_widgets, WidgetTracker.save, WidgetTracker.save_name,
    WidgetTracker.save_finish. quiet.
Qed.

Lemma WidgetTracker_focus_quiet v t :
  quiet_widgets t (WidgetTracker.focus_changed v t, Return (Resolved Void)).
Proof.
  unfold quiet_widgets, WidgetTracker.focus_changed,
    WidgetTracker.tracker_becomes, WidgetTracker._onCurrentChanged. quiet.
Qed.

Lemma WidgetTracker_dispose_quiet previous w t :
  quiet_widgets t (WidgetTracker.Widget_dispose previous w t, Return (Resolved Void)).
Proof.
  unfold quiet_widgets, WidgetTracker.Widget_dispose, WidgetTracker.dispose_widget,
    WidgetTracker._onWidgetDisposed, WidgetTracker.tracker_becomes,
    WidgetTracker._onCurrentChanged. quiet.
Qed.

Lemma WidgetTracker_resume_quiet k inp t p :
  restoring_widgets [k] = 0 →
  WidgetTracker.resume k inp t = Some p →
  quiet_widgets t p.
Proof.
  intros Hk Hres. destruct k; try discriminate Hk;
    destruct inp; try discriminate Hres; simpl in Hres; simplify_eq;
    unfold quiet_widgets, WidgetTracker.add_resume,
      WidgetTracker.save_resume_remove, WidgetTracker.save_resume_save,
      WidgetTracker.save_name, WidgetTracker.save_finish; quiet.
Qed.

Lemma WidgetTracker_spawn_quiet sys p :
  single_shot_widgets sys →
  quiet_widgets (WidgetTracker.tracker sys) p →
  single_shot_widgets (WidgetTracker.spawn (WidgetTracker.tasks sys) p).
Proof.
  unfold single_shot_widgets, quiet_widgets.
  destruct p as [s' [r|k]]; simpl; intros Hinv (-> & -> & Hk); [done|].
  rewrite restoring_widgets_app.
  destruct (WidgetTracker._hasRestored (WidgetTracker.tracker sys)); lia.
Qed.

Lemma WidgetTracker_exec_single_shot a sys sys' :
  single_shot_widgets sys →
  WidgetTracker.exec a sys = Some sys' →
  single_shot_widgets sys'.
Proof.
  intros Hinv Hexec.
  destruct a as [focused w|focused w|w|options|v|previous w|i inp];
    simpl in Hexec.
  - simplify_eq. apply WidgetTracker_spawn_quiet, WidgetTracker_add_quiet; done.
  - simplify_eq.
    apply (WidgetTracker_spawn_quiet sys (_, Return (Resolved Void)) Hinv).
    apply WidgetTracker_inject_quiet.
  - simplify_eq. apply WidgetTracker_spawn_quiet, WidgetTracker_save_quiet; done.
  - simplify_eq. unfold single_shot_widgets in *.
    unfold WidgetTracker.restore.
    destruct (WidgetTracker._hasRestored (WidgetTracker.tracker sys)) eqn:Hr;
      simpl; rewrite ?Hr; [done|].
    rewrite resolutions_app, restoring_widgets_app.
    unfold resolutions at 2. unfold restoring_widgets at 2.
    unfold count_events. simpl. lia.
  - simplify_eq.
    apply (WidgetTracker_spawn_quiet sys (_, Return (Resolved Void)) Hinv).
    apply WidgetTracker_focus_quiet.
  - simplify_eq.
    apply (WidgetTracker_spawn_quiet sys (_, Return (Resolved Void)) Hinv).
    apply WidgetTracker_dispose_quiet.
  - destruct (WidgetTracker.tasks sys !! i) as [k|] eqn:Hk; [|done].
    destruct (WidgetTracker.resume k inp (WidgetTracker.tracker sys))
      as [p|] eqn:Hres; [|done].
    simpl in Hexec. simplify_eq.
    pose proof (restoring_widgets_delete _ _ _ Hk) as Hdel.
    set (ts' := delete i (WidgetTracker.tasks sys)) in *. clearbody ts'.
    destruct (decide (restoring_widgets [k] = 0)) as [Hq|Hq].
    + pose proof (WidgetTracker_resume_quiet k inp _ p Hq Hres) as Hquiet.
      apply (WidgetTracker_spawn_quiet
               {| WidgetTracker.tracker := WidgetTracker.tracker sys;
                  WidgetTracker.tasks := ts' |});
        [|done].
      unfold single_shot_widgets in *. simpl.
      destruct (WidgetTracker._hasRestored (WidgetTracker.tracker sys)); lia.
    + unfold single_shot_widgets in *.
      destruct (WidgetTracker._hasRestored (WidgetTracker.tracker sys)) eqn:Hr;
      destruct k; try done; destruct inp; try discriminate Hres;
        simpl in Hres; simplify_eq.
      * unfold WidgetTracker.restore_resume_list.
        destruct r as [sv|e]; simpl; rewrite Hr.
        -- rewrite resolutions_app, resolutions_replay_calls,
             restoring_widgets_app.
           unfold restoring_widgets in Hdel at 2.
           unfold restoring_widgets at 2. simpl in *. lia.
        -- unfold restoring_widgets in Hdel at 2. simpl in *. lia.
      * unfold WidgetTracker.restore_resume_replay.
        unfold restoring_widgets in Hdel at 2. simpl in Hdel.
        destruct (promise_all (replay_promises options rm sv)); simpl;
          rewrite Hr, ?resolutions_app, resolutions_replay_catches;
          try change (resolutions [Restored_resolve]) with 1; lia.
      * unfold restoring_widgets in Hdel at 2. simpl in Hdel. lia.
      * unfold restoring_widgets in Hdel at 2. simpl in Hdel. lia.
Qed.

Lemma resolutions_prefix l1 l2 :
  l1 `prefix_of` l2 → resolutions l1 ≤ resolutions l2.
Proof. intros [evs ->]. rewrite resolutions_app. lia. Qed.

Lemma InstanceTracker_exec_appends a sys sys' :
  InstanceTracker.exec a sys = Some sys' →
  InstanceTracker.log (InstanceTracker.tracker sys)
    `prefix_of` InstanceTracker.log (InstanceTracker.tracker sys').
Proof.
  intros Hexec. destruct a as [o|o|o|options|v|o|i inp]; simpl in Hexec.
  - simplify_eq. unfold InstanceTracker.spawn, InstanceTracker.add,
      InstanceTracker.add_finish, InstanceTracker.set_current. appends.
  - simplify_eq. unfold InstanceTracker.spawn, InstanceTracker.inject,
      InstanceTracker.add, InstanceTracker.add_finish,
      InstanceTracker.set_current. appends.
  - simplify_eq. unfold InstanceTracker.spawn, InstanceTracker.save,
      InstanceTracker.save_name, InstanceTracker.save_finish. appends.
  - simplify_eq. unfold InstanceTracker.spawn, InstanceTracker.restore. appends.
  - simplify_eq. unfold InstanceTracker.set_current. appends.
  - simplify_eq. unfold InstanceTracker.dispose_object,
      InstanceTracker._onInstanceDisposed. appends.
  - destruct (InstanceTracker.tasks sys !! i) as [k|]; [|done].
    destruct k, inp; simpl in Hexec; simplify_eq;
      unfold InstanceTracker.spawn, InstanceTracker.add_resume,
        InstanceTracker.save_resume_remove, InstanceTracker.save_resume_save,
        InstanceTracker.save_name, InstanceTracker.save_finish,
        InstanceTracker.add_finish, InstanceTracker.set_current,
        InstanceTracker.restore_resume_list,
        InstanceTracker.restore_resume_replay; appends.
Qed.

Lemma WidgetTracker_exec_appends a sys sys' :
  WidgetTracker.exec a sys = Some sys' →
  WidgetTracker.log (WidgetTracker.tracker sys)
    `prefix_of` WidgetTracker.log (WidgetTracker.tracker sys').
Proof.
  intros Hexec.
  destruct a as [focused w|focused w|w|options|v|previous w|i inp];
    simpl in Hexec.
  - simplify_eq. unfold WidgetTracker.spawn, WidgetTracker.add,
      WidgetTracker.tracker_becomes, WidgetTracker._onCurrentChanged. appends.
  - simplify_eq. unfold WidgetTracker.inject, WidgetTracker.add,
      WidgetTracker.tracker_becomes, WidgetTracker._onCurrentChanged. appends.
  - simplify_eq. unfold WidgetTracker.spawn, WidgetTracker.save,
      WidgetTracker.save_name, WidgetTracker.save_finish. appends.
  - simplify_eq. unfold WidgetTracker.spawn, WidgetTracker.restore. appends.
  - simplify_eq. unfold WidgetTracker.focus_changed,
      WidgetTracker.tracker_becomes, WidgetTracker._onCurrentChanged. appends.
  - simplify_eq. unfold WidgetTracker.Widget_dispose, WidgetTracker.dispose_widget,
      WidgetTracker._onWidgetDisposed, WidgetTracker.tracker_becomes,
      WidgetTracker._onCurrentChanged. appends.
  - destruct (WidgetTracker.tasks sys !! i) as [k|]; [|done].
    destruct k, inp; simpl in Hexec; simplify_eq;
      unfold WidgetTracker.spawn, WidgetTracker.add_resume,
        WidgetTracker.save_resume_remove, WidgetTracker.save_resume_save,
        WidgetTracker.save_name, WidgetTracker.save_finish,
        WidgetTracker.restore_resume_list,
        WidgetTracker.restore_resume_replay; appends.
Qed.


(** ** The current instance stays tracked *)

Lemma adding_app o l1 l2 : adding o (l1 ++ l2) = adding o l1 || adding o l2.
Proof. unfold adding. apply existsb_app. Qed.

Lemma adding_delete o ts i : adding o (delete i ts) = true → adding o ts = true.
Proof.
  unfold adding. rewrite !existsb_exists. intros (k & Hin & Hk).
  exists k. split; [|done].
  apply list_elem_of_In in Hin. apply list_elem_of_In.
  apply list_elem_of_lookup in Hin as [j Hj].
  rewrite list_lookup_delete in Hj.
  case_decide; by eapply list_elem_of_lookup_2.
Qed.

Lemma adding_lookup o ts i :
  ts !! i = Some (InstanceTracker.Add_save o) → adding o ts = true.
Proof.
  intros Hk. unfold adding. apply existsb_exists.
  exists (InstanceTracker.Add_save o). split.
  - by eapply list_elem_of_In, list_elem_of_lookup_2.
  - apply Nat.eqb_refl.
Qed.

(** A framed segment that suspends at anything but the write of [add]
    keeps the invariant. *)
Lemma tracked_invariant_frame sys s' ts' :
  tracked_invariant sys →
  frame_instances (InstanceTracker.tracker sys) s' →
  (∀ o, adding o ts' = true → adding o (InstanceTracker.tasks sys) = true) →
  tracked_invariant {| InstanceTracker.tracker := s'; InstanceTracker.tasks := ts' |}.
Proof.
  unfold tracked_invariant, frame_instances, current_is_tracked. simpl.
  intros (I1 & I2 & I3 & I4) (Hi & Hc & Hcon & Hinj & Hd) Hts.
  rewrite Hi, Hc, Hcon, Hinj, Hd. repeat split; auto.
Qed.

Lemma tracked_invariant_spawn_frame sys p :
  tracked_invariant sys →
  frame_instances (InstanceTracker.tracker sys) p.1 →
  (∀ o, adding o (match p.2 with Await k => [k] | Return _ => [] end) = false) →
  tracked_invariant (InstanceTracker.spawn (InstanceTracker.tasks sys) p).
Proof.
  intros Hinv Hf Hk. destruct p as [s' [r|k]]; cbn [fst snd] in *;
    unfold InstanceTracker.spawn.
  - apply (tracked_invariant_frame sys); auto.
  - apply (tracked_invariant_frame sys); auto.
    intros o. rewrite adding_app, Hk, orb_false_r. done.
Qed.

Lemma InstanceTracker_save_frame o s :
  frame_instances s (InstanceTracker.save o s).1
  ∧ ∀ o', adding o' (match (InstanceTracker.save o s).2 with
                      | Await k => [k] | Return _ => [] end) = false.
Proof.
  unfold frame_instances, InstanceTracker.save, InstanceTracker.save_name,
    InstanceTracker.save_finish. repeat split; branches; done.
Qed.

Lemma InstanceTracker_restore_frame options s :
  frame_instances s (InstanceTracker.restore options s).1
  ∧ ∀ o', adding o' (match (InstanceTracker.restore options s).2 with
                      | Await k => [k] | Return _ => [] end) = false.
Proof.
  unfold frame_instances, InstanceTracker.restore. repeat split; branches; done.
Qed.

Lemma InstanceTracker_resume_frame k inp s p :
  (∀ o, k ≠ InstanceTracker.Add_save o) →
  InstanceTracker.resume k inp s = Some p →
  frame_instances s p.1
  ∧ ∀ o', adding o' (match p.2 with Await k => [k] | Return _ => [] end) = false.
Proof.
  intros Hk Hres. destruct k; try (by destruct (Hk o));
    destruct inp; try discriminate Hres; simpl in Hres; simplify_eq;
    unfold frame_instances, InstanceTracker.save_resume_remove,
      InstanceTracker.save_resume_save, InstanceTracker.save_name,
      InstanceTracker.save_finish, InstanceTracker.restore_resume_list,
      InstanceTracker.restore_resume_replay; repeat split; branches; done.
Qed.

(** A fresh object enters the tracked set. *)
Lemma tracked_invariant_grow sys s' ts' o :
  tracked_invariant sys →
  o ∉ InstanceTracker.isDisposed (InstanceTracker.tracker sys) →
  o ∉ InstanceTracker._instances (InstanceTracker.tracker sys) →
  InstanceTracker._instances s'
    = InstanceTracker._instances (InstanceTracker.tracker sys) ++ [o] →
  InstanceTracker.isDisposed s'
    = InstanceTracker.isDisposed (InstanceTracker.tracker sys) →
  InstanceTracker.injectedProperty s'
    = InstanceTracker.injectedProperty (InstanceTracker.tracker sys) →
  (InstanceTracker.connected s'
     = InstanceTracker.connected (InstanceTracker.tracker sys)
   ∧ o ∈ InstanceTracker.injectedProperty (InstanceTracker.tracker sys))
  ∨ (InstanceTracker.connected s'
       = {[o]} ∪ InstanceTracker.connected (InstanceTracker.tracker sys)
     ∧ o ∉ InstanceTracker.injectedProperty (InstanceTracker.tracker sys)) →
  (InstanceTracker._current s'
     = InstanceTracker._current (InstanceTracker.tracker sys)
   ∨ InstanceTracker._current s' = Some o) →
  (∀ o', adding o' ts' = true →
         adding o' (InstanceTracker.tasks sys) = true ∨ o' = o) →
  tracked_invariant {| InstanceTracker.tracker := s'; InstanceTracker.tasks := ts' |}.
Proof.
  unfold tracked_invariant, current_is_tracked. simpl.
  intros (I1 & I2 & I3 & I4) Hd Hn Hi Hdis Hinj Hcon Hcur Hts.
  rewrite Hi, Hdis, Hinj. split; [|split; [|split]].
  - destruct Hcur as [-> | ->].
    + destruct (InstanceTracker._current _); [|done].
      apply elem_of_app. by left.
    + apply elem_of_app. right. by apply list_elem_of_singleton.
  - intros x [Hx | ->%list_elem_of_singleton]%elem_of_app Hc.
    + destruct Hcon as [[Hcon _] | [Hcon Ho]]; rewrite Hcon in Hc;
        [by apply I2|].
      apply elem_of_union in Hc as [->%elem_of_singleton | Hc]; [done|].
      by apply I2.
    + destruct Hcon as [[Hcon _] | [_ Ho]]; [|done]. rewrite Hcon in Hc.
      exfalso. apply Hd. by apply I3.
  - intros x Hc Hx. apply not_elem_of_app in Hx as [Hx Hxo].
    apply I3; [|done].
    destruct Hcon as [[Hcon _] | [Hcon _]]; rewrite Hcon in Hc; [done|].
    apply elem_of_union in Hc as [->%elem_of_singleton | Hc]; [|done].
    exfalso. apply Hxo. by apply list_elem_of_singleton.
  - intros x Hx. apply elem_of_app. destruct (Hts x Hx) as [Hx' | ->].
    + left. by apply I4.
    + right. by apply list_elem_of_singleton.
Qed.

(** Only the current instance changes, to [null] or to a tracked object. *)
Lemma tracked_invariant_current sys s' ts' :
  tracked_invariant sys →
  InstanceTracker._instances s'
    = InstanceTracker._instances (InstanceTracker.tracker sys) →
  InstanceTracker.connected s'
    = InstanceTracker.connected (InstanceTracker.tracker sys) →
  InstanceTracker.injectedProperty s'
    = InstanceTracker.injectedProperty (InstanceTracker.tracker sys) →
  InstanceTracker.isDisposed s'
    = InstanceTracker.isDisposed (InstanceTracker.tracker sys) →
  match InstanceTracker._current s' with
  | None => True
  | Some o => o ∈ InstanceTracker._instances (InstanceTracker.tracker sys)
  end →
  (∀ o, adding o ts' = true → adding o (InstanceTracker.tasks sys) = true) →
  tracked_invariant {| InstanceTracker.tracker := s'; InstanceTracker.tasks := ts' |}.
Proof.
  unfold tracked_invariant, current_is_tracked. simpl.
  intros (I1 & I2 & I3 & I4) Hi Hcon Hinj Hdis Hcur Hts.
  rewrite Hi, Hcon, Hinj, Hdis. repeat split; auto.
Qed.

Lemma tracked_invariant_add sys o :
  tracked_invariant sys →
  tracked_invariant
    (InstanceTracker.spawn (InstanceTracker.tasks sys)
       (InstanceTracker.add o (InstanceTracker.tracker sys))).
Proof.
  intros Hinv. destruct sys as [s ts]. cbn [InstanceTracker.tracker InstanceTracker.tasks].
  destruct (decide (o ∈ InstanceTracker.isDisposed s)) as [Hd|Hd].
  { unfold InstanceTracker.add. by rewrite decide_True. }
  destruct (InstanceTracker.has o s) eqn:Hh.
  { unfold InstanceTracker.add. by rewrite decide_False, Hh. }
  assert (o ∉ InstanceTracker._instances s) as Hn.
  { unfold InstanceTracker.has in Hh. by apply bool_decide_eq_false_1 in Hh. }
  destruct (InstanceTracker.injected o s) eqn:Hi.
  { rewrite InstanceTracker_add_injected by done.
    apply (tracked_invariant_grow _ _ _ o Hinv); try done; [|by left|by left].
    left. split; [done|]. unfold InstanceTracker.injected in Hi.
    by apply bool_decide_eq_true_1 in Hi. }
  assert (o ∉ InstanceTracker.injectedProperty s) as Hni.
  { unfold InstanceTracker.injected in Hi. by apply bool_decide_eq_false_1 in Hi. }
  assert (∀ s1, s1 = InstanceTracker.connect o
                       (InstanceTracker.with_instances
                          (InstanceTracker._instances s ++ [o]) s) →
          tracked_invariant
            (InstanceTracker.spawn ts
               (InstanceTracker.add_finish o s1, Return (Resolved Void))))
    as Hplain.
  { intros s1 ->.
    destruct (InstanceTracker_add_finish_frame o
                (InstanceTracker.connect o
                   (InstanceTracker.with_instances
                      (InstanceTracker._instances s ++ [o]) s)))
      as (Hi1 & Hd1 & Hinj1 & Hc1).
    destruct (InstanceTracker_add_finish_spec o
                (InstanceTracker.connect o
                   (InstanceTracker.with_instances
                      (InstanceTracker._instances s ++ [o]) s)))
      as (Hcur & _).
    apply (tracked_invariant_grow _ _ _ o Hinv); try done.
    - right. by rewrite Hc1.
    - rewrite Hcur. simpl. destruct (InstanceTracker._current s); auto.
    - by left. }
  destruct (InstanceTracker._restore s) as [r|] eqn:Hr.
  - destruct (String.eqb (name r o) "") eqn:Hname.
    + apply String.eqb_eq in Hname.
      rewrite InstanceTracker_add_plain by (rewrite ?Hr; done). by apply Hplain.
    + apply String.eqb_neq in Hname.
      rewrite (InstanceTracker_add_writing o r) by done.
      apply (tracked_invariant_grow _ _ _ o Hinv); try done; [by right|by left|].
      intros o'. rewrite adding_app, orb_true_iff. simpl.
      rewrite orb_false_r, Nat.eqb_eq. intros [? | ->]; auto.
  - rewrite InstanceTracker_add_plain by (rewrite ?Hr; done). by apply Hplain.
Qed.

Lemma tracked_invariant_inject sys o :
  tracked_invariant sys →
  InstanceTracker.has o (InstanceTracker.tracker sys) = false →
  tracked_invariant
    (InstanceTracker.spawn (InstanceTracker.tasks sys)
       (InstanceTracker.inject o (InstanceTracker.tracker sys))).
Proof.
  intros Hinv Hh. unfold InstanceTracker.inject.
  apply (tracked_invariant_add
           {| InstanceTracker.tracker :=
                InstanceTracker.with_injected o (InstanceTracker.tracker sys);
              InstanceTracker.tasks := InstanceTracker.tasks sys |}).
  unfold InstanceTracker.has in Hh. apply bool_decide_eq_false_1 in Hh.
  destruct Hinv as (I1 & I2 & I3 & I4).
  unfold tracked_invariant, current_is_tracked in *. simpl.
  repeat split; auto.
  intros x Hx Hc [->%elem_of_singleton | Hinj]%elem_of_union; [done|].
  by apply (I2 x).
Qed.

Lemma tracked_invariant_write sys v :
  tracked_invariant sys →
  match v with
  | None => True
  | Some o => InstanceTracker.has o (InstanceTracker.tracker sys) = true
  end →
  tracked_invariant
    {| InstanceTracker.tracker :=
         InstanceTracker.set_current v (InstanceTracker.tracker sys);
       InstanceTracker.tasks := InstanceTracker.tasks sys |}.
Proof.
  intros Hinv Hv. unfold InstanceTracker.set_current.
  case_decide; [by destruct sys|].
  apply (tracked_invariant_current sys); try done. simpl.
  destruct v as [o|]; [|done].
  unfold InstanceTracker.has in Hv. by apply bool_decide_eq_true_1 in Hv.
Qed.

Lemma tracked_invariant_dispose sys o :
  tracked_invariant sys →
  adding o (InstanceTracker.tasks sys) = false →
  tracked_invariant
    {| InstanceTracker.tracker :=
         InstanceTracker.dispose_object o (InstanceTracker.tracker sys);
       InstanceTracker.tasks := InstanceTracker.tasks sys |}.
Proof.
  destruct sys as [s ts]. simpl. intros (I1 & I2 & I3 & I4) Hadd.
  unfold current_is_tracked in I1. simpl in *.
  unfold InstanceTracker.dispose_object.
  change (InstanceTracker.connected (InstanceTracker.with_disposed o s))
    with (InstanceTracker.connected s).
  case_decide as Hc.
  - assert (∀ x, x ∈ filter (λ y, y ≠ o) (InstanceTracker._instances s) ↔
                 x ≠ o ∧ x ∈ InstanceTracker._instances s) as Hfilter.
    { intros x. by rewrite list_elem_of_filter. }
    assert (∀ x, adding x ts = true → x ≠ o) as Hne.
    { intros x Hx ->. by rewrite Hx in Hadd. }
    unfold InstanceTracker._onInstanceDisposed, InstanceTracker.injected.
    simpl. unfold tracked_invariant, current_is_tracked.
    destruct (bool_decide (o ∈ InstanceTracker.injectedProperty s)) eqn:Hinj.
    + apply bool_decide_eq_true_1 in Hinj. simpl.
      split; [|split; [|split]].
      * destruct (InstanceTracker._current s) as [c|] eqn:Hcur; [|done].
        apply Hfilter. split; [|done]. intros ->. by apply (I2 o).
      * intros x [_ Hx]%Hfilter. by apply I2.
      * intros x Hx Hnx. destruct (decide (x = o)) as [->|Hxo].
        -- apply elem_of_union. left. by apply elem_of_singleton.
        -- apply elem_of_union. right. apply I3; [done|].
           intros Hin. apply Hnx, Hfilter. done.
      * intros x Hx. apply Hfilter. split; [by apply Hne | by apply I4].
    + apply bool_decide_eq_false_1 in Hinj.
      assert (∀ s1,
                InstanceTracker._instances s1
                  = filter (λ y, y ≠ o) (InstanceTracker._instances s) →
                InstanceTracker.connected s1 = InstanceTracker.connected s →
                InstanceTracker.injectedProperty s1
                  = InstanceTracker.injectedProperty s →
                InstanceTracker.isDisposed s1 = {[o]} ∪ InstanceTracker.isDisposed s →
                match InstanceTracker._current s1 with
                | None => True
                | Some c => c ≠ o ∧ InstanceTracker._current s = Some c
                end →
                (let s := s1 in
                 match InstanceTracker._current s with
                 | Some o0 => o0 ∈ InstanceTracker._instances s
                 | None => True
                 end
                 ∧ (∀ o0, o0 ∈ InstanceTracker._instances s →
                          o0 ∈ InstanceTracker.connected s →
                          o0 ∉ InstanceTracker.injectedProperty s)
                 ∧ (∀ o0, o0 ∈ InstanceTracker.connected s →
                          o0 ∉ InstanceTracker._instances s →
                          o0 ∈ InstanceTracker.isDisposed s)
                 ∧ (∀ o0, adding o0 ts = true → o0 ∈ InstanceTracker._instances s)))
        as Hshrink.
      { intros s1 Hi1 Hc1 Hinj1 Hd1 Hcur1. simpl.
        rewrite Hi1, Hc1, Hinj1, Hd1. split; [|split; [|split]].
        - destruct (InstanceTracker._current s1) as [c|]; [|done].
          destruct Hcur1 as [Hco Hcs]. apply Hfilter. split; [done|].
          rewrite Hcs in I1. done.
        - intros x [_ Hx]%Hfilter. by apply I2.
        - intros x Hx Hnx. destruct (decide (x = o)) as [->|Hxo].
          + apply elem_of_union. left. by apply elem_of_singleton.
          + apply elem_of_union. right. apply I3; [done|].
            intros Hin. apply Hnx, Hfilter. done.
        - intros x Hx. apply Hfilter. split; [by apply Hne | by apply I4]. }
      apply Hshrink; branches; try done.
      all: repeat match goal with
                  | H : InstanceTracker._current _ = _ |- _ => simpl in H
                  end.
      all: try (destruct (InstanceTracker._current s) as [c|] eqn:Hcur;
                [split; [congruence | done] | done]).
  - unfold tracked_invariant, current_is_tracked. simpl.
    repeat split; auto.
    intros x Hx Hnx. apply elem_of_union. right. by apply I3.
Qed.

Lemma tracked_invariant_resume sys i inp sys' :
  tracked_invariant sys →
  InstanceTracker.exec (InstanceTracker.Resume i inp) sys = Some sys' →
  tracked_invariant sys'.
Proof.
  intros Hinv Hexec. simpl in Hexec.
  destruct (InstanceTracker.tasks sys !! i) as [k|] eqn:Hk; [|done].
  destruct (InstanceTracker.resume k inp (InstanceTracker.tracker sys))
    as [p|] eqn:Hres; [|done].
  cbn in Hexec. simplify_eq.
  assert (tracked_invariant
            {| InstanceTracker.tracker := InstanceTracker.tracker sys;
               InstanceTracker.tasks := delete i (InstanceTracker.tasks sys) |})
    as Hinv'.
  { apply (tracked_invariant_frame sys); [done|done|].
    intros o. apply adding_delete. }
  assert ((∃ o, k = InstanceTracker.Add_save o)
          ∨ ∀ o, k ≠ InstanceTracker.Add_save o) as [[o ->]|Hother]
    by (destruct k; eauto).
  - destruct inp as [[[]|e]| |]; try discriminate Hres;
      simpl in Hres; simplify_eq; [|done].
    destruct (InstanceTracker_add_finish_frame o (InstanceTracker.tracker sys))
      as (Hi1 & Hd1 & Hinj1 & Hc1).
    destruct (InstanceTracker_add_finish_spec o (InstanceTracker.tracker sys))
      as (Hcur & _).
    apply (tracked_invariant_current sys); try done.
    + rewrite Hcur. destruct Hinv as (I1 & _ & _ & I4).
      unfold current_is_tracked in I1.
      destruct (InstanceTracker._current (InstanceTracker.tracker sys)); [done|].
      simpl. apply I4. by eapply adding_lookup.
    + intros o'. apply adding_delete.
  - destruct (InstanceTracker_resume_frame k inp _ p Hother Hres) as (Hf & Ha).
    by apply (tracked_invariant_spawn_frame
                {| InstanceTracker.tracker := InstanceTracker.tracker sys;
                   InstanceTracker.tasks := delete i (InstanceTracker.tasks sys) |}).
Qed.

(** Every admissible operation keeps the invariant. *)
Lemma tracked_invariant_exec a sys sys' :
  tracked_invariant sys →
  admissible a sys = true →
  InstanceTracker.exec a sys = Some sys' →
  tracked_invariant sys'.
Proof.
  intros Hinv Hadm Hexec.
  destruct a as [o|o|o|options|v|o|i inp];
    try (by eapply tracked_invariant_resume);
    simpl in Hexec; simplify_eq.
  - by apply tracked_invariant_add.
  - apply tracked_invariant_inject; [done|].
    simpl in Hadm. by apply negb_true_iff in Hadm.
  - destruct (InstanceTracker_save_frame o (InstanceTracker.tracker sys)).
    by apply tracked_invariant_spawn_frame.
  - destruct (InstanceTracker_restore_frame options (InstanceTracker.tracker sys)).
    by apply tracked_invariant_spawn_frame.
  - apply tracked_invariant_write; [done|]. by destruct v.
  - apply tracked_invariant_dispose; [done|].
    simpl in Hadm. by apply negb_true_iff in Hadm.
Qed.

Lemma tracked_invariant_run acts sys sys' :
  tracked_invariant sys →
  run_admissible acts sys = Some sys' →
  tracked_invariant sys'.
Proof.
  revert sys. induction acts as [|a acts IH]; intros sys Hinv Hrun; simpl in Hrun.
  - by simplify_eq.
  - destruct (admissible a sys) eqn:Hadm; [|done].
    destruct (InstanceTracker.exec a sys) as [sys1|] eqn:Hexec; [|done].
    eapply IH; [|done]. by eapply tracked_invariant_exec.
Qed.

(** C4, as the code has it.  Along every sequence of [add], [inject],
    [save], [restore], resumptions, disposals and writes to [current] in
    which [current] is only written with [null] or a tracked object,
    [inject] is only given objects that are not tracked, and no object is
    disposed while its [add] awaits the database, the current instance is
    [null] or a tracked object after every synchronous segment. *)
Theorem current_stays_tracked
    (ns : string) (injected : gset obj) (names : gmap obj string)
    (disposed : gset obj)
    (acts : list InstanceTracker.action) (sys : InstanceTracker.system) :
  run_admissible acts
    (InstanceTracker.start (InstanceTracker.create ns injected names disposed))
  = Some sys →
  current_is_tracked (InstanceTracker.tracker sys)
  ∧ ∀ n sys',
      run_admissible (take n acts)
        (InstanceTracker.start (InstanceTracker.create ns injected names disposed))
      = Some sys' →
      current_is_tracked (InstanceTracker.tracker sys').
Proof.
  assert (tracked_invariant
            (InstanceTracker.start
               (InstanceTracker.create ns injected names disposed))) as Hinit.
  { unfold tracked_invariant, current_is_tracked. simpl.
    repeat split; try done; intros o Ho;
      first [by apply elem_of_nil in Ho | by apply not_elem_of_empty in Ho]. }
  intros Hrun. split.
  - by destruct (tracked_invariant_run _ _ _ Hinit Hrun).
  - intros n sys' Hrun'. by destruct (tracked_invariant_run _ _ _ Hinit Hrun').
Qed.

Lemma current_stays_tracked_witness :
  current_is_tracked (InstanceTracker.tracker demo_admissible).
Proof.
  refine (proj1 (current_stays_tracked "nb" ∅ ∅ ∅
                   [InstanceTracker.Call_add 1; InstanceTracker.Call_add 2;
                    InstanceTracker.Write_current (Some 2);
                    InstanceTracker.Dispose 2]
                   demo_admissible _)).
  vm_compute. reflexivity.
Defined.

(** C4 as stated fails: [current] can be written with any object, tracked
    or not. *)
Lemma current_written_with_untracked_object :
  InstanceTracker.exec (InstanceTracker.Write_current (Some 7))
    (InstanceTracker.start demo_instances)
  = Some {| InstanceTracker.tracker :=
              InstanceTracker.set_current (Some 7) demo_instances;
            InstanceTracker.tasks := [] |}
  ∧ InstanceTracker._current (InstanceTracker.set_current (Some 7) demo_instances)
    = Some 7
  ∧ InstanceTracker.has 7 (InstanceTracker.set_current (Some 7) demo_instances)
    = false
  ∧ InstanceTracker.size (InstanceTracker.set_current (Some 7) demo_instances) = 0.
Proof. repeat split; reflexivity. Qed.

(** The second and third conditions cannot be dropped.  An object flagged
    as injected after it was added is removed by the handler, which then
    returns before looking at the current instance. *)
Lemma current_untracked_after_late_inject :
  match InstanceTracker.run
          [InstanceTracker.Call_add 1; InstanceTracker.Call_inject 1;
           InstanceTracker.Dispose 1]
          (InstanceTracker.start demo_instances) with
  | Some sys =>
      InstanceTracker._current (InstanceTracker.tracker sys) = Some 1
      ∧ InstanceTracker.has 1 (InstanceTracker.tracker sys) = false
  | None => False
  end.
Proof. vm_compute. split; reflexivity. Qed.

(** The same race run on the worked scenario: object 1 is disposed while
    its [add] awaits the database, and is the current instance, untracked,
    once the write has resolved. *)
Lemma current_untracked_after_disposal_during_add :
  match InstanceTracker.run
          [InstanceTracker.Call_restore demo_options; InstanceTracker.Call_add 1;
           InstanceTracker.Dispose 1;
           InstanceTracker.Resume 1 (Settle (Resolved ()))]
          (InstanceTracker.start demo_instances) with
  | Some sys =>
      InstanceTracker._current (InstanceTracker.tracker sys) = Some 1
      ∧ InstanceTracker.has 1 (InstanceTracker.tracker sys) = false
  | None => False
  end.
Proof. vm_compute. split; reflexivity. Qed.

(** X1.  [InstanceTracker.add] returns on an injected object before it
    connects to its [disposed] signal: the disposal of an injected object
    leaves it in the tracked set. *)
Lemma injected_instance_outlives_its_disposal o (s : InstanceTracker.state) :
  o ∉ InstanceTracker.isDisposed s →
  InstanceTracker.has o s = false →
  o ∉ InstanceTracker.connected s →
  InstanceTracker.has o
    (InstanceTracker.dispose_object o (InstanceTracker.inject o s).1) = true.
Proof.
  intros Hd Hh Hc. unfold InstanceTracker.inject.
  rewrite InstanceTracker_add_injected; try done.
  - unfold InstanceTracker.dispose_object. simpl.
    rewrite decide_False by done.
    unfold InstanceTracker.has. apply bool_decide_eq_true_2. simpl.
    apply elem_of_app. right. by apply list_elem_of_singleton.
  - unfold InstanceTracker.injected. apply bool_decide_eq_true_2. simpl.
    apply elem_of_union. left. by apply elem_of_singleton.
Qed.

Lemma injected_instance_outlives_its_disposal_witness :
  InstanceTracker.has 1
    (InstanceTracker.dispose_object 1 (InstanceTracker.inject 1 demo_instances).1)
  = true.
Proof.
  assert (1 ∉ (∅ : gset obj)) as Hd by apply not_elem_of_empty.
  exact (injected_instance_outlives_its_disposal 1 demo_instances Hd eq_refl Hd).
Defined.

(** ** Looking instances up *)

Lemma first_of_find fn l : InstanceTrackerMore.first_of fn l = List.find fn l.
Proof. induction l as [|x l IH]; simpl; [done|]. by rewrite IH. Qed.

Lemma find_head_filter fn (l : list obj) : List.find fn l = head (List.filter fn l).
Proof.
  induction l as [|x l IH]; simpl; [done|]. destruct (fn x); [done|]. apply IH.
Qed.

Lemma InstanceTracker_filter_spec fn (s : InstanceTracker.state) :
  InstanceTrackerMore.filter fn s = List.filter fn (InstanceTracker._instances s).
Proof.
  unfold InstanceTrackerMore.filter, InstanceTrackerMore.forEach.
  cut (∀ l acc,
         foldl (λ acc o, if fn o then acc ++ [o] else acc) acc l
         = acc ++ List.filter fn l).
  { intros H. by rewrite H. }
  induction l as [|x l IH]; intros acc; simpl; [by rewrite app_nil_r|].
  rewrite IH. destruct (fn x); [|done]. by rewrite <- app_assoc.
Qed.

Lemma first_of_spec fn (l : list obj) :
  match InstanceTrackerMore.first_of fn l with
  | Some o =>
      fn o = true
      ∧ ∃ before after, l = before ++ o :: after ∧ ∀ x, x ∈ before → fn x = false
  | None => ∀ x, x ∈ l → fn x = false
  end.
Proof.
  induction l as [|x l IH]; simpl.
  - by intros x ?%elem_of_nil.
  - destruct (fn x) eqn:Hx.
    + split; [done|]. exists [], l. split; [done|]. by intros y ?%elem_of_nil.
    + destruct (InstanceTrackerMore.first_of fn l) as [o|].
      * destruct IH as (Ho & before & after & -> & Hb). split; [done|].
        exists (x :: before), after. split; [done|].
        intros y [-> | Hy]%elem_of_cons; auto.
      * intros y [-> | Hy]%elem_of_cons; auto.
Qed.

Lemma filter_absent (x : obj) (l : list obj) :
  x ∉ l → filter (λ y, y ≠ x) l = l.
Proof.
  induction l as [|y l IH]; [done|].
  intros [Hne Hn]%not_elem_of_cons. rewrite filter_cons.
  rewrite decide_True by done. by rewrite IH.
Qed.

(** X5.  [find] returns the first tracked object, in insertion order, that
    passes the test, and [undefined] exactly when no tracked object passes
    it; [filter] returns the tracked objects that pass the test, in
    insertion order; [find] is the head of [filter]; and [forEach] visits
    every tracked object once, in insertion order.  This holds on both
    trackers. *)
Theorem find_is_the_head_of_filter
    (fn : obj → bool) (s : InstanceTracker.state) (t : WidgetTracker.state) :
  InstanceTrackerMore.filter fn s = List.filter fn (InstanceTracker._instances s)
  ∧ (∀ o, o ∈ InstanceTrackerMore.filter fn s ↔
          InstanceTracker.has o s = true ∧ fn o = true)
  ∧ InstanceTrackerMore.find fn s = head (InstanceTrackerMore.filter fn s)
  ∧ match InstanceTrackerMore.find fn s with
    | Some o =>
        InstanceTracker.has o s = true ∧ fn o = true
        ∧ ∃ before after,
            InstanceTracker._instances s = before ++ o :: after
            ∧ ∀ x, x ∈ before → fn x = false
    | None => ∀ o, InstanceTracker.has o s = true → fn o = false
    end
  ∧ InstanceTrackerMore.forEach (λ o visited, visited ++ [o]) s []
    = InstanceTracker._instances s
  ∧ (∀ w, w ∈ WidgetTrackerMore.filter fn t ↔
          WidgetTracker.has w t = true ∧ fn w = true)
  ∧ WidgetTrackerMore.find fn t = head (WidgetTrackerMore.filter fn t)
  ∧ match WidgetTrackerMore.find fn t with
    | Some w => WidgetTracker.has w t = true ∧ fn w = true
    | None => ∀ w, WidgetTracker.has w t = true → fn w = false
    end
  ∧ WidgetTrackerMore.forEach (λ w visited, visited ++ [w]) t []
    = FocusTracker.widgets (WidgetTracker._tracker t).
Proof.
  assert (∀ l : list obj, foldl (λ acc o, acc ++ [o]) [] l = l) as Hvisit.
  { intros l. cut (∀ acc, foldl (λ acc o, acc ++ [o]) acc l = acc ++ l);
      [intros H; apply H|].
    induction l as [|x l IH]; intros acc; simpl; [by rewrite app_nil_r|].
    rewrite IH. by rewrite <- app_assoc. }
  split; [apply InstanceTracker_filter_spec|]. split.
  { intros o. rewrite InstanceTracker_filter_spec, list_elem_of_In, List.filter_In.
    unfold InstanceTracker.has. rewrite bool_decide_eq_true, list_elem_of_In. done. }
  split.
  { rewrite InstanceTracker_filter_spec. unfold InstanceTrackerMore.find.
    rewrite first_of_find. apply find_head_filter. }
  split.
  { unfold InstanceTrackerMore.find, InstanceTracker.has.
    pose proof (first_of_spec fn (InstanceTracker._instances s)) as Hspec.
    destruct (InstanceTrackerMore.first_of fn (InstanceTracker._instances s)) as [o|].
    - destruct Hspec as (Ho & before & after & Hl & Hb).
      split; [|split; [done|eauto]].
      apply bool_decide_eq_true_2. rewrite Hl. apply elem_of_app. right. by left.
    - intros o Ho%bool_decide_eq_true_1. by apply Hspec. }
  split; [apply Hvisit|]. split.
  { intros w. unfold WidgetTrackerMore.filter, WidgetTracker.has, FocusTracker.has.
    rewrite list_elem_of_In, List.filter_In, bool_decide_eq_true, list_elem_of_In.
    done. }
  split; [apply find_head_filter|]. split; [|apply Hvisit].
  unfold WidgetTrackerMore.find, WidgetTracker.has, FocusTracker.has.
  destruct (List.find fn _) as [w|] eqn:Hf.
  - apply List.find_some in Hf as [Hin Hw]. split; [|done].
    apply bool_decide_eq_true_2. by apply list_elem_of_In.
  - intros w Hw%bool_decide_eq_true_1.
    apply (List.find_none _ _ Hf). by apply list_elem_of_In.
Qed.

(** X6.  A successful [add] puts the object last: [filter] gains it at the
    end when it passes the test, and [find] finds it by identity.  The
    disposal of a tracked object the tracker subscribed to (of any tracked
    widget, on [WidgetTracker]) takes it out of [filter] and leaves the
    others in place. *)
Theorem queries_follow_add_and_disposal
    (fn : obj → bool) (o : obj) (s : InstanceTracker.state)
    (focused : bool) (previous : option obj) (t : WidgetTracker.state) :
  o ∉ InstanceTracker.isDisposed s →
  InstanceTracker.has o s = false →
  o ∉ WidgetTracker.isDisposed t →
  WidgetTracker.has o t = false →
  InstanceTrackerMore.filter fn (InstanceTracker.add o s).1
    = InstanceTrackerMore.filter fn s ++ (if fn o then [o] else [])
  ∧ InstanceTrackerMore.find (Nat.eqb o) (InstanceTracker.add o s).1 = Some o
  ∧ WidgetTrackerMore.filter fn (WidgetTracker.add focused o t).1
    = WidgetTrackerMore.filter fn t ++ (if fn o then [o] else [])
  ∧ WidgetTrackerMore.find (Nat.eqb o) (WidgetTracker.add focused o t).1 = Some o
  ∧ (∀ s' x, x ∈ InstanceTracker.connected s' →
       InstanceTrackerMore.filter fn (InstanceTracker.dispose_object x s')
       = List.filter (λ y, negb (Nat.eqb y x)) (InstanceTrackerMore.filter fn s'))
  ∧ (∀ t' x,
       WidgetTrackerMore.filter fn (WidgetTracker.dispose_widget previous x t')
       = List.filter (λ y, negb (Nat.eqb y x)) (WidgetTrackerMore.filter fn t')).
Proof.
  intros Hd Hh Hdw Hhw.
  assert (∀ l : list obj, o ∉ l → List.find (Nat.eqb o) (l ++ [o]) = Some o)
    as Hfind.
  { induction l as [|x l IH]; intros Hn; simpl; [by rewrite Nat.eqb_refl|].
    apply not_elem_of_cons in Hn as [Hne Hn].
    apply Nat.eqb_neq in Hne. rewrite Hne. by apply IH. }
  assert (∀ (x : obj) l,
            List.filter fn (filter (λ y, y ≠ x) l)
            = List.filter (λ y, negb (Nat.eqb y x)) (List.filter fn l)) as Hrem.
  { intros x. induction l as [|y l IH]; [done|].
    rewrite filter_cons. simpl. case_decide as Hy.
    - simpl. destruct (fn y); simpl; [|done].
      apply Nat.eqb_neq in Hy. rewrite Hy. simpl. by rewrite IH.
    - subst y. destruct (fn x); simpl; [|done].
      by rewrite Nat.eqb_refl. }
  destruct (InstanceTracker_add_fresh o s Hd Hh) as (Hi & _).
  destruct (WidgetTracker_add_fresh focused o t Hdw Hhw) as (Hiw & _).
  split; [|split; [|split; [|split; [|split]]]].
  - rewrite !InstanceTracker_filter_spec, Hi, List.filter_app. simpl.
    by destruct (fn o).
  - unfold InstanceTrackerMore.find. rewrite first_of_find, Hi. apply Hfind.
    unfold InstanceTracker.has in Hh. by apply bool_decide_eq_false_1 in Hh.
  - unfold WidgetTrackerMore.filter. rewrite Hiw, List.filter_app. simpl.
    by destruct (fn o).
  - unfold WidgetTrackerMore.find. rewrite Hiw. apply Hfind.
    unfold WidgetTracker.has, FocusTracker.has in Hhw.
    by apply bool_decide_eq_false_1 in Hhw.
  - intros s' x Hx. rewrite !InstanceTracker_filter_spec.
    unfold InstanceTracker.dispose_object.
    change (InstanceTracker.connected (InstanceTracker.with_disposed x s'))
      with (InstanceTracker.connected s'). rewrite decide_True by done.
    assert (InstanceTracker._instances
              (InstanceTracker._onInstanceDisposed x
                 (InstanceTracker.with_disposed x s'))
            = filter (λ y, y ≠ x) (InstanceTracker._instances s')) as ->.
    { unfold InstanceTracker._onInstanceDisposed. branches; done. }
    apply Hrem.
  - intros t' x. unfold WidgetTrackerMore.filter.
    assert (FocusTracker.widgets
              (WidgetTracker._tracker (WidgetTracker.dispose_widget previous x t'))
            = filter (λ y, y ≠ x)
                (FocusTracker.widgets (WidgetTracker._tracker t'))) as ->.
    { unfold WidgetTracker.dispose_widget, WidgetTracker.clear_attached.
      cbn [WidgetTracker._tracker].
      set (t1 := WidgetTracker.with_disposed x t').
      pose proof (WidgetTracker_tracker_becomes_frame
                    (FocusTracker.remove previous x (WidgetTracker._tracker t1)) t1)
        as (Hft & _).
      assert (FocusTracker.widgets
                (FocusTracker.remove previous x (WidgetTracker._tracker t'))
              = filter (λ y, y ≠ x)
                  (FocusTracker.widgets (WidgetTracker._tracker t'))) as Hrm.
      { unfold FocusTracker.remove, FocusTracker.has.
        case_bool_decide as Hin; [done|]. symmetry. by apply filter_absent. }
      case_decide; rewrite ?WidgetTracker_onWidgetDisposed_tracker, Hft; exact Hrm. }
    apply Hrem.
Qed.

Lemma queries_follow_add_and_disposal_witness :
  InstanceTrackerMore.filter Nat.even (InstanceTracker.add 2 demo_instances).1 = [2]
  ∧ WidgetTrackerMore.find (Nat.eqb 2) (WidgetTracker.add false 2 demo_widgets).1
    = Some 2.
Proof.
  assert (2 ∉ (∅ : gset obj)) as Hd by apply not_elem_of_empty.
  destruct (queries_follow_add_and_disposal Nat.even 2 demo_instances false None
              demo_widgets Hd eq_refl Hd eq_refl) as (H1 & _ & _ & H2 & _).
  split; [exact H1 | exact H2].
Defined.

(** ** What every reachable state satisfies *)

(** A property of the tracker kept by every synchronous segment holds
    after any sequence of operations. *)
Lemma InstanceTracker_exec_preserves (Q : InstanceTracker.state → Prop) :
  (∀ o s, Q s → Q (InstanceTracker.add o s).1) →
  (∀ o s, Q s → Q (InstanceTracker.with_injected o s)) →
  (∀ o s, Q s → Q (InstanceTracker.save o s).1) →
  (∀ options s, Q s → Q (InstanceTracker.restore options s).1) →
  (∀ v s, Q s → Q (InstanceTracker.set_current v s)) →
  (∀ o s, Q s → Q (InstanceTracker.dispose_object o s)) →
  (∀ k inp s p, Q s → InstanceTracker.resume k inp s = Some p → Q p.1) →
  ∀ a sys sys',
    Q (InstanceTracker.tracker sys) → InstanceTracker.exec a sys = Some sys' →
    Q (InstanceTracker.tracker sys').
Proof.
  intros Hadd Hinj Hsave Hrestore Hset Hdis Hres a sys sys' HQ Hexec.
  assert (∀ ts p, InstanceTracker.tracker (InstanceTracker.spawn ts p) = p.1)
    as Hspawn by (by intros ts [s' [r|k]]).
  destruct a; simpl in Hexec; simplify_eq; rewrite ?Hspawn; simpl; auto.
  - unfold InstanceTracker.inject. auto.
  - destruct (InstanceTracker.tasks sys !! i) as [k|]; [|done].
    destruct (InstanceTracker.resume k inp (InstanceTracker.tracker sys))
      as [p|] eqn:Hp; simplify_eq/=. rewrite Hspawn. eauto.
Qed.

Lemma InstanceTracker_run_preserves (Q : InstanceTracker.system → Prop) :
  (∀ a sys sys', Q sys → InstanceTracker.exec a sys = Some sys' → Q sys') →
  ∀ acts sys sys', Q sys → InstanceTracker.run acts sys = Some sys' → Q sys'.
Proof.
  intros Hstep acts. induction acts as [|a acts IH]; intros sys sys' HQ Hrun;
    simpl in Hrun; [by simplify_eq|].
  destruct (InstanceTracker.exec a sys) as [sys1|] eqn:Hexec; [|done]. eauto.
Qed.

Lemma WidgetTracker_exec_preserves (Q : WidgetTracker.state → Prop) :
  (∀ focused w t, Q t → Q (WidgetTracker.add focused w t).1) →
  (∀ w t, Q t → Q (WidgetTracker.with_injected w t)) →
  (∀ w t, Q t → Q (WidgetTracker.save w t).1) →
  (∀ options t, Q t → Q (WidgetTracker.restore options t).1) →
  (∀ v t, Q t → Q (WidgetTracker.focus_changed v t)) →
  (∀ previous w t, Q t → Q (WidgetTracker.dispose_widget previous w t)) →
  (∀ k inp t p, Q t → WidgetTracker.resume k inp t = Some p → Q p.1) →
  ∀ a sys sys',
    Q (WidgetTracker.tracker sys) → WidgetTracker.exec a sys = Some sys' →
    Q (WidgetTracker.tracker sys').
Proof.
  intros Hadd Hinj Hsave Hrestore Hfocus Hdis Hres a sys sys' HQ Hexec.
  assert (∀ ts p, WidgetTracker.tracker (WidgetTracker.spawn ts p) = p.1)
    as Hspawn by (by intros ts [s' [r|k]]).
  destruct a; simpl in Hexec; simplify_eq; rewrite ?Hspawn; simpl; auto.
  - unfold WidgetTracker.inject. auto.
  - unfold WidgetTracker.Widget_dispose. case_decide; auto.
  - destruct (WidgetTracker.tasks sys !! i) as [k|]; [|done].
    destruct (WidgetTracker.resume k inp (WidgetTracker.tracker sys))
      as [p|] eqn:Hp; simplify_eq/=. rewrite Hspawn. eauto.
Qed.

Lemma WidgetTracker_run_preserves (Q : WidgetTracker.system → Prop) :
  (∀ a sys sys', Q sys → WidgetTracker.exec a sys = Some sys' → Q sys') →
  ∀ acts sys sys', Q sys → WidgetTracker.run acts sys = Some sys' → Q sys'.
Proof.
  intros Hstep acts. induction acts as [|a acts IH]; intros sys sys' HQ Hrun;
    simpl in Hrun; [by simplify_eq|].
  destruct (WidgetTracker.exec a sys) as [sys1|] eqn:Hexec; [|done]. eauto.
Qed.

(** What the segments other than [add], [inject] and the disposal of an
    object leave alone. *)
Lemma InstanceTracker_set_current_frame v s :
  InstanceTracker._instances (InstanceTracker.set_current v s)
    = InstanceTracker._instances s
  ∧ InstanceTracker.connected (InstanceTracker.set_current v s)
    = InstanceTracker.connected s
  ∧ InstanceTracker.injectedProperty (InstanceTracker.set_current v s)
    = InstanceTracker.injectedProperty s
  ∧ InstanceTracker.isDisposed (InstanceTracker.set_current v s)
    = InstanceTracker.isDisposed s.
Proof. unfold InstanceTracker.set_current. branches; done. Qed.

Lemma InstanceTracker_resume_any_frame k inp s p :
  InstanceTracker.resume k inp s = Some p →
  InstanceTracker._instances p.1 = InstanceTracker._instances s
  ∧ InstanceTracker.connected p.1 = InstanceTracker.connected s
  ∧ InstanceTracker.injectedProperty p.1 = InstanceTracker.injectedProperty s
  ∧ InstanceTracker.isDisposed p.1 = InstanceTracker.isDisposed s.
Proof.
  intros Hres. destruct k, inp; try discriminate Hres; simpl in Hres;
    simplify_eq;
    unfold InstanceTracker.add_resume, InstanceTracker.add_finish,
      InstanceTracker.set_current,
      InstanceTracker.save_resume_remove,
      InstanceTracker.save_resume_save, InstanceTracker.save_name,
      InstanceTracker.save_finish, InstanceTracker.restore_resume_list,
      InstanceTracker.restore_resume_replay; branches; done.
Qed.


(** The same for the whole life of a tracker.  A property may depend on
    the flag: it is kept by the operations, passes from the tracker in
    use to the disposed one at the first [dispose()], and is kept when a
    widget among the objects is disposed. *)
Lemma InstanceTrackerMore_exec_preserves (Q : bool → InstanceTracker.system → Prop) :
  (∀ d a sys sys', Q d sys → InstanceTracker.exec a sys = Some sys' → Q d sys') →
  (∀ s ts,
     Q false {| InstanceTracker.tracker := s; InstanceTracker.tasks := ts |} →
     Q true {| InstanceTracker.tracker :=
                 InstanceTrackerMore.fields
                   (InstanceTrackerMore.dispose
                      {| InstanceTrackerMore.fields := s;
                         InstanceTrackerMore._isDisposed := false |});
               InstanceTracker.tasks := ts |}) →
  (∀ d o s ts,
     Q d {| InstanceTracker.tracker := s; InstanceTracker.tasks := ts |} →
     o ∉ InstanceTracker.isDisposed s →
     Q d {| InstanceTracker.tracker :=
              InstanceTrackerMore.clear_attached o
                (InstanceTracker.dispose_object o s);
            InstanceTracker.tasks := ts |}) →
  ∀ a sys sys',
    Q (InstanceTrackerMore.isDisposed (InstanceTrackerMore.this sys))
      (InstanceTrackerMore.inner sys) →
    InstanceTrackerMore.exec a sys = Some sys' →
    Q (InstanceTrackerMore.isDisposed (InstanceTrackerMore.this sys'))
      (InstanceTrackerMore.inner sys').
Proof.
  intros Hbase Hdispose Hclear a [[s d] ts] sys' HQ Hexec.
  unfold InstanceTrackerMore.inner, InstanceTrackerMore.isDisposed in *.
  simpl in *. destruct a as [a| |o]; simpl in Hexec.
  - unfold InstanceTrackerMore.inner in Hexec. simpl in Hexec.
    destruct (InstanceTracker.exec a _) as [[s1 ts1]|] eqn:Ha; simplify_eq/=.
    exact (Hbase d a _ _ HQ Ha).
  - simplify_eq. unfold InstanceTrackerMore.dispose,
      InstanceTrackerMore.isDisposed. simpl.
    destruct d; simpl; [done|]. exact (Hdispose s ts HQ).
  - simplify_eq. simpl. unfold InstanceTrackerMore.dispose_widget.
    case_decide; [done|]. by apply Hclear.
Qed.

Lemma InstanceTrackerMore_run_preserves (Q : InstanceTrackerMore.system → Prop) :
  (∀ a sys sys', Q sys → InstanceTrackerMore.exec a sys = Some sys' → Q sys') →
  ∀ acts sys sys', Q sys → InstanceTrackerMore.run acts sys = Some sys' → Q sys'.
Proof.
  intros Hstep acts. induction acts as [|a acts IH]; intros sys sys' HQ Hrun;
    simpl in Hrun; [by simplify_eq|].
  destruct (InstanceTrackerMore.exec a sys) as [sys1|] eqn:Hexec; [|done]. eauto.
Qed.

Lemma lifetime_instances_preserves (Q : bool → InstanceTracker.system → Prop) :
  (∀ d a sys sys', Q d sys → InstanceTracker.exec a sys = Some sys' → Q d sys') →
  (∀ s ts,
     Q false {| InstanceTracker.tracker := s; InstanceTracker.tasks := ts |} →
     Q true {| InstanceTracker.tracker :=
                 InstanceTrackerMore.fields
                   (InstanceTrackerMore.dispose
                      {| InstanceTrackerMore.fields := s;
                         InstanceTrackerMore._isDisposed := false |});
               InstanceTracker.tasks := ts |}) →
  (∀ d o s ts,
     Q d {| InstanceTracker.tracker := s; InstanceTracker.tasks := ts |} →
     o ∉ InstanceTracker.isDisposed s →
     Q d {| InstanceTracker.tracker :=
              InstanceTrackerMore.clear_attached o
                (InstanceTracker.dispose_object o s);
            InstanceTracker.tasks := ts |}) →
  (∀ ns injected names disposed,
     Q false (InstanceTracker.start
                (InstanceTracker.create ns injected names disposed))) →
  ∀ sys, lifetime_instances sys →
         Q (InstanceTrackerMore.isDisposed (InstanceTrackerMore.this sys))
           (InstanceTrackerMore.inner sys).
Proof.
  intros Hbase Hdispose Hclear Hstart sys (ns & inj & names & disp & acts & Hrun).
  refine (InstanceTrackerMore_run_preserves
            (λ sys, Q (InstanceTrackerMore.isDisposed (InstanceTrackerMore.this sys))
                      (InstanceTrackerMore.inner sys))
            (InstanceTrackerMore_exec_preserves Q Hbase Hdispose Hclear)
            acts _ _ _ Hrun).
  apply Hstart.
Qed.

(** One operation on a disposed [WidgetTracker]. *)
Lemma WidgetTrackerMore_exec_disposed_preserves (Q : WidgetTracker.state → Prop) :
  (∀ focused w t,
     Q t → Q (WidgetTrackerMore.add_with WidgetTracker.with_tracker focused w t).1) →
  (∀ w t, Q t → Q (WidgetTracker.with_injected w t)) →
  (∀ w t, Q t → Q (WidgetTracker.save w t).1) →
  (∀ options t, Q t → Q (WidgetTracker.restore options t).1) →
  (∀ v t, Q t →
          Q (WidgetTracker.with_tracker
               (FocusTracker.focus v (WidgetTracker._tracker t)) t)) →
  (∀ previous w t,
     Q t →
     Q (WidgetTrackerMore.dispose_widget_with WidgetTracker.with_tracker
          previous w t)) →
  (∀ k inp t p, Q t → WidgetTracker.resume k inp t = Some p → Q p.1) →
  ∀ a sys sys',
    Q (WidgetTracker.tracker sys) →
    WidgetTrackerMore.exec_disposed a sys = Some sys' →
    Q (WidgetTracker.tracker sys').
Proof.
  intros Hadd Hinj Hsave Hrestore Hfocus Hdis Hres a sys sys' HQ Hexec.
  assert (∀ ts p, WidgetTracker.tracker (WidgetTracker.spawn ts p) = p.1)
    as Hspawn by (by intros ts [s' [r|k]]).
  destruct a; simpl in Hexec; simplify_eq; rewrite ?Hspawn; simpl; auto.
  - case_decide; auto.
  - destruct (WidgetTracker.tasks sys !! i) as [k|]; [|done].
    destruct (WidgetTracker.resume k inp (WidgetTracker.tracker sys))
      as [p|] eqn:Hp; simplify_eq/=. rewrite Hspawn. eauto.
Qed.

Lemma WidgetTrackerMore_exec_preserves (Q : bool → WidgetTracker.system → Prop) :
  (∀ a sys sys', Q false sys → WidgetTracker.exec a sys = Some sys' → Q false sys') →
  (∀ a sys sys',
     Q true sys → WidgetTrackerMore.exec_disposed a sys = Some sys' → Q true sys') →
  (∀ s ts,
     Q false {| WidgetTracker.tracker := s; WidgetTracker.tasks := ts |} →
     Q true {| WidgetTracker.tracker :=
                 WidgetTrackerMore.fields
                   (WidgetTrackerMore.dispose
                      {| WidgetTrackerMore.fields := s;
                         WidgetTrackerMore._isDisposed := false |});
               WidgetTracker.tasks := ts |}) →
  ∀ a sys sys',
    Q (WidgetTrackerMore.isDisposed (WidgetTrackerMore.this sys))
      (WidgetTrackerMore.inner sys) →
    WidgetTrackerMore.exec a sys = Some sys' →
    Q (WidgetTrackerMore.isDisposed (WidgetTrackerMore.this sys'))
      (WidgetTrackerMore.inner sys').
Proof.
  intros Hbase Hdeaf Hdispose a [[s d] ts] sys' HQ Hexec.
  unfold WidgetTrackerMore.inner, WidgetTrackerMore.isDisposed in *.
  simpl in *. destruct a as [a|]; simpl in Hexec.
  - unfold WidgetTrackerMore.inner, WidgetTrackerMore.isDisposed in Hexec.
    simpl in Hexec. destruct d.
    + destruct (WidgetTrackerMore.exec_disposed a _) as [[s1 ts1]|] eqn:Ha;
        simplify_eq/=. exact (Hdeaf a _ _ HQ Ha).
    + destruct (WidgetTracker.exec a _) as [[s1 ts1]|] eqn:Ha; simplify_eq/=.
      exact (Hbase a _ _ HQ Ha).
  - simplify_eq. unfold WidgetTrackerMore.dispose, WidgetTrackerMore.isDisposed.
    simpl. destruct d; simpl; [done|]. exact (Hdispose s ts HQ).
Qed.

Lemma WidgetTrackerMore_run_preserves (Q : WidgetTrackerMore.system → Prop) :
  (∀ a sys sys', Q sys → WidgetTrackerMore.exec a sys = Some sys' → Q sys') →
  ∀ acts sys sys', Q sys → WidgetTrackerMore.run acts sys = Some sys' → Q sys'.
Proof.
  intros Hstep acts. induction acts as [|a acts IH]; intros sys sys' HQ Hrun;
    simpl in Hrun; [by simplify_eq|].
  destruct (WidgetTrackerMore.exec a sys) as [sys1|] eqn:Hexec; [|done]. eauto.
Qed.

Lemma lifetime_widgets_preserves (Q : bool → WidgetTracker.system → Prop) :
  (∀ a sys sys', Q false sys → WidgetTracker.exec a sys = Some sys' → Q false sys') →
  (∀ a sys sys',
     Q true sys → WidgetTrackerMore.exec_disposed a sys = Some sys' → Q true sys') →
  (∀ s ts,
     Q false {| WidgetTracker.tracker := s; WidgetTracker.tasks := ts |} →
     Q true {| WidgetTracker.tracker :=
                 WidgetTrackerMore.fields
                   (WidgetTrackerMore.dispose
                      {| WidgetTrackerMore.fields := s;
                         WidgetTrackerMore._isDisposed := false |});
               WidgetTracker.tasks := ts |}) →
  (∀ ns injected names disposed,
     Q false (WidgetTracker.start
                (WidgetTracker.create ns injected names disposed))) →
  ∀ sys, lifetime_widgets sys →
         Q (WidgetTrackerMore.isDisposed (WidgetTrackerMore.this sys))
           (WidgetTrackerMore.inner sys).
Proof.
  intros Hbase Hdeaf Hdispose Hstart sys (ns & inj & names & disp & acts & Hrun).
  refine (WidgetTrackerMore_run_preserves
            (λ sys, Q (WidgetTrackerMore.isDisposed (WidgetTrackerMore.this sys))
                      (WidgetTrackerMore.inner sys))
            (WidgetTrackerMore_exec_preserves Q Hbase Hdeaf Hdispose)
            acts _ _ _ Hrun).
  apply Hstart.
Qed.

(** A tracker that is not disposed has only been through the operations
    of [WidgetTracker.action]: the flag is never taken back. *)
Lemma WidgetTrackerMore_run_in_use acts sys sys' :
  WidgetTrackerMore.run acts sys = Some sys' →
  WidgetTrackerMore.isDisposed (WidgetTrackerMore.this sys') = false →
  WidgetTrackerMore.isDisposed (WidgetTrackerMore.this sys) = false
  ∧ ∃ acts', WidgetTracker.run acts' (WidgetTrackerMore.inner sys)
             = Some (WidgetTrackerMore.inner sys').
Proof.
  revert sys. induction acts as [|a acts IH]; intros sys Hrun Hflag;
    simpl in Hrun.
  - simplify_eq. split; [done|]. by exists [].
  - destruct (WidgetTrackerMore.exec a sys) as [sys1|] eqn:Hexec; [|done].
    destruct (IH sys1 Hrun Hflag) as (Hflag1 & acts' & Hrun').
    destruct sys as [[s d] ts]. destruct a as [a|]; simpl in Hexec.
    + unfold WidgetTrackerMore.isDisposed in *. simpl in *.
      destruct d.
      * destruct (WidgetTrackerMore.exec_disposed a _); simplify_eq/=.
      * split; [done|].
        destruct (WidgetTracker.exec a _) as [[s1 ts1]|] eqn:Ha; simplify_eq/=.
        exists (a :: acts').
        change (WidgetTracker.run (a :: acts') ?x)
          with (match WidgetTracker.exec a x with
                | Some sys1 => WidgetTracker.run acts' sys1
                | None => None
                end).
        unfold WidgetTrackerMore.inner in *. simpl in *. by rewrite Ha.
    + simplify_eq. unfold WidgetTrackerMore.dispose,
        WidgetTrackerMore.isDisposed in *. simpl in *. by destruct d.
Qed.

Lemma lifetime_widgets_in_use sys :
  lifetime_widgets sys →
  WidgetTrackerMore.isDisposed (WidgetTrackerMore.this sys) = false →
  reachable_widgets (WidgetTrackerMore.inner sys).
Proof.
  intros (ns & inj & names & disp & acts & Hrun) Hflag.
  destruct (WidgetTrackerMore_run_in_use _ _ _ Hrun Hflag) as (_ & acts' & Hrun').
  by exists ns, inj, names, disp, acts'.
Qed.

(** Conversely, what a tracker in use reaches is part of its life. *)
Lemma reachable_instances_lifetime sys :
  reachable_instances sys →
  lifetime_instances (InstanceTrackerMore.outer false sys).
Proof.
  intros (ns & inj & names & disp & acts & Hrun).
  exists ns, inj, names, disp, (InstanceTrackerMore.Act <$> acts).
  unfold InstanceTrackerMore.start.
  revert Hrun. generalize (InstanceTracker.start
                             (InstanceTracker.create ns inj names disp)).
  induction acts as [|a acts IH]; intros sys0 Hrun; simpl in Hrun.
  - by simplify_eq.
  - destruct (InstanceTracker.exec a sys0) as [sys1|] eqn:Hexec; [|done].
    rewrite fmap_cons.
    change (InstanceTrackerMore.run (?x :: ?l) ?y)
      with (match InstanceTrackerMore.exec x y with
            | Some sys' => InstanceTrackerMore.run l sys'
            | None => None
            end).
    cbn [InstanceTrackerMore.exec].
    replace (InstanceTrackerMore.inner (InstanceTrackerMore.outer false sys0))
      with sys0 by (by destruct sys0).
    rewrite Hexec. simpl. by apply IH.
Qed.

Lemma reachable_widgets_lifetime sys :
  reachable_widgets sys →
  lifetime_widgets (WidgetTrackerMore.outer false sys).
Proof.
  intros (ns & inj & names & disp & acts & Hrun).
  exists ns, inj, names, disp, (WidgetTrackerMore.Act <$> acts).
  unfold WidgetTrackerMore.start.
  revert Hrun. generalize (WidgetTracker.start
                             (WidgetTracker.create ns inj names disp)).
  induction acts as [|a acts IH]; intros sys0 Hrun; simpl in Hrun.
  - by simplify_eq.
  - destruct (WidgetTracker.exec a sys0) as [sys1|] eqn:Hexec; [|done].
    rewrite fmap_cons.
    change (WidgetTrackerMore.run (?x :: ?l) ?y)
      with (match WidgetTrackerMore.exec x y with
            | Some sys' => WidgetTrackerMore.run l sys'
            | None => None
            end).
    cbn [WidgetTrackerMore.exec].
    replace (WidgetTrackerMore.inner (WidgetTrackerMore.outer false sys0))
      with sys0 by (by destruct sys0).
    cbn [WidgetTrackerMore.isDisposed WidgetTrackerMore._isDisposed
         WidgetTrackerMore.this WidgetTrackerMore.outer].
    rewrite Hexec. simpl. by apply IH.
Qed.

(** [WidgetTracker.add] and [WidgetTracker.dispose_widget] are the
    methods that hear the focus tracker. *)
Lemma WidgetTracker_add_hears focused w t :
  WidgetTracker.add focused w t
  = WidgetTrackerMore.add_with WidgetTracker.tracker_becomes focused w t.
Proof. reflexivity. Qed.

Lemma WidgetTracker_dispose_widget_hears previous w t :
  WidgetTracker.dispose_widget previous w t
  = WidgetTrackerMore.dispose_widget_with WidgetTracker.tracker_becomes previous w t.
Proof. reflexivity. Qed.


(** ** The tracked set of an [InstanceTracker] *)

Lemma well_formed_instances_frame s s' :
  well_formed_instances s →
  InstanceTracker._instances s' = InstanceTracker._instances s →
  InstanceTracker.connected s' = InstanceTracker.connected s →
  InstanceTracker.injectedProperty s ⊆ InstanceTracker.injectedProperty s' →
  InstanceTracker.isDisposed s' = InstanceTracker.isDisposed s →
  well_formed_instances s'.
Proof.
  unfold well_formed_instances. intros (I1 & I2 & I3) -> -> Hinj ->.
  split; [done|]. split; [|done]. intros o Ho Hc.
  destruct (I2 o Ho Hc) as [Hi|Hd]; [left; by apply Hinj | by right].
Qed.

Lemma well_formed_instances_add o s :
  well_formed_instances s → well_formed_instances (InstanceTracker.add o s).1.
Proof.
  intros Hwf. unfold InstanceTracker.add.
  case_decide as Hd; [done|].
  destruct (InstanceTracker.has o s) eqn:Hh; [done|].
  apply bool_decide_eq_false_1 in Hh.
  destruct Hwf as (I1 & I2 & I3).
  assert (NoDup (InstanceTracker._instances s ++ [o])) as Hnd.
  { apply NoDup_app. split; [done|]. split; [|apply NoDup_singleton].
    by intros x Hx ->%list_elem_of_singleton. }
  assert (∀ s1,
            InstanceTracker._instances s1 = InstanceTracker._instances s ++ [o] →
            InstanceTracker.connected s1 = {[o]} ∪ InstanceTracker.connected s →
            InstanceTracker.injectedProperty s1 = InstanceTracker.injectedProperty s →
            InstanceTracker.isDisposed s1 = InstanceTracker.isDisposed s →
            well_formed_instances s1) as Hconn.
  { intros s1 Hi Hc Hinj Hdis. unfold well_formed_instances.
    rewrite Hi, Hc, Hinj, Hdis. split; [done|]. split.
    - intros x [Hx | ->%list_elem_of_singleton]%elem_of_app Hn.
      + apply I2; [done|]. intros Hcx. apply Hn. apply elem_of_union. by right.
      + exfalso. apply Hn. apply elem_of_union. left. by apply elem_of_singleton.
    - intros x [Hx | ->%list_elem_of_singleton]%elem_of_app Hdx; [|done].
      intros [->%elem_of_singleton | Hcx]%elem_of_union; [done|].
      by apply (I3 x). }
  cbn zeta. destruct (InstanceTracker.injected o _) eqn:Hinj.
  - apply bool_decide_eq_true_1 in Hinj. simpl in Hinj.
    unfold well_formed_instances. simpl. split; [done|]. split.
    + intros x [Hx | ->%list_elem_of_singleton]%elem_of_app Hn; auto.
    + intros x [Hx | ->%list_elem_of_singleton]%elem_of_app Hdx; [auto|done].
  - set (s1 := InstanceTracker.connect o
                 (InstanceTracker.with_instances
                    (InstanceTracker._instances s ++ [o]) s)).
    destruct (InstanceTracker_add_finish_frame o s1) as (E1 & E2 & E3 & E4).
    change (InstanceTracker._restore s1) with (InstanceTracker._restore s).
    destruct (InstanceTracker._restore s) as [r|]; cbn [fst];
      [destruct (String.eqb (name r o) ""); cbn [fst]|];
      apply Hconn; rewrite ?E1, ?E2, ?E3, ?E4; done.
Qed.

Lemma elem_of_filter_other (x o : obj) (l : list obj) :
  x ∈ filter (λ y, y ≠ o) l ↔ x ≠ o ∧ x ∈ l.
Proof. by rewrite list_elem_of_filter. Qed.

Lemma InstanceTracker_dispose_object_disposed o s :
  InstanceTracker.isDisposed (InstanceTracker.dispose_object o s)
  = {[o]} ∪ InstanceTracker.isDisposed s.
Proof.
  unfold InstanceTracker.dispose_object. case_decide; [|done].
  unfold InstanceTracker._onInstanceDisposed. branches; done.
Qed.

Lemma well_formed_instances_dispose o s :
  well_formed_instances s →
  well_formed_instances (InstanceTracker.dispose_object o s).
Proof.
  intros (I1 & I2 & I3). unfold InstanceTracker.dispose_object.
  change (InstanceTracker.connected (InstanceTracker.with_disposed o s))
    with (InstanceTracker.connected s).
  case_decide as Hc.
  - assert (∀ s1,
              InstanceTracker._instances s1
                = filter (λ y, y ≠ o) (InstanceTracker._instances s) →
              InstanceTracker.connected s1 = InstanceTracker.connected s →
              InstanceTracker.injectedProperty s1 = InstanceTracker.injectedProperty s →
              InstanceTracker.isDisposed s1 = {[o]} ∪ InstanceTracker.isDisposed s →
              well_formed_instances s1) as Hgone.
    { intros s1 Hi Hcon Hinj Hdis. unfold well_formed_instances.
      rewrite Hi, Hcon, Hinj, Hdis. split; [by apply NoDup_filter|]. split.
      - intros x [Hne Hx]%elem_of_filter_other Hn.
        destruct (I2 x Hx Hn) as [?|?]; [by left|right].
        apply elem_of_union. by right.
      - intros x [Hne Hx]%elem_of_filter_other
          [->%elem_of_singleton | Hdx]%elem_of_union; [done|]. by apply I3. }
    unfold InstanceTracker._onInstanceDisposed. branches; by apply Hgone.
  - unfold well_formed_instances. simpl. split; [done|]. split.
    + intros x Hx Hn. destruct (I2 x Hx Hn) as [?|?]; [by left|right].
      apply elem_of_union. by right.
    + intros x Hx [->%elem_of_singleton | Hdx]%elem_of_union; [done|].
      by apply I3.
Qed.

(** A widget among the objects: its disposal ends by clearing what is
    attached to it. *)
Lemma well_formed_instances_dispose_widget o s :
  well_formed_instances s →
  well_formed_instances
    (InstanceTrackerMore.clear_attached o (InstanceTracker.dispose_object o s)).
Proof.
  intros Hwf. pose proof (InstanceTracker_dispose_object_disposed o s) as Hd.
  apply (well_formed_instances_dispose o) in Hwf.
  set (s1 := InstanceTracker.dispose_object o s) in *. clearbody s1.
  destruct Hwf as (I1 & I2 & I3). unfold well_formed_instances. simpl.
  split; [done|]. split.
  - intros x Hx Hn. destruct (decide (x = o)) as [->|Hne].
    + right. rewrite Hd. apply elem_of_union. left. by apply elem_of_singleton.
    + destruct (I2 x Hx) as [?|?]; [|left|by right].
      * intros Hc. apply Hn. apply elem_of_difference. split; [done|].
        by intros ?%elem_of_singleton.
      * apply elem_of_difference. split; [done|]. by intros ?%elem_of_singleton.
  - intros x Hx Hdx [Hc _]%elem_of_difference. by apply (I3 x).
Qed.

Lemma well_formed_instances_exec a sys sys' :
  well_formed_instances (InstanceTracker.tracker sys) →
  InstanceTracker.exec a sys = Some sys' →
  well_formed_instances (InstanceTracker.tracker sys').
Proof.
  apply (InstanceTracker_exec_preserves well_formed_instances).
  - apply well_formed_instances_add.
  - intros o s Hwf. apply (well_formed_instances_frame s); try done.
    simpl. apply union_subseteq_r.
  - intros o s Hwf.
    destruct (InstanceTracker_save_frame o s) as [(Hi & _ & Hc & Hinj & Hd) _].
    apply (well_formed_instances_frame s); try done. by rewrite Hinj.
  - intros options s Hwf.
    destruct (InstanceTracker_restore_frame options s)
      as [(Hi & _ & Hc & Hinj & Hd) _].
    apply (well_formed_instances_frame s); try done. by rewrite Hinj.
  - intros v s Hwf.
    destruct (InstanceTracker_set_current_frame v s) as (Hi & Hc & Hinj & Hd).
    apply (well_formed_instances_frame s); try done. by rewrite Hinj.
  - apply well_formed_instances_dispose.
  - intros k inp s p Hwf Hres.
    destruct (InstanceTracker_resume_any_frame k inp s p Hres)
      as (Hi & Hc & Hinj & Hd).
    apply (well_formed_instances_frame s); try done. by rewrite Hinj.
Qed.

Lemma well_formed_instances_lifetime sys :
  lifetime_instances sys →
  well_formed_instances
    (InstanceTrackerMore.fields (InstanceTrackerMore.this sys)).
Proof.
  intros Hlife.
  apply (lifetime_instances_preserves
           (λ _ sys, well_formed_instances (InstanceTracker.tracker sys)));
    [| | | |done].
  - intros _. apply well_formed_instances_exec.
  - intros s ts _. unfold well_formed_instances. simpl.
    split; [apply NoDup_nil_2|]. split; by intros o ?%elem_of_nil.
  - intros _ o s ts Hwf _. by apply well_formed_instances_dispose_widget.
  - intros ns inj names disp. unfold well_formed_instances. simpl.
    split; [apply NoDup_nil_2|]. split; by intros o ?%elem_of_nil.
Qed.

(** X7.  Through the whole life of an [InstanceTracker], whatever the
    calls, resumptions, writes to [current] and disposals of objects
    (widgets or not) that led to a state, and whether or not the tracker
    itself was disposed on the way: no object is tracked twice; a tracked
    object that reports itself disposed is one to whose [disposed] signal
    the tracker is not connected; and a tracked object the tracker is not
    connected to is flagged injected unless it is disposed.  So an object
    that was added by [add] alone leaves the tracked set the moment it is
    disposed, and what stays behind disposed was injected. *)
Theorem tracked_and_disposed_means_not_heard (sys : InstanceTrackerMore.system) :
  lifetime_instances sys →
  let s := InstanceTrackerMore.fields (InstanceTrackerMore.this sys) in
  NoDup (InstanceTracker._instances s)
  ∧ (∀ o, InstanceTracker.has o s = true →
          o ∈ InstanceTracker.isDisposed s →
          o ∉ InstanceTracker.connected s)
  ∧ (∀ o, InstanceTracker.has o s = true →
          o ∉ InstanceTracker.connected s →
          InstanceTracker.injected o s = true ∨ o ∈ InstanceTracker.isDisposed s).
Proof.
  intros Hlife s.
  destruct (well_formed_instances_lifetime sys Hlife) as (I1 & I2 & I3).
  split; [done|]. split.
  - intros o Ho%bool_decide_eq_true_1 Hd. by apply I3.
  - intros o Ho%bool_decide_eq_true_1 Hc.
    destruct (I2 o Ho Hc) as [?|?]; [left|by right].
    by apply bool_decide_eq_true_2.
Qed.

Lemma tracked_and_disposed_means_not_heard_witness :
  NoDup (InstanceTracker._instances
           (InstanceTrackerMore.fields (InstanceTrackerMore.this demo_life_instances)))
  ∧ InstanceTracker._instances
      (InstanceTrackerMore.fields (InstanceTrackerMore.this demo_life_instances))
    = [1; 3]
  ∧ 3 ∉ InstanceTracker.connected
          (InstanceTrackerMore.fields (InstanceTrackerMore.this demo_life_instances)).
Proof.
  assert (lifetime_instances demo_life_instances) as Hr.
  { exists "nb", ∅, ∅, ∅, demo_life_actions. vm_compute. reflexivity. }
  destruct (tracked_and_disposed_means_not_heard demo_life_instances Hr)
    as (H1 & H2 & _).
  split; [exact H1|]. split; [vm_compute; reflexivity|].
  apply (H2 3); vm_compute; reflexivity.
Defined.

(** ** The two sequences of a [WidgetTracker] *)

(** On a sequence without repetition, removing the first occurrence of a
    widget removes the widget. *)
Lemma removeFirstOf_filter (l : list obj) (w : obj) :
  NoDup l → removeFirstOf l w = filter (λ y, y ≠ w) l.
Proof.
  induction l as [|x l IH]; [done|].
  intros [Hx Hnd]%NoDup_cons. simpl. rewrite filter_cons. case_decide as Hxw.
  - subst x. rewrite decide_False by (by intros ?). by rewrite filter_absent.
  - rewrite decide_True by done. by rewrite IH.
Qed.

Lemma WidgetTracker_tracker_becomes_shape ft (t : WidgetTracker.state) :
  WidgetTracker._tracker (WidgetTracker.tracker_becomes ft t) = ft
  ∧ WidgetTracker._widgets (WidgetTracker.tracker_becomes ft t)
    = WidgetTracker._widgets t
  ∧ WidgetTracker.isDisposed (WidgetTracker.tracker_becomes ft t)
    = WidgetTracker.isDisposed t
  ∧ WidgetTracker.injectedProperty (WidgetTracker.tracker_becomes ft t)
    = WidgetTracker.injectedProperty t
  ∧ WidgetTracker.connected (WidgetTracker.tracker_becomes ft t)
    = WidgetTracker.connected t.
Proof.
  unfold WidgetTracker.tracker_becomes, WidgetTracker._onCurrentChanged.
  branches; done.
Qed.

Lemma FocusTracker_remove_widgets previous w ft :
  FocusTracker.widgets (FocusTracker.remove previous w ft)
  = filter (λ y, y ≠ w) (FocusTracker.widgets ft).
Proof.
  unfold FocusTracker.remove, FocusTracker.has.
  case_bool_decide as Hin; [done|]. symmetry. by apply filter_absent.
Qed.

Lemma WidgetTracker_with_tracker_shape ft (t : WidgetTracker.state) :
  WidgetTracker._tracker (WidgetTracker.with_tracker ft t) = ft
  ∧ WidgetTracker._widgets (WidgetTracker.with_tracker ft t)
    = WidgetTracker._widgets t
  ∧ WidgetTracker.isDisposed (WidgetTracker.with_tracker ft t)
    = WidgetTracker.isDisposed t
  ∧ WidgetTracker.injectedProperty (WidgetTracker.with_tracker ft t)
    = WidgetTracker.injectedProperty t
  ∧ WidgetTracker.connected (WidgetTracker.with_tracker ft t)
    = WidgetTracker.connected t.
Proof. done. Qed.

Section hearing.

(** What follows holds whether or not the tracker hears the focus
    tracker. *)
Variable hears : FocusTracker.t → WidgetTracker.state → WidgetTracker.state.
Hypothesis hears_shape : ∀ ft (t : WidgetTracker.state),
  WidgetTracker._tracker (hears ft t) = ft
  ∧ WidgetTracker._widgets (hears ft t) = WidgetTracker._widgets t
  ∧ WidgetTracker.isDisposed (hears ft t) = WidgetTracker.isDisposed t
  ∧ WidgetTracker.injectedProperty (hears ft t) = WidgetTracker.injectedProperty t
  ∧ WidgetTracker.connected (hears ft t) = WidgetTracker.connected t.

(** What a successful [add] does to the sequences and the flags. *)
Lemma WidgetTracker_add_with_shape focused w (t : WidgetTracker.state) :
  w ∉ WidgetTracker.isDisposed t →
  WidgetTracker.has w t = false →
  let t' := (WidgetTrackerMore.add_with hears focused w t).1 in
  FocusTracker.widgets (WidgetTracker._tracker t')
    = FocusTracker.widgets (WidgetTracker._tracker t) ++ [w]
  ∧ WidgetTracker._widgets t' = WidgetTracker._widgets t ++ [w]
  ∧ WidgetTracker.isDisposed t' = WidgetTracker.isDisposed t
  ∧ WidgetTracker.injectedProperty t' = WidgetTracker.injectedProperty t
  ∧ WidgetTracker.connected t'
    = (if WidgetTracker.injected w t then WidgetTracker.connected t
       else {[w]} ∪ WidgetTracker.connected t).
Proof using hears_shape.
  intros Hd Hh. unfold WidgetTrackerMore.add_with. unfold WidgetTracker.has in Hh.
  rewrite decide_False, Hh by done.
  pose proof (hears_shape
                (FocusTracker.add focused w (WidgetTracker._tracker t)) t)
    as (Hft & Hw & Hdis & Hinj & Hc).
  set (t1 := hears _ t) in *. clearbody t1.
  pose proof (FocusTracker_add_widgets focused w _ Hh) as Hadd.
  rewrite <- Hft in Hadd. unfold WidgetTracker.injected. cbn zeta.
  change (WidgetTracker.injectedProperty
            (WidgetTracker.with_widgets (WidgetTracker._widgets t1 ++ [w]) t1))
    with (WidgetTracker.injectedProperty t1). rewrite Hinj.
  case_bool_decide as Hi; [by rewrite Hw|].
  branches; rewrite ?Hadd, ?Hw, ?Hdis, ?Hinj, ?Hc; done.
Qed.

(** What the disposal of a widget does to them. *)
Lemma WidgetTracker_dispose_with_shape previous w (t : WidgetTracker.state) :
  let t' := WidgetTrackerMore.dispose_widget_with hears previous w t in
  FocusTracker.widgets (WidgetTracker._tracker t')
    = filter (λ y, y ≠ w) (FocusTracker.widgets (WidgetTracker._tracker t))
  ∧ WidgetTracker._widgets t'
    = (if decide (w ∈ WidgetTracker.connected t)
       then if WidgetTracker.injected w t then WidgetTracker._widgets t
            else removeFirstOf (WidgetTracker._widgets t) w
       else WidgetTracker._widgets t)
  ∧ WidgetTracker.isDisposed t' = {[w]} ∪ WidgetTracker.isDisposed t
  ∧ WidgetTracker.injectedProperty t' = WidgetTracker.injectedProperty t ∖ {[w]}
  ∧ WidgetTracker.connected t' = WidgetTracker.connected t ∖ {[w]}.
Proof using hears_shape.
  unfold WidgetTrackerMore.dispose_widget_with, WidgetTracker.clear_attached.
  cbn zeta. cbn [WidgetTracker._tracker WidgetTracker._widgets
                 WidgetTracker.isDisposed WidgetTracker.injectedProperty
                 WidgetTracker.connected].
  set (t1 := WidgetTracker.with_disposed w t).
  pose proof (hears_shape
                (FocusTracker.remove previous w (WidgetTracker._tracker t1)) t1)
    as (Hft & Hw & Hdis & Hinj & Hc).
  set (t2 := hears _ t1) in *. clearbody t2.
  rewrite Hc. change (WidgetTracker.connected t1) with (WidgetTracker.connected t).
  assert (FocusTracker.widgets (WidgetTracker._tracker t2)
          = filter (λ y, y ≠ w) (FocusTracker.widgets (WidgetTracker._tracker t)))
    as Hrm by (rewrite Hft; apply FocusTracker_remove_widgets).
  case_decide as Hcon; [|by rewrite Hrm, Hw, Hdis, Hinj, Hc].
  unfold WidgetTracker._onWidgetDisposed, WidgetTracker.injected.
  rewrite Hinj. change (WidgetTracker.injectedProperty t1)
    with (WidgetTracker.injectedProperty t).
  case_bool_decide as Hi; [by rewrite Hrm, Hw, Hdis, Hinj, Hc|].
  branches; rewrite ?Hrm, ?Hw, ?Hdis, ?Hinj, ?Hc; done.
Qed.

Lemma live_widgets_add_with focused w t :
  live_widgets t → live_widgets (WidgetTrackerMore.add_with hears focused w t).1.
Proof using hears_shape.
  intros Hlive.
  destruct (decide (w ∈ WidgetTracker.isDisposed t)) as [Hd|Hd];
    [unfold WidgetTrackerMore.add_with; by rewrite decide_True|].
  destruct (WidgetTracker.has w t) eqn:Hh;
    [unfold WidgetTrackerMore.add_with; unfold WidgetTracker.has in Hh;
     by rewrite decide_False, Hh|].
  destruct (WidgetTracker_add_with_shape focused w t Hd Hh)
    as (Hft & _ & Hdis & _).
  destruct Hlive as (L1 & L2). apply bool_decide_eq_false_1 in Hh.
  unfold live_widgets. cbn zeta. rewrite Hft, Hdis. split.
  - apply NoDup_app. split; [done|]. split; [|apply NoDup_singleton].
    by intros x Hx ->%list_elem_of_singleton.
  - intros x [Hx | ->%list_elem_of_singleton]%elem_of_app; [by apply L2|done].
Qed.

Lemma live_widgets_dispose_with previous w t :
  live_widgets t →
  live_widgets (WidgetTrackerMore.dispose_widget_with hears previous w t).
Proof using hears_shape.
  intros (L1 & L2).
  destruct (WidgetTracker_dispose_with_shape previous w t) as (Hft & _ & Hdis & _).
  unfold live_widgets. cbn zeta. rewrite Hft, Hdis.
  split; [by apply NoDup_filter|].
  intros x [Hne Hx]%elem_of_filter_other
    [->%elem_of_singleton | Hdx]%elem_of_union; [done|]. by apply (L2 x).
Qed.

End hearing.

Lemma WidgetTracker_add_shape focused w (t : WidgetTracker.state) :
  w ∉ WidgetTracker.isDisposed t →
  WidgetTracker.has w t = false →
  let t' := (WidgetTracker.add focused w t).1 in
  FocusTracker.widgets (WidgetTracker._tracker t')
    = FocusTracker.widgets (WidgetTracker._tracker t) ++ [w]
  ∧ WidgetTracker._widgets t' = WidgetTracker._widgets t ++ [w]
  ∧ WidgetTracker.isDisposed t' = WidgetTracker.isDisposed t
  ∧ WidgetTracker.injectedProperty t' = WidgetTracker.injectedProperty t
  ∧ WidgetTracker.connected t'
    = (if WidgetTracker.injected w t then WidgetTracker.connected t
       else {[w]} ∪ WidgetTracker.connected t).
Proof.
  exact (WidgetTracker_add_with_shape WidgetTracker.tracker_becomes
           WidgetTracker_tracker_becomes_shape focused w t).
Qed.

Lemma WidgetTracker_dispose_shape previous w (t : WidgetTracker.state) :
  let t' := WidgetTracker.dispose_widget previous w t in
  FocusTracker.widgets (WidgetTracker._tracker t')
    = filter (λ y, y ≠ w) (FocusTracker.widgets (WidgetTracker._tracker t))
  ∧ WidgetTracker._widgets t'
    = (if decide (w ∈ WidgetTracker.connected t)
       then if WidgetTracker.injected w t then WidgetTracker._widgets t
            else removeFirstOf (WidgetTracker._widgets t) w
       else WidgetTracker._widgets t)
  ∧ WidgetTracker.isDisposed t' = {[w]} ∪ WidgetTracker.isDisposed t
  ∧ WidgetTracker.injectedProperty t' = WidgetTracker.injectedProperty t ∖ {[w]}
  ∧ WidgetTracker.connected t' = WidgetTracker.connected t ∖ {[w]}.
Proof.
  exact (WidgetTracker_dispose_with_shape WidgetTracker.tracker_becomes
           WidgetTracker_tracker_becomes_shape previous w t).
Qed.

Lemma WidgetTracker_resume_shape k inp t p :
  WidgetTracker.resume k inp t = Some p →
  WidgetTracker._tracker p.1 = WidgetTracker._tracker t
  ∧ WidgetTracker._widgets p.1 = WidgetTracker._widgets t
  ∧ WidgetTracker.isDisposed p.1 = WidgetTracker.isDisposed t
  ∧ WidgetTracker.injectedProperty p.1 = WidgetTracker.injectedProperty t
  ∧ WidgetTracker.connected p.1 = WidgetTracker.connected t.
Proof.
  intros Hres. destruct k, inp; try discriminate Hres; simpl in Hres;
    simplify_eq;
    unfold WidgetTracker.add_resume,
      WidgetTracker.save_resume_remove,
      WidgetTracker.save_resume_save, WidgetTracker.save_name,
      WidgetTracker.save_finish, WidgetTracker.restore_resume_list,
      WidgetTracker.restore_resume_replay; branches; done.
Qed.

Lemma WidgetTracker_save_shape w t :
  WidgetTracker._tracker (WidgetTracker.save w t).1 = WidgetTracker._tracker t
  ∧ WidgetTracker._widgets (WidgetTracker.save w t).1 = WidgetTracker._widgets t
  ∧ WidgetTracker.isDisposed (WidgetTracker.save w t).1 = WidgetTracker.isDisposed t
  ∧ WidgetTracker.injectedProperty (WidgetTracker.save w t).1
    = WidgetTracker.injectedProperty t
  ∧ WidgetTracker.connected (WidgetTracker.save w t).1 = WidgetTracker.connected t.
Proof.
  unfold WidgetTracker.save, WidgetTracker.save_name, WidgetTracker.save_finish.
  branches; done.
Qed.

Lemma WidgetTracker_restore_shape options t :
  WidgetTracker._tracker (WidgetTracker.restore options t).1
    = WidgetTracker._tracker t
  ∧ WidgetTracker._widgets (WidgetTracker.restore options t).1
    = WidgetTracker._widgets t
  ∧ WidgetTracker.isDisposed (WidgetTracker.restore options t).1
    = WidgetTracker.isDisposed t
  ∧ WidgetTracker.injectedProperty (WidgetTracker.restore options t).1
    = WidgetTracker.injectedProperty t
  ∧ WidgetTracker.connected (WidgetTracker.restore options t).1
    = WidgetTracker.connected t.
Proof. unfold WidgetTracker.restore. branches; done. Qed.

Lemma live_widgets_frame t t' :
  live_widgets t →
  FocusTracker.widgets (WidgetTracker._tracker t')
    = FocusTracker.widgets (WidgetTracker._tracker t) →
  WidgetTracker.isDisposed t' = WidgetTracker.isDisposed t →
  live_widgets t'.
Proof. unfold live_widgets. cbn zeta. by intros (L1 & L2) -> ->. Qed.

Lemma well_formed_widgets_live t : well_formed_widgets t → live_widgets t.
Proof.
  intros (I1 & _ & I3 & _). split; [done|]. intros w Hw. by apply I3.
Qed.

Lemma well_formed_widgets_frame t t' :
  well_formed_widgets t →
  FocusTracker.widgets (WidgetTracker._tracker t')
    = FocusTracker.widgets (WidgetTracker._tracker t) →
  WidgetTracker._widgets t' = WidgetTracker._widgets t →
  WidgetTracker.isDisposed t' = WidgetTracker.isDisposed t →
  well_formed_widgets t'.
Proof. unfold well_formed_widgets. cbn zeta. by intros Hwf -> -> ->. Qed.

Lemma well_formed_widgets_add focused w t :
  well_formed_widgets t → well_formed_widgets (WidgetTracker.add focused w t).1.
Proof.
  intros Hwf.
  destruct (decide (w ∈ WidgetTracker.isDisposed t)) as [Hd|Hd];
    [unfold WidgetTracker.add; by rewrite decide_True|].
  destruct (WidgetTracker.has w t) eqn:Hh;
    [unfold WidgetTracker.add; unfold WidgetTracker.has in Hh;
     by rewrite decide_False, Hh|].
  destruct (WidgetTracker_add_shape focused w t Hd Hh)
    as (Hft & Hw & Hdis & _).
  destruct Hwf as (I1 & I2 & I3 & I4).
  apply bool_decide_eq_false_1 in Hh.
  assert (w ∉ WidgetTracker._widgets t) as Hnw.
  { intros Hin. apply Hd. by apply I4. }
  unfold well_formed_widgets. cbn zeta. rewrite Hft, Hw, Hdis.
  split; [|split; [|split]].
  - apply NoDup_app. split; [done|]. split; [|apply NoDup_singleton].
    by intros x Hx ->%list_elem_of_singleton.
  - apply NoDup_app. split; [done|]. split; [|apply NoDup_singleton].
    by intros x Hx ->%list_elem_of_singleton.
  - intros x [Hx | ->%list_elem_of_singleton]%elem_of_app.
    + split; [by apply I3|]. apply elem_of_app. left. by apply I3.
    + split; [done|]. apply elem_of_app. right. by apply list_elem_of_singleton.
  - intros x [Hx | ->%list_elem_of_singleton]%elem_of_app
      [Hn Hnx]%not_elem_of_app.
    + by apply I4.
    + exfalso. apply Hnx. by apply list_elem_of_singleton.
Qed.

Lemma well_formed_widgets_dispose previous w t :
  well_formed_widgets t →
  well_formed_widgets (WidgetTracker.dispose_widget previous w t).
Proof.
  intros (I1 & I2 & I3 & I4).
  destruct (WidgetTracker_dispose_shape previous w t)
    as (Hft & Hw & Hdis & _).
  set (t' := WidgetTracker.dispose_widget previous w t) in *. clearbody t'.
  unfold well_formed_widgets. cbn zeta. rewrite Hft, Hdis.
  assert (∀ x, x ≠ w → x ∈ WidgetTracker._widgets t →
               x ∈ WidgetTracker._widgets t') as Hkeep.
  { intros x Hne Hx. rewrite Hw. branches; try done.
    rewrite removeFirstOf_filter by done. by apply elem_of_filter_other. }
  assert (∀ x, x ∈ WidgetTracker._widgets t' →
               x ∈ WidgetTracker._widgets t) as Hold.
  { intros x. rewrite Hw. branches; try done.
    rewrite removeFirstOf_filter by done.
    by intros [Hne Hx]%elem_of_filter_other. }
  split; [|split; [|split]].
  - by apply NoDup_filter.
  - rewrite Hw. branches; try done. rewrite removeFirstOf_filter by done.
    by apply NoDup_filter.
  - intros x [Hne Hx]%elem_of_filter_other. split.
    + intros [->%elem_of_singleton | Hdx]%elem_of_union; [done|].
      by apply (I3 x).
    + apply Hkeep; [done|]. by apply I3.
  - intros x Hx Hn. apply Hold in Hx.
    destruct (decide (x = w)) as [->|Hne].
    + apply elem_of_union. left. by apply elem_of_singleton.
    + apply elem_of_union. right. apply I4; [done|].
      intros Hin. apply Hn. by apply elem_of_filter_other.
Qed.

Lemma well_formed_widgets_exec a sys sys' :
  well_formed_widgets (WidgetTracker.tracker sys) →
  WidgetTracker.exec a sys = Some sys' →
  well_formed_widgets (WidgetTracker.tracker sys').
Proof.
  apply (WidgetTracker_exec_preserves well_formed_widgets).
  - apply well_formed_widgets_add.
  - intros w t Hwf. by apply (well_formed_widgets_frame t).
  - intros w t Hwf.
    destruct (WidgetTracker_save_shape w t) as (Hft & Hw & Hd & _).
    apply (well_formed_widgets_frame t); try done; by rewrite ?Hft.
  - intros options t Hwf.
    destruct (WidgetTracker_restore_shape options t) as (Hft & Hw & Hd & _).
    apply (well_formed_widgets_frame t); try done; by rewrite ?Hft.
  - intros v t Hwf. unfold WidgetTracker.focus_changed.
    destruct (WidgetTracker_tracker_becomes_shape
                (FocusTracker.focus v (WidgetTracker._tracker t)) t)
      as (Hft & Hw & Hd & _).
    apply (well_formed_widgets_frame t); try done; by rewrite ?Hft.
  - apply well_formed_widgets_dispose.
  - intros k inp t p Hwf Hres.
    destruct (WidgetTracker_resume_shape k inp t p Hres) as (Hft & Hw & Hd & _).
    apply (well_formed_widgets_frame t); try done; by rewrite ?Hft.
Qed.

Lemma live_widgets_exec_disposed a sys sys' :
  live_widgets (WidgetTracker.tracker sys) →
  WidgetTrackerMore.exec_disposed a sys = Some sys' →
  live_widgets (WidgetTracker.tracker sys').
Proof.
  apply (WidgetTrackerMore_exec_disposed_preserves live_widgets).
  - apply live_widgets_add_with, WidgetTracker_with_tracker_shape.
  - intros w t Hl. by apply (live_widgets_frame t).
  - intros w t Hl.
    destruct (WidgetTracker_save_shape w t) as (Hft & _ & Hd & _).
    apply (live_widgets_frame t); try done; by rewrite ?Hft.
  - intros options t Hl.
    destruct (WidgetTracker_restore_shape options t) as (Hft & _ & Hd & _).
    apply (live_widgets_frame t); try done; by rewrite ?Hft.
  - intros v t Hl. by apply (live_widgets_frame t).
  - apply live_widgets_dispose_with, WidgetTracker_with_tracker_shape.
  - intros k inp t p Hl Hres.
    destruct (WidgetTracker_resume_shape k inp t p Hres) as (Hft & _ & Hd & _).
    apply (live_widgets_frame t); try done; by rewrite ?Hft.
Qed.

Lemma well_formed_widgets_start ns inj names disp :
  well_formed_widgets (WidgetTracker.create ns inj names disp).
Proof.
  unfold well_formed_widgets. simpl.
  split; [apply NoDup_nil_2|]. split; [apply NoDup_nil_2|].
  split; by intros ? ?%elem_of_nil.
Qed.

Lemma well_formed_widgets_lifetime sys :
  lifetime_widgets sys →
  let t := WidgetTrackerMore.fields (WidgetTrackerMore.this sys) in
  live_widgets t
  ∧ (WidgetTrackerMore.isDisposed (WidgetTrackerMore.this sys) = false →
     well_formed_widgets t).
Proof.
  intros Hlife.
  apply (lifetime_widgets_preserves
           (λ d sys, live_widgets (WidgetTracker.tracker sys)
                     ∧ (d = false → well_formed_widgets (WidgetTracker.tracker sys))));
    [| | | |done].
  - intros a sys0 sys' [_ Hwf] Hexec.
    pose proof (well_formed_widgets_exec a sys0 sys' (Hwf eq_refl) Hexec) as Hwf'.
    split; [by apply well_formed_widgets_live|done].
  - intros a sys0 sys' [Hl _] Hexec. split; [|done].
    exact (live_widgets_exec_disposed a sys0 sys' Hl Hexec).
  - intros t ts _. split; [|done]. unfold live_widgets. simpl.
    split; [apply NoDup_nil_2|]. by intros ? ?%elem_of_nil.
  - intros ns inj names disp.
    pose proof (well_formed_widgets_start ns inj names disp) as Hwf.
    split; [by apply well_formed_widgets_live|done].
Qed.

(** X8.  Through the whole life of a [WidgetTracker], its own [dispose()]
    included: no widget is tracked twice, and a tracked widget is never a
    disposed one (the focus tracker drops a widget when it is disposed,
    injected or not).  As long as the tracker is not disposed, moreover,
    [_widgets] holds no widget twice, every tracked widget is in
    [_widgets], and what [_widgets] holds beyond the tracked widgets are
    disposed widgets, which [_onWidgetDisposed] did not take out. *)
Theorem tracked_widgets_are_not_disposed (sys : WidgetTrackerMore.system) :
  lifetime_widgets sys →
  let t := WidgetTrackerMore.fields (WidgetTrackerMore.this sys) in
  NoDup (FocusTracker.widgets (WidgetTracker._tracker t))
  ∧ (∀ w, WidgetTracker.has w t = true → w ∉ WidgetTracker.isDisposed t)
  ∧ (WidgetTrackerMore.isDisposed (WidgetTrackerMore.this sys) = false →
     NoDup (WidgetTracker._widgets t)
     ∧ WidgetTracker.size t ≤ length (WidgetTracker._widgets t)
     ∧ ∀ w,
         (WidgetTracker.has w t = true → w ∈ WidgetTracker._widgets t)
         ∧ (w ∈ WidgetTracker._widgets t → WidgetTracker.has w t = false →
            w ∈ WidgetTracker.isDisposed t)).
Proof.
  intros Hlife t.
  destruct (well_formed_widgets_lifetime sys Hlife) as ((L1 & L2) & Hwf).
  split; [done|]. split.
  - intros w Hw%bool_decide_eq_true_1. by apply L2.
  - intros Hflag. destruct (Hwf Hflag) as (I1 & I2 & I3 & I4).
    split; [done|]. split.
    + unfold WidgetTracker.size. apply submseteq_length.
      apply NoDup_submseteq; [done|]. intros w Hw. by apply I3.
    + intros w. split.
      * intros Hw%bool_decide_eq_true_1. by apply I3.
      * intros Hw Hn%bool_decide_eq_false_1. by apply I4.
Qed.

Lemma tracked_widgets_are_not_disposed_witness :
  (1 ∉ WidgetTracker.isDisposed
         (WidgetTrackerMore.fields (WidgetTrackerMore.this demo_life_widgets)))
  ∧ WidgetTracker._widgets
      (WidgetTrackerMore.fields (WidgetTrackerMore.this demo_life_widgets))
    = [1; 2; 1]
  ∧ NoDup (WidgetTracker._widgets
             (WidgetTrackerMore.fields (WidgetTrackerMore.this demo_young_widgets)))
  ∧ 2 ∈ WidgetTracker.isDisposed
          (WidgetTrackerMore.fields (WidgetTrackerMore.this demo_young_widgets)).
Proof.
  assert (lifetime_widgets demo_life_widgets) as Hr.
  { exists "nb", ∅, ∅, ∅, demo_life_widget_actions. vm_compute. reflexivity. }
  assert (lifetime_widgets demo_young_widgets) as Hy.
  { exists "nb", ∅, ∅, ∅, (take 3 demo_life_widget_actions).
    vm_compute. reflexivity. }
  destruct (tracked_widgets_are_not_disposed demo_life_widgets Hr) as (_ & H1 & _).
  destruct (tracked_widgets_are_not_disposed demo_young_widgets Hy)
    as (_ & _ & H2).
  destruct (H2 eq_refl) as (H3 & _ & H4).
  split; [apply (H1 1); vm_compute; reflexivity|].
  split; [vm_compute; reflexivity|]. split; [exact H3|].
  apply (H4 2); vm_compute; [repeat constructor | reflexivity].
Defined.

(** ** The signal [currentChanged] *)

Lemma last_current_snoc l e :
  last_current (l ++ [e])
  = match e with CurrentChanged v => v | _ => last_current l end.
Proof. unfold last_current. by rewrite foldl_app. Qed.

Lemma last_current_quiet l es :
  Forall (λ e, is_current_changed e = false) es →
  last_current (l ++ es) = last_current l.
Proof.
  intros Hes. revert l. induction Hes as [|e es He _ IH]; intros l.
  - by rewrite app_nil_r.
  - rewrite cons_middle, (assoc_L (++) l [e] es), IH, last_current_snoc.
    by destruct e.
Qed.

Lemma honest_signal_snoc l c e c' :
  honest_signal l c →
  match e with
  | CurrentChanged v => v ≠ c ∧ c' = v
  | _ => c' = c
  end →
  honest_signal (l ++ [e]) c'.
Proof.
  intros [Hlast Hpast] He. split.
  - rewrite last_current_snoc. destruct e; try (by subst c'). by destruct He.
  - intros pre v post Heq.
    destruct post as [|x post _] using rev_ind.
    + apply (app_inj_tail l pre) in Heq as [-> ->].
      rewrite Hlast. destruct He as [Hne _]. by intros <-.
    + change (l ++ [e] = pre ++ (CurrentChanged v :: post) ++ [x]) in Heq.
      rewrite (assoc_L (++)) in Heq.
      apply app_inj_tail in Heq as [-> _]. by apply (Hpast pre v post).
Qed.

Lemma honest_signal_quiet l c es :
  honest_signal l c →
  Forall (λ e, is_current_changed e = false) es →
  honest_signal (l ++ es) c.
Proof.
  intros Hh Hes. revert l Hh. induction Hes as [|e es He _ IH]; intros l Hh.
  - by rewrite app_nil_r.
  - rewrite cons_middle, (assoc_L (++) l [e] es). apply IH.
    apply (honest_signal_snoc l c); [done|]. by destruct e.
Qed.

Lemma replay_calls_quiet options sv :
  Forall (λ e, is_current_changed e = false) (replay_calls options sv).
Proof.
  apply Forall_forall. intros e (i & id & _ & ->)%elem_of_replay_calls.
  unfold replay_call. by destruct (restore_args _).
Qed.

Lemma replay_catches_quiet options sv :
  Forall (λ e, is_current_changed e = false) (replay_catches options sv).
Proof.
  apply Forall_forall. by intros e [id ->]%replay_catches_remove.
Qed.

(** One step of a segment, read on the log and the current object. *)
Ltac signalled :=
  first
    [ eassumption
    | eapply honest_signal_quiet;
      [signalled | first [apply replay_calls_quiet | apply replay_catches_quiet]]
    | eapply honest_signal_snoc;
      [signalled | simpl; first [done | split; [congruence | done]]] ].

Lemma honest_signal_add_finish o s :
  honest_signal (InstanceTracker.log s) (InstanceTracker._current s) →
  honest_signal (InstanceTracker.log (InstanceTracker.add_finish o s))
    (InstanceTracker._current (InstanceTracker.add_finish o s)).
Proof.
  intros Hh. unfold InstanceTracker.add_finish, InstanceTracker.set_current.
  branches; signalled.
Qed.

Lemma honest_signal_exec_instances a sys sys' :
  honest_signal (InstanceTracker.log (InstanceTracker.tracker sys))
    (InstanceTracker._current (InstanceTracker.tracker sys)) →
  InstanceTracker.exec a sys = Some sys' →
  honest_signal (InstanceTracker.log (InstanceTracker.tracker sys'))
    (InstanceTracker._current (InstanceTracker.tracker sys')).
Proof.
  apply (InstanceTracker_exec_preserves
           (λ s, honest_signal (InstanceTracker.log s) (InstanceTracker._current s))).
  - intros o s Hh. unfold InstanceTracker.add.
    pose proof (honest_signal_add_finish o) as Hfin.
    repeat first [case_decide | case_match | progress simplify_eq];
      cbn [fst]; try done; try (apply Hfin; done); simpl; signalled.
  - intros o s Hh. exact Hh.
  - intros o s Hh. unfold InstanceTracker.save, InstanceTracker.save_name,
      InstanceTracker.save_finish. branches; signalled.
  - intros options s Hh. unfold InstanceTracker.restore. branches; signalled.
  - intros v s Hh. unfold InstanceTracker.set_current. branches; signalled.
  - intros o s Hh. unfold InstanceTracker.dispose_object,
      InstanceTracker._onInstanceDisposed. branches; signalled.
  - intros k inp s p Hh Hres.
    pose proof (honest_signal_add_finish) as Hfin.
    destruct k, inp; try discriminate Hres; simpl in Hres; simplify_eq;
      unfold InstanceTracker.add_resume,
        InstanceTracker.save_resume_remove,
        InstanceTracker.save_resume_save, InstanceTracker.save_name,
        InstanceTracker.save_finish, InstanceTracker.restore_resume_list,
        InstanceTracker.restore_resume_replay;
      repeat first [case_decide | case_match | progress simplify_eq];
      cbn [fst]; try done; try (apply Hfin; done); simpl; signalled.
Qed.

(** One step of a segment, read with [heard_or_null]. *)
Ltac heard :=
  unfold heard_or_null in *; simpl;
  rewrite ?last_current_snoc,
    ?(last_current_quiet _ _ (replay_calls_quiet _ _)),
    ?(last_current_quiet _ _ (replay_catches_quiet _ _));
  simpl; intuition congruence.

Lemma heard_or_null_add_finish o s :
  heard_or_null (InstanceTracker.log s) (InstanceTracker._current s) →
  heard_or_null (InstanceTracker.log (InstanceTracker.add_finish o s))
    (InstanceTracker._current (InstanceTracker.add_finish o s)).
Proof.
  intros Hh. unfold InstanceTracker.add_finish, InstanceTracker.set_current.
  repeat first [case_decide | case_match | progress simplify_eq]; heard.
Qed.

Lemma heard_or_null_exec_instances a sys sys' :
  heard_or_null (InstanceTracker.log (InstanceTracker.tracker sys))
    (InstanceTracker._current (InstanceTracker.tracker sys)) →
  InstanceTracker.exec a sys = Some sys' →
  heard_or_null (InstanceTracker.log (InstanceTracker.tracker sys'))
    (InstanceTracker._current (InstanceTracker.tracker sys')).
Proof.
  apply (InstanceTracker_exec_preserves
           (λ s, heard_or_null (InstanceTracker.log s) (InstanceTracker._current s))).
  - intros o s Hh. unfold InstanceTracker.add.
    pose proof (heard_or_null_add_finish o) as Hfin.
    repeat first [case_decide | case_match | progress simplify_eq];
      cbn [fst]; try done; try (apply Hfin; done); heard.
  - intros o s Hh. exact Hh.
  - intros o s Hh. unfold InstanceTracker.save, InstanceTracker.save_name,
      InstanceTracker.save_finish.
    repeat first [case_decide | case_match | progress simplify_eq]; heard.
  - intros options s Hh. unfold InstanceTracker.restore.
    repeat first [case_decide | case_match | progress simplify_eq]; heard.
  - intros v s Hh. unfold InstanceTracker.set_current.
    repeat first [case_decide | case_match | progress simplify_eq]; heard.
  - intros o s Hh. unfold InstanceTracker.dispose_object,
      InstanceTracker._onInstanceDisposed.
    repeat first [case_decide | case_match | progress simplify_eq]; heard.
  - intros k inp s p Hh Hres.
    pose proof (heard_or_null_add_finish) as Hfin.
    destruct k, inp; try discriminate Hres; simpl in Hres; simplify_eq;
      unfold InstanceTracker.add_resume,
        InstanceTracker.save_resume_remove,
        InstanceTracker.save_resume_save, InstanceTracker.save_name,
        InstanceTracker.save_finish, InstanceTracker.restore_resume_list,
        InstanceTracker.restore_resume_replay;
      repeat first [case_decide | case_match | progress simplify_eq];
      cbn [fst]; try done; try (apply Hfin; done); heard.
Qed.

Lemma current_changed_lifetime_instances sys :
  lifetime_instances sys →
  let s := InstanceTrackerMore.fields (InstanceTrackerMore.this sys) in
  heard_or_null (InstanceTracker.log s) (InstanceTracker._current s)
  ∧ (InstanceTrackerMore.isDisposed (InstanceTrackerMore.this sys) = false →
     honest_signal (InstanceTracker.log s) (InstanceTracker._current s)).
Proof.
  intros Hlife.
  apply (lifetime_instances_preserves
           (λ d sys,
              heard_or_null (InstanceTracker.log (InstanceTracker.tracker sys))
                (InstanceTracker._current (InstanceTracker.tracker sys))
              ∧ (d = false →
                 honest_signal (InstanceTracker.log (InstanceTracker.tracker sys))
                   (InstanceTracker._current (InstanceTracker.tracker sys)))));
    [| | | |done].
  - intros d a sys0 sys' [Hh Hs] Hexec. split.
    + exact (heard_or_null_exec_instances a sys0 sys' Hh Hexec).
    + intros Hd. exact (honest_signal_exec_instances a sys0 sys' (Hs Hd) Hexec).
  - intros s ts _. split; [by left|done].
  - intros d o s ts [Hh Hs] _.
    change (heard_or_null
              (InstanceTracker.log (InstanceTracker.dispose_object o s))
              (InstanceTracker._current (InstanceTracker.dispose_object o s))
            ∧ (d = false →
               honest_signal
                 (InstanceTracker.log (InstanceTracker.dispose_object o s))
                 (InstanceTracker._current (InstanceTracker.dispose_object o s)))).
    pose (sys0 := {| InstanceTracker.tracker := s; InstanceTracker.tasks := ts |}).
    split.
    + exact (heard_or_null_exec_instances (InstanceTracker.Dispose o) sys0 _
               Hh eq_refl).
    + intros Hd.
      exact (honest_signal_exec_instances (InstanceTracker.Dispose o) sys0 _
               (Hs Hd) eq_refl).
  - intros ns inj names disp. split; [by left|]. intros _.
    split; [done|]. simpl. intros pre v post Heq. by destruct pre.
Qed.

Section hearing_signals.

Variable hears : FocusTracker.t → WidgetTracker.state → WidgetTracker.state.
Hypothesis hears_current : ∀ ft t,
  last_current (WidgetTracker.log t) = WidgetTracker._currentWidget t →
  last_current (WidgetTracker.log (hears ft t))
  = WidgetTracker._currentWidget (hears ft t).

Lemma last_current_add_with focused w t :
  last_current (WidgetTracker.log t) = WidgetTracker._currentWidget t →
  let t' := (WidgetTrackerMore.add_with hears focused w t).1 in
  last_current (WidgetTracker.log t') = WidgetTracker._currentWidget t'.
Proof using hears_current.
  intros Hl. unfold WidgetTrackerMore.add_with.
  pose proof (hears_current
                (FocusTracker.add focused w (WidgetTracker._tracker t)) t Hl)
    as Hl1.
  set (t1 := hears _ t) in *. clearbody t1.
  branches; rewrite ?last_current_snoc; done.
Qed.

Lemma last_current_dispose_with previous w t :
  last_current (WidgetTracker.log t) = WidgetTracker._currentWidget t →
  let t' := WidgetTrackerMore.dispose_widget_with hears previous w t in
  last_current (WidgetTracker.log t') = WidgetTracker._currentWidget t'.
Proof using hears_current.
  intros Hl.
  unfold WidgetTrackerMore.dispose_widget_with, WidgetTracker.clear_attached.
  cbn zeta. cbn [WidgetTracker.log WidgetTracker._currentWidget].
  pose proof (hears_current
                (FocusTracker.remove previous w (WidgetTracker._tracker t))
                (WidgetTracker.with_disposed w t) Hl) as Hl1.
  change (WidgetTracker._tracker (WidgetTracker.with_disposed w t))
    with (WidgetTracker._tracker t).
  set (t1 := hears _ _) in *. clearbody t1.
  unfold WidgetTracker._onWidgetDisposed.
  branches; rewrite ?last_current_snoc; done.
Qed.

End hearing_signals.

Lemma last_current_tracker_becomes ft t :
  last_current (WidgetTracker.log t) = WidgetTracker._currentWidget t →
  last_current (WidgetTracker.log (WidgetTracker.tracker_becomes ft t))
  = WidgetTracker._currentWidget (WidgetTracker.tracker_becomes ft t).
Proof.
  intros Hl. unfold WidgetTracker.tracker_becomes, WidgetTracker._onCurrentChanged.
  branches; rewrite ?last_current_snoc; done.
Qed.

Lemma last_current_resume k inp t p :
  last_current (WidgetTracker.log t) = WidgetTracker._currentWidget t →
  WidgetTracker.resume k inp t = Some p →
  last_current (WidgetTracker.log p.1) = WidgetTracker._currentWidget p.1.
Proof.
  intros Hl Hres.
  destruct k, inp; try discriminate Hres; simpl in Hres; simplify_eq;
    unfold WidgetTracker.add_resume,
      WidgetTracker.save_resume_remove,
      WidgetTracker.save_resume_save, WidgetTracker.save_name,
      WidgetTracker.save_finish, WidgetTracker.restore_resume_list,
      WidgetTracker.restore_resume_replay;
    branches;
    rewrite ?last_current_snoc,
      ?(last_current_quiet _ _ (replay_calls_quiet _ _)),
      ?(last_current_quiet _ _ (replay_catches_quiet _ _)); done.
Qed.

Lemma last_current_save w t :
  last_current (WidgetTracker.log t) = WidgetTracker._currentWidget t →
  last_current (WidgetTracker.log (WidgetTracker.save w t).1)
  = WidgetTracker._currentWidget (WidgetTracker.save w t).1.
Proof.
  intros Hl. unfold WidgetTracker.save, WidgetTracker.save_name,
    WidgetTracker.save_finish. branches; rewrite ?last_current_snoc; done.
Qed.

Lemma last_current_restore options t :
  last_current (WidgetTracker.log t) = WidgetTracker._currentWidget t →
  last_current (WidgetTracker.log (WidgetTracker.restore options t).1)
  = WidgetTracker._currentWidget (WidgetTracker.restore options t).1.
Proof.
  intros Hl. unfold WidgetTracker.restore.
  branches; rewrite ?last_current_snoc; done.
Qed.

Lemma last_current_exec_widgets a sys sys' :
  last_current (WidgetTracker.log (WidgetTracker.tracker sys))
    = WidgetTracker._currentWidget (WidgetTracker.tracker sys) →
  WidgetTracker.exec a sys = Some sys' →
  last_current (WidgetTracker.log (WidgetTracker.tracker sys'))
    = WidgetTracker._currentWidget (WidgetTracker.tracker sys').
Proof.
  apply (WidgetTracker_exec_preserves
           (λ t, last_current (WidgetTracker.log t) = WidgetTracker._currentWidget t)).
  - intros focused w t.
    apply (last_current_add_with WidgetTracker.tracker_becomes
             last_current_tracker_becomes).
  - intros w t Hl. exact Hl.
  - apply last_current_save.
  - apply last_current_restore.
  - intros v t Hl. by apply last_current_tracker_becomes.
  - intros previous w t.
    apply (last_current_dispose_with WidgetTracker.tracker_becomes
             last_current_tracker_becomes).
  - intros k inp t p. apply last_current_resume.
Qed.

Lemma last_current_exec_disposed a sys sys' :
  last_current (WidgetTracker.log (WidgetTracker.tracker sys))
    = WidgetTracker._currentWidget (WidgetTracker.tracker sys) →
  WidgetTrackerMore.exec_disposed a sys = Some sys' →
  last_current (WidgetTracker.log (WidgetTracker.tracker sys'))
    = WidgetTracker._currentWidget (WidgetTracker.tracker sys').
Proof.
  apply (WidgetTrackerMore_exec_disposed_preserves
           (λ t, last_current (WidgetTracker.log t) = WidgetTracker._currentWidget t)).
  - intros focused w t.
    apply (last_current_add_with WidgetTracker.with_tracker). by intros ft t0.
  - intros w t Hl. exact Hl.
  - apply last_current_save.
  - apply last_current_restore.
  - intros v t Hl. exact Hl.
  - intros previous w t.
    apply (last_current_dispose_with WidgetTracker.with_tracker). by intros ft t0.
  - intros k inp t p. apply last_current_resume.
Qed.

Lemma current_changed_lifetime_widgets sys :
  lifetime_widgets sys →
  let t := WidgetTrackerMore.fields (WidgetTrackerMore.this sys) in
  last_current (WidgetTracker.log t) = WidgetTracker._currentWidget t.
Proof.
  intros Hlife.
  apply (lifetime_widgets_preserves
           (λ _ sys, last_current (WidgetTracker.log (WidgetTracker.tracker sys))
                     = WidgetTracker._currentWidget (WidgetTracker.tracker sys)));
    [| | | |done].
  - apply last_current_exec_widgets.
  - apply last_current_exec_disposed.
  - by intros t ts Hl.
  - done.
Qed.

(** X9.  What a listener of [currentChanged] knows, through the whole
    life of either tracker, its own [dispose()] included.  On
    [WidgetTracker] the value carried by the latest [currentChanged] is
    always the current widget ([null] when the signal was never emitted):
    [dispose()] leaves [_currentWidget] alone.  On [InstanceTracker] the
    same holds as long as the tracker is not disposed, and then every
    [currentChanged] carried a value other than the one in force before
    it; [dispose()] sets [_current] to [null] without emitting, so that
    afterwards the current object is [null] or the one last signalled. *)
Theorem current_changed_tells_the_current_object
    (sys : InstanceTrackerMore.system) (sysw : WidgetTrackerMore.system) :
  lifetime_instances sys →
  lifetime_widgets sysw →
  let s := InstanceTrackerMore.fields (InstanceTrackerMore.this sys) in
  let t := WidgetTrackerMore.fields (WidgetTrackerMore.this sysw) in
  (InstanceTracker._current s = None
   ∨ last_current (InstanceTracker.log s) = InstanceTracker._current s)
  ∧ (InstanceTrackerMore.isDisposed (InstanceTrackerMore.this sys) = false →
     last_current (InstanceTracker.log s) = InstanceTracker._current s
     ∧ ∀ pre v post,
         InstanceTracker.log s = pre ++ CurrentChanged v :: post →
         last_current pre ≠ v)
  ∧ last_current (WidgetTracker.log t) = WidgetTracker._currentWidget t.
Proof.
  intros Hlife Hlifew s t.
  destruct (current_changed_lifetime_instances sys Hlife) as [Hh Hs].
  split; [exact Hh|]. split; [exact Hs|].
  exact (current_changed_lifetime_widgets sysw Hlifew).
Qed.

Lemma current_changed_tells_the_current_object_witness :
  last_current
    (InstanceTracker.log
       (InstanceTrackerMore.fields (InstanceTrackerMore.this demo_young_instances)))
  = Some 1
  ∧ last_current
      (WidgetTracker.log
         (WidgetTrackerMore.fields (WidgetTrackerMore.this demo_life_widgets)))
    = Some 1.
Proof.
  assert (lifetime_instances demo_young_instances) as Hr.
  { exists "nb", ∅, ∅, ∅, (take 5 demo_life_actions). vm_compute. reflexivity. }
  assert (lifetime_widgets demo_life_widgets) as Hrw.
  { exists "nb", ∅, ∅, ∅, demo_life_widget_actions. vm_compute. reflexivity. }
  destruct (current_changed_tells_the_current_object demo_young_instances
              demo_life_widgets Hr Hrw) as (_ & H1 & H2).
  destruct (H1 eq_refl) as [H3 _].
  split; [rewrite H3 | rewrite H2]; vm_compute; reflexivity.
Defined.

(** ** The signal [added] *)

Lemma count_events_app p l1 l2 :
  count_events p (l1 ++ l2) = count_events p l1 + count_events p l2.
Proof. unfold count_events. by rewrite List.filter_app, length_app. Qed.

Lemma count_events_none p es :
  Forall (λ e, p e = false) es → count_events p es = 0.
Proof.
  unfold count_events. induction 1 as [|e es He _ IH]; [done|].
  simpl. by rewrite He.
Qed.

Lemma replay_calls_not_added o options sv :
  count_events (is_added o) (replay_calls options sv) = 0.
Proof.
  apply count_events_none, Forall_forall.
  intros e (i & id & _ & ->)%elem_of_replay_calls.
  unfold replay_call. by destruct (restore_args _).
Qed.

Lemma replay_catches_not_added o options sv :
  count_events (is_added o) (replay_catches options sv) = 0.
Proof.
  apply count_events_none, Forall_forall.
  by intros e [id ->]%replay_catches_remove.
Qed.

Lemma adds_pending_app o l1 l2 :
  adds_pending o (l1 ++ l2) = adds_pending o l1 + adds_pending o l2.
Proof. unfold adds_pending. by rewrite List.filter_app, length_app. Qed.

Lemma adds_pending_delete o ts i k :
  ts !! i = Some k →
  adds_pending o (delete i ts) + adds_pending o [k] = adds_pending o ts.
Proof.
  intros Hk. rewrite <- (take_drop_middle ts i k Hk) at 2.
  rewrite delete_take_drop, !adds_pending_app.
  change (k :: drop (S i) ts) with ([k] ++ drop (S i) ts).
  rewrite adds_pending_app. lia.
Qed.

(** Events are counted by unfolding the segment. *)
Ltac counted :=
  branches;
  rewrite ?count_events_app, ?replay_calls_not_added, ?replay_catches_not_added;
  unfold count_events, adds_pending; simpl;
  repeat match goal with |- context [Nat.eqb ?a ?b] => destruct (Nat.eqb a b) end;
  simpl; lia.

Lemma InstanceTracker_add_announces w o s :
  count_events (is_added w) (InstanceTracker.log (InstanceTracker.add o s).1)
  + adds_pending w (match (InstanceTracker.add o s).2 with
                    | Await k => [k] | Return _ => [] end)
  ≤ count_events (is_added w) (InstanceTracker.log s)
    + (if Nat.eqb w o then 1 else 0).
Proof.
  unfold InstanceTracker.add, InstanceTracker.add_finish,
    InstanceTracker.set_current. counted.
Qed.

Lemma InstanceTracker_resume_announces w k inp s p :
  InstanceTracker.resume k inp s = Some p →
  count_events (is_added w) (InstanceTracker.log p.1)
  + adds_pending w (match p.2 with Await k => [k] | Return _ => [] end)
  ≤ count_events (is_added w) (InstanceTracker.log s) + adds_pending w [k].
Proof.
  intros Hres. destruct k, inp; try discriminate Hres; simpl in Hres;
    simplify_eq;
    unfold InstanceTracker.add_resume, InstanceTracker.add_finish,
      InstanceTracker.set_current,
      InstanceTracker.save_resume_remove,
      InstanceTracker.save_resume_save, InstanceTracker.save_name,
      InstanceTracker.save_finish, InstanceTracker.restore_resume_list,
      InstanceTracker.restore_resume_replay; counted.
Qed.

Lemma InstanceTracker_save_announces w o s :
  count_events (is_added w) (InstanceTracker.log (InstanceTracker.save o s).1)
  + adds_pending w (match (InstanceTracker.save o s).2 with
                    | Await k => [k] | Return _ => [] end)
  ≤ count_events (is_added w) (InstanceTracker.log s).
Proof.
  unfold InstanceTracker.save, InstanceTracker.save_name,
    InstanceTracker.save_finish. counted.
Qed.

Lemma InstanceTracker_restore_announces w options s :
  count_events (is_added w) (InstanceTracker.log (InstanceTracker.restore options s).1)
  + adds_pending w (match (InstanceTracker.restore options s).2 with
                    | Await k => [k] | Return _ => [] end)
  ≤ count_events (is_added w) (InstanceTracker.log s).
Proof. unfold InstanceTracker.restore. counted. Qed.

Lemma added_once_step c w s n s' m :
  added_once c w s n →
  count_events (is_added w) (InstanceTracker.log s') + m
    ≤ count_events (is_added w) (InstanceTracker.log s) + n →
  (w ∈ InstanceTracker._instances s ∨ w ∈ InstanceTracker.isDisposed s →
   w ∈ InstanceTracker._instances s' ∨ w ∈ InstanceTracker.isDisposed s') →
  added_once c w s' m.
Proof.
  unfold added_once. intros Hb Hc Hm.
  destruct (decide (w ∈ InstanceTracker._instances s ∨ _)) as [Hin|Hin].
  - rewrite decide_True by auto. lia.
  - case_decide; lia.
Qed.

Lemma added_once_add c w o s n :
  added_once c w s n →
  added_once c w (InstanceTracker.add o s).1
    (n + adds_pending w (match (InstanceTracker.add o s).2 with
                         | Await k => [k] | Return _ => [] end)).
Proof.
  intros Hb.
  destruct (decide (o ∈ InstanceTracker.isDisposed s)) as [Hd|Hd].
  { unfold InstanceTracker.add. rewrite decide_True by done. simpl.
    by rewrite Nat.add_0_r. }
  destruct (InstanceTracker.has o s) eqn:Hh.
  { apply bool_decide_eq_true_1 in Hh.
    rewrite (InstanceTracker_add_again o s Hd Hh). simpl. by rewrite Nat.add_0_r. }
  destruct (InstanceTracker_add_fresh o s Hd Hh) as (Hi & Hdis & _).
  pose proof (InstanceTracker_add_announces w o s) as Hc.
  apply bool_decide_eq_false_1 in Hh. unfold added_once in *.
  rewrite Hi, Hdis. destruct (Nat.eqb w o) eqn:Hwo.
  - apply Nat.eqb_eq in Hwo. subst w.
    rewrite decide_False in Hb by (by intros [?|?]).
    rewrite decide_True; [lia|]. left. apply elem_of_app. right.
    by apply list_elem_of_singleton.
  - destruct (decide (w ∈ InstanceTracker._instances s ∨ _)) as [Hin|Hin].
    + rewrite decide_True; [lia|]. destruct Hin as [Hin|Hin]; [|by right].
      left. apply elem_of_app. by left.
    + case_decide; lia.
Qed.

Lemma added_once_exec c w a sys sys' :
  added_once c w (InstanceTracker.tracker sys)
    (adds_pending w (InstanceTracker.tasks sys)) →
  InstanceTracker.exec a sys = Some sys' →
  added_once c w (InstanceTracker.tracker sys')
    (adds_pending w (InstanceTracker.tasks sys')).
Proof.
  intros Hb Hexec.
  assert (∀ ts p,
            InstanceTracker.tracker (InstanceTracker.spawn ts p) = p.1
            ∧ adds_pending w (InstanceTracker.tasks (InstanceTracker.spawn ts p))
              = adds_pending w ts
                + adds_pending w (match p.2 with Await k => [k] | Return _ => [] end))
    as Hspawn.
  { intros ts [s' [r|k]]; simpl; [by rewrite Nat.add_0_r | by rewrite adds_pending_app]. }
  destruct a as [o|o|o|options|v|o|i inp]; simpl in Hexec; simplify_eq.
  - destruct (Hspawn (InstanceTracker.tasks sys)
                (InstanceTracker.add o (InstanceTracker.tracker sys))) as [-> ->].
    by apply added_once_add.
  - destruct (Hspawn (InstanceTracker.tasks sys)
                (InstanceTracker.inject o (InstanceTracker.tracker sys))) as [-> ->].
    apply (added_once_add c w o (InstanceTracker.with_injected o _)). exact Hb.
  - destruct (Hspawn (InstanceTracker.tasks sys)
                (InstanceTracker.save o (InstanceTracker.tracker sys))) as [-> ->].
    pose proof (InstanceTracker_save_announces w o (InstanceTracker.tracker sys)).
    destruct (InstanceTracker_save_frame o (InstanceTracker.tracker sys))
      as [(Hi & _ & _ & _ & Hd) _].
    eapply added_once_step; [exact Hb | lia | by rewrite Hi, Hd].
  - destruct (Hspawn (InstanceTracker.tasks sys)
                (InstanceTracker.restore options (InstanceTracker.tracker sys)))
      as [-> ->].
    pose proof (InstanceTracker_restore_announces w options
                  (InstanceTracker.tracker sys)).
    destruct (InstanceTracker_restore_frame options (InstanceTracker.tracker sys))
      as [(Hi & _ & _ & _ & Hd) _].
    eapply added_once_step; [exact Hb | lia | by rewrite Hi, Hd].
  - simpl.
    destruct (InstanceTracker_set_current_frame v (InstanceTracker.tracker sys))
      as (Hi & _ & _ & Hd).
    eapply added_once_step; [exact Hb | | by rewrite Hi, Hd].
    unfold InstanceTracker.set_current. counted.
  - simpl. eapply added_once_step; [exact Hb | |].
    + unfold InstanceTracker.dispose_object, InstanceTracker._onInstanceDisposed.
      counted.
    + intros Hin.
      destruct (decide (w = o)) as [->|Hne].
      * right. unfold InstanceTracker.dispose_object,
          InstanceTracker._onInstanceDisposed.
        branches; apply elem_of_union; left; by apply elem_of_singleton.
      * unfold InstanceTracker.dispose_object,
          InstanceTracker._onInstanceDisposed.
        destruct Hin as [Hin|Hin].
        -- left. branches; try done; by apply elem_of_filter_other.
        -- right. branches; apply elem_of_union; by right.
  - destruct (InstanceTracker.tasks sys !! i) as [k|] eqn:Hk; [|done].
    destruct (InstanceTracker.resume k inp (InstanceTracker.tracker sys))
      as [p|] eqn:Hp; simplify_eq/=.
    destruct (Hspawn (delete i (InstanceTracker.tasks sys)) p) as [-> ->].
    pose proof (InstanceTracker_resume_announces w k inp _ p Hp).
    pose proof (adds_pending_delete w _ i k Hk).
    destruct (InstanceTracker_resume_any_frame k inp _ p Hp) as (Hi & _ & _ & Hd).
    eapply added_once_step; [exact Hb | lia | by rewrite Hi, Hd].
Qed.

Lemma added_once_lifetime w sys :
  lifetime_instances sys →
  added_once
    (slack_of (InstanceTrackerMore.isDisposed (InstanceTrackerMore.this sys))) w
    (InstanceTrackerMore.fields (InstanceTrackerMore.this sys))
    (adds_pending w (InstanceTrackerMore.tasks sys)).
Proof.
  intros Hlife.
  apply (lifetime_instances_preserves
           (λ d sys, added_once (slack_of d) w (InstanceTracker.tracker sys)
                       (adds_pending w (InstanceTracker.tasks sys))));
    [| | | |done].
  - intros d. apply added_once_exec.
  - intros s ts Hb. unfold added_once in *. simpl in *.
    repeat case_decide; lia.
  - intros d o s ts Hb _.
    exact (added_once_exec (slack_of d) w (InstanceTracker.Dispose o)
             {| InstanceTracker.tracker := s; InstanceTracker.tasks := ts |}
             _ Hb eq_refl).
  - intros ns inj names disp.
    unfold added_once, count_events, adds_pending. simpl. case_decide; lia.
Qed.

Lemma widget_added_once_step c w t t' :
  widget_added_once c w t →
  count_events (is_added w) (WidgetTracker.log t')
    ≤ count_events (is_added w) (WidgetTracker.log t) →
  (w ∈ FocusTracker.widgets (WidgetTracker._tracker t)
   ∨ w ∈ WidgetTracker.isDisposed t →
   w ∈ FocusTracker.widgets (WidgetTracker._tracker t')
   ∨ w ∈ WidgetTracker.isDisposed t') →
  widget_added_once c w t'.
Proof.
  unfold widget_added_once. intros Hb Hc Hm.
  destruct (decide (w ∈ FocusTracker.widgets (WidgetTracker._tracker t) ∨ _))
    as [Hin|Hin].
  - rewrite decide_True by auto. lia.
  - case_decide; lia.
Qed.

Lemma WidgetTracker_tracker_becomes_announces w ft t :
  count_events (is_added w) (WidgetTracker.log (WidgetTracker.tracker_becomes ft t))
  = count_events (is_added w) (WidgetTracker.log t).
Proof.
  unfold WidgetTracker.tracker_becomes, WidgetTracker._onCurrentChanged. counted.
Qed.

Section hearing_added.

Variable hears : FocusTracker.t → WidgetTracker.state → WidgetTracker.state.
Hypothesis hears_shape : ∀ ft (t : WidgetTracker.state),
  WidgetTracker._tracker (hears ft t) = ft
  ∧ WidgetTracker._widgets (hears ft t) = WidgetTracker._widgets t
  ∧ WidgetTracker.isDisposed (hears ft t) = WidgetTracker.isDisposed t
  ∧ WidgetTracker.injectedProperty (hears ft t) = WidgetTracker.injectedProperty t
  ∧ WidgetTracker.connected (hears ft t) = WidgetTracker.connected t.
Hypothesis hears_announces : ∀ w ft t,
  count_events (is_added w) (WidgetTracker.log (hears ft t))
  = count_events (is_added w) (WidgetTracker.log t).

Lemma WidgetTracker_add_with_announces w focused o t :
  count_events (is_added w)
    (WidgetTracker.log (WidgetTrackerMore.add_with hears focused o t).1)
  ≤ count_events (is_added w) (WidgetTracker.log t)
    + (if Nat.eqb w o then 1 else 0).
Proof using hears_announces.
  unfold WidgetTrackerMore.add_with.
  pose proof (hears_announces w
                (FocusTracker.add focused o (WidgetTracker._tracker t)) t) as Hc.
  set (t1 := hears _ t) in *. clearbody t1.
  unfold count_events in Hc. counted.
Qed.

Lemma widget_added_once_add_with c w focused o t :
  widget_added_once c w t →
  widget_added_once c w (WidgetTrackerMore.add_with hears focused o t).1.
Proof using hears_shape hears_announces.
  intros Hb.
  destruct (decide (o ∈ WidgetTracker.isDisposed t)) as [Hd|Hd];
    [unfold WidgetTrackerMore.add_with; by rewrite decide_True|].
  destruct (WidgetTracker.has o t) eqn:Hh;
    [unfold WidgetTrackerMore.add_with; unfold WidgetTracker.has in Hh;
     by rewrite decide_False, Hh|].
  destruct (WidgetTracker_add_with_shape hears hears_shape focused o t Hd Hh)
    as (Hft & _ & Hdis & _).
  pose proof (WidgetTracker_add_with_announces w focused o t) as Hc.
  apply bool_decide_eq_false_1 in Hh. unfold widget_added_once in *.
  rewrite Hft, Hdis. destruct (Nat.eqb w o) eqn:Hwo.
  + apply Nat.eqb_eq in Hwo. subst w.
    rewrite decide_False in Hb by (by intros [?|?]).
    rewrite decide_True; [lia|]. left. apply elem_of_app. right.
    by apply list_elem_of_singleton.
  + destruct (decide (w ∈ FocusTracker.widgets (WidgetTracker._tracker t) ∨ _))
      as [Hin|Hin].
    * rewrite decide_True; [lia|]. destruct Hin as [Hin|Hin]; [|by right].
      left. apply elem_of_app. by left.
    * case_decide; lia.
Qed.

Lemma widget_added_once_dispose_with c w previous o t :
  widget_added_once c w t →
  widget_added_once c w
    (WidgetTrackerMore.dispose_widget_with hears previous o t).
Proof using hears_shape hears_announces.
  intros Hb.
  destruct (WidgetTracker_dispose_with_shape hears hears_shape previous o t)
    as (Hft & _ & Hd & _).
  eapply widget_added_once_step; [exact Hb | |].
  - clear Hft Hd.
    unfold WidgetTrackerMore.dispose_widget_with, WidgetTracker.clear_attached.
    cbn zeta. cbn [WidgetTracker.log].
    pose proof (hears_announces w
                  (FocusTracker.remove previous o (WidgetTracker._tracker t))
                  (WidgetTracker.with_disposed o t)) as Hc.
    change (WidgetTracker._tracker (WidgetTracker.with_disposed o t))
      with (WidgetTracker._tracker t).
    change (WidgetTracker.log (WidgetTracker.with_disposed o t))
      with (WidgetTracker.log t) in Hc.
    set (t1 := hears _ _) in *. clearbody t1.
    rewrite <- Hc. unfold WidgetTracker._onWidgetDisposed. counted.
  - rewrite Hft, Hd. intros Hin.
    destruct (decide (w = o)) as [->|Hne].
    + right. apply elem_of_union. left. by apply elem_of_singleton.
    + destruct Hin as [Hin|Hin].
      * left. by apply elem_of_filter_other.
      * right. apply elem_of_union. by right.
Qed.

End hearing_added.

Lemma widget_added_once_save c w o t :
  widget_added_once c w t → widget_added_once c w (WidgetTracker.save o t).1.
Proof.
  intros Hb. destruct (WidgetTracker_save_shape o t) as (Hft & _ & Hd & _).
  eapply widget_added_once_step; [exact Hb | | by rewrite Hft, Hd].
  unfold WidgetTracker.save, WidgetTracker.save_name, WidgetTracker.save_finish.
  counted.
Qed.

Lemma widget_added_once_restore c w options t :
  widget_added_once c w t →
  widget_added_once c w (WidgetTracker.restore options t).1.
Proof.
  intros Hb.
  destruct (WidgetTracker_restore_shape options t) as (Hft & _ & Hd & _).
  eapply widget_added_once_step; [exact Hb | | by rewrite Hft, Hd].
  unfold WidgetTracker.restore. counted.
Qed.

Lemma widget_added_once_resume c w k inp t p :
  widget_added_once c w t →
  WidgetTracker.resume k inp t = Some p →
  widget_added_once c w p.1.
Proof.
  intros Hb Hres.
  destruct (WidgetTracker_resume_shape k inp t p Hres) as (Hft & _ & Hd & _).
  eapply widget_added_once_step; [exact Hb | | by rewrite Hft, Hd].
  destruct k, inp; try discriminate Hres; simpl in Hres; simplify_eq;
    unfold WidgetTracker.add_resume,
      WidgetTracker.save_resume_remove,
      WidgetTracker.save_resume_save, WidgetTracker.save_name,
      WidgetTracker.save_finish, WidgetTracker.restore_resume_list,
      WidgetTracker.restore_resume_replay; counted.
Qed.

Lemma widget_added_once_exec c w a sys sys' :
  widget_added_once c w (WidgetTracker.tracker sys) →
  WidgetTracker.exec a sys = Some sys' →
  widget_added_once c w (WidgetTracker.tracker sys').
Proof.
  apply (WidgetTracker_exec_preserves (widget_added_once c w)).
  - intros focused o t.
    apply (widget_added_once_add_with WidgetTracker.tracker_becomes
             WidgetTracker_tracker_becomes_shape
             WidgetTracker_tracker_becomes_announces).
  - intros o t Hb. exact Hb.
  - apply widget_added_once_save.
  - apply widget_added_once_restore.
  - intros v t Hb. unfold WidgetTracker.focus_changed.
    destruct (WidgetTracker_tracker_becomes_shape
                (FocusTracker.focus v (WidgetTracker._tracker t)) t)
      as (Hft & _ & Hd & _).
    eapply widget_added_once_step;
      [exact Hb | by rewrite WidgetTracker_tracker_becomes_announces
                | by rewrite Hft, Hd].
  - intros previous o t.
    apply (widget_added_once_dispose_with WidgetTracker.tracker_becomes
             WidgetTracker_tracker_becomes_shape
             WidgetTracker_tracker_becomes_announces).
  - intros k inp t p. apply widget_added_once_resume.
Qed.

Lemma widget_added_once_exec_disposed c w a sys sys' :
  widget_added_once c w (WidgetTracker.tracker sys) →
  WidgetTrackerMore.exec_disposed a sys = Some sys' →
  widget_added_once c w (WidgetTracker.tracker sys').
Proof.
  apply (WidgetTrackerMore_exec_disposed_preserves (widget_added_once c w)).
  - intros focused o t.
    apply (widget_added_once_add_with WidgetTracker.with_tracker
             WidgetTracker_with_tracker_shape). done.
  - intros o t Hb. exact Hb.
  - apply widget_added_once_save.
  - apply widget_added_once_restore.
  - intros v t Hb. exact Hb.
  - intros previous o t.
    apply (widget_added_once_dispose_with WidgetTracker.with_tracker
             WidgetTracker_with_tracker_shape). done.
  - intros k inp t p. apply widget_added_once_resume.
Qed.

Lemma widget_added_once_lifetime w sys :
  lifetime_widgets sys →
  widget_added_once
    (slack_of (WidgetTrackerMore.isDisposed (WidgetTrackerMore.this sys))) w
    (WidgetTrackerMore.fields (WidgetTrackerMore.this sys)).
Proof.
  intros Hlife.
  apply (lifetime_widgets_preserves
           (λ d sys, widget_added_once (slack_of d) w (WidgetTracker.tracker sys)));
    [| | | |done].
  - apply widget_added_once_exec.
  - apply widget_added_once_exec_disposed.
  - intros t ts Hb. unfold widget_added_once in *. simpl in *.
    repeat case_decide; lia.
  - intros ns inj names disp.
    unfold widget_added_once, count_events. simpl. case_decide; lia.
Qed.

(** X10.  How often an object is announced, through the whole life of
    either tracker.  As long as the tracker is not disposed, [added] has
    been emitted at most once for each object, counting in, on
    [InstanceTracker], the calls of [add] still suspended at their write,
    and not at all for an object that is neither tracked nor disposed: an
    object leaves the tracker by being disposed, and a disposed object is
    refused.  The tracker's own [dispose()] forgets the tracked objects
    without disposing of them, so that each can be added, and announced,
    once more: at most twice in all, and at most once for an object that
    is neither tracked nor disposed. *)
Theorem added_is_emitted_once
    (o : obj) (sys : InstanceTrackerMore.system) (sysw : WidgetTrackerMore.system) :
  lifetime_instances sys →
  lifetime_widgets sysw →
  let s := InstanceTrackerMore.fields (InstanceTrackerMore.this sys) in
  let t := WidgetTrackerMore.fields (WidgetTrackerMore.this sysw) in
  let again := slack_of (InstanceTrackerMore.isDisposed (InstanceTrackerMore.this sys)) in
  let againw := slack_of (WidgetTrackerMore.isDisposed (WidgetTrackerMore.this sysw)) in
  count_events (is_added o) (InstanceTracker.log s)
    + adds_pending o (InstanceTrackerMore.tasks sys) ≤ 1 + again
  ∧ (InstanceTracker.has o s = false →
     o ∉ InstanceTracker.isDisposed s →
     count_events (is_added o) (InstanceTracker.log s)
       + adds_pending o (InstanceTrackerMore.tasks sys) ≤ again)
  ∧ count_events (is_added o) (WidgetTracker.log t) ≤ 1 + againw
  ∧ (WidgetTracker.has o t = false →
     o ∉ WidgetTracker.isDisposed t →
     count_events (is_added o) (WidgetTracker.log t) ≤ againw).
Proof.
  intros Hlife Hlifew s t again againw.
  pose proof (added_once_lifetime o sys Hlife) as Hb.
  pose proof (widget_added_once_lifetime o sysw Hlifew) as Hbw.
  fold s again in Hb. fold t againw in Hbw.
  unfold added_once in Hb. unfold widget_added_once in Hbw.
  split; [repeat case_decide; lia|]. split.
  { intros Hh%bool_decide_eq_false_1 Hd.
    rewrite decide_False in Hb by (by intros [?|?]). lia. }
  split; [repeat case_decide; lia|].
  intros Hh%bool_decide_eq_false_1 Hd.
  rewrite decide_False in Hbw by (by intros [?|?]). lia.
Qed.

Lemma added_is_emitted_once_witness :
  count_events (is_added 1)
    (InstanceTracker.log
       (InstanceTrackerMore.fields (InstanceTrackerMore.this demo_young_instances)))
    + adds_pending 1 (InstanceTrackerMore.tasks demo_young_instances) ≤ 1
  ∧ count_events (is_added 1)
      (WidgetTracker.log
         (WidgetTrackerMore.fields (WidgetTrackerMore.this demo_life_widgets)))
    ≤ 2
  ∧ count_events (is_added 1)
      (WidgetTracker.log
         (WidgetTrackerMore.fields (WidgetTrackerMore.this demo_life_widgets)))
    = 2.
Proof.
  assert (lifetime_instances demo_young_instances) as Hr.
  { exists "nb", ∅, ∅, ∅, (take 5 demo_life_actions). vm_compute. reflexivity. }
  assert (lifetime_widgets demo_life_widgets) as Hrw.
  { exists "nb", ∅, ∅, ∅, demo_life_widget_actions. vm_compute. reflexivity. }
  destruct (added_is_emitted_once 1 demo_young_instances demo_life_widgets Hr Hrw)
    as (H1 & _ & H2 & _).
  split; [exact H1|]. split; [exact H2|]. vm_compute. reflexivity.
Defined.

(** ** The records a tracker writes *)

Lemma written_by_signal ns r e : is_signal e = true → written_by ns r e.
Proof. by destruct e. Qed.

Lemma replay_calls_written ns r options sv :
  Forall (written_by ns r) (replay_calls options sv).
Proof.
  apply Forall_forall. intros e (i & id & _ & ->)%elem_of_replay_calls.
  unfold replay_call. by destruct (restore_args _).
Qed.

Lemma replay_catches_written ns r options sv :
  Forall (written_by ns r) (replay_catches options sv).
Proof. apply Forall_forall. by intros e [id ->]%replay_catches_remove. Qed.

(** The obligations left by unfolding a segment: the events appended are
    records of the options, or no records at all. *)
Ltac recorded :=
  repeat split; simpl; try done;
  rewrite ?Forall_app, ?Forall_singleton;
  repeat split; simpl;
  first [ done
        | assumption
        | apply replay_calls_written
        | apply replay_catches_written
        | apply Forall_nil_2
        | eexists; repeat split; first [done | by apply String.eqb_neq]
        | idtac ].

Lemma restored_instances_save_name r o oldName newName s ts :
  restored_instances r s ts →
  named_by (InstanceTracker.namespace s) r o newName →
  restored_instances r (InstanceTracker.save_name o oldName newName s).1
    (ts ++ match (InstanceTracker.save_name o oldName newName s).2 with
           | Await k => [k] | Return _ => [] end).
Proof.
  intros (Hr & Hh & Hlog & Hts) Hn. unfold restored_instances,
    InstanceTracker.save_name, InstanceTracker.save_finish. simpl. rewrite Hr.
  destruct (String.eqb newName "") eqn:Hnew; simpl.
  - destruct (String.eqb oldName newName); recorded; by rewrite app_nil_r.
  - recorded. destruct Hn as [-> | [Hne ->]]; [done|]. by exists o.
Qed.

Lemma restored_instances_add_finish r o s ts :
  restored_instances r s ts →
  restored_instances r (InstanceTracker.add_finish o s) ts.
Proof.
  intros (Hr & Hh & Hlog & Hts).
  unfold restored_instances, InstanceTracker.add_finish,
    InstanceTracker.set_current. branches; recorded.
Qed.

Lemma restored_instances_add r o s ts :
  restored_instances r s ts →
  restored_instances r (InstanceTracker.add o s).1
    (ts ++ match (InstanceTracker.add o s).2 with
           | Await k => [k] | Return _ => [] end).
Proof.
  intros (Hr & Hh & Hlog & Hts). unfold InstanceTracker.add.
  case_decide; [by rewrite app_nil_r|].
  destruct (InstanceTracker.has o s); [by rewrite app_nil_r|]. cbn zeta.
  destruct (InstanceTracker.injected o _); [by rewrite app_nil_r|]. simpl.
  rewrite Hr. destruct (String.eqb (name r o) "") eqn:Hname; simpl.
  - rewrite app_nil_r. by apply restored_instances_add_finish.
  - unfold restored_instances. recorded.
Qed.

Lemma restored_instances_exec r a sys sys' :
  restored_instances r (InstanceTracker.tracker sys) (InstanceTracker.tasks sys) →
  InstanceTracker.exec a sys = Some sys' →
  restored_instances r (InstanceTracker.tracker sys') (InstanceTracker.tasks sys').
Proof.
  intros Hs Hexec.
  assert (∀ ts p,
            restored_instances r p.1
              (ts ++ match p.2 with Await k => [k] | Return _ => [] end) →
            restored_instances r
              (InstanceTracker.tracker (InstanceTracker.spawn ts p))
              (InstanceTracker.tasks (InstanceTracker.spawn ts p))) as Hspawn.
  { intros ts [s' [res|k]]; simpl; [by rewrite app_nil_r | done]. }
  destruct a as [o|o|o|options|v|o|i inp]; simpl in Hexec; simplify_eq.
  - by apply Hspawn, restored_instances_add.
  - apply Hspawn. unfold InstanceTracker.inject.
    by apply (restored_instances_add r o (InstanceTracker.with_injected o _)).
  - apply Hspawn. destruct Hs as (Hr & Hh & Hlog & Hts).
    unfold InstanceTracker.save. rewrite Hr.
    destruct (negb _ || _); [by rewrite app_nil_r|].
    assert (named_by (InstanceTracker.namespace (InstanceTracker.tracker sys)) r o
              (if String.eqb (name r o) "" then ""
               else InstanceTracker.key (InstanceTracker.tracker sys) (name r o)))
      as Hn.
    { destruct (String.eqb (name r o) "") eqn:Hname; [by left|]. right.
      split; [by apply String.eqb_neq | done]. }
    destruct (negb _ && negb _).
    + unfold restored_instances. recorded.
    + by apply restored_instances_save_name.
  - apply Hspawn. destruct Hs as (Hr & Hh & Hlog & Hts).
    unfold InstanceTracker.restore. rewrite Hh. simpl. by rewrite app_nil_r.
  - simpl. destruct Hs as (Hr & Hh & Hlog & Hts).
    unfold restored_instances, InstanceTracker.set_current. branches; recorded.
  - simpl. destruct Hs as (Hr & Hh & Hlog & Hts).
    unfold restored_instances, InstanceTracker.dispose_object,
      InstanceTracker._onInstanceDisposed. branches; recorded.
  - destruct (InstanceTracker.tasks sys !! i) as [k|] eqn:Hk; [|done].
    destruct (InstanceTracker.resume k inp (InstanceTracker.tracker sys))
      as [p|] eqn:Hp; simplify_eq/=.
    apply Hspawn. destruct Hs as (Hr & Hh & Hlog & Hts).
    assert (Forall (λ k, match k with
                         | InstanceTracker.Save_remove o _ newName =>
                             named_by (InstanceTracker.namespace
                                         (InstanceTracker.tracker sys)) r o newName
                         | _ => True
                         end) (delete i (InstanceTracker.tasks sys))) as Hdel.
    { by apply Forall_delete. }
    pose proof (Forall_lookup_1 _ _ _ _ Hts Hk) as Hkok.
    set (ts' := delete i (InstanceTracker.tasks sys)) in *. clearbody ts'.
    destruct k, inp; try discriminate Hp; simpl in Hp; simplify_eq.
    + destruct r0 as [[]|e]; simpl; [|by rewrite app_nil_r].
      rewrite app_nil_r. by apply restored_instances_add_finish.
    + destruct r0 as [[]|e]; simpl; [|by rewrite app_nil_r].
      by apply restored_instances_save_name.
    + destruct r0 as [[]|e]; simpl; [|by rewrite app_nil_r].
      unfold InstanceTracker.save_finish. simpl. rewrite app_nil_r.
      unfold restored_instances. branches; recorded.
    + destruct r0 as [sv|e]; simpl; [|by rewrite app_nil_r].
      unfold restored_instances. recorded.
    + unfold InstanceTracker.restore_resume_replay.
      unfold restored_instances. branches; recorded; by rewrite app_nil_r.
Qed.

Ltac signals :=
  repeat split; simpl; try done;
  rewrite ?Forall_app, ?Forall_singleton; repeat split; simpl;
  first [done | assumption | idtac].

Lemma idle_instances_exec a sys sys' :
  idle_instances sys →
  InstanceTracker.exec a sys = Some sys' →
  idle_instances sys'
  ∨ ∃ r, restored_instances r (InstanceTracker.tracker sys')
           (InstanceTracker.tasks sys').
Proof.
  intros (Hr & Hh & Hts & Hlog) Hexec. destruct sys as [s ts]. simpl in *.
  subst ts.
  assert (∀ o s0, InstanceTracker._restore s0 = None →
                  InstanceTracker._hasRestored s0 = false →
                  Forall (λ e, is_signal e = true) (InstanceTracker.log s0) →
                  idle_instances (InstanceTracker.spawn [] (InstanceTracker.add o s0)))
    as Hadd.
  { intros o s0 Hr0 Hh0 Hlog0. unfold idle_instances, InstanceTracker.add,
      InstanceTracker.add_finish, InstanceTracker.set_current.
    case_decide; [done|]. destruct (InstanceTracker.has o s0); [done|].
    cbn zeta. destruct (InstanceTracker.injected o _); [done|].
    simpl. rewrite Hr0. branches; signals. }
  destruct a as [o|o|o|options|v|o|i inp]; simpl in Hexec; simplify_eq.
  - left. by apply Hadd.
  - left. unfold InstanceTracker.inject. by apply Hadd.
  - left. unfold InstanceTracker.save. by rewrite Hr.
  - right. exists options. unfold InstanceTracker.restore. rewrite Hh. simpl.
    unfold restored_instances. simpl. split; [done|]. split; [done|].
    split; [|by apply Forall_singleton].
    rewrite Forall_app, Forall_singleton. split; [|done].
    eapply Forall_impl; [exact Hlog|]. intros e He. by apply written_by_signal.
  - left. unfold idle_instances, InstanceTracker.set_current. simpl.
    branches; signals.
  - left. unfold idle_instances, InstanceTracker.dispose_object,
      InstanceTracker._onInstanceDisposed. simpl. branches; signals.
Qed.

Lemma restored_widgets_save_name r w oldName newName t ts :
  restored_widgets r t ts →
  named_by (WidgetTracker.namespace t) r w newName →
  restored_widgets r (WidgetTracker.save_name w oldName newName t).1
    (ts ++ match (WidgetTracker.save_name w oldName newName t).2 with
           | Await k => [k] | Return _ => [] end).
Proof.
  intros (Hr & Hh & Hlog & Hts) Hn. unfold restored_widgets,
    WidgetTracker.save_name, WidgetTracker.save_finish. simpl. rewrite Hr.
  destruct (String.eqb newName "") eqn:Hnew; simpl.
  - destruct (String.eqb oldName newName); recorded; by rewrite app_nil_r.
  - recorded. destruct Hn as [-> | [Hne ->]]; [done|]. by exists w.
Qed.

Lemma restored_widgets_tracker_becomes r ft t ts :
  restored_widgets r t ts →
  restored_widgets r (WidgetTracker.tracker_becomes ft t) ts.
Proof.
  intros (Hr & Hh & Hlog & Hts).
  unfold restored_widgets, WidgetTracker.tracker_becomes,
    WidgetTracker._onCurrentChanged. branches; recorded.
Qed.

Lemma restored_widgets_add r focused w t ts :
  restored_widgets r t ts →
  restored_widgets r (WidgetTracker.add focused w t).1
    (ts ++ match (WidgetTracker.add focused w t).2 with
           | Await k => [k] | Return _ => [] end).
Proof.
  intros Hs. unfold WidgetTracker.add.
  case_decide; [by rewrite app_nil_r|].
  destruct (FocusTracker.has w _); [by rewrite app_nil_r|].
  pose proof (restored_widgets_tracker_becomes r
                (FocusTracker.add focused w (WidgetTracker._tracker t)) t ts Hs)
    as (Hr & Hh & Hlog & Hts).
  set (t1 := WidgetTracker.tracker_becomes _ t) in *. clearbody t1.
  unfold restored_widgets. cbn zeta.
  destruct (WidgetTracker.injected w _); [simpl; by rewrite app_nil_r|].
  simpl. rewrite Hr. destruct (String.eqb (name r w) "") eqn:Hname; simpl;
    branches; recorded; by rewrite app_nil_r.
Qed.

Lemma restored_widgets_exec r a sys sys' :
  restored_widgets r (WidgetTracker.tracker sys) (WidgetTracker.tasks sys) →
  WidgetTracker.exec a sys = Some sys' →
  restored_widgets r (WidgetTracker.tracker sys') (WidgetTracker.tasks sys').
Proof.
  intros Hs Hexec.
  assert (∀ ts p,
            restored_widgets r p.1
              (ts ++ match p.2 with Await k => [k] | Return _ => [] end) →
            restored_widgets r
              (WidgetTracker.tracker (WidgetTracker.spawn ts p))
              (WidgetTracker.tasks (WidgetTracker.spawn ts p))) as Hspawn.
  { intros ts [s' [res|k]]; simpl; [by rewrite app_nil_r | done]. }
  destruct a as [focused w|focused w|w|options|v|previous w|i inp];
    simpl in Hexec; simplify_eq.
  - by apply Hspawn, restored_widgets_add.
  - simpl. unfold WidgetTracker.inject.
    pose proof (restored_widgets_add r focused w
                  (WidgetTracker.with_injected w (WidgetTracker.tracker sys))
                  (WidgetTracker.tasks sys) Hs) as (H1 & H2 & H3 & H4).
    split; [done|]. split; [done|]. split; [done|].
    by apply Forall_app in H4 as [H4 _].
  - apply Hspawn. destruct Hs as (Hr & Hh & Hlog & Hts).
    unfold WidgetTracker.save. rewrite Hr.
    destruct (negb _ || _); [by rewrite app_nil_r|].
    assert (named_by (WidgetTracker.namespace (WidgetTracker.tracker sys)) r w
              (if String.eqb (name r w) "" then ""
               else WidgetTracker.key (WidgetTracker.tracker sys) (name r w)))
      as Hn.
    { destruct (String.eqb (name r w) "") eqn:Hname; [by left|]. right.
      split; [by apply String.eqb_neq | done]. }
    destruct (negb _ && negb _).
    + unfold restored_widgets. recorded.
    + by apply restored_widgets_save_name.
  - apply Hspawn. destruct Hs as (Hr & Hh & Hlog & Hts).
    unfold WidgetTracker.restore. rewrite Hh. simpl. by rewrite app_nil_r.
  - simpl. by apply restored_widgets_tracker_becomes.
  - simpl. unfold WidgetTracker.Widget_dispose. case_decide; [done|].
    unfold WidgetTracker.dispose_widget.
    pose proof (restored_widgets_tracker_becomes r
                  (FocusTracker.remove previous w
                     (WidgetTracker._tracker (WidgetTracker.tracker sys)))
                  (WidgetTracker.with_disposed w (WidgetTracker.tracker sys))
                  (WidgetTracker.tasks sys) Hs) as (Hr & Hh & Hlog & Hts).
    change (WidgetTracker._tracker
              (WidgetTracker.with_disposed w (WidgetTracker.tracker sys)))
      with (WidgetTracker._tracker (WidgetTracker.tracker sys)).
    set (t1 := WidgetTracker.tracker_becomes _ _) in *. clearbody t1.
    unfold restored_widgets, WidgetTracker._onWidgetDisposed.
    branches; recorded.
  - destruct (WidgetTracker.tasks sys !! i) as [k|] eqn:Hk; [|done].
    destruct (WidgetTracker.resume k inp (WidgetTracker.tracker sys))
      as [p|] eqn:Hp; simplify_eq/=.
    apply Hspawn. destruct Hs as (Hr & Hh & Hlog & Hts).
    assert (Forall (λ k, match k with
                         | WidgetTracker.Save_remove o _ newName =>
                             named_by (WidgetTracker.namespace
                                         (WidgetTracker.tracker sys)) r o newName
                         | _ => True
                         end) (delete i (WidgetTracker.tasks sys))) as Hdel.
    { by apply Forall_delete. }
    pose proof (Forall_lookup_1 _ _ _ _ Hts Hk) as Hkok.
    set (ts' := delete i (WidgetTracker.tasks sys)) in *. clearbody ts'.
    destruct k, inp; try discriminate Hp; simpl in Hp; simplify_eq.
    + destruct r0 as [[]|e]; simpl; by rewrite app_nil_r.
    + destruct r0 as [[]|e]; simpl; [|by rewrite app_nil_r].
      by apply restored_widgets_save_name.
    + destruct r0 as [[]|e]; simpl; [|by rewrite app_nil_r].
      unfold WidgetTracker.save_finish. simpl. rewrite app_nil_r.
      unfold restored_widgets. branches; recorded.
    + destruct r0 as [sv|e]; simpl; [|by rewrite app_nil_r].
      unfold restored_widgets. recorded.
    + unfold WidgetTracker.restore_resume_replay.
      unfold restored_widgets. branches; recorded; by rewrite app_nil_r.
Qed.

Lemma idle_widgets_tracker_becomes ft t :
  WidgetTracker._restore t = None →
  WidgetTracker._hasRestored t = false →
  Forall (λ e, is_signal e = true) (WidgetTracker.log t) →
  let t' := WidgetTracker.tracker_becomes ft t in
  WidgetTracker._restore t' = None
  ∧ WidgetTracker._hasRestored t' = false
  ∧ Forall (λ e, is_signal e = true) (WidgetTracker.log t').
Proof.
  intros Hr Hh Hlog. unfold WidgetTracker.tracker_becomes,
    WidgetTracker._onCurrentChanged. branches; signals.
Qed.

Lemma idle_widgets_exec a sys sys' :
  idle_widgets sys →
  WidgetTracker.exec a sys = Some sys' →
  idle_widgets sys'
  ∨ ∃ r, restored_widgets r (WidgetTracker.tracker sys')
           (WidgetTracker.tasks sys').
Proof.
  intros (Hr & Hh & Hts & Hlog) Hexec. destruct sys as [t ts]. simpl in *.
  subst ts.
  assert (∀ focused w t0,
            WidgetTracker._restore t0 = None →
            WidgetTracker._hasRestored t0 = false →
            Forall (λ e, is_signal e = true) (WidgetTracker.log t0) →
            idle_widgets (WidgetTracker.spawn [] (WidgetTracker.add focused w t0))
            ∧ (WidgetTracker.add focused w t0).2 = (WidgetTracker.add focused w t0).2)
    as Hadd.
  { intros focused w t0 Hr0 Hh0 Hlog0. split; [|done].
    unfold idle_widgets, WidgetTracker.add.
    case_decide; [done|]. destruct (FocusTracker.has w _); [done|].
    pose proof (idle_widgets_tracker_becomes
                  (FocusTracker.add focused w (WidgetTracker._tracker t0)) t0
                  Hr0 Hh0 Hlog0) as (Hr1 & Hh1 & Hlog1).
    set (t1 := WidgetTracker.tracker_becomes _ t0) in *. clearbody t1.
    cbn zeta. destruct (WidgetTracker.injected w _); [done|].
    simpl. rewrite Hr1. branches; signals. }
  destruct a as [focused w|focused w|w|options|v|previous w|i inp];
    simpl in Hexec; simplify_eq.
  - left. by apply Hadd.
  - left. unfold WidgetTracker.inject.
    destruct (Hadd focused w (WidgetTracker.with_injected w t) Hr Hh Hlog)
      as [(H1 & H2 & _ & H4) _].
    assert (∀ p, WidgetTracker.tracker (WidgetTracker.spawn [] p) = p.1) as Hsp
      by (by intros [? [?|?]]).
    rewrite Hsp in H1, H2, H4. done.
  - left. unfold WidgetTracker.save. by rewrite Hr.
  - right. exists options. unfold WidgetTracker.restore. rewrite Hh. simpl.
    unfold restored_widgets. simpl. split; [done|]. split; [done|].
    split; [|by apply Forall_singleton].
    rewrite Forall_app, Forall_singleton. split; [|done].
    eapply Forall_impl; [exact Hlog|]. intros e He. by apply written_by_signal.
  - left. unfold idle_widgets. simpl.
    destruct (idle_widgets_tracker_becomes (FocusTracker.focus v (WidgetTracker._tracker t))
                t Hr Hh Hlog) as (H1 & H2 & H3). done.
  - left. unfold WidgetTracker.Widget_dispose.
    case_decide; [by unfold idle_widgets|].
    unfold idle_widgets, WidgetTracker.dispose_widget. simpl.
    pose proof (idle_widgets_tracker_becomes
                  (FocusTracker.remove previous w (WidgetTracker._tracker t))
                  (WidgetTracker.with_disposed w t) Hr Hh Hlog)
      as (Hr1 & Hh1 & Hlog1).
    change (WidgetTracker._tracker (WidgetTracker.with_disposed w t))
      with (WidgetTracker._tracker t).
    set (t1 := WidgetTracker.tracker_becomes _ _) in *. clearbody t1.
    unfold WidgetTracker._onWidgetDisposed. branches; signals.
Qed.

(** X11.  Which calls a tracker makes to its collaborators.  As long as
    [restore] has not been called, a tracker makes none: nothing is
    suspended and its log holds signals only.  Once [restore] has been
    called, the options of that first call stay installed, and every
    record ever written, by [add] or by [save], was written with them: its
    id is the namespace, a colon and the non-empty name the options give
    for some object, and its value is [{ data }] with the arguments the
    options give for that object.  Such a record is one that the
    restoration callback reads back: replayed, it executes the command
    with exactly those arguments. *)
Theorem records_are_written_with_the_installed_options
    (sys : InstanceTracker.system) (sysw : WidgetTracker.system) :
  reachable_instances sys →
  reachable_widgets sysw →
  match InstanceTracker._restore (InstanceTracker.tracker sys) with
  | None =>
      InstanceTracker._hasRestored (InstanceTracker.tracker sys) = false
      ∧ InstanceTracker.tasks sys = []
      ∧ Forall (λ e, is_signal e = true)
          (InstanceTracker.log (InstanceTracker.tracker sys))
  | Some r =>
      InstanceTracker._hasRestored (InstanceTracker.tracker sys) = true
      ∧ (∀ acts sys',
           InstanceTracker.run acts sys = Some sys' →
           InstanceTracker._restore (InstanceTracker.tracker sys') = Some r)
      ∧ ∀ id v,
          State_save id v ∈ InstanceTracker.log (InstanceTracker.tracker sys) →
          ∃ o, name r o ≠ ""
               ∧ id = InstanceTracker.key (InstanceTracker.tracker sys) (name r o)
               ∧ v = JObj [("data", args r o)]
               ∧ ∀ options,
                   replay_call options id (Some v)
                   = Registry_execute (command options) (args r o)
  end
  ∧ match WidgetTracker._restore (WidgetTracker.tracker sysw) with
    | None =>
        WidgetTracker._hasRestored (WidgetTracker.tracker sysw) = false
        ∧ WidgetTracker.tasks sysw = []
        ∧ Forall (λ e, is_signal e = true)
            (WidgetTracker.log (WidgetTracker.tracker sysw))
    | Some r =>
        WidgetTracker._hasRestored (WidgetTracker.tracker sysw) = true
        ∧ (∀ acts sysw',
             WidgetTracker.run acts sysw = Some sysw' →
             WidgetTracker._restore (WidgetTracker.tracker sysw') = Some r)
        ∧ ∀ id v,
            State_save id v ∈ WidgetTracker.log (WidgetTracker.tracker sysw) →
            ∃ w, name r w ≠ ""
                 ∧ id = WidgetTracker.key (WidgetTracker.tracker sysw) (name r w)
                 ∧ v = JObj [("data", args r w)]
                 ∧ ∀ options,
                     replay_call options id (Some v)
                     = Registry_execute (command options) (args r w)
    end.
Proof.
  intros (ns & inj & names & disp & acts & Hrun)
         (nsw & injw & namesw & dispw & actsw & Hrunw).
  split.
  - assert (idle_instances sys
            ∨ ∃ r, restored_instances r (InstanceTracker.tracker sys)
                     (InstanceTracker.tasks sys)) as [Hi | [r Hs]].
    { refine (InstanceTracker_run_preserves
                (λ sys, idle_instances sys
                        ∨ ∃ r, restored_instances r (InstanceTracker.tracker sys)
                                 (InstanceTracker.tasks sys))
                _ acts _ _ _ Hrun).
      - intros a sys0 sys1 [Hi | [r Hs]] Hexec.
        + by apply (idle_instances_exec a sys0).
        + right. exists r. by apply (restored_instances_exec r a sys0).
      - left. unfold idle_instances. simpl. repeat split; done. }
    + destruct Hi as (-> & Hh & Hts & Hlog). done.
    + pose proof Hs as (-> & Hh & Hlog & _). split; [done|]. split.
      { intros acts' sys' Hrun'.
        apply (InstanceTracker_run_preserves
                 (λ sys, restored_instances r (InstanceTracker.tracker sys)
                           (InstanceTracker.tasks sys))
                 (restored_instances_exec r) acts' sys sys' Hs Hrun'). }
      intros id v Hin. rewrite Forall_forall in Hlog.
      destruct (Hlog _ Hin) as (o & Hne & -> & ->). exists o.
      repeat split; done.
  - assert (idle_widgets sysw
            ∨ ∃ r, restored_widgets r (WidgetTracker.tracker sysw)
                     (WidgetTracker.tasks sysw)) as [Hi | [r Hs]].
    { refine (WidgetTracker_run_preserves
                (λ sys, idle_widgets sys
                        ∨ ∃ r, restored_widgets r (WidgetTracker.tracker sys)
                                 (WidgetTracker.tasks sys))
                _ actsw _ _ _ Hrunw).
      - intros a sys0 sys1 [Hi | [r Hs]] Hexec.
        + by apply (idle_widgets_exec a sys0).
        + right. exists r. by apply (restored_widgets_exec r a sys0).
      - left. unfold idle_widgets. simpl. repeat split; done. }
    + destruct Hi as (-> & Hh & Hts & Hlog). done.
    + pose proof Hs as (-> & Hh & Hlog & _). split; [done|]. split.
      { intros acts' sys' Hrun'.
        apply (WidgetTracker_run_preserves
                 (λ sys, restored_widgets r (WidgetTracker.tracker sys)
                           (WidgetTracker.tasks sys))
                 (restored_widgets_exec r) acts' sysw sys' Hs Hrun'). }
      intros id v Hin. rewrite Forall_forall in Hlog.
      destruct (Hlog _ Hin) as (o & Hne & -> & ->). exists o.
      repeat split; done.
Qed.

Lemma records_are_written_with_the_installed_options_witness :
  InstanceTracker._hasRestored (InstanceTracker.tracker demo_busy_instances) = true
  ∧ WidgetTracker._hasRestored (WidgetTracker.tracker demo_busy_widgets) = true.
Proof.
  assert (reachable_instances demo_busy_instances) as Hr.
  { exists "nb", ∅, ∅, ∅, demo_actions. vm_compute. reflexivity. }
  assert (reachable_widgets demo_busy_widgets) as Hrw.
  { exists "nb", ∅, ∅, ∅, demo_widget_actions. vm_compute. reflexivity. }
  pose proof (records_are_written_with_the_installed_options demo_busy_instances
                demo_busy_widgets Hr Hrw) as [H1 H2].
  split; [exact (proj1 H1) | exact (proj1 H2)].
Defined.

(** ** The life of a record *)

Lemma key_not_empty (ns n : string) : ns +:+ ":" +:+ n ≠ "".
Proof. by destruct ns. Qed.

Lemma database_after_app l1 l2 db :
  database_after (l1 ++ l2) db = database_after l2 (database_after l1 db).
Proof. unfold database_after. by rewrite foldl_app. Qed.

(** The state after the first segment of an [add] that writes a record,
    and what the disposal of the object does from there on. *)
Lemma InstanceTracker_dispose_added o r (s s1 : InstanceTracker.state) :
  InstanceTracker.injected o s1 = false →
  InstanceTracker._restore s1 = Some r →
  o ∈ InstanceTracker.connected s1 →
  InstanceTracker.name_of o s1 = InstanceTracker.key s (name r o) →
  let s2 := InstanceTracker.dispose_object o s1 in
  InstanceTracker._instances s2
    = filter (λ x, x ≠ o) (InstanceTracker._instances s1)
  ∧ InstanceTracker._current s2
    = (if decide (InstanceTracker._current s1 = Some o) then None
       else InstanceTracker._current s1)
  ∧ InstanceTracker.log s2
    = InstanceTracker.log s1
      ++ (if decide (InstanceTracker._current s1 = Some o)
          then [CurrentChanged None] else [])
      ++ [State_remove (InstanceTracker.key s (name r o))]
  ∧ InstanceTracker.isDisposed s2 = {[o]} ∪ InstanceTracker.isDisposed s1.
Proof.
  intros Hi Hr Hc Hn. unfold InstanceTracker.dispose_object. cbn zeta.
  change (InstanceTracker.connected (InstanceTracker.with_disposed o s1))
    with (InstanceTracker.connected s1). rewrite decide_True by done.
  unfold InstanceTracker._onInstanceDisposed. cbn zeta.
  change (InstanceTracker.injected o (InstanceTracker.with_instances _ _))
    with (InstanceTracker.injected o s1). rewrite Hi.
  pose proof (key_not_empty (InstanceTracker.namespace s) (name r o)) as Hk.
  apply String.eqb_neq in Hk. unfold InstanceTracker.key in Hn.
  case_decide as Hcur; simpl in Hcur; simpl; rewrite Hr;
    unfold InstanceTracker.name_of in *; simpl; rewrite Hn, Hk; simpl;
    rewrite ?decide_True, ?decide_False by done; norm_log; done.
Qed.

(** X2.  An object disposed while its [add] awaits the write of its
    record: the handler takes it out of the tracked set and asks for the
    removal of the record; when the write resolves, [add] goes on all the
    same, makes the object the current instance if there was none, and
    emits [added] for it.  The current instance is then an object that is
    disposed and no longer tracked. *)
Theorem disposal_during_add_makes_it_current
    (r : IRestoreOptions) (o : obj) (s : InstanceTracker.state) :
  o ∉ InstanceTracker.isDisposed s →
  InstanceTracker.has o s = false →
  InstanceTracker.injected o s = false →
  InstanceTracker._restore s = Some r →
  name r o ≠ "" →
  InstanceTracker._current s = None →
  let s1 := (InstanceTracker.add o s).1 in
  let s2 := InstanceTracker.dispose_object o s1 in
  let s3 := (InstanceTracker.add_resume o (Resolved ()) s2).1 in
  (InstanceTracker.add o s).2 = Await (InstanceTracker.Add_save o)
  ∧ InstanceTracker.has o s1 = true
  ∧ InstanceTracker.has o s2 = false
  ∧ InstanceTracker._current s3 = Some o
  ∧ InstanceTracker.has o s3 = false
  ∧ o ∈ InstanceTracker.isDisposed s3
  ∧ InstanceTracker.log s3
    = InstanceTracker.log s
      ++ [State_save (InstanceTracker.key s (name r o)) (JObj [("data", args r o)]);
          State_remove (InstanceTracker.key s (name r o));
          CurrentChanged (Some o); Added o].
Proof.
  intros Hd Hh Hi Hr Hn Hcur.
  rewrite (InstanceTracker_add_writing o r s Hd Hh Hi Hr Hn). cbn [fst snd].
  set (s1 := InstanceTracker.emit _ _).
  assert (InstanceTracker.name_of o s1 = InstanceTracker.key s (name r o)) as Hname.
  { unfold InstanceTracker.name_of. simpl. by rewrite lookup_insert_eq. }
  assert (o ∈ InstanceTracker.connected s1) as Hc.
  { simpl. apply elem_of_union. left. by apply elem_of_singleton. }
  destruct (InstanceTracker_dispose_added o r s s1 Hi Hr Hc Hname)
    as (Hi2 & Hc2 & Hl2 & Hd2).
  set (s2 := InstanceTracker.dispose_object o s1) in *.
  change (InstanceTracker._current s1) with (InstanceTracker._current s) in *.
  rewrite Hcur in Hc2, Hl2.
  rewrite decide_False in Hc2 by done. rewrite decide_False in Hl2 by done.
  assert (o ∉ InstanceTracker._instances s2) as Hgone.
  { rewrite Hi2. by intros [? _]%elem_of_filter_other. }
  cbn [fst snd InstanceTracker.add_resume].
  destruct (InstanceTracker_add_finish_frame o s2) as (E1 & E2 & _ & _).
  destruct (InstanceTracker_add_finish_spec o s2) as (E3 & E4).
  split; [done|]. split.
  { apply bool_decide_eq_true_2. simpl. apply elem_of_app. right.
    by apply list_elem_of_singleton. }
  split; [by apply bool_decide_eq_false_2|].
  split; [by rewrite E3, Hc2|].
  split; [apply bool_decide_eq_false_2; by rewrite E1|].
  split.
  { rewrite E2, Hd2. apply elem_of_union. left. by apply elem_of_singleton. }
  rewrite E4, Hc2, Hl2. simpl. by rewrite <- !app_assoc.
Qed.

Lemma disposal_during_add_makes_it_current_witness :
  InstanceTracker._current
    (InstanceTracker.add_resume 1 (Resolved ())
       (InstanceTracker.dispose_object 1
          (InstanceTracker.add 1
             (InstanceTracker.with_restore demo_options demo_instances)).1)).1
  = Some 1
  ∧ InstanceTracker.has 1
      (InstanceTracker.add_resume 1 (Resolved ())
         (InstanceTracker.dispose_object 1
            (InstanceTracker.add 1
               (InstanceTracker.with_restore demo_options demo_instances)).1)).1
    = false.
Proof.
  assert (1 ∉ (∅ : gset obj)) as Hd by apply not_elem_of_empty.
  assert (name demo_options 1 ≠ "") as Hn by done.
  destruct (disposal_during_add_makes_it_current demo_options 1
              (InstanceTracker.with_restore demo_options demo_instances)
              Hd eq_refl eq_refl eq_refl Hn eq_refl)
    as (_ & _ & _ & H1 & H2 & _).
  split; [exact H1 | exact H2].
Defined.

Lemma database_after_signals l m :
  Forall (λ e, is_signal e = true) l → database_after l m = m.
Proof.
  intros Hl. revert m. induction Hl as [|e l He _ IH]; intros m; [done|].
  change (database_after (e :: l) m) with (database_after l (apply_call m e)).
  rewrite IH. by destruct e.
Qed.

Lemma WidgetTracker_tracker_becomes_records ft t db :
  let t' := WidgetTracker.tracker_becomes ft t in
  database_after (WidgetTracker.log t') db = database_after (WidgetTracker.log t) db
  ∧ WidgetTracker.injectedProperty t' = WidgetTracker.injectedProperty t
  ∧ WidgetTracker._restore t' = WidgetTracker._restore t
  ∧ WidgetTracker.nameProperty t' = WidgetTracker.nameProperty t
  ∧ WidgetTracker.connected t' = WidgetTracker.connected t
  ∧ WidgetTracker.namespace t' = WidgetTracker.namespace t.
Proof.
  unfold WidgetTracker.tracker_becomes, WidgetTracker._onCurrentChanged.
  branches; rewrite ?database_after_app; done.
Qed.

(** [WidgetTracker.add] when the record of the widget is written. *)
Lemma WidgetTracker_add_writing focused w r t db :
  w ∉ WidgetTracker.isDisposed t →
  WidgetTracker.has w t = false →
  WidgetTracker.injected w t = false →
  WidgetTracker._restore t = Some r →
  name r w ≠ "" →
  let t' := (WidgetTracker.add focused w t).1 in
  database_after (WidgetTracker.log t') db
    = <[WidgetTracker.key t (name r w) := (JObj [("data", args r w)])]>
        (database_after (WidgetTracker.log t) db)
  ∧ WidgetTracker.injected w t' = false
  ∧ WidgetTracker._restore t' = Some r
  ∧ w ∈ WidgetTracker.connected t'
  ∧ WidgetTracker.name_of w t' = WidgetTracker.key t (name r w).
Proof.
  intros Hd Hh Hi Hr Hn. unfold WidgetTracker.add. unfold WidgetTracker.has in Hh.
  rewrite decide_False, Hh by done.
  destruct (WidgetTracker_tracker_becomes_records
              (FocusTracker.add focused w (WidgetTracker._tracker t)) t db)
    as (Hdb & Hinj & Hres & Hnm & Hcon & Hns).
  set (t1 := WidgetTracker.tracker_becomes _ t) in *. clearbody t1.
  unfold WidgetTracker.injected, WidgetTracker.name_of, WidgetTracker.key in *.
  cbn zeta. simpl. rewrite Hinj, Hi, Hres, Hr, Hns.
  apply String.eqb_neq in Hn. rewrite Hn.
  unfold database_after in *. rewrite ?foldl_app. simpl.
  destruct (FocusTracker.currentWidget (WidgetTracker._tracker t1)); simpl;
    rewrite ?foldl_app; simpl; rewrite ?foldl_app; simpl;
    rewrite Hdb, lookup_insert_eq, Hinj, Hi; repeat split; try done;
    try (by rewrite Hres);
    apply elem_of_union; left; by apply elem_of_singleton.
Qed.

(** The disposal of a widget whose record was written. *)
Lemma WidgetTracker_dispose_written previous w r t db :
  WidgetTracker.injected w t = false →
  WidgetTracker._restore t = Some r →
  w ∈ WidgetTracker.connected t →
  WidgetTracker.name_of w t ≠ "" →
  database_after (WidgetTracker.log (WidgetTracker.dispose_widget previous w t)) db
  = delete (WidgetTracker.name_of w t) (database_after (WidgetTracker.log t) db).
Proof.
  intros Hi Hr Hc Hn. unfold WidgetTracker.dispose_widget. cbn zeta.
  destruct (WidgetTracker_tracker_becomes_records
              (FocusTracker.remove previous w
                 (WidgetTracker._tracker (WidgetTracker.with_disposed w t)))
              (WidgetTracker.with_disposed w t) db)
    as (Hdb & Hinj & Hres & Hnm & Hcon & _).
  set (t1 := WidgetTracker.tracker_becomes _ _) in *. clearbody t1.
  simpl in Hdb, Hinj, Hres, Hnm, Hcon.
  rewrite Hcon, decide_True by done.
  unfold WidgetTracker._onWidgetDisposed, WidgetTracker.injected,
    WidgetTracker.name_of in *.
  rewrite Hinj, Hi. cbn zeta. apply String.eqb_neq in Hn.
  unfold database_after in *.
  simpl. destruct (decide (WidgetTracker._currentWidget t1 = Some w)); simpl;
    rewrite Hres, Hr, Hnm, Hn; simpl;
    rewrite ?foldl_app; simpl; by rewrite Hdb.
Qed.

(** X12.  The record [add] writes for an object is the one its disposal
    removes, whenever the disposal comes: once [add] has run to its end,
    or while it is still awaiting the write.  With the database applying
    the calls in the order they were made, the records after the disposal
    are those from before [add] with nothing under the key of the object;
    in between, the key holds [{ data }].  The same on [WidgetTracker],
    where [add] issues the write in its only segment. *)
Theorem a_disposed_object_leaves_no_record
    (r : IRestoreOptions) (o : obj) (s : InstanceTracker.state)
    (focused : bool) (previous : option obj) (t : WidgetTracker.state)
    (res : settled ()) (db : gmap string json) :
  o ∉ InstanceTracker.isDisposed s →
  InstanceTracker.has o s = false →
  InstanceTracker.injected o s = false →
  InstanceTracker._restore s = Some r →
  o ∉ WidgetTracker.isDisposed t →
  WidgetTracker.has o t = false →
  WidgetTracker.injected o t = false →
  WidgetTracker._restore t = Some r →
  name r o ≠ "" →
  let written := (InstanceTracker.complete InstanceTracker.storing
                    (InstanceTracker.add o s)).1 in
  let early := (InstanceTracker.add_resume o res
                  (InstanceTracker.dispose_object o (InstanceTracker.add o s).1)).1 in
  let writtenw := (WidgetTracker.add focused o t).1 in
  database_after (InstanceTracker.log written) db
    = <[InstanceTracker.key s (name r o) := (JObj [("data", args r o)])]>
        (database_after (InstanceTracker.log s) db)
  ∧ database_after
      (InstanceTracker.log (InstanceTracker.dispose_object o written)) db
    = delete (InstanceTracker.key s (name r o))
        (database_after (InstanceTracker.log s) db)
  ∧ database_after (InstanceTracker.log early) db
    = delete (InstanceTracker.key s (name r o))
        (database_after (InstanceTracker.log s) db)
  ∧ database_after (WidgetTracker.log writtenw) db
    = <[WidgetTracker.key t (name r o) := (JObj [("data", args r o)])]>
        (database_after (WidgetTracker.log t) db)
  ∧ database_after
      (WidgetTracker.log (WidgetTracker.dispose_widget previous o writtenw)) db
    = delete (WidgetTracker.key t (name r o))
        (database_after (WidgetTracker.log t) db).
Proof.
  intros Hd Hh Hi Hr Hdw Hhw Hiw Hrw Hn.
  rewrite (InstanceTracker_add_writing o r s Hd Hh Hi Hr Hn).
  cbn [fst snd]. set (s1 := InstanceTracker.emit _ _).
  change (InstanceTracker.complete InstanceTracker.storing
            (s1, Await (InstanceTracker.Add_save o)))
    with (InstanceTracker.add_finish o s1, @Return InstanceTracker.pending (Resolved Void)).
  cbn [fst snd].
  assert (InstanceTracker.name_of o s1 = InstanceTracker.key s (name r o)) as Hname.
  { unfold InstanceTracker.name_of. simpl. by rewrite lookup_insert_eq. }
  assert (o ∈ InstanceTracker.connected s1) as Hc.
  { simpl. apply elem_of_union. left. by apply elem_of_singleton. }
  pose proof database_after_signals as Hsig.
  split; [|split; [|split; [|split]]].
  - destruct (InstanceTracker_add_finish_spec o s1) as (_ & ->).
    rewrite !database_after_app.
    rewrite (Hsig [Added o]) by (by repeat constructor).
    rewrite (Hsig (match InstanceTracker._current s1 with
                   | None => [CurrentChanged (Some o)] | Some _ => [] end))
      by (destruct (InstanceTracker._current s1); by repeat constructor).
    simpl. by rewrite database_after_app.
  - set (s1' := InstanceTracker.add_finish o s1).
    destruct (InstanceTracker_add_finish_frame o s1) as (_ & _ & E3 & E4).
    destruct (InstanceTracker_add_finish_spec o s1) as (_ & E5).
    assert (InstanceTracker.injected o s1' = false) as Hi'.
    { unfold InstanceTracker.injected, s1'. rewrite E3. exact Hi. }
    assert (InstanceTracker._restore s1' = Some r) as Hr'.
    { unfold s1', InstanceTracker.add_finish, InstanceTracker.set_current.
      branches; done. }
    assert (o ∈ InstanceTracker.connected s1') as Hc' by (unfold s1'; by rewrite E4).
    assert (InstanceTracker.name_of o s1' = InstanceTracker.key s (name r o))
      as Hname'.
    { rewrite <- Hname.
      unfold s1', InstanceTracker.add_finish, InstanceTracker.set_current.
      branches; done. }
    destruct (InstanceTracker_dispose_added o r s s1' Hi' Hr' Hc' Hname')
      as (_ & _ & -> & _).
    fold s1' in E5. rewrite E5, !database_after_app.
    rewrite (Hsig [Added o]) by (by repeat constructor).
    rewrite (Hsig (match InstanceTracker._current s1 with
                   | None => [CurrentChanged (Some o)] | Some _ => [] end))
      by (destruct (InstanceTracker._current s1); by repeat constructor).
    rewrite (Hsig (if decide _ then _ else _))
      by (case_decide; by repeat constructor).
    simpl. rewrite database_after_app. simpl. apply delete_insert_eq.
  - destruct (InstanceTracker_dispose_added o r s s1 Hi Hr Hc Hname)
      as (_ & _ & Hl2 & _).
    set (s2 := InstanceTracker.dispose_object o s1) in *.
    destruct res as [[]|e]; cbn [fst InstanceTracker.add_resume].
    + destruct (InstanceTracker_add_finish_spec o s2) as (_ & ->).
      rewrite Hl2, !database_after_app.
      rewrite (Hsig [Added o]) by (by repeat constructor).
      rewrite (Hsig (match InstanceTracker._current s2 with
                     | None => [CurrentChanged (Some o)] | Some _ => [] end))
        by (destruct (InstanceTracker._current s2); by repeat constructor).
      rewrite (Hsig (if decide _ then _ else _))
        by (case_decide; by repeat constructor).
      simpl. rewrite database_after_app. simpl. apply delete_insert_eq.
    + rewrite Hl2, !database_after_app.
      rewrite (Hsig (if decide _ then _ else _))
        by (case_decide; by repeat constructor).
      simpl. rewrite database_after_app. simpl. apply delete_insert_eq.
  - by destruct (WidgetTracker_add_writing focused o r t db Hdw Hhw Hiw Hrw Hn)
      as (-> & _).
  - destruct (WidgetTracker_add_writing focused o r t db Hdw Hhw Hiw Hrw Hn)
      as (Hdb & Hiw1 & Hrw1 & Hcw1 & Hnw1).
    rewrite (WidgetTracker_dispose_written previous o r _ db Hiw1 Hrw1 Hcw1)
      by (rewrite Hnw1; apply key_not_empty).
    rewrite Hnw1, Hdb. apply delete_insert_eq.
Qed.

Lemma a_disposed_object_leaves_no_record_witness :
  database_after
    (InstanceTracker.log
       (InstanceTracker.dispose_object 1
          (InstanceTracker.complete InstanceTracker.storing
             (InstanceTracker.add 1
                (InstanceTracker.with_restore demo_options demo_instances))).1))
    ∅
  = delete "nb:doc1" ∅
  ∧ database_after
      (WidgetTracker.log
         (WidgetTracker.dispose_widget None 1
            (WidgetTracker.add false 1
               (WidgetTracker.with_restore demo_options demo_widgets)).1))
      ∅
    = delete "nb:doc1" ∅.
Proof.
  assert (1 ∉ (∅ : gset obj)) as Hd by apply not_elem_of_empty.
  assert (name demo_options 1 ≠ "") as Hn by done.
  destruct (a_disposed_object_leaves_no_record demo_options 1
              (InstanceTracker.with_restore demo_options demo_instances)
              false None
              (WidgetTracker.with_restore demo_options demo_widgets)
              (Resolved ()) ∅
              Hd eq_refl eq_refl eq_refl Hd eq_refl eq_refl eq_refl Hn)
    as (_ & H1 & _ & _ & H2).
  split; [exact H1 | exact H2].
Defined.

(** ** What is never released *)

Lemma elem_of_removeFirstOf_ne (l : list obj) (w x : obj) :
  x ≠ w → x ∈ l → x ∈ removeFirstOf l w.
Proof.
  intros Hne. induction l as [|y l IH]; [done|].
  intros [-> | Hx]%elem_of_cons; simpl.
  - rewrite decide_False by done. by left.
  - case_decide; [done|]. right. by apply IH.
Qed.

Section hearing_kept.

Variable hears : FocusTracker.t → WidgetTracker.state → WidgetTracker.state.
Hypothesis hears_shape : ∀ ft (t : WidgetTracker.state),
  WidgetTracker._tracker (hears ft t) = ft
  ∧ WidgetTracker._widgets (hears ft t) = WidgetTracker._widgets t
  ∧ WidgetTracker.isDisposed (hears ft t) = WidgetTracker.isDisposed t
  ∧ WidgetTracker.injectedProperty (hears ft t) = WidgetTracker.injectedProperty t
  ∧ WidgetTracker.connected (hears ft t) = WidgetTracker.connected t.

Lemma kept_widget_add_with w focused o t :
  kept_widget w t →
  kept_widget w (WidgetTrackerMore.add_with hears focused o t).1.
Proof using hears_shape.
  intros (Hw & Hk).
  destruct (decide (o ∈ WidgetTracker.isDisposed t)) as [Hd|Hd];
    [unfold WidgetTrackerMore.add_with; by rewrite decide_True|].
  destruct (WidgetTracker.has o t) eqn:Hh;
    [unfold WidgetTrackerMore.add_with; unfold WidgetTracker.has in Hh;
     by rewrite decide_False, Hh|].
  destruct (WidgetTracker_add_with_shape hears hears_shape focused o t Hd Hh)
    as (_ & Hws & Hdis & Hinj & Hc).
  unfold kept_widget. rewrite Hws, Hdis, Hinj, Hc.
  split; [apply elem_of_app; by left|].
  destruct Hk as [Hi | [Hdw Hcw]]; [by left|right]. split; [done|].
  destruct (WidgetTracker.injected o t); [done|].
  intros [->%elem_of_singleton | Hin]%elem_of_union; done.
Qed.

Lemma kept_widget_dispose_with w previous o t :
  kept_widget w t →
  kept_widget w (WidgetTrackerMore.dispose_widget_with hears previous o t).
Proof using hears_shape.
  intros (Hw & Hk).
  destruct (WidgetTracker_dispose_with_shape hears hears_shape previous o t)
    as (_ & Hws & Hdis & Hinj & Hc).
  unfold kept_widget. rewrite Hws, Hdis, Hinj, Hc. split.
  - case_decide as Hcon; [|done].
    unfold WidgetTracker.injected. case_bool_decide as Ho; [done|].
    apply elem_of_removeFirstOf_ne; [|done]. intros ->.
    destruct Hk as [Hi | [_ Hcw]]; done.
  - destruct (decide (w = o)) as [->|Hne].
    + right. split; [apply elem_of_union; left; by apply elem_of_singleton|].
      intros [_ Hn]%elem_of_difference. apply Hn. by apply elem_of_singleton.
    + destruct Hk as [Hi | [Hdw Hcw]].
      * left. apply elem_of_difference. split; [done|].
        by intros ?%elem_of_singleton.
      * right. split; [apply elem_of_union; by right|].
        by intros [? _]%elem_of_difference.
Qed.

(** The fallback of [_onWidgetDisposed] when no widget has the focus. *)
Lemma fallback_to_last_widget w c previous t :
  hears (FocusTracker.remove previous c (WidgetTracker._tracker t))
    (WidgetTracker.with_disposed c t)
  = WidgetTracker.with_tracker
      (FocusTracker.remove previous c (WidgetTracker._tracker t))
      (WidgetTracker.with_disposed c t) →
  FocusTracker.currentWidget (WidgetTracker._tracker t) = None →
  c ∈ WidgetTracker.connected t →
  WidgetTracker.injected c t = false →
  WidgetTracker._currentWidget t = Some c →
  last (removeFirstOf (WidgetTracker._widgets t) c) = Some w →
  WidgetTracker._currentWidget
    (WidgetTrackerMore.dispose_widget_with hears previous c t)
  = Some w.
Proof using Type.
  intros Hdeaf Hfocus Hc Hic Hcur Hlast.
  assert (FocusTracker.currentWidget
            (FocusTracker.remove previous c (WidgetTracker._tracker t)) = None)
    as Hnone.
  { unfold FocusTracker.remove. destruct (FocusTracker.has c _); [|done].
    simpl. rewrite Hfocus. by rewrite decide_False. }
  unfold WidgetTrackerMore.dispose_widget_with, WidgetTracker.clear_attached.
  cbn zeta. cbn [WidgetTracker._currentWidget].
  change (WidgetTracker._tracker (WidgetTracker.with_disposed c t))
    with (WidgetTracker._tracker t).
  rewrite Hdeaf.
  set (ft := FocusTracker.remove previous c (WidgetTracker._tracker t)) in *.
  change (WidgetTracker.connected (WidgetTracker.with_tracker ft _))
    with (WidgetTracker.connected t).
  rewrite decide_True by done.
  unfold WidgetTracker._onWidgetDisposed, WidgetTracker.injected in *.
  change (WidgetTracker.injectedProperty (WidgetTracker.with_tracker ft _))
    with (WidgetTracker.injectedProperty t).
  rewrite Hic. cbn zeta.
  change (WidgetTracker._currentWidget (WidgetTracker.with_widgets _ _))
    with (WidgetTracker._currentWidget t).
  rewrite decide_True by done. simpl. rewrite Hnone. simpl. rewrite Hlast.
  simpl. branches; done.
Qed.

End hearing_kept.

Lemma kept_widget_frame w t t' :
  kept_widget w t →
  WidgetTracker._widgets t' = WidgetTracker._widgets t →
  WidgetTracker.isDisposed t' = WidgetTracker.isDisposed t →
  WidgetTracker.injectedProperty t ⊆ WidgetTracker.injectedProperty t' →
  WidgetTracker.connected t' = WidgetTracker.connected t →
  kept_widget w t'.
Proof.
  unfold kept_widget. intros (Hw & Hk) -> -> Hinj ->. split; [done|].
  destruct Hk as [Hi|Hk]; [left; by apply Hinj | by right].
Qed.

Lemma kept_widget_exec w a sys sys' :
  kept_widget w (WidgetTracker.tracker sys) →
  WidgetTracker.exec a sys = Some sys' →
  kept_widget w (WidgetTracker.tracker sys').
Proof.
  apply (WidgetTracker_exec_preserves (kept_widget w)).
  - intros focused o t.
    apply (kept_widget_add_with WidgetTracker.tracker_becomes
             WidgetTracker_tracker_becomes_shape).
  - intros o t Hk. apply (kept_widget_frame w t); try done.
    simpl. apply union_subseteq_r.
  - intros o t Hk.
    destruct (WidgetTracker_save_shape o t) as (_ & Hw & Hd & Hi & Hc).
    apply (kept_widget_frame w t); try done. by rewrite Hi.
  - intros options t Hk.
    destruct (WidgetTracker_restore_shape options t) as (_ & Hw & Hd & Hi & Hc).
    apply (kept_widget_frame w t); try done. by rewrite Hi.
  - intros v t Hk. unfold WidgetTracker.focus_changed.
    destruct (WidgetTracker_tracker_becomes_shape
                (FocusTracker.focus v (WidgetTracker._tracker t)) t)
      as (_ & Hw & Hd & Hi & Hc).
    apply (kept_widget_frame w t); try done. by rewrite Hi.
  - intros previous o t.
    apply (kept_widget_dispose_with WidgetTracker.tracker_becomes
             WidgetTracker_tracker_becomes_shape).
  - intros k inp t p Hk Hres.
    destruct (WidgetTracker_resume_shape k inp t p Hres) as (_ & Hw & Hd & Hi & Hc).
    apply (kept_widget_frame w t); try done. by rewrite Hi.
Qed.

Lemma kept_widget_exec_disposed w a sys sys' :
  kept_widget w (WidgetTracker.tracker sys) →
  WidgetTrackerMore.exec_disposed a sys = Some sys' →
  kept_widget w (WidgetTracker.tracker sys').
Proof.
  apply (WidgetTrackerMore_exec_disposed_preserves (kept_widget w)).
  - intros focused o t.
    apply (kept_widget_add_with WidgetTracker.with_tracker
             WidgetTracker_with_tracker_shape).
  - intros o t Hk. apply (kept_widget_frame w t); try done.
    simpl. apply union_subseteq_r.
  - intros o t Hk.
    destruct (WidgetTracker_save_shape o t) as (_ & Hw & Hd & Hi & Hc).
    apply (kept_widget_frame w t); try done. by rewrite Hi.
  - intros options t Hk.
    destruct (WidgetTracker_restore_shape options t) as (_ & Hw & Hd & Hi & Hc).
    apply (kept_widget_frame w t); try done. by rewrite Hi.
  - intros v t Hk. by apply (kept_widget_frame w t).
  - intros previous o t.
    apply (kept_widget_dispose_with WidgetTracker.with_tracker
             WidgetTracker_with_tracker_shape).
  - intros k inp t p Hk Hres.
    destruct (WidgetTracker_resume_shape k inp t p Hres) as (_ & Hw & Hd & Hi & Hc).
    apply (kept_widget_frame w t); try done. by rewrite Hi.
Qed.

(** X4.  [WidgetTracker.add] pushes a widget onto [_widgets] before it
    tests whether the widget is injected, and [_onWidgetDisposed] leaves
    at once for an injected widget: a widget flagged injected that is in
    [_widgets] stays there whatever happens next, its own disposal and
    the disposal of the tracker included.  Until it is disposed it stays
    flagged; its disposal clears the flag, but the tracker is not
    connected to it then, and no later operation connects it again.
    When the current widget, not disposed before, is then disposed while
    no widget has the focus, the fallback to the last element of [_widgets] makes that
    widget the current one if it is the last left there. *)
Theorem injected_widget_is_never_released
    (w c : obj) (previous : option obj) (acts : list WidgetTrackerMore.action)
    (sys sys' sys'' : WidgetTrackerMore.system) :
  w ∈ WidgetTracker._widgets (WidgetTrackerMore.fields (WidgetTrackerMore.this sys)) →
  WidgetTracker.injected w (WidgetTrackerMore.fields (WidgetTrackerMore.this sys))
    = true →
  WidgetTrackerMore.run acts sys = Some sys' →
  WidgetTrackerMore.exec (WidgetTrackerMore.Act (WidgetTracker.Dispose previous c)) sys'
    = Some sys'' →
  let t' := WidgetTrackerMore.fields (WidgetTrackerMore.this sys') in
  w ∈ WidgetTracker._widgets t'
  ∧ (WidgetTracker.injected w t' = true
     ∨ (w ∈ WidgetTracker.isDisposed t' ∧ w ∉ WidgetTracker.connected t'))
  ∧ (FocusTracker.currentWidget (WidgetTracker._tracker t') = None →
     c ∉ WidgetTracker.isDisposed t' →
     c ∈ WidgetTracker.connected t' →
     WidgetTracker.injected c t' = false →
     WidgetTracker._currentWidget t' = Some c →
     last (removeFirstOf (WidgetTracker._widgets t') c) = Some w →
     WidgetTracker._currentWidget
       (WidgetTrackerMore.fields (WidgetTrackerMore.this sys''))
     = Some w).
Proof.
  intros Hw Hi%bool_decide_eq_true_1 Hrun Hexec t'.
  assert (kept_widget w t') as (Hw' & Hk').
  { refine (WidgetTrackerMore_run_preserves
              (λ sys, kept_widget w
                        (WidgetTrackerMore.fields (WidgetTrackerMore.this sys)))
              _ acts sys sys' (conj Hw (or_introl Hi)) Hrun).
    intros a sys0 sys1 Hk Hstep.
    exact (WidgetTrackerMore_exec_preserves
             (λ _ sys, kept_widget w (WidgetTracker.tracker sys))
             (kept_widget_exec w) (kept_widget_exec_disposed w)
             (λ s ts Hk,
                match Hk with
                | conj Hw Hk =>
                    conj Hw
                      (match Hk with
                       | or_introl Hi => or_introl Hi
                       | or_intror (conj Hd _) =>
                           or_intror (conj Hd (not_elem_of_empty w))
                       end)
                end)
             a sys0 sys1 Hk Hstep). }
  split; [done|]. split.
  { destruct Hk' as [Hi'|Hk']; [left; by apply bool_decide_eq_true_2 | by right]. }
  intros Hfocus Hlive Hc Hic Hcur Hlast.
  destruct sys' as [[t0 d] ts]. simpl in t'. subst t'.
  destruct d; simpl in Hexec; simplify_eq; simpl.
  - rewrite decide_False by done.
    apply (fallback_to_last_widget WidgetTracker.with_tracker); done.
  - unfold WidgetTracker.Widget_dispose. rewrite decide_False by done.
    apply (fallback_to_last_widget WidgetTracker.tracker_becomes); try done.
    unfold WidgetTracker.tracker_becomes. cbn zeta.
    change (WidgetTracker._tracker (WidgetTracker.with_disposed c t0))
      with (WidgetTracker._tracker t0).
    assert (FocusTracker.currentWidget
              (FocusTracker.remove previous c (WidgetTracker._tracker t0)) = None)
      as Hnone.
    { unfold FocusTracker.remove. destruct (FocusTracker.has c _); [|done].
      simpl. rewrite Hfocus. by rewrite decide_False. }
    rewrite Hnone, Hfocus. by rewrite decide_True.
Qed.

Lemma injected_widget_is_never_released_witness :
  2 ∈ WidgetTracker._widgets (WidgetTracker.tracker demo_stale_widgets)
  ∧ WidgetTracker.injected 2 (WidgetTracker.tracker demo_stale_widgets) = false
  ∧ WidgetTracker._currentWidget
      (WidgetTracker.dispose_widget None 1 (WidgetTracker.tracker demo_stale_widgets))
    = Some 2.
Proof.
  assert (2 ∈ WidgetTracker._widgets (WidgetTracker.tracker demo_injected_widgets))
    as Hw by (vm_compute; apply list_elem_of_further, list_elem_of_here).
  assert (WidgetTrackerMore.run
            [WidgetTrackerMore.Act (WidgetTracker.Dispose None 2)]
            (WidgetTrackerMore.outer false demo_injected_widgets)
          = Some (WidgetTrackerMore.outer false demo_stale_widgets))
    as Hrun by (vm_compute; reflexivity).
  assert (WidgetTrackerMore.exec
            (WidgetTrackerMore.Act (WidgetTracker.Dispose None 1))
            (WidgetTrackerMore.outer false demo_stale_widgets)
          = Some (WidgetTrackerMore.outer false
                    {| WidgetTracker.tracker :=
                         WidgetTracker.dispose_widget None 1
                           (WidgetTracker.tracker demo_stale_widgets);
                       WidgetTracker.tasks := [] |}))
    as Hexec by (vm_compute; reflexivity).
  assert (WidgetTracker.injected 2
            (WidgetTracker.tracker demo_injected_widgets) = true)
    as Hi by (vm_compute; reflexivity).
  destruct (injected_widget_is_never_released 2 1 None
              [WidgetTrackerMore.Act (WidgetTracker.Dispose None 2)]
              (WidgetTrackerMore.outer false demo_injected_widgets)
              (WidgetTrackerMore.outer false demo_stale_widgets)
              _ Hw Hi Hrun Hexec) as (H1 & _ & H2).
  split; [exact H1|]. split; [vm_compute; reflexivity|].
  apply H2; try (vm_compute; reflexivity).
  intros Hd. vm_compute in Hd. discriminate Hd.
Defined.

(** ** The disposal of the tracker *)

(** X13.  [InstanceTracker.dispose] is silent and final.  It sets the
    flag, and a second call does nothing.  It emits no signal, not even
    [currentChanged] when it clears a current instance, and makes no call
    to the state database.  A tracker disposed for the first time is left
    with no instance and no current instance; and as it has disconnected
    itself from the objects, the later disposal of an object it tracked
    changes nothing and asks for no removal: the records of the objects
    tracked at that moment stay in the database.  [add] does not test the
    flag: a live object is tracked after [add] on a disposed tracker too. *)
Theorem tracker_disposal_is_silent_and_final
    (t : InstanceTrackerMore.tracker) (o : obj) :
  let t' := InstanceTrackerMore.dispose t in
  InstanceTrackerMore.isDisposed t' = true
  ∧ InstanceTrackerMore.dispose t' = t'
  ∧ InstanceTracker.log (InstanceTrackerMore.fields t')
    = InstanceTracker.log (InstanceTrackerMore.fields t)
  ∧ (InstanceTrackerMore.isDisposed t = false →
     InstanceTracker.size (InstanceTrackerMore.fields t') = 0
     ∧ InstanceTracker._current (InstanceTrackerMore.fields t') = None
     ∧ InstanceTracker.has o (InstanceTrackerMore.fields t') = false
     ∧ InstanceTracker.log
         (InstanceTracker.dispose_object o (InstanceTrackerMore.fields t'))
       = InstanceTracker.log (InstanceTrackerMore.fields t)
     ∧ InstanceTracker.dispose_object o (InstanceTrackerMore.fields t')
       = InstanceTracker.with_disposed o (InstanceTrackerMore.fields t'))
  ∧ (o ∉ InstanceTracker.isDisposed (InstanceTrackerMore.fields t') →
     InstanceTracker.has o
       (InstanceTracker.add o (InstanceTrackerMore.fields t')).1 = true).
Proof.
  unfold InstanceTrackerMore.dispose, InstanceTrackerMore.isDisposed. cbn zeta.
  destruct (InstanceTrackerMore._isDisposed t) eqn:Hflag.
  - rewrite Hflag. repeat split; try done. intros Hd.
    destruct (InstanceTracker.has o (InstanceTrackerMore.fields t)) eqn:Hh.
    + apply bool_decide_eq_true_1 in Hh.
      rewrite (InstanceTracker_add_again o _ Hd Hh).
      by apply bool_decide_eq_true_2.
    + destruct (InstanceTracker_add_fresh o _ Hd Hh) as (Hi & _).
      apply bool_decide_eq_true_2. rewrite Hi. apply elem_of_app. right.
      by apply list_elem_of_singleton.
  - simpl. split; [done|]. split; [done|]. split; [done|]. split.
    + intros _. unfold InstanceTracker.dispose_object. simpl.
      rewrite decide_False by apply not_elem_of_empty. done.
    + intros Hd.
      set (s' := InstanceTracker.mkState _ _ _ _ _ _ _ _ _ _) in *.
      destruct (InstanceTracker_add_fresh o s' Hd eq_refl) as (Hi & _).
      apply bool_decide_eq_true_2. rewrite Hi. apply elem_of_app. right.
      by apply list_elem_of_singleton.
Qed.

(** ** The size of a tracker *)

Lemma length_filter_other (o : obj) (l : list obj) :
  NoDup l →
  length (filter (λ y, y ≠ o) l) + (if bool_decide (o ∈ l) then 1 else 0)
  = length l.
Proof.
  induction l as [|x l IH]; [done|].
  intros [Hx Hnd]%NoDup_cons. rewrite filter_cons.
  destruct (decide (x = o)) as [->|Hne].
  - rewrite decide_False by (by intros ?).
    rewrite filter_absent by done.
    rewrite bool_decide_eq_true_2 by (by left). simpl. lia.
  - rewrite decide_True by done. simpl. specialize (IH Hnd).
    destruct (bool_decide (o ∈ l)) eqn:Hin.
    + rewrite bool_decide_eq_true_2; [lia|].
      apply bool_decide_eq_true_1 in Hin. by right.
    + rewrite bool_decide_eq_false_2; [lia|].
      apply bool_decide_eq_false_1 in Hin.
      intros [?|?]%elem_of_cons; [by subst|done].
Qed.

Lemma InstanceTracker_dispose_instances o s :
  InstanceTracker._instances (InstanceTracker.dispose_object o s)
  = (if decide (o ∈ InstanceTracker.connected s)
     then filter (λ y, y ≠ o) (InstanceTracker._instances s)
     else InstanceTracker._instances s).
Proof.
  unfold InstanceTracker.dispose_object, InstanceTracker._onInstanceDisposed.
  branches; done.
Qed.

(** X14.  [size] is the number of objects tracked, each counted once.  In
    any state a tracker reaches, the disposal of an object lowers [size]
    by one exactly when the object is tracked and, on [InstanceTracker],
    the tracker is connected to its [disposed] signal; any other disposal
    leaves [size] as it is. *)
Theorem size_follows_disposal
    (o : obj) (previous : option obj)
    (sys : InstanceTracker.system) (sysw : WidgetTracker.system) :
  reachable_instances sys →
  reachable_widgets sysw →
  let s := InstanceTracker.tracker sys in
  let t := WidgetTracker.tracker sysw in
  InstanceTracker.size (InstanceTracker.dispose_object o s)
    + (if InstanceTracker.has o s && bool_decide (o ∈ InstanceTracker.connected s)
       then 1 else 0)
  = InstanceTracker.size s
  ∧ WidgetTracker.size (WidgetTracker.dispose_widget previous o t)
    + (if WidgetTracker.has o t then 1 else 0)
  = WidgetTracker.size t.
Proof.
  intros (ns & inj & names & disp & acts & Hrun)
         (nsw & injw & namesw & dispw & actsw & Hrunw) s t.
  assert (well_formed_instances s) as (I1 & _).
  { refine (InstanceTracker_run_preserves
              (λ sys, well_formed_instances (InstanceTracker.tracker sys))
              well_formed_instances_exec acts _ _ _ Hrun).
    unfold well_formed_instances. simpl. split; [apply NoDup_nil_2|].
    split; by intros ? ?%elem_of_nil. }
  assert (well_formed_widgets t) as (W1 & _).
  { refine (WidgetTracker_run_preserves
              (λ sys, well_formed_widgets (WidgetTracker.tracker sys))
              well_formed_widgets_exec actsw _ _ _ Hrunw).
    apply well_formed_widgets_start. }
  split.
  - unfold InstanceTracker.size, InstanceTracker.has.
    rewrite InstanceTracker_dispose_instances.
    pose proof (length_filter_other o _ I1) as Hlen.
    destruct (decide (o ∈ InstanceTracker.connected s)) as [Hc|Hc].
    + rewrite (bool_decide_eq_true_2 (o ∈ InstanceTracker.connected s)) by done.
      rewrite andb_true_r. exact Hlen.
    + rewrite (bool_decide_eq_false_2 (o ∈ InstanceTracker.connected s)) by done.
      rewrite andb_false_r. lia.
  - unfold WidgetTracker.size, WidgetTracker.has, FocusTracker.has.
    destruct (WidgetTracker_dispose_shape previous o t) as (-> & _).
    apply (length_filter_other o _ W1).
Qed.

Lemma size_follows_disposal_witness :
  InstanceTracker.size
    (InstanceTracker.dispose_object 2 (InstanceTracker.tracker demo_busy_instances))
  + 0
  = InstanceTracker.size (InstanceTracker.tracker demo_busy_instances)
  ∧ WidgetTracker.size
      (WidgetTracker.dispose_widget None 1 (WidgetTracker.tracker demo_injected_widgets))
    + 1
    = WidgetTracker.size (WidgetTracker.tracker demo_injected_widgets).
Proof.
  assert (reachable_instances demo_busy_instances) as Hr.
  { exists "nb", ∅, ∅, ∅, demo_actions. vm_compute. reflexivity. }
  assert (reachable_widgets demo_injected_widgets) as Hrw.
  { exists "nb", ∅, ∅, ∅,
      [WidgetTracker.Call_add false 1; WidgetTracker.Call_inject false 2].
    vm_compute. reflexivity. }
  split.
  - exact (proj1 (size_follows_disposal 2 None demo_busy_instances
                    demo_injected_widgets Hr Hrw)).
  - exact (proj2 (size_follows_disposal 1 None demo_busy_instances
                    demo_injected_widgets Hr Hrw)).
Defined.

(** ** A restoration that fails *)

Lemma failed_instances_spawn sys p :
  failed_instances sys →
  quiet_instances (InstanceTracker.tracker sys) p →
  failed_instances (InstanceTracker.spawn (InstanceTracker.tasks sys) p).
Proof.
  unfold failed_instances, quiet_instances.
  destruct p as [s' [r|k]]; simpl; intros (Hh & Hts & Hres) (-> & -> & Hk);
    [done|].
  rewrite restoring_instances_app. repeat split; try done. lia.
Qed.

Lemma failed_instances_exec a sys sys' :
  failed_instances sys →
  InstanceTracker.exec a sys = Some sys' →
  failed_instances sys'.
Proof.
  intros Hinv Hexec. destruct a as [o|o|o|options|v|o|i inp]; simpl in Hexec.
  - simplify_eq. apply failed_instances_spawn, InstanceTracker_add_quiet; done.
  - simplify_eq. apply failed_instances_spawn, InstanceTracker_inject_quiet; done.
  - simplify_eq. apply failed_instances_spawn, InstanceTracker_save_quiet; done.
  - simplify_eq. destruct Hinv as (Hh & Hts & Hres).
    unfold InstanceTracker.restore. rewrite Hh. by destruct sys.
  - simplify_eq.
    apply (failed_instances_spawn sys (_, Return (Resolved Void)) Hinv).
    apply InstanceTracker_set_current_quiet.
  - simplify_eq.
    apply (failed_instances_spawn sys (_, Return (Resolved Void)) Hinv).
    apply InstanceTracker_dispose_quiet.
  - destruct (InstanceTracker.tasks sys !! i) as [k|] eqn:Hk; [|done].
    destruct (InstanceTracker.resume k inp (InstanceTracker.tracker sys))
      as [p|] eqn:Hres; [|done].
    simpl in Hexec. simplify_eq.
    pose proof (restoring_instances_delete _ _ _ Hk) as Hdel.
    destruct Hinv as (Hh & Hts & Hr).
    assert (restoring_instances [k] = 0) as Hq by lia.
    pose proof (InstanceTracker_resume_quiet k inp _ p Hq Hres) as Hquiet.
    set (ts' := delete i (InstanceTracker.tasks sys)) in *. clearbody ts'.
    apply (failed_instances_spawn
             {| InstanceTracker.tracker := InstanceTracker.tracker sys;
                InstanceTracker.tasks := ts' |});
      [|done].
    unfold failed_instances.
    cbn [InstanceTracker.tracker InstanceTracker.tasks].
    repeat split; try done. lia.
Qed.

Lemma failed_widgets_spawn sys p :
  failed_widgets sys →
  quiet_widgets (WidgetTracker.tracker sys) p →
  failed_widgets (WidgetTracker.spawn (WidgetTracker.tasks sys) p).
Proof.
  unfold failed_widgets, quiet_widgets.
  destruct p as [s' [r|k]]; simpl; intros (Hh & Hts & Hres) (-> & -> & Hk);
    [done|].
  rewrite restoring_widgets_app. repeat split; try done. lia.
Qed.

Lemma failed_widgets_exec a sys sys' :
  failed_widgets sys →
  WidgetTracker.exec a sys = Some sys' →
  failed_widgets sys'.
Proof.
  intros Hinv Hexec.
  destruct a as [focused w|focused w|w|options|v|previous w|i inp];
    simpl in Hexec.
  - simplify_eq. apply failed_widgets_spawn, WidgetTracker_add_quiet; done.
  - simplify_eq.
    apply (failed_widgets_spawn sys (_, Return (Resolved Void)) Hinv).
    apply WidgetTracker_inject_quiet.
  - simplify_eq. apply failed_widgets_spawn, WidgetTracker_save_quiet; done.
  - simplify_eq. destruct Hinv as (Hh & Hts & Hres).
    unfold WidgetTracker.restore. rewrite Hh. by destruct sys.
  - simplify_eq.
    apply (failed_widgets_spawn sys (_, Return (Resolved Void)) Hinv).
    apply WidgetTracker_focus_quiet.
  - simplify_eq.
    apply (failed_widgets_spawn sys (_, Return (Resolved Void)) Hinv).
    apply WidgetTracker_dispose_quiet.
  - destruct (WidgetTracker.tasks sys !! i) as [k|] eqn:Hk; [|done].
    destruct (WidgetTracker.resume k inp (WidgetTracker.tracker sys))
      as [p|] eqn:Hres; [|done].
    simpl in Hexec. simplify_eq.
    pose proof (restoring_widgets_delete _ _ _ Hk) as Hdel.
    destruct Hinv as (Hh & Hts & Hr).
    assert (restoring_widgets [k] = 0) as Hq by lia.
    pose proof (WidgetTracker_resume_quiet k inp _ p Hq Hres) as Hquiet.
    set (ts' := delete i (WidgetTracker.tasks sys)) in *. clearbody ts'.
    apply (failed_widgets_spawn
             {| WidgetTracker.tracker := WidgetTracker.tracker sys;
                WidgetTracker.tasks := ts' |});
      [|done].
    unfold failed_widgets.
    cbn [WidgetTracker.tracker WidgetTracker.tasks].
    repeat split; try done. lia.
Qed.

(** X15.  A restoration that fails is final.  When the listing is
    rejected, [restore] rejects with the same error, the tracker stays
    marked as restored and [restored] is not resolved.  From a state in
    which the tracker is marked as restored, no call of [restore] is under
    way and [restored] was not resolved, nothing resolves it any more:
    whatever is done next, a new call of [restore] included, the tracker
    stays in such a state. *)
Theorem a_failed_restoration_is_final
    (options : IRestoreOptions) (e : error)
    (acts : list InstanceTracker.action) (sys sys' : InstanceTracker.system)
    (actsw : list WidgetTracker.action) (sysw sysw' : WidgetTracker.system) :
  failed_instances sys →
  InstanceTracker.run acts sys = Some sys' →
  failed_widgets sysw →
  WidgetTracker.run actsw sysw = Some sysw' →
  failed_instances sys'
  ∧ InstanceTracker.restore options (InstanceTracker.tracker sys')
    = (InstanceTracker.tracker sys', Return (Rejected AlreadyRestored))
  ∧ failed_widgets sysw'
  ∧ WidgetTracker.restore options (WidgetTracker.tracker sysw')
    = (WidgetTracker.tracker sysw', Return (Rejected AlreadyRestored))
  ∧ (∀ s, InstanceTracker._hasRestored s = false →
          resolutions (InstanceTracker.log s) = 0 →
          let p := InstanceTracker.continue (λ _, Listed (Rejected e))
                     (InstanceTracker.restore options s) in
          p.2 = Return (Rejected e)
          ∧ failed_instances (InstanceTracker.start p.1))
  ∧ (∀ t, WidgetTracker._hasRestored t = false →
          resolutions (WidgetTracker.log t) = 0 →
          let p := WidgetTracker.continue (λ _, Listed (Rejected e))
                     (WidgetTracker.restore options t) in
          p.2 = Return (Rejected e)
          ∧ failed_widgets (WidgetTracker.start p.1)).
Proof.
  intros Hf Hrun Hfw Hrunw.
  pose proof (InstanceTracker_run_preserves failed_instances
                failed_instances_exec acts sys sys' Hf Hrun) as Hf'.
  pose proof (WidgetTracker_run_preserves failed_widgets
                failed_widgets_exec actsw sysw sysw' Hfw Hrunw) as Hfw'.
  split; [done|]. split.
  { destruct Hf' as (Hh & _). unfold InstanceTracker.restore. by rewrite Hh. }
  split; [done|]. split.
  { destruct Hfw' as (Hh & _). unfold WidgetTracker.restore. by rewrite Hh. }
  split.
  - intros s Hh Hres. unfold InstanceTracker.restore. rewrite Hh. simpl.
    split; [done|]. unfold failed_instances. simpl.
    split; [done|]. split; [done|].
    rewrite resolutions_app, Hres. done.
  - intros t Hh Hres. unfold WidgetTracker.restore. rewrite Hh. simpl.
    split; [done|]. unfold failed_widgets. simpl.
    split; [done|]. split; [done|].
    rewrite resolutions_app, Hres. done.
Qed.

Lemma a_failed_restoration_is_final_witness :
  failed_instances demo_failed_instances
  ∧ failed_widgets demo_failed_widgets.
Proof.
  assert (failed_instances demo_failed_instances) as Hf
    by (vm_compute; repeat split; reflexivity).
  assert (failed_widgets demo_failed_widgets) as Hfw
    by (vm_compute; repeat split; reflexivity).
  destruct (a_failed_restoration_is_final demo_options External
              [] demo_failed_instances demo_failed_instances
              [] demo_failed_widgets demo_failed_widgets
              Hf eq_refl Hfw eq_refl) as (H1 & _ & H2 & _).
  split; [exact H1 | exact H2].
Defined.

(** ** Restoration through the whole life of a tracker *)

Lemma promise_all_all_resolved {A : Type} (ps : list (settled A)) :
  Forall (λ p, ∃ a, p = Resolved a) ps → ∃ l, promise_all ps = Resolved l.
Proof.
  induction 1 as [|p ps [a ->] _ [l IH]]; [by exists []|].
  exists (a :: l). simpl. by rewrite IH.
Qed.

Lemma promise_all_one_rejected {A : Type} (ps : list (settled A)) e :
  Rejected e ∈ ps → ∃ e', promise_all ps = Rejected e'.
Proof.
  induction ps as [|[a|e0] ps IH]; [by intros ?%elem_of_nil| |by exists e0].
  intros [?|Hin]%elem_of_cons; [done|]. destruct (IH Hin) as [e' He'].
  exists e'. simpl. by rewrite He'.
Qed.

(** What is said of restoration reads the flag [_hasRestored], the log and
    the suspended calls only; neither the tracker's [dispose()] nor what a
    widget clears when it is disposed touches them. *)
Lemma InstanceTrackerMore_exec_restoration (Q : InstanceTracker.system → Prop) :
  (∀ a sys sys', Q sys → InstanceTracker.exec a sys = Some sys' → Q sys') →
  (∀ s s' ts,
     InstanceTracker._hasRestored s' = InstanceTracker._hasRestored s →
     InstanceTracker.log s' = InstanceTracker.log s →
     Q {| InstanceTracker.tracker := s; InstanceTracker.tasks := ts |} →
     Q {| InstanceTracker.tracker := s'; InstanceTracker.tasks := ts |}) →
  ∀ a sys sys',
    Q (InstanceTrackerMore.inner sys) →
    InstanceTrackerMore.exec a sys = Some sys' →
    Q (InstanceTrackerMore.inner sys').
Proof.
  intros Hbase Hframe.
  apply (InstanceTrackerMore_exec_preserves (λ _, Q)).
  - intros _. apply Hbase.
  - intros s ts. by apply Hframe.
  - intros _ o s ts HQ _.
    apply (Hframe (InstanceTracker.dispose_object o s)); [done|done|].
    exact (Hbase (InstanceTracker.Dispose o)
             {| InstanceTracker.tracker := s; InstanceTracker.tasks := ts |}
             _ HQ eq_refl).
Qed.

Lemma single_shot_instances_lifetime sys :
  lifetime_instances sys → single_shot_instances (InstanceTrackerMore.inner sys).
Proof.
  intros (ns & inj & names & disp & acts & Hrun).
  refine (InstanceTrackerMore_run_preserves
            (λ sys, single_shot_instances (InstanceTrackerMore.inner sys))
            (InstanceTrackerMore_exec_restoration single_shot_instances
               InstanceTracker_exec_single_shot _)
            acts _ _ _ Hrun).
  - unfold single_shot_instances. simpl. by intros s s' ts -> ->.
  - unfold single_shot_instances, resolutions, count_events, restoring_instances.
    simpl. lia.
Qed.

Lemma failed_instances_lifetime acts sys sys' :
  failed_instances (InstanceTrackerMore.inner sys) →
  InstanceTrackerMore.run acts sys = Some sys' →
  failed_instances (InstanceTrackerMore.inner sys').
Proof.
  apply (InstanceTrackerMore_run_preserves
           (λ sys, failed_instances (InstanceTrackerMore.inner sys))).
  apply (InstanceTrackerMore_exec_restoration failed_instances
           failed_instances_exec).
  unfold failed_instances. simpl. by intros s s' ts -> ->.
Qed.

Lemma InstanceTrackerMore_run_appends acts sys sys' :
  InstanceTrackerMore.run acts sys = Some sys' →
  InstanceTracker.log (InstanceTrackerMore.fields (InstanceTrackerMore.this sys))
    `prefix_of`
  InstanceTracker.log (InstanceTrackerMore.fields (InstanceTrackerMore.this sys')).
Proof.
  set (l0 := InstanceTracker.log
               (InstanceTrackerMore.fields (InstanceTrackerMore.this sys))).
  intros Hrun.
  refine (InstanceTrackerMore_run_preserves
            (λ sys, l0 `prefix_of`
                    InstanceTracker.log (InstanceTracker.tracker
                                           (InstanceTrackerMore.inner sys)))
            (InstanceTrackerMore_exec_restoration
               (λ sys, l0 `prefix_of`
                       InstanceTracker.log (InstanceTracker.tracker sys)) _ _)
            acts sys sys' _ Hrun); [| |done].
  - intros a sys0 sys1 Hpre Hexec. etrans; [exact Hpre|].
    by eapply InstanceTracker_exec_appends.
  - simpl. by intros s s' ts _ ->.
Qed.

Lemma InstanceTrackerMore_run_app acts1 acts2 sys sys1 :
  InstanceTrackerMore.run acts1 sys = Some sys1 →
  InstanceTrackerMore.run (acts1 ++ acts2) sys = InstanceTrackerMore.run acts2 sys1.
Proof.
  revert sys. induction acts1 as [|a acts1 IH]; intros sys Hrun; simpl in *.
  - by simplify_eq.
  - destruct (InstanceTrackerMore.exec a sys); [by apply IH | done].
Qed.

Lemma lifetime_instances_run acts sys sys' :
  lifetime_instances sys → InstanceTrackerMore.run acts sys = Some sys' →
  lifetime_instances sys'.
Proof.
  intros (ns & inj & names & disp & acts0 & Hrun0) Hrun.
  exists ns, inj, names, disp, (acts0 ++ acts).
  by rewrite (InstanceTrackerMore_run_app _ _ _ _ Hrun0).
Qed.

(** The same on [WidgetTracker], where a disposed tracker runs the
    methods without hearing its focus tracker. *)
Lemma WidgetTrackerMore_add_deaf_quiet focused w t :
  quiet_widgets t (WidgetTrackerMore.add_with WidgetTracker.with_tracker focused w t).
Proof. unfold quiet_widgets, WidgetTrackerMore.add_with. quiet. Qed.

Lemma WidgetTrackerMore_dispose_deaf_quiet previous w t :
  quiet_widgets t
    (WidgetTrackerMore.dispose_widget_with WidgetTracker.with_tracker previous w t,
     Return (Resolved Void)).
Proof.
  unfold quiet_widgets, WidgetTrackerMore.dispose_widget_with,
    WidgetTracker._onWidgetDisposed. quiet.
Qed.

Lemma WidgetTrackerMore_exec_restoration (Q : WidgetTracker.system → Prop) :
  (∀ a sys sys', Q sys → WidgetTracker.exec a sys = Some sys' → Q sys') →
  (∀ sys p, Q sys → quiet_widgets (WidgetTracker.tracker sys) p →
            Q (WidgetTracker.spawn (WidgetTracker.tasks sys) p)) →
  (∀ s s' ts,
     WidgetTracker._hasRestored s' = WidgetTracker._hasRestored s →
     WidgetTracker.log s' = WidgetTracker.log s →
     Q {| WidgetTracker.tracker := s; WidgetTracker.tasks := ts |} →
     Q {| WidgetTracker.tracker := s'; WidgetTracker.tasks := ts |}) →
  ∀ a sys sys',
    Q (WidgetTrackerMore.inner sys) →
    WidgetTrackerMore.exec a sys = Some sys' →
    Q (WidgetTrackerMore.inner sys').
Proof.
  intros Hbase Hspawn Hframe.
  apply (WidgetTrackerMore_exec_preserves (λ _, Q)).
  - apply Hbase.
  - intros a sys sys' HQ Hexec.
    destruct a as [focused w|focused w|w|options|v|previous w|i inp];
      try exact (Hbase _ sys sys' HQ Hexec); simpl in Hexec; simplify_eq.
    + apply Hspawn; [done|]. apply WidgetTrackerMore_add_deaf_quiet.
    + apply (Hspawn sys (_, Return (Resolved Void)) HQ).
      destruct (WidgetTrackerMore_add_deaf_quiet focused w
                  (WidgetTracker.with_injected w (WidgetTracker.tracker sys)))
        as (H1 & H2 & _).
      unfold quiet_widgets. simpl. done.
    + apply (Hspawn sys (_, Return (Resolved Void)) HQ).
      unfold quiet_widgets. simpl. done.
    + apply (Hspawn sys (_, Return (Resolved Void)) HQ).
      case_decide; [by unfold quiet_widgets|].
      apply WidgetTrackerMore_dispose_deaf_quiet.
  - intros s ts. by apply Hframe.
Qed.

Lemma single_shot_widgets_lifetime sys :
  lifetime_widgets sys → single_shot_widgets (WidgetTrackerMore.inner sys).
Proof.
  intros (ns & inj & names & disp & acts & Hrun).
  refine (WidgetTrackerMore_run_preserves
            (λ sys, single_shot_widgets (WidgetTrackerMore.inner sys))
            (WidgetTrackerMore_exec_restoration single_shot_widgets
               WidgetTracker_exec_single_shot WidgetTracker_spawn_quiet _)
            acts _ _ _ Hrun).
  - unfold single_shot_widgets. simpl. by intros s s' ts -> ->.
  - unfold single_shot_widgets, resolutions, count_events, restoring_widgets.
    simpl. lia.
Qed.

Lemma failed_widgets_lifetime acts sys sys' :
  failed_widgets (WidgetTrackerMore.inner sys) →
  WidgetTrackerMore.run acts sys = Some sys' →
  failed_widgets (WidgetTrackerMore.inner sys').
Proof.
  apply (WidgetTrackerMore_run_preserves
           (λ sys, failed_widgets (WidgetTrackerMore.inner sys))).
  apply (WidgetTrackerMore_exec_restoration failed_widgets
           failed_widgets_exec failed_widgets_spawn).
  unfold failed_widgets. simpl. by intros s s' ts -> ->.
Qed.

Lemma WidgetTrackerMore_exec_disposed_appends a sys sys' :
  WidgetTrackerMore.exec_disposed a sys = Some sys' →
  WidgetTracker.log (WidgetTracker.tracker sys)
    `prefix_of` WidgetTracker.log (WidgetTracker.tracker sys').
Proof.
  intros Hexec.
  destruct a as [focused w|focused w|w|options|v|previous w|i inp];
    try exact (WidgetTracker_exec_appends _ sys sys' Hexec);
    simpl in Hexec; simplify_eq.
  - unfold WidgetTracker.spawn, WidgetTrackerMore.add_with. appends.
  - unfold WidgetTrackerMore.add_with. appends.
  - done.
  - case_decide; [done|]. unfold WidgetTrackerMore.dispose_widget_with,
      WidgetTracker._onWidgetDisposed. appends.
Qed.

Lemma WidgetTrackerMore_run_appends acts sys sys' :
  WidgetTrackerMore.run acts sys = Some sys' →
  WidgetTracker.log (WidgetTrackerMore.fields (WidgetTrackerMore.this sys))
    `prefix_of`
  WidgetTracker.log (WidgetTrackerMore.fields (WidgetTrackerMore.this sys')).
Proof.
  set (l0 := WidgetTracker.log
               (WidgetTrackerMore.fields (WidgetTrackerMore.this sys))).
  intros Hrun.
  refine (WidgetTrackerMore_run_preserves
            (λ sys, l0 `prefix_of`
                    WidgetTracker.log (WidgetTracker.tracker
                                         (WidgetTrackerMore.inner sys)))
            (WidgetTrackerMore_exec_preserves
               (λ _ sys, l0 `prefix_of`
                         WidgetTracker.log (WidgetTracker.tracker sys)) _ _ _)
            acts sys sys' _ Hrun); [| | |done].
  - intros a sys0 sys1 Hpre Hexec. etrans; [exact Hpre|].
    by eapply WidgetTracker_exec_appends.
  - intros a sys0 sys1 Hpre Hexec. etrans; [exact Hpre|].
    by eapply WidgetTrackerMore_exec_disposed_appends.
  - by intros s ts Hpre.
Qed.

Lemma WidgetTrackerMore_run_app acts1 acts2 sys sys1 :
  WidgetTrackerMore.run acts1 sys = Some sys1 →
  WidgetTrackerMore.run (acts1 ++ acts2) sys = WidgetTrackerMore.run acts2 sys1.
Proof.
  revert sys. induction acts1 as [|a acts1 IH]; intros sys Hrun; simpl in *.
  - by simplify_eq.
  - destruct (WidgetTrackerMore.exec a sys); [by apply IH | done].
Qed.

Lemma lifetime_widgets_run acts sys sys' :
  lifetime_widgets sys → WidgetTrackerMore.run acts sys = Some sys' →
  lifetime_widgets sys'.
Proof.
  intros (ns & inj & names & disp & acts0 & Hrun0) Hrun.
  exists ns, inj, names, disp, (acts0 ++ acts).
  by rewrite (WidgetTrackerMore_run_app _ _ _ _ Hrun0).
Qed.

Lemma WidgetTrackerMore_exec_resume i inp sys :
  WidgetTrackerMore.exec (WidgetTrackerMore.Act (WidgetTracker.Resume i inp)) sys
  = WidgetTrackerMore.outer (WidgetTrackerMore.isDisposed (WidgetTrackerMore.this sys))
      <$> WidgetTracker.exec (WidgetTracker.Resume i inp) (WidgetTrackerMore.inner sys).
Proof. simpl. by destruct (WidgetTrackerMore.isDisposed _). Qed.

Lemma WidgetTrackerMore_exec_restore options sys :
  WidgetTrackerMore.exec (WidgetTrackerMore.Act (WidgetTracker.Call_restore options)) sys
  = WidgetTrackerMore.outer (WidgetTrackerMore.isDisposed (WidgetTrackerMore.this sys))
      <$> WidgetTracker.exec (WidgetTracker.Call_restore options)
            (WidgetTrackerMore.inner sys).
Proof. simpl. by destruct (WidgetTrackerMore.isDisposed _). Qed.

(** What the last segments of [restore] do to the count of resolutions. *)
Lemma InstanceTracker_replay_settles i opts sv rm sys :
  single_shot_instances sys →
  InstanceTracker.tasks sys !! i = Some (InstanceTracker.Restore_replay opts sv) →
  ∃ sys',
    InstanceTracker.exec (InstanceTracker.Resume i (Removed rm)) sys = Some sys'
    ∧ InstanceTracker._hasRestored (InstanceTracker.tracker sys') = true
    ∧ restoring_instances (InstanceTracker.tasks sys') = 0
    ∧ resolutions (InstanceTracker.log (InstanceTracker.tracker sys'))
      = match promise_all (replay_promises opts rm sv) with
        | Resolved _ => 1
        | Rejected _ => 0
        end.
Proof.
  unfold single_shot_instances. intros Hinv Hk.
  pose proof (restoring_instances_delete _ _ _ Hk) as Hdel.
  change (restoring_instances [_]) with 1 in Hdel.
  destruct (InstanceTracker._hasRestored (InstanceTracker.tracker sys)) eqn:Hr;
    [|lia].
  assert (resolutions (InstanceTracker.log (InstanceTracker.tracker sys)) = 0)
    as Hzero by lia.
  assert (restoring_instances (delete i (InstanceTracker.tasks sys)) = 0)
    as Hnone by lia.
  unfold InstanceTracker.exec. rewrite Hk. simpl.
  unfold InstanceTracker.restore_resume_replay.
  destruct (promise_all (replay_promises opts rm sv)); simpl;
    eexists; (split; [reflexivity|]); simpl;
    rewrite ?resolutions_app, resolutions_replay_catches, Hzero, Hr, Hnone; done.
Qed.

Lemma InstanceTracker_listing_fails i opts e sys :
  single_shot_instances sys →
  InstanceTracker.tasks sys !! i = Some (InstanceTracker.Restore_list opts) →
  ∃ sys',
    InstanceTracker.exec (InstanceTracker.Resume i (Listed (Rejected e))) sys
    = Some sys'
    ∧ failed_instances sys'.
Proof.
  unfold single_shot_instances, failed_instances. intros Hinv Hk.
  pose proof (restoring_instances_delete _ _ _ Hk) as Hdel.
  change (restoring_instances [_]) with 1 in Hdel.
  destruct (InstanceTracker._hasRestored (InstanceTracker.tracker sys)) eqn:Hr;
    [|lia].
  unfold InstanceTracker.exec. rewrite Hk. simpl.
  eexists. split; [reflexivity|]. simpl. rewrite Hr. repeat split; lia.
Qed.

Lemma WidgetTracker_replay_settles i opts sv rm sys :
  single_shot_widgets sys →
  WidgetTracker.tasks sys !! i = Some (WidgetTracker.Restore_replay opts sv) →
  ∃ sys',
    WidgetTracker.exec (WidgetTracker.Resume i (Removed rm)) sys = Some sys'
    ∧ WidgetTracker._hasRestored (WidgetTracker.tracker sys') = true
    ∧ restoring_widgets (WidgetTracker.tasks sys') = 0
    ∧ resolutions (WidgetTracker.log (WidgetTracker.tracker sys'))
      = match promise_all (replay_promises opts rm sv) with
        | Resolved _ => 1
        | Rejected _ => 0
        end.
Proof.
  unfold single_shot_widgets. intros Hinv Hk.
  pose proof (restoring_widgets_delete _ _ _ Hk) as Hdel.
  change (restoring_widgets [_]) with 1 in Hdel.
  destruct (WidgetTracker._hasRestored (WidgetTracker.tracker sys)) eqn:Hr;
    [|lia].
  assert (resolutions (WidgetTracker.log (WidgetTracker.tracker sys)) = 0)
    as Hzero by lia.
  assert (restoring_widgets (delete i (WidgetTracker.tasks sys)) = 0)
    as Hnone by lia.
  unfold WidgetTracker.exec. rewrite Hk. simpl.
  unfold WidgetTracker.restore_resume_replay.
  destruct (promise_all (replay_promises opts rm sv)); simpl;
    eexists; (split; [reflexivity|]); simpl;
    rewrite ?resolutions_app, resolutions_replay_catches, Hzero, Hr, Hnone; done.
Qed.

Lemma WidgetTracker_listing_fails i opts e sys :
  single_shot_widgets sys →
  WidgetTracker.tasks sys !! i = Some (WidgetTracker.Restore_list opts) →
  ∃ sys',
    WidgetTracker.exec (WidgetTracker.Resume i (Listed (Rejected e))) sys
    = Some sys'
    ∧ failed_widgets sys'.
Proof.
  unfold single_shot_widgets, failed_widgets. intros Hinv Hk.
  pose proof (restoring_widgets_delete _ _ _ Hk) as Hdel.
  change (restoring_widgets [_]) with 1 in Hdel.
  destruct (WidgetTracker._hasRestored (WidgetTracker.tracker sys)) eqn:Hr;
    [|lia].
  unfold WidgetTracker.exec. rewrite Hk. simpl.
  eexists. split; [reflexivity|]. simpl. rewrite Hr. repeat split; lia.
Qed.

(** C3, as the code has it.  Through the whole life of a tracker, its own
    [dispose()] included: the first call of [restore] marks the tracker
    as restored within its first synchronous segment, before the listing
    or anything else it awaits has settled; a call on a tracker already
    marked is rejected and changes neither the state nor the calls under
    way; and [restored] has been resolved once at most, a number that
    never decreases and never exceeds one whatever is done next.  It is
    not resolved exactly once regardless: it is resolved, once, when the
    first restoration reaches its end with every record's promise
    resolved; when the listing is rejected, or the promise of one record,
    it is not resolved then and never will be, since every later call of
    [restore] is refused. *)
Theorem restore_is_single_shot
    (options : IRestoreOptions)
    (sys : InstanceTrackerMore.system) (sysw : WidgetTrackerMore.system) :
  lifetime_instances sys →
  lifetime_widgets sysw →
  let s := InstanceTrackerMore.fields (InstanceTrackerMore.this sys) in
  let t := WidgetTrackerMore.fields (WidgetTrackerMore.this sysw) in
  (if InstanceTracker._hasRestored s
   then InstanceTracker.restore options s
        = (s, Return (Rejected AlreadyRestored))
        ∧ InstanceTrackerMore.exec
            (InstanceTrackerMore.Act (InstanceTracker.Call_restore options)) sys
          = Some sys
   else (InstanceTracker.restore options s).2
        = Await (InstanceTracker.Restore_list options)
        ∧ InstanceTracker._hasRestored (InstanceTracker.restore options s).1 = true
        ∧ resolutions (InstanceTracker.log s) = 0)
  ∧ (if WidgetTracker._hasRestored t
     then WidgetTracker.restore options t
          = (t, Return (Rejected AlreadyRestored))
          ∧ WidgetTrackerMore.exec
              (WidgetTrackerMore.Act (WidgetTracker.Call_restore options)) sysw
            = Some sysw
     else (WidgetTracker.restore options t).2
          = Await (WidgetTracker.Restore_list options)
          ∧ WidgetTracker._hasRestored (WidgetTracker.restore options t).1 = true
          ∧ resolutions (WidgetTracker.log t) = 0)
  ∧ resolutions (InstanceTracker.log s) ≤ 1
  ∧ resolutions (WidgetTracker.log t) ≤ 1
  ∧ (∀ i opts sv rm,
       InstanceTrackerMore.tasks sys !! i
         = Some (InstanceTracker.Restore_replay opts sv) →
       ∃ sys',
         InstanceTrackerMore.exec
           (InstanceTrackerMore.Act (InstanceTracker.Resume i (Removed rm))) sys
         = Some sys'
         ∧ (all_resolved (replay_promises opts rm sv) →
            resolutions
              (InstanceTracker.log
                 (InstanceTrackerMore.fields (InstanceTrackerMore.this sys')))
            = 1)
         ∧ (one_rejected (replay_promises opts rm sv) →
            never_restored_instances sys'))
  ∧ (∀ i opts e,
       InstanceTrackerMore.tasks sys !! i = Some (InstanceTracker.Restore_list opts) →
       ∃ sys',
         InstanceTrackerMore.exec
           (InstanceTrackerMore.Act
              (InstanceTracker.Resume i (Listed (Rejected e)))) sys
         = Some sys'
         ∧ never_restored_instances sys')
  ∧ (∀ i opts sv rm,
       WidgetTrackerMore.tasks sysw !! i
         = Some (WidgetTracker.Restore_replay opts sv) →
       ∃ sys',
         WidgetTrackerMore.exec
           (WidgetTrackerMore.Act (WidgetTracker.Resume i (Removed rm))) sysw
         = Some sys'
         ∧ (all_resolved (replay_promises opts rm sv) →
            resolutions
              (WidgetTracker.log
                 (WidgetTrackerMore.fields (WidgetTrackerMore.this sys')))
            = 1)
         ∧ (one_rejected (replay_promises opts rm sv) →
            never_restored_widgets sys'))
  ∧ (∀ i opts e,
       WidgetTrackerMore.tasks sysw !! i = Some (WidgetTracker.Restore_list opts) →
       ∃ sys',
         WidgetTrackerMore.exec
           (WidgetTrackerMore.Act
              (WidgetTracker.Resume i (Listed (Rejected e)))) sysw
         = Some sys'
         ∧ never_restored_widgets sys')
  ∧ (∀ acts sys',
       InstanceTrackerMore.run acts sys = Some sys' →
       resolutions (InstanceTracker.log s)
       ≤ resolutions
           (InstanceTracker.log
              (InstanceTrackerMore.fields (InstanceTrackerMore.this sys')))
       ≤ 1)
  ∧ (∀ acts sys',
       WidgetTrackerMore.run acts sysw = Some sys' →
       resolutions (WidgetTracker.log t)
       ≤ resolutions
           (WidgetTracker.log
              (WidgetTrackerMore.fields (WidgetTrackerMore.this sys')))
       ≤ 1).
Proof.
  intros Hlife Hlifew s t.
  pose proof (single_shot_instances_lifetime sys Hlife) as Hinv.
  pose proof (single_shot_widgets_lifetime sysw Hlifew) as Hinvw.
  assert (∀ sys0, failed_instances (InstanceTrackerMore.inner sys0) →
                  never_restored_instances sys0) as Hnever.
  { intros sys0 Hf acts sys' Hrun.
    by destruct (failed_instances_lifetime acts sys0 sys' Hf Hrun) as (_ & _ & ?). }
  assert (∀ sys0, failed_widgets (WidgetTrackerMore.inner sys0) →
                  never_restored_widgets sys0) as Hneverw.
  { intros sys0 Hf acts sys' Hrun.
    by destruct (failed_widgets_lifetime acts sys0 sys' Hf Hrun) as (_ & _ & ?). }
  split; [|split; [|split; [|split; [|split; [|split; [|split; [|split; [|split]]]]]]]].
  - unfold single_shot_instances in Hinv. simpl in Hinv. fold s in Hinv.
    unfold InstanceTracker.restore.
    destruct (InstanceTracker._hasRestored s) eqn:Hr.
    + split; [done|]. destruct sys as [[s0 d] ts]. simpl in *. subst s.
      unfold InstanceTrackerMore.inner, InstanceTracker.restore. simpl.
      by rewrite Hr.
    + repeat split; try done. lia.
  - unfold single_shot_widgets in Hinvw. simpl in Hinvw. fold t in Hinvw.
    rewrite WidgetTrackerMore_exec_restore. unfold WidgetTracker.restore.
    destruct (WidgetTracker._hasRestored t) eqn:Hr.
    + split; [done|]. destruct sysw as [[t0 d] ts]. simpl in *. subst t.
      unfold WidgetTrackerMore.inner, WidgetTracker.restore. simpl.
      by rewrite Hr.
    + repeat split; try done. lia.
  - unfold single_shot_instances in Hinv. simpl in Hinv. fold s in Hinv.
    destruct (InstanceTracker._hasRestored s); lia.
  - unfold single_shot_widgets in Hinvw. simpl in Hinvw. fold t in Hinvw.
    destruct (WidgetTracker._hasRestored t); lia.
  - intros i opts sv rm Hk.
    destruct (InstanceTracker_replay_settles i opts sv rm _ Hinv Hk)
      as (sys' & Hexec & Hh & Hts & Hres).
    exists (InstanceTrackerMore.outer
              (InstanceTrackerMore.isDisposed (InstanceTrackerMore.this sys)) sys').
    split; [|split].
    + cbn [InstanceTrackerMore.exec]. by rewrite Hexec.
    + intros [l Hl]%promise_all_all_resolved. simpl. by rewrite Hres, Hl.
    + intros [e [e' He']%promise_all_one_rejected]. apply Hnever.
      rewrite He' in Hres. by destruct sys'.
  - intros i opts e Hk.
    destruct (InstanceTracker_listing_fails i opts e _ Hinv Hk)
      as (sys' & Hexec & Hf).
    exists (InstanceTrackerMore.outer
              (InstanceTrackerMore.isDisposed (InstanceTrackerMore.this sys)) sys').
    split; [cbn [InstanceTrackerMore.exec]; by rewrite Hexec|].
    apply Hnever. by destruct sys'.
  - intros i opts sv rm Hk.
    destruct (WidgetTracker_replay_settles i opts sv rm _ Hinvw Hk)
      as (sys' & Hexec & Hh & Hts & Hres).
    exists (WidgetTrackerMore.outer
              (WidgetTrackerMore.isDisposed (WidgetTrackerMore.this sysw)) sys').
    split; [|split].
    + rewrite WidgetTrackerMore_exec_resume. by rewrite Hexec.
    + intros [l Hl]%promise_all_all_resolved. simpl. by rewrite Hres, Hl.
    + intros [e [e' He']%promise_all_one_rejected]. apply Hneverw.
      rewrite He' in Hres. by destruct sys'.
  - intros i opts e Hk.
    destruct (WidgetTracker_listing_fails i opts e _ Hinvw Hk)
      as (sys' & Hexec & Hf).
    exists (WidgetTrackerMore.outer
              (WidgetTrackerMore.isDisposed (WidgetTrackerMore.this sysw)) sys').
    split; [rewrite WidgetTrackerMore_exec_resume; by rewrite Hexec|].
    apply Hneverw. by destruct sys'.
  - intros acts sys' Hrun. split.
    + by apply resolutions_prefix, (InstanceTrackerMore_run_appends acts).
    + pose proof (single_shot_instances_lifetime sys'
                    (lifetime_instances_run _ _ _ Hlife Hrun)) as Hinv'.
      unfold single_shot_instances in Hinv'. simpl in Hinv'.
      destruct (InstanceTracker._hasRestored _); lia.
  - intros acts sys' Hrun. split.
    + by apply resolutions_prefix, (WidgetTrackerMore_run_appends acts).
    + pose proof (single_shot_widgets_lifetime sys'
                    (lifetime_widgets_run _ _ _ Hlifew Hrun)) as Hinv'.
      unfold single_shot_widgets in Hinv'. simpl in Hinv'.
      destruct (WidgetTracker._hasRestored _); lia.
Qed.

Lemma restore_is_single_shot_witness :
  (∃ sys',
     InstanceTrackerMore.exec
       (InstanceTrackerMore.Act (InstanceTracker.Resume 0 (Removed demo_rm)))
       demo_replaying_instances
     = Some sys'
     ∧ resolutions
         (InstanceTracker.log
            (InstanceTrackerMore.fields (InstanceTrackerMore.this sys')))
       = 1)
  ∧ InstanceTrackerMore.exec
      (InstanceTrackerMore.Act (InstanceTracker.Call_restore demo_options))
      demo_replaying_instances
    = Some demo_replaying_instances
  ∧ (∃ sys',
       WidgetTrackerMore.exec
         (WidgetTrackerMore.Act
            (WidgetTracker.Resume 0 (Listed (Rejected External))))
         demo_listing_widgets
       = Some sys'
       ∧ never_restored_widgets sys').
Proof.
  assert (lifetime_instances demo_replaying_instances) as Hr.
  { exists "nb", ∅, ∅, ∅,
      [InstanceTrackerMore.Act (InstanceTracker.Call_restore demo_options);
       InstanceTrackerMore.Act
         (InstanceTracker.Resume 0 (Listed (Resolved demo_saved)))].
    vm_compute. reflexivity. }
  assert (lifetime_widgets demo_listing_widgets) as Hrw.
  { exists "nb", ∅, ∅, ∅,
      [WidgetTrackerMore.Act (WidgetTracker.Call_restore demo_options);
       WidgetTrackerMore.Call_dispose].
    vm_compute. reflexivity. }
  destruct (restore_is_single_shot demo_options demo_replaying_instances
              demo_listing_widgets Hr Hrw)
    as (H1 & _ & _ & _ & H2 & _ & _ & H3 & _).
  split; [|split].
  - destruct (H2 0 demo_options demo_saved demo_rm eq_refl)
      as (sys' & Hexec & Hone & _).
    exists sys'. split; [exact Hexec|]. apply Hone.
    vm_compute. repeat constructor; eexists; reflexivity.
  - exact (proj2 H1).
  - exact (H3 0 demo_options External eq_refl).
Defined.

(** Restoration is attempted twice on each tracker and [restored] is not
    resolved: on an [InstanceTracker] whose listing is rejected, and on a
    [WidgetTracker] for which the removal of a record without data is
    rejected.  No call is left suspended that could still resolve it. *)
Lemma restored_is_not_resolved_when_restoration_fails :
  match InstanceTracker.run
          [InstanceTracker.Call_restore demo_options;
           InstanceTracker.Resume 0 (Listed (Rejected External));
           InstanceTracker.Call_restore demo_options]
          (InstanceTracker.start demo_instances) with
  | Some sys =>
      InstanceTracker._hasRestored (InstanceTracker.tracker sys) = true
      ∧ InstanceTracker.tasks sys = []
      ∧ resolutions (InstanceTracker.log (InstanceTracker.tracker sys)) = 0
  | None => False
  end
  ∧ match WidgetTracker.run
            [WidgetTracker.Call_restore demo_options;
             WidgetTracker.Resume 0 (Listed (Resolved demo_saved));
             WidgetTracker.Resume 0 (Removed (λ _, Rejected External));
             WidgetTracker.Call_restore demo_options]
            (WidgetTracker.start demo_widgets) with
    | Some sys =>
        WidgetTracker._hasRestored (WidgetTracker.tracker sys) = true
        ∧ WidgetTracker.tasks sys = []
        ∧ resolutions (WidgetTracker.log (WidgetTracker.tracker sys)) = 0
    | None => False
    end.
Proof. vm_compute. repeat split; reflexivity. Qed.
